(* ===== verification/_CoqProject ===== *)
-Q . S2P
Prelude.v
JsString.v
JsNumber.v
JsNumberFacts.v
JsCollections.v
JsOrder.v
JsValue.v
Json.v
JsonFacts.v
JsonData.v
HttpStatusCodeRules.v
StatusCodeRisk.v
ModelMapping.v
AdvancedCustom.v
AdvancedCustomSpec.v
AdvancedCustomViews.v
Flow.v
FlowFacts.v
FlowGraph.v
FlowConservation.v
FlowMasking.v
FlowHighlight.v
FlowFilters.v
FlowTop.v
FlowShares.v
FlowColors.v
FlowSankey.v
ChannelUtils.v
ChannelUtilsSpec.v
NavModules.v
RatioSync.v
RatioSyncSpec.v
ExprSplit.v
TimeRange.v
TimeRangeSpec.v
RequestRules.v
RequestRulesSpec.v
GroupPricing.v
ModelPricing.v
ModelPricingSpec.v
JsRegExp.v
TierExpr.v
TierExprSpec.v
MediaTiers.v
MediaTiersSpec.v
PlayMessages.v
PlayStorage.v
PlayCodec.v
PlayChat.v
PlaySpec.v
PlayLive.v
PlayText.v
PlayStorageSpec.v
ChannelVideo.v
ChannelVideoSpec.v
ChannelVideoText.v
ChannelForm.v
ChannelFormSpec.v
ChannelFormExtra.v
ChannelFormSave.v
ChannelSubmit.v
ChannelSubmitSpec.v
ChannelUpstream.v
ChannelUpstreamSpec.v
