(* ===== verification/Prelude.v ===== *)
(** * Verification of the zmodel web console logic (web/default/src)

    zmodel is a gateway in front of model providers.  Its console
    (web/default, TypeScript) holds the logic an administrator relies on:
    it parses the rules and mappings that are typed in, validates channel
    configurations, resolves price conflicts between providers, writes and
    reads billing conditions, and turns usage records into the flow chart of
    the dashboard.  This library models that logic as executable functions
    and proves what it promises.  All source paths below are relative to
    src/web/default/src.

    ** Foundations

    - [JsString], [JsNumber], [JsValue], [JsCollections], [JsOrder]: the part
      of JavaScript the sources use.  Strings are lists of UTF-16 code units;
      numbers are IEEE 754 binary64 data (SpecFloat at precision 53) with
      [Number(s)] and [String(x)]; values are an inductive type whose objects
      keep own properties in the order of [Object.entries]; code that may
      throw returns [res]; a [Map] is its list of entries in insertion order,
      a [Set] the list of its elements, and [sort] is a stable insertion by a
      numeric comparator.
    - [JsNumberFacts]: decimal printing and reading are inverse and binary64
      arithmetic is exact on integers below 2^53.
    - [Json], [JsonFacts]: [JSON.parse] and [JSON.stringify], and their round
      trip.  [JsonData]: what a text keeps of a value that holds [undefined],
      and how the properties of an object literal come back.

    ** Components

    - [HttpStatusCodeRules] (lib/http-status-code-rules.ts): parsing, merging
      and printing of status code rules.  The result of the parser is the
      canonical list of ranges with the same members; printing reads back;
      every malformed segment is reported.
    - [StatusCodeRisk] (features/channels/lib/status-code-risk-guard.ts): the
      guard on rewrites of status codes.
    - [ModelMapping] (features/channels/lib/model-mapping-validation.ts):
      model lists and model redirections.
    - [AdvancedCustom], [AdvancedCustomSpec], [AdvancedCustomViews]
      (features/channels/lib/advanced-custom.ts): configurations of advanced
      custom channels as arbitrary JavaScript values.  The validator refines a
      specification on the declared type ([validate_refines]); the text form
      round-trips; templates are valid.
    - [Flow] (features/dashboard/lib/flow.ts): rows of usage to a layered
      graph.  [FlowFacts] and [FlowGraph] give the counting loops their closed
      form, [FlowConservation] the conservation law, [FlowMasking],
      [FlowHighlight], [FlowFilters], [FlowTop], [FlowShares] and [FlowColors]
      the passes over the graph and the composition [buildDashboardFlowData],
      whose cards and chart agree ([cards_and_stages]; the options of the user
      filter are made of all rows, those of the node filters of the rows that
      pass the user filter).
      [FlowSankey] (flow.ts, flow-selection.ts) models the chart data and the
      way back from a click.
    - [ChannelUtils], [ChannelUtilsSpec] (features/channels/lib/
      channel-utils.ts): key texts, group lists, badges, tag rows.
    - [NavModules] (lib/nav-modules.ts): which console modules are shown, from
      the server status and its copy in the local storage (the state of the
      model).
    - [RatioSync], [RatioSyncSpec] (features/system-settings/models/
      upstream-ratio-sync-helpers.ts): the resolutions map of price conflicts
      as explicit state.  [reachable_coherent] is an invariant of every
      sequence of picks and withdrawals.
    - [ExprSplit]: the loops by which time-range.ts and billing-expr.ts take
      expressions apart (parentheses, top-level operators).
    - [TimeRange], [TimeRangeSpec] (features/pricing/lib/time-range.ts): the
      time windows of billing conditions, written and read.
    - [RequestRules], [RequestRulesSpec] (features/pricing/lib/
      billing-expr.ts): the request rules that multiply a price.  Rules read
      back in canonical form and separate from the price they multiply;
      [comparison_unreadable] states the modes of which this fails.

    - [JsRegExp]: the backtracking matcher of regular expressions, its
      language, and refutation by derivatives.
    - [TierExpr], [TierExprSpec] (features/pricing/lib/tier-expr.ts): the
      tiers of the billing editor.  [tiers_round_trip] covers token
      conditions, time windows and the optional costs; [accepted_expression]
      says what the reader lets through, [sum_expression_lost] what it
      should not.
    - [MediaTiers], [MediaTiersSpec] (features/pricing/lib/media-tier-expr.ts,
      billing-expr.ts): the prices of images and videos, and the tier parser
      that the price pages use for every expression.  [media_round_trip]
      covers the four forms of a price and every kind of condition;
      [media_alternative_lost] and [media_backslash_doubles] say where the
      reader does not invert the writer.
    - [GroupPricing] (features/system-settings/models/
      group-ratio-pricing-state.ts): the rows of the group editor and the four
      maps they stand for.
    - [ModelPricing], [ModelPricingSpec] (features/system-settings/models/
      model-pricing-snapshots.ts, model-ratio-visual-editor.tsx): the ten
      settings that price a model, as a state with saves, copies and
      deletions; snapshots and signatures.  Uses [RequestRules] to take
      expressions apart and put them together.

    - [ChannelVideo], [ChannelForm] (features/channels/lib/channel-form.ts,
      video-model-capability.ts): the form of a channel.  [ChannelVideo] has
      the capabilities of video models: the reader, the writer, the schema and
      the checks of the editor; [ChannelVideoSpec] shows that what is loaded
      passes the schema and that the checks are their specification,
      [ChannelVideoText] that the capabilities survive their text.
      [ChannelForm] has the schema, the values that a stored channel gives and
      the texts and payloads that go back.  [settings_spec] ([ChannelFormSpec])
      is the table of what a save makes of each entry of the settings,
      [settings_reload] and [settings_save_stable] ([ChannelFormSave]) what the
      form shows when the channel is opened again and that saving then changes
      nothing, [setting_reload] ([ChannelFormExtra]) the same for the extra
      settings.
    - [ChannelSubmit], [ChannelSubmitSpec] (features/channels/hooks/
      use-channel-mutate-form.ts, components/drawers/
      channel-mutate-drawer.tsx): the guards of a submission, which call
      [StatusCodeRisk] and [ModelMapping], and the request it makes of a form.
    - [ChannelUpstream], [ChannelUpstreamSpec] (features/channels/lib/
      upstream-update-utils.ts, hooks/use-channel-upstream-updates.ts,
      components/dialogs/upstream-update-dialog.tsx): the models the upstream
      check found, read from the settings that [ChannelForm] writes
      ([saved_meta]), and the dialog that applies them as a state machine:
      [applied_request] is about every run, the lemmas after it give runs in
      which the dialog shows or sends what it should not.

    - [PlayMessages] (features/playground/lib/message, lib/streaming),
      [PlayStorage], [PlayCodec] (lib/storage) and [PlayChat] (hooks): the
      playground.  [PlayStorage] trims and restores a conversation against an
      interface, [MessageCodec], of which [PlayCodec] is the implementation:
      the schema, the envelope and the JSON text ([schema_codec]).
      [PlayChat] is a state machine whose events are clicks, timers and
      messages of the network, with the conversation, the requests, the
      buffer of streamed text and the storage as its state.  [PlaySpec] has
      its invariant; [PlayLive] the theorems on runs, with [generation_ends]
      on infinite runs in which the network delivers the end of every stream
      and the outcome of every request (a condition on events, [fair_run]);
      [PlayText] the text of an answer however it is cut into pieces, and runs
      that show something else; [PlayStorageSpec] what is loaded and what comes
      back ([saved_conversation]).

    The components meet where the code makes them meet: the validator of a
    channel calls [Json] and the model lists; the flow is one pipeline from
    rows to chart data; time windows are clauses of the conditions in
    billing expressions; the form of a channel holds advanced configurations
    and is submitted through the guards on mappings, and the dialog of
    upstream updates reads what the form has written.

    ** Bounds and fuel

    [JSON.parse] recurses with fuel [2 * length + 2]: every level of nesting
    costs two calls and consumes a unit.  [dec_digits] has one unit of fuel per
    binary digit, more than the decimal digits need.  [unwrap] (outer
    parentheses) has the length of the text, which [unwrap_terminates] shows to
    be enough.
    The digit search of [String(x)] tries up to 17 digits, which separate any
    two doubles.  All other recursions are structural.

    ** Parameters and assumptions

    Code outside the repository is a parameter: [localeCompare] (class
    [LocaleCompare]: its sign is a total preorder), [toLowerCase] (class
    [LowerCase]: a projection that leaves white space alone), the [URL] constructor, the
    number format of [Intl], the colour schemes of the chart package, the
    outcome of a status request, the translations, fresh identifiers and the
    time.  The combinators of the schema library are modelled as documented, for
    the schemas of the sources only.  A closed event source delivers no data.
    The times of a stored message are whole numbers.  Names used as object keys
    are assumed not to be members of [Object.prototype], except where a file
    says otherwise.

    ** Not modelled

    The evaluation of billing expressions by the Function constructor; the
    price lanes of the model price form (model-pricing-core.ts), whose prices
    are floating-point products rounded through [toFixed], which the number
    model does not have; filling a video capability from a template of the
    server; React components but for the handlers and hooks named above,
    routes, translations and styling (presentation); the transport of requests
    and streams, cookies (I/O); currency and date formats (delegated to [Intl]
    and to the date library); chart specifications beyond the data of the
    flow; the superseded front end web/classic; the Go server. *)

From stdpp Require Export base tactics decidable list list_numbers numbers countable sets.
From Stdlib Require Export Lia.

#[global] Set Default Goal Selector "!".

Declare Scope js_scope.
Delimit Scope js_scope with js.

(** The database of rewriting and resolution lemmas the components share. *)
Create HintDb jsdb.
Create Rewrite HintDb jsdb.

(** ** Tactics *)

(** Case analysis on every [match]/[if] scrutinee of the goal, closing the
    trivial branches. *)
Ltac split_matches :=
  repeat (case_match; simplify_eq/=; try done).

(** Decide a closed boolean or an equation between closed terms. *)
Ltac crush_closed := vm_compute; first [reflexivity | congruence | discriminate].

(** Turn boolean connectives in the hypotheses into propositional ones. *)
Ltac unbool :=
  repeat match goal with
  | H : _ && _ = true |- _ => apply andb_true_iff in H as [? ?]
  | H : _ || _ = false |- _ => apply orb_false_iff in H as [? ?]
  | H : negb _ = true |- _ => apply negb_true_iff in H
  | H : negb _ = false |- _ => apply negb_false_iff in H
  | H : bool_decide _ = true |- _ => apply bool_decide_eq_true in H
  | H : bool_decide _ = false |- _ => apply bool_decide_eq_false in H
  end.

(** ** Duplicate removal keeping first occurrences

    [uniq l] is the iteration order of [new Set(l)]. *)
Section uniq.
Context {A : Type} `{!EqDecision A}.

(** Elements of [l] not in [seen], each once, in order of appearance. *)
Fixpoint uniq_from (seen l : list A) : list A :=
  match l with
  | [] => []
  | x :: l' =>
      if decide (x ∈ seen) then uniq_from seen l'
      else x :: uniq_from (x :: seen) l'
  end.

Definition uniq (l : list A) : list A := uniq_from [] l.

Lemma elem_of_uniq_from seen l x :
  x ∈ uniq_from seen l ↔ x ∈ l ∧ x ∉ seen.
Proof.
  revert seen; induction l as [|y l IH]; intros seen; simpl.
  - set_solver.
  - case_decide; [rewrite IH; set_solver|].
    rewrite elem_of_cons, IH, elem_of_cons. destruct (decide (x = y)); set_solver.
Qed.

Lemma elem_of_uniq l x : x ∈ uniq l ↔ x ∈ l.
Proof. unfold uniq. rewrite elem_of_uniq_from. set_solver. Qed.

Lemma uniq_elem_of l x : x ∈ uniq l → x ∈ l.
Proof. by rewrite elem_of_uniq. Qed.

Lemma NoDup_uniq_from seen l : NoDup (uniq_from seen l).
Proof.
  revert seen; induction l as [|y l IH]; intros seen; simpl; [constructor|].
  case_decide; [done|]. constructor; [|done].
  rewrite elem_of_uniq_from. set_solver.
Qed.

Lemma NoDup_uniq l : NoDup (uniq l).
Proof. apply NoDup_uniq_from. Qed.

Lemma uniq_from_ext seen seen' l :
  (∀ x, x ∈ seen ↔ x ∈ seen') → uniq_from seen l = uniq_from seen' l.
Proof.
  revert seen seen'; induction l as [|y l IH]; intros seen seen' H; simpl; [done|].
  destruct (decide (y ∈ seen)) as [Hy|Hy].
  - rewrite decide_True by (by apply H). by apply IH.
  - rewrite decide_False by (by rewrite <-H). f_equal. apply IH.
    intros x. by rewrite !elem_of_cons, H.
Qed.

Lemma uniq_from_id seen l :
  NoDup l → (∀ x, x ∈ l → x ∉ seen) → uniq_from seen l = l.
Proof.
  intros Hl; revert seen; induction Hl as [|y l Hy Hl IH]; intros seen Hs; simpl; [done|].
  rewrite decide_False by set_solver. f_equal. apply IH. set_solver.
Qed.

Lemma uniq_id l : NoDup l → uniq l = l.
Proof. intros. apply uniq_from_id; set_solver. Qed.

Lemma uniq_idemp l : uniq (uniq l) = uniq l.
Proof. apply uniq_id, NoDup_uniq. Qed.

(** Elements already seen may be filtered out beforehand. *)
Lemma uniq_from_filter s1 s2 l :
  uniq_from (s1 ++ s2) l
  = uniq_from s1 (List.filter (λ x, negb (bool_decide (x ∈ s2))) l).
Proof.
  revert s1; induction l as [|x l IH]; intros s1; simpl; [done|].
  case_bool_decide as Hx; simpl.
  - rewrite decide_True by (apply elem_of_app; by right). apply IH.
  - destruct (decide (x ∈ s1)).
    + rewrite decide_True by (apply elem_of_app; by left). apply IH.
    + rewrite decide_False by (rewrite elem_of_app; tauto). f_equal. apply (IH (x :: s1)).
Qed.

Lemma uniq_from_app seen l l' :
  NoDup l → (∀ x, x ∈ l → x ∉ seen) →
  uniq_from seen (l ++ l') = l ++ uniq_from (l ++ seen) l'.
Proof.
  intros Hl; revert seen; induction Hl as [|y l Hy Hl IH]; intros seen Hs; simpl; [done|].
  rewrite decide_False by (apply Hs; constructor). f_equal. rewrite IH.
  - f_equal. apply uniq_from_ext. intros x. rewrite !elem_of_app, !elem_of_cons, elem_of_app. tauto.
  - intros x Hx [->|Hx']%elem_of_cons; [done|]. apply (Hs x); [by constructor | done].
Qed.

(** [new Set([...a, ...b])] for a duplicate-free [a]. *)
Lemma uniq_app l l' :
  NoDup l → uniq (l ++ l') = l ++ uniq (List.filter (λ x, negb (bool_decide (x ∈ l))) l').
Proof.
  intros Hl. unfold uniq. rewrite uniq_from_app by (first [done | set_solver]).
  f_equal. rewrite app_nil_r. apply (uniq_from_filter [] l).
Qed.

Lemma uniq_from_filter_length seen l : length (uniq_from seen l) ≤ length l.
Proof.
  revert seen; induction l as [|y l IH]; intros seen; simpl; [lia|].
  case_decide; simpl; [specialize (IH seen) | specialize (IH (y :: seen))]; lia.
Qed.

Lemma uniq_nil_inv l : uniq l = [] → l = [].
Proof.
  intros H. destruct l as [|x l]; [done|].
  assert (x ∈ uniq (x :: l)) as Hx by (rewrite elem_of_uniq; set_solver).
  rewrite H in Hx. set_solver.
Qed.
End uniq.

#[export] Hint Resolve NoDup_uniq : jsdb.
#[export] Hint Rewrite @uniq_idemp : jsdb.

(** ** Generic list facts *)
Section lists.
Context {A : Type}.
Implicit Types (l : list A).

(** The longest suffix whose first element fails [p]. *)
Fixpoint drop_while (p : A → bool) (l : list A) : list A :=
  match l with
  | [] => []
  | x :: l' => if p x then drop_while p l' else l
  end.

Lemma drop_while_nil p l : drop_while p l = [] → ∀ x, x ∈ l → p x = true.
Proof.
  induction l as [|y l IH]; simpl; [set_solver|]. destruct (p y) eqn:E; [|done].
  intros H x [->|?]%elem_of_cons; auto.
Qed.

Lemma drop_while_suffix p l : drop_while p l `suffix_of` l.
Proof.
  induction l as [|x l IH]; simpl; [done|].
  destruct (p x); [by apply suffix_cons_r | done].
Qed.

Lemma drop_while_head p l x l' : drop_while p l = x :: l' → p x = false.
Proof.
  induction l as [|y l IH]; simpl; [done|].
  destruct (p y) eqn:E; [done|]. by intros [= <- _].
Qed.

Lemma drop_while_id p l : (∀ x, head l = Some x → p x = false) → drop_while p l = l.
Proof. destruct l as [|x l]; simpl; [done|]. intros H. by rewrite (H x). Qed.

Lemma drop_while_idemp p l : drop_while p (drop_while p l) = drop_while p l.
Proof.
  apply drop_while_id. intros x Hx.
  destruct (drop_while p l) eqn:E; simplify_eq/=. by eapply drop_while_head.
Qed.

Lemma drop_while_all p l : forallb p l = true → drop_while p l = [].
Proof. induction l; simpl; [done|]. intros ?; unbool. case_match; auto; congruence. Qed.

Lemma forallb_forall_elem (p : A → bool) l :
  forallb p l = true ↔ ∀ x, x ∈ l → p x = true.
Proof. rewrite forallb_forall. setoid_rewrite list_elem_of_In. done. Qed.

Lemma find_none_elem (p : A → bool) l : (∀ x, x ∈ l → p x = false) → List.find p l = None.
Proof.
  induction l as [|x l IH]; intros H; simpl; [done|].
  rewrite (H x) by constructor. apply IH. intros y Hy. apply H. by constructor.
Qed.

Lemma existsb_exists_elem (p : A → bool) l :
  existsb p l = true ↔ ∃ x, x ∈ l ∧ p x = true.
Proof. rewrite existsb_exists. setoid_rewrite list_elem_of_In. done. Qed.

Lemma elem_of_filterb (p : A → bool) l x :
  x ∈ List.filter p l ↔ x ∈ l ∧ p x = true.
Proof. rewrite !list_elem_of_In. apply filter_In. Qed.

Lemma filterb_sublist (p : A → bool) l : List.filter p l `sublist_of` l.
Proof. induction l; simpl; [done|]. case_match; by constructor. Qed.

Lemma filterb_all (p : A → bool) l : (∀ x, x ∈ l → p x = true) → List.filter p l = l.
Proof.
  induction l as [|x l IH]; intros H; simpl; [done|]. rewrite (H x) by constructor.
  f_equal. apply IH. intros y Hy. apply H. by constructor.
Qed.

Lemma NoDup_filterb (p : A → bool) l : NoDup l → NoDup (List.filter p l).
Proof. intros H. eapply sublist_NoDup; [exact H | apply filterb_sublist]. Qed.

Lemma NoDup_map_inj {B} (f : A → B) l x y :
  NoDup (map f l) → x ∈ l → y ∈ l → f x = f y → x = y.
Proof.
  induction l as [|z l IH]; simpl; [set_solver|]. intros [Hz Hl]%NoDup_cons Hx Hy Hf.
  apply elem_of_cons in Hx as [-> | Hx], Hy as [-> | Hy]; [done | | | by apply IH].
  - destruct Hz. rewrite Hf. by apply (list_elem_of_fmap_2 f).
  - destruct Hz. rewrite <-Hf. by apply (list_elem_of_fmap_2 f).
Qed.
End lists.

Lemma fold_left_commute {A A' B B'} (f : A → B → A) (f' : A' → B' → A') (h : A → A') (k : B → B') l a :
  (∀ a b, f' (h a) (k b) = h (f a b)) → fold_left f' (map k l) (h a) = h (fold_left f l a).
Proof. intros H. revert a; induction l as [|b l IH]; intros a; simpl; [done|]. by rewrite H, IH. Qed.

Lemma imap_pair_map {A B} (f : A → B) (l : list A) :
  imap pair (map f l) = map (λ p, (fst p, f (snd p))) (imap pair l).
Proof.
  change (map f l) with (f <$> l). rewrite imap_fmap.
  change (map ?g (imap pair l)) with (g <$> imap pair l). rewrite fmap_imap. done.
Qed.

Lemma fold_left_ext {A B} (f g : A → B → A) l a :
  (∀ a b, f a b = g a b) → fold_left f l a = fold_left g l a.
Proof. intros H. revert a; induction l as [|b l IH]; intros a; simpl; [done|]. by rewrite H, IH. Qed.

Lemma existsb_map {X Y} (f : X → Y) q l : existsb q (map f l) = existsb (λ x, q (f x)) l.
Proof. induction l; simpl; [done | by f_equal]. Qed.

Lemma imap_shift {A} (l : list A) :
  imap (λ i, pair (S i)) l = map (λ ik, (S (fst ik), snd ik)) (imap pair l).
Proof. change (map ?g (imap pair l)) with (g <$> imap pair l). by rewrite fmap_imap. Qed.

Lemma fold_left_map {A B C} (f : A → B → A) (g : C → B) l a :
  fold_left f (map g l) a = fold_left (λ a x, f a (g x)) l a.
Proof. revert a; induction l as [|x l IH]; intros a; simpl; [done | apply IH]. Qed.
