(* ===== verification/JsString.v ===== *)
(** * JavaScript strings

    A JavaScript string is a finite sequence of 16-bit code units; it is
    modelled as the list of them, each an [N].  The functions are those of
    [String.prototype] the program calls. *)

From Stdlib Require Ascii String.
Export String.StringSyntax Ascii.AsciiSyntax.
Delimit Scope string_scope with string.
Delimit Scope char_scope with char.
From S2P Require Import Prelude.

Abbreviation jsstr := (list N).

(** ** Literals

    [js] reads a literal, whose characters are the UTF-8 bytes of the file,
    as the code units the JavaScript source denotes; [jq] does the same with
    a backquote standing for the double quote. *)

Definition utf16_of_code_point (cp : N) : list N :=
  if (cp <? 0x10000)%N then [cp]
  else let d := (cp - 0x10000)%N in
       [(0xD800 + d / 0x400)%N; (0xDC00 + d mod 0x400)%N].

Fixpoint utf16_of_utf8 (l : list N) : list N :=
  match l with
  | [] => []
  | b0 :: t =>
      if (b0 <? 0x80)%N then b0 :: utf16_of_utf8 t else
      match t with
      | [] => []
      | b1 :: t1 =>
          if (b0 <? 0xE0)%N then
            utf16_of_code_point ((b0 - 0xC0) * 0x40 + (b1 - 0x80))%N ++ utf16_of_utf8 t1
          else
          match t1 with
          | [] => []
          | b2 :: t2 =>
              if (b0 <? 0xF0)%N then
                utf16_of_code_point
                  ((b0 - 0xE0) * 0x1000 + (b1 - 0x80) * 0x40 + (b2 - 0x80))%N
                ++ utf16_of_utf8 t2
              else
              match t2 with
              | [] => []
              | b3 :: t3 =>
                  utf16_of_code_point
                    ((b0 - 0xF0) * 0x40000 + (b1 - 0x80) * 0x1000
                     + (b2 - 0x80) * 0x40 + (b3 - 0x80))%N
                  ++ utf16_of_utf8 t3
              end
          end
      end
  end.

Definition js (s : String.string) : jsstr :=
  utf16_of_utf8 (map Ascii.N_of_ascii (String.list_ascii_of_string s)).

Definition jq (s : String.string) : jsstr :=
  map (λ c, if (c =? 96)%N then 34%N else c) (js s).

Arguments js _%_string.
Arguments jq _%_string.

Definition ascii_char (a : Ascii.ascii) : N := Ascii.N_of_ascii a.
Arguments ascii_char _%_char.

(** ** Character classes *)

(** WhiteSpace and LineTerminator of ECMAScript: what [trim] removes and [\s]
    matches. *)
Definition is_ws (c : N) : bool :=
  ((9 <=? c) && (c <=? 13) || (c =? 32) || (c =? 0xA0) || (c =? 0x1680)
   || (0x2000 <=? c) && (c <=? 0x200A) || (c =? 0x2028) || (c =? 0x2029)
   || (c =? 0x202F) || (c =? 0x205F) || (c =? 0x3000) || (c =? 0xFEFF))%N.

Definition is_digit (c : N) : bool := ((48 <=? c) && (c <=? 57))%N.

(** ** Operations *)

Definition trim_start (s : jsstr) : jsstr := drop_while is_ws s.
Definition trim_end (s : jsstr) : jsstr := reverse (drop_while is_ws (reverse s)).
Definition trim (s : jsstr) : jsstr := trim_end (trim_start s).

(** A string is falsy exactly when it is empty. *)
Definition truthy_str (s : jsstr) : bool := negb (bool_decide (s = [])).

(** [a || b] on strings. *)
Definition str_or (a b : jsstr) : jsstr := if truthy_str a then a else b.

Definition starts_with (s p : jsstr) : bool := bool_decide (p `prefix_of` s).
Definition ends_with (s p : jsstr) : bool := bool_decide (p `suffix_of` s).

Fixpoint includes (s p : jsstr) : bool :=
  starts_with s p || match s with [] => false | _ :: s' => includes s' p end.

(** [s.split(c)] for a one-unit separator. *)
Fixpoint split_on (c : N) (s : jsstr) : list jsstr :=
  match s with
  | [] => [[]]
  | x :: s' =>
      if (x =? c)%N then [] :: split_on c s'
      else match split_on c s' with
           | [] => [[x]]
           | w :: ws => (x :: w) :: ws
           end
  end.

(** [l.join(sep)]. *)
Fixpoint join (sep : jsstr) (l : list jsstr) : jsstr :=
  match l with
  | [] => []
  | [w] => w
  | w :: l' => w ++ sep ++ join sep l'
  end.

(** [s.replaceAll(a, b)] for one-unit [a] and [b]. *)
Definition replace_char (a b : N) (s : jsstr) : jsstr :=
  map (λ c, if (c =? a)%N then b else c) s.

(** [s.replace(/\s/g, '')]. *)
Definition strip_ws (s : jsstr) : jsstr := List.filter (λ c, negb (is_ws c)) s.

(** Comparison of strings by code units, the default order of [sort]. *)
Fixpoint str_ltb (a b : jsstr) : bool :=
  match a, b with
  | [], [] => false
  | [], _ :: _ => true
  | _ :: _, [] => false
  | x :: a', y :: b' => if (x <? y)%N then true else if (y <? x)%N then false else str_ltb a' b'
  end.

(** [s.toLowerCase()] on the units of ASCII. *)
Definition lower_ascii (s : jsstr) : jsstr :=
  map (λ c, if (65 <=? c)%N && (c <=? 90)%N then (c + 32)%N else c) s.

Definition comma : N := 44.
Definition quote : jsstr := [34%N].

(** ** Trimming *)

(** Neither end of the string is white space. *)
Definition trimmed (s : jsstr) : Prop :=
  (∀ c, head s = Some c → is_ws c = false) ∧ (∀ c, last s = Some c → is_ws c = false).

#[export] Instance trimmed_dec s : Decision (trimmed s).
Proof.
  assert (∀ o : option N, Decision (∀ c, o = Some c → is_ws c = false)) as D.
  { intros [c|]; [|by left]. destruct (is_ws c) eqn:E.
    - right. intros H. specialize (H c eq_refl). congruence.
    - left. intros d [= <-]. done. }
  apply and_dec; apply D.
Defined.

Lemma trim_end_prefix s : trim_end s `prefix_of` s.
Proof.
  unfold trim_end. destruct (drop_while_suffix is_ws (reverse s)) as [k Hk].
  exists (reverse k). by rewrite <-reverse_app, <-Hk, reverse_involutive.
Qed.

Lemma last_trim_end s c : last (trim_end s) = Some c → is_ws c = false.
Proof.
  unfold trim_end. rewrite last_reverse. intros H.
  destruct (drop_while is_ws (reverse s)) eqn:E; simplify_eq/=. by eapply drop_while_head.
Qed.

Lemma trim_trimmed s : trimmed (trim s).
Proof.
  split; [|apply last_trim_end]. intros c Hc. unfold trim, trim_start in Hc.
  destruct (trim_end_prefix (drop_while is_ws s)) as [k Hk].
  destruct (trim_end (drop_while is_ws s)) as [|d t] eqn:E; simplify_eq/=.
  by eapply drop_while_head.
Qed.

Lemma trim_id s : trimmed s → trim s = s.
Proof.
  intros [Hh Hl]. unfold trim, trim_start. rewrite drop_while_id by done.
  unfold trim_end. rewrite drop_while_id; [by rewrite reverse_involutive|].
  intros x Hx. apply Hl. by rewrite <-head_reverse.
Qed.

Lemma trim_idemp s : trim (trim s) = trim s.
Proof. apply trim_id, trim_trimmed. Qed.

Lemma trim_cons_ne c s : is_ws c = false → trim (c :: s) ≠ [].
Proof.
  intros Hc. unfold trim, trim_start, trim_end. simpl. rewrite Hc. intros H.
  apply (f_equal reverse) in H. rewrite reverse_involutive in H.
  rewrite (drop_while_nil _ _ H c) in Hc; [done|]. rewrite elem_of_reverse. set_solver.
Qed.

Lemma trim_no_ws s : forallb (λ c, negb (is_ws c)) s = true → trim s = s.
Proof.
  intros H. rewrite forallb_forall_elem in H.
  apply trim_id; split; intros c Hc; apply negb_true_iff, H.
  - destruct s; simplify_eq/=. set_solver.
  - apply last_Some in Hc as [l' ->]. set_solver.
Qed.

Lemma elem_of_trim c s : c ∈ trim s → c ∈ s.
Proof.
  intros Hc. unfold trim, trim_start in Hc.
  destruct (trim_end_prefix (drop_while is_ws s)) as [k Hk].
  destruct (drop_while_suffix is_ws s) as [k' Hk']. rewrite Hk', Hk. set_solver.
Qed.

Lemma elem_of_strip_ws c s : c ∈ strip_ws s ↔ c ∈ s ∧ is_ws c = false.
Proof. unfold strip_ws. by rewrite elem_of_filterb, negb_true_iff. Qed.

Lemma strip_ws_id s : forallb (λ c, negb (is_ws c)) s = true → strip_ws s = s.
Proof.
  unfold strip_ws. induction s as [|c s IH]; simpl; [done|]. intros ?; unbool.
  rewrite H. simpl. f_equal. by apply IH.
Qed.

Lemma truthy_str_true s : truthy_str s = true ↔ s ≠ [].
Proof. unfold truthy_str. by rewrite negb_true_iff, bool_decide_eq_false. Qed.

Lemma truthy_str_false s : truthy_str s = false ↔ s = [].
Proof. unfold truthy_str. by rewrite negb_false_iff, bool_decide_eq_true. Qed.

(** ** Splitting and joining *)

Lemma split_on_nonempty c s : split_on c s ≠ [].
Proof.
  destruct s as [|x s]; simpl; [done|].
  destruct (x =? c)%N; [done|]. by destruct (split_on c s).
Qed.

Lemma split_on_app_sep c w s :
  c ∉ w → split_on c (w ++ c :: s) = w :: split_on c s.
Proof.
  induction w as [|x w IH]; simpl; intros Hc.
  - by rewrite N.eqb_refl.
  - rewrite IH by set_solver.
    destruct (N.eqb_spec x c); [set_solver | done].
Qed.

Lemma split_on_no_sep c w : c ∉ w → split_on c w = [w].
Proof.
  induction w as [|x w IH]; simpl; intros Hc; [done|].
  rewrite IH by set_solver. destruct (N.eqb_spec x c); [set_solver | done].
Qed.

Lemma split_on_join c l :
  l ≠ [] → Forall (λ w, c ∉ w) l → split_on c (join [c] l) = l.
Proof.
  intros Hl H. induction H as [|w l Hw H IH]; [done|].
  destruct l as [|w' l]; simpl; [by apply split_on_no_sep|].
  rewrite split_on_app_sep by done. f_equal. by apply IH.
Qed.

Lemma split_on_pieces c s : Forall (λ w, c ∉ w) (split_on c s).
Proof.
  induction s as [|x s IH]; simpl; [repeat constructor; set_solver|].
  destruct (N.eqb_spec x c); [constructor; [set_solver | done]|].
  destruct (split_on c s) as [|w ws]; [repeat constructor; set_solver|].
  inversion IH; subst. constructor; [set_solver | done].
Qed.

Lemma join_split_on c s : join [c] (split_on c s) = s.
Proof.
  induction s as [|x s IH]; simpl; [done|].
  pose proof (split_on_nonempty c s).
  destruct (N.eqb_spec x c) as [->|]; destruct (split_on c s) as [|w ws] eqn:E; try done;
    simpl; [by rewrite <-IH|].
  rewrite <-IH. by destruct ws.
Qed.

Lemma elem_of_split_on c s w x : w ∈ split_on c s → x ∈ w → x ∈ s.
Proof.
  revert w; induction s as [|y s IH]; simpl; intros w.
  - intros ->%list_elem_of_singleton. done.
  - destruct (N.eqb_spec y c).
    + intros [->|H]%elem_of_cons Hx; [by apply elem_of_nil in Hx|].
      apply elem_of_cons; right; eauto.
    + pose proof (split_on_nonempty c s).
      destruct (split_on c s) as [|w' ws]; [done|].
      intros [->|Hw]%elem_of_cons Hx.
      * apply elem_of_cons in Hx as [->|Hx]; apply elem_of_cons; [by left | right].
        apply (IH w'); [constructor | done].
      * apply elem_of_cons; right. apply (IH w); [by apply elem_of_cons; right | done].
Qed.

Lemma elem_of_join x sep l : x ∈ join sep l → x ∈ sep ∨ ∃ w, w ∈ l ∧ x ∈ w.
Proof.
  induction l as [|w l IH]; simpl; [by intros ?%elem_of_nil|].
  destruct l as [|w' l]; [right; exists w; by split; [constructor|]|].
  rewrite !elem_of_app. intros [Hw|[Hs|Hj]]; [|by left|].
  - right. exists w. by split; [constructor|].
  - destruct (IH Hj) as [|(v & Hv & Hx)]; [by left|].
    right. exists v. split; [by apply elem_of_cons; right | done].
Qed.

Lemma join_nil_inv sep l : Forall (λ w, w ≠ []) l → join sep l = [] → l = [].
Proof.
  destruct l as [|w l]; [done|]. intros H. inversion H; subst.
  destruct l; simpl; [done|]. by intros [? _]%app_nil.
Qed.

(** ** Search *)

Lemma starts_with_spec s p : starts_with s p = true ↔ p `prefix_of` s.
Proof. apply bool_decide_eq_true. Qed.

Lemma includes_spec s p : includes s p = true ↔ ∃ a b, s = a ++ p ++ b.
Proof.
  induction s as [|x s IH]; simpl; rewrite orb_true_iff, starts_with_spec.
  - split; [intros [[b Hb]|]; [by exists [], b | done]|].
    intros (a & b & H). left. destruct a; [by exists b | done].
  - rewrite IH. split.
    + intros [[b Hb]|(a & b & ->)]; [by exists [], b | by exists (x :: a), b].
    + intros ([|y a] & b & H); simplify_eq/=; [left; by exists b | right; eauto].
Qed.

Lemma includes_char s c : includes s [c] = true ↔ c ∈ s.
Proof.
  rewrite includes_spec. split; [intros (a & b & ->); set_solver|].
  intros H. apply list_elem_of_split in H as (a & b & ->). by exists a, b.
Qed.

(** ** The code-unit order *)

Lemma str_ltb_irrefl a : str_ltb a a = false.
Proof. induction a as [|x a IH]; simpl; [done|]. by rewrite N.ltb_irrefl. Qed.

Lemma str_ltb_trans a b c : str_ltb a b = true → str_ltb b c = true → str_ltb a c = true.
Proof.
  revert b c; induction a as [|x a IH]; intros [|y b] [|z c]; simpl; try done.
  destruct (N.ltb_spec x y), (N.ltb_spec y x), (N.ltb_spec y z), (N.ltb_spec z y),
    (N.ltb_spec x z), (N.ltb_spec z x); try done; try lia; eauto.
Qed.

Lemma str_ltb_total a b : str_ltb a b = false → str_ltb b a = false → a = b.
Proof.
  revert b; induction a as [|x a IH]; intros [|y b]; simpl; try done.
  destruct (N.ltb_spec x y), (N.ltb_spec y x); try done; try lia.
  intros. f_equal; [lia | eauto].
Qed.

#[export] Hint Resolve trim_trimmed str_ltb_irrefl : jsdb.
#[export] Hint Rewrite trim_idemp : jsdb.

Lemma trim_nil_all_ws s c : trim s = [] → c ∈ s → is_ws c = true.
Proof.
  intros H Hc. destruct (drop_while is_ws s) as [|d t] eqn:E.
  - by apply (drop_while_nil _ _ E).
  - exfalso. apply (trim_cons_ne d t).
    + by eapply drop_while_head.
    + rewrite <-E. unfold trim, trim_start. rewrite drop_while_idemp. exact H.
Qed.

(** ** Lower case

    [s.toLowerCase()] follows the case tables of Unicode; what the code relies
    on is that it is a projection and leaves white space alone. *)
Class LowerCase := {
  toLowerCase : jsstr → jsstr;
  lower_idem : ∀ s, toLowerCase (toLowerCase s) = toLowerCase s;
  lower_trimmed : ∀ s, trimmed s → trimmed (toLowerCase s);
  lower_nil : ∀ s, toLowerCase s = [] ↔ s = []
}.

Lemma lower_ascii_unit (c : N) :
  let d := (if (65 <=? c)%N && (c <=? 90)%N then (c + 32)%N else c) in
  is_ws d = is_ws c ∧ (65 <=? d)%N && (d <=? 90)%N = false.
Proof.
  destruct ((65 <=? c)%N && (c <=? 90)%N) eqn:E; simpl; [|by rewrite E].
  apply andb_true_iff in E as [H1%N.leb_le H2%N.leb_le]. split.
  - unfold is_ws. repeat match goal with
    | |- context [(?a =? ?b)%N] => rewrite (proj2 (N.eqb_neq a b)) by lia
    | |- context [(?a <=? ?b)%N] => first [rewrite (proj2 (N.leb_gt a b)) by lia | rewrite (proj2 (N.leb_le a b)) by lia]
    end. done.
  - apply andb_false_iff. right. apply N.leb_gt. lia.
Qed.

(** The part of the mapping that concerns ASCII has these properties. *)
#[local, program] Instance ascii_case : LowerCase := {| toLowerCase := lower_ascii |}.
Next Obligation.
  intros s. unfold lower_ascii. rewrite map_map. apply map_ext. intros c.
  by rewrite (proj2 (lower_ascii_unit c)).
Qed.
Next Obligation.
  intros s [Hh Hl]. unfold lower_ascii, trimmed. change (map ?f s) with (f <$> s).
  rewrite fmap_last. split.
  - intros c Hc. destruct s as [|d s]; [done|]. injection Hc as <-.
    rewrite (proj1 (lower_ascii_unit d)). by apply Hh.
  - intros c Hc. destruct (last s) as [d|]; [|done]. injection Hc as <-.
    rewrite (proj1 (lower_ascii_unit d)). by apply Hl.
Qed.
Next Obligation. by intros [|c s]. Qed.
