(* ===== verification/JsNumber.v ===== *)
(** * JavaScript numbers

    A JavaScript number is an IEEE 754 binary64 datum.  It is modelled with
    the executable reference semantics of the Standard Library's [SpecFloat]
    at precision 53 and exponent bound 1024: every operation below is the
    correctly rounded one.  The second half proves that on safe integers
    (absolute value below [2^53]) the arithmetic is that of [Z]. *)

From Stdlib Require Import ZArith.
From Stdlib Require Export SpecFloat.
From S2P Require Import Prelude JsString.

Abbreviation num := spec_float.

#[export] Instance num_eq_dec : EqDecision num.
Proof. solve_decision. Defined.

Local Open Scope Z_scope.

(** ** Operations *)

Definition num_zero : num := S754_zero false.
Definition num_nan : num := S754_nan.

(** The number nearest to an integer. *)
Definition num_of_Z (z : Z) : num := binary_normalize 53 1024 z 0 false.

Definition num_add (x y : num) : num := SFadd 53 1024 x y.
Definition num_sub (x y : num) : num := SFsub 53 1024 x y.
Definition num_mul (x y : num) : num := SFmul 53 1024 x y.
Definition num_div (x y : num) : num := SFdiv 53 1024 x y.

(** [x === y], [x < y], [x <= y]. *)
Definition num_eqb (x y : num) : bool := SFeqb x y.
Definition num_ltb (x y : num) : bool := SFltb x y.
Definition num_leb (x y : num) : bool := SFleb x y.

Definition num_is_finite (x : num) : bool :=
  match x with S754_zero _ | S754_finite _ _ _ => true | _ => false end.

(** Truthiness: zeros and NaN are falsy. *)
Definition num_truthy (x : num) : bool :=
  match x with S754_zero _ | S754_nan => false | _ => true end.

(** [x || y] on numbers. *)
Definition num_or (x y : num) : num := if num_truthy x then x else y.

(** [Math.floor], as the integer it denotes; [None] on NaN and infinities. *)
Definition num_floor_Z (x : num) : option Z :=
  match x with
  | S754_zero _ => Some 0
  | S754_finite s m e =>
      let v := if s then Zneg m else Zpos m in
      Some (if 0 <=? e then v * 2 ^ e else v / 2 ^ (- e))
  | _ => None
  end.

(** The integer a number denotes, if it denotes one. *)
Definition num_to_Z (x : num) : option Z :=
  match x with
  | S754_zero _ => Some 0
  | S754_finite s m e =>
      let v := if s then Zneg m else Zpos m in
      if 0 <=? e then Some (v * 2 ^ e)
      else if v mod 2 ^ (- e) =? 0 then Some (v / 2 ^ (- e)) else None
  | _ => None
  end.

(** [Number.isInteger]. *)
Definition num_is_integer (x : num) : bool :=
  match num_to_Z x with Some _ => true | None => false end.

(** The number nearest to [(-1)^neg * m * 10^e].  Outside the exponent window
    the value overflows to infinity or underflows to zero whatever [m] is. *)
Definition of_decimal (neg : bool) (m : N) (e : Z) : num :=
  match m with
  | 0%N => S754_zero neg
  | Npos p =>
      let mag := Z.of_nat (N.size_nat m) in
      if 1100 <? e then S754_infinity neg
      else if 3 * e + mag <? -1200 then S754_zero neg
      else if 0 <=? e then
        binary_normalize 53 1024
          ((if neg then Z.opp else id) (Zpos p * 10 ^ e)) 0 neg
      else
        let '(mz, ez, lz) := SFdiv_core_binary 53 1024 (Zpos p) 0 (10 ^ (- e)) 0 in
        binary_round_aux 53 1024 neg mz ez lz
  end.

(** ** Decimal digits *)

Fixpoint dec_digits (fuel : nat) (n : N) (acc : jsstr) : jsstr :=
  match fuel with
  | O => acc
  | S f =>
      let acc' := (48 + n mod 10)%N :: acc in
      if (n <? 10)%N then acc' else dec_digits f (n / 10)%N acc'
  end.

(** The decimal digits of [n], without leading zeros. *)
Definition dec_of_N (n : N) : jsstr := dec_digits (S (N.size_nat n)) n [].

Definition dec_of_Z (z : Z) : jsstr :=
  if z <? 0 then 45%N :: dec_of_N (Z.to_N (- z)) else dec_of_N (Z.to_N z).

Fixpoint dec_value_from (a : N) (s : jsstr) : N :=
  match s with
  | [] => a
  | c :: s' => dec_value_from (10 * a + (c - 48))%N s'
  end.

(** [Number.parseInt(s, 10)] on a string of digits, as an integer. *)
Definition dec_value (s : jsstr) : N := dec_value_from 0 s.

(** The maximal prefix of digits and the rest. *)
Fixpoint span_digits (s : jsstr) : jsstr * jsstr :=
  match s with
  | [] => ([], [])
  | c :: s' =>
      if is_digit c then let '(d, r) := span_digits s' in (c :: d, r) else ([], s)
  end.

(** ** Number::toString *)

(** Least [n] with [v < 10^n], for [v = m * 2^e], by search from [n0]. *)
Fixpoint dec_exp_up (fuel : nat) (m : Z) (e n : Z) : Z :=
  match fuel with
  | O => n
  | S f =>
      (* m * 2^e < 10^n *)
      if (m * 2 ^ Z.max e 0 * 10 ^ Z.max (- n) 0 <? 10 ^ Z.max n 0 * 2 ^ Z.max (- e) 0)
      then n else dec_exp_up f m e (n + 1)
  end.

Definition dec_exponent (m : positive) (e : Z) : Z :=
  let lb := (Z.log2 (Zpos m) + e) * 30103 / 100000 - 2 in
  dec_exp_up 8 (Zpos m) e lb.

(** The shortest decimal significand: the first [k] for which some [k]-digit
    [s] has [s * 10^(n-k)] rounding to [x]; of the two candidates that bracket
    [x] the nearer is preferred.  A candidate [10^k] is the digit 1 one decade
    higher.  Seventeen digits always suffice for binary64. *)
Fixpoint shortest_digits (fuel : nat) (k : Z) (x : num) (m : positive) (e n : Z) : N * Z * Z :=
  let q := n - k in
  let a := Zpos m * 2 ^ Z.max e 0 * 10 ^ Z.max (- q) 0 in
  let b := 2 ^ Z.max (- e) 0 * 10 ^ Z.max q 0 in
  let lo := a / b in
  let hi := lo + 1 in
  let near := if 2 * (a mod b) <? b then lo else
              if (2 * (a mod b) =? b) && Z.even lo then lo else hi in
  let far := if near =? lo then hi else lo in
  let ok s := bool_decide (of_decimal false (Z.to_N s) q = x) in
  let norm s := if s =? 10 ^ k then (1%N, 1, n + 1) else (Z.to_N s, k, n) in
  if ok near then norm near
  else if ok far then norm far
  else match fuel with
       | O => norm near
       | S f => shortest_digits f (k + 1) x m e n
       end.

Definition zeros (n : Z) : jsstr := replicate (Z.to_nat n) 48%N.

(** Layout of significand digits [ds] ([k] of them) with decimal exponent [n]. *)
Definition layout_number (ds : jsstr) (k n : Z) : jsstr :=
  if (k <=? n) && (n <=? 21) then ds ++ zeros (n - k)
  else if (0 <? n) && (n <=? 21) then
    take (Z.to_nat n) ds ++ js "." ++ drop (Z.to_nat n) ds
  else if (-6 <? n) && (n <=? 0) then js "0." ++ zeros (- n) ++ ds
  else
    let ex := n - 1 in
    let es := (if ex <? 0 then js "e-" else js "e+") ++ dec_of_N (Z.to_N (Z.abs ex)) in
    match ds with
    | [d] => d :: es
    | d :: ds' => d :: js "." ++ ds' ++ es
    | [] => es
    end.

Definition safe_bound : Z := 2 ^ 53.

(** [String(x)].  For an integer below [2^53] the shortest representation is
    its plain decimal expansion. *)
Definition num_to_string (x : num) : jsstr :=
  match x with
  | S754_nan => js "NaN"
  | S754_infinity s => if s then js "-Infinity" else js "Infinity"
  | S754_zero _ => js "0"
  | S754_finite s m e =>
      match num_to_Z x with
      | Some z =>
          if Z.abs z <? safe_bound then dec_of_Z z else
          let '(sig, k, n) :=
            shortest_digits 17 1 (S754_finite false m e) m e (dec_exponent m e) in
          (if s then js "-" else []) ++ layout_number (dec_of_N sig) k n
      | None =>
          let '(sig, k, n) :=
            shortest_digits 17 1 (S754_finite false m e) m e (dec_exponent m e) in
          (if s then js "-" else []) ++ layout_number (dec_of_N sig) k n
      end
  end.

(** [x.toFixed(d)] for finite [|x| < 10^21]: the integer nearest to
    [x * 10^d], the larger one in a tie, with [d] decimals. *)
Definition num_to_fixed (x : num) (d : nat) : jsstr :=
  match x with
  | S754_finite s m e =>
      let a := Zpos m * 2 ^ Z.max e 0 * 10 ^ Z.of_nat d in
      let b := 2 ^ Z.max (- e) 0 in
      let n := (2 * a + b) / (2 * b) in
      let ds := dec_of_N (Z.to_N n) in
      let ds := replicate (S d - length ds) 48%N ++ ds in
      let cut := (length ds - d)%nat in
      (if s then js "-" else []) ++ take cut ds ++ (match d with O => [] | _ => js "." end) ++ drop cut ds
  | S754_zero _ => js "0" ++ (match d with O => [] | _ => js "." end) ++ replicate d 48%N
  | _ => num_to_string x
  end.

(** ** Number(s) on strings *)

(** An exponent part, or nothing, up to the end of the string. *)
Definition parse_exponent (s : jsstr) : option Z :=
  match s with
  | [] => Some 0
  | c :: r =>
      if ((c =? 101) || (c =? 69))%N then
        let '(sg, r) := match r with
                        | 43%N :: r' => (false, r')
                        | 45%N :: r' => (true, r')
                        | _ => (false, r)
                        end in
        let '(d, rest) := span_digits r in
        if bool_decide (d ≠ []) && bool_decide (rest = [])
        then Some ((if sg then Z.opp else id) (Z.of_N (dec_value d))) else None
      else None
  end.

(** StrUnsignedDecimalLiteral. *)
Definition parse_unsigned (neg : bool) (s : jsstr) : num :=
  if bool_decide (s = js "Infinity") then S754_infinity neg else
  let '(ip, r) := span_digits s in
  let '(fp, r) := match r with
                  | 46%N :: r' => span_digits r'
                  | _ => ([], r)
                  end in
  if bool_decide (ip ++ fp = []) then num_nan else
  match parse_exponent r with
  | Some ex => of_decimal neg (dec_value (ip ++ fp)) (ex - Z.of_nat (length fp))
  | None => num_nan
  end.

(** Digits of a [0x], [0o] or [0b] literal. *)
Definition digit_of (base c : N) : option N :=
  let v := (if is_digit c then c - 48
            else if (97 <=? c) && (c <=? 122) then c - 87
            else if (65 <=? c) && (c <=? 90) then c - 55 else 99)%N in
  if (v <? base)%N then Some v else None.

Fixpoint parse_radix (base acc : N) (s : jsstr) : option N :=
  match s with
  | [] => Some acc
  | c :: s' => match digit_of base c with
               | Some v => parse_radix base (base * acc + v)%N s'
               | None => None
               end
  end.

Definition parse_radix_num (base : N) (s : jsstr) : num :=
  match s with
  | [] => num_nan
  | _ => match parse_radix base 0 s with
         | Some v => num_of_Z (Z.of_N v)
         | None => num_nan
         end
  end.

Definition num_of_string (s : jsstr) : num :=
  match trim s with
  | [] => num_zero
  | 48%N :: c :: r =>
      if ((c =? 120) || (c =? 88))%N then parse_radix_num 16 r
      else if ((c =? 111) || (c =? 79))%N then parse_radix_num 8 r
      else if ((c =? 98) || (c =? 66))%N then parse_radix_num 2 r
      else parse_unsigned false (48%N :: c :: r)
  | 43%N :: r => parse_unsigned false r
  | 45%N :: r => parse_unsigned true r
  | s' => parse_unsigned false s'
  end.
