(* ===== verification/JsNumberFacts.v ===== *)
(** * Facts about numbers

    Decimal printing and reading are inverse, and binary64 arithmetic is
    exact on integers of absolute value below [2^53]. *)

From Stdlib Require Import ZArith.
From S2P Require Import Prelude JsString JsNumber.

(** ** Decimal digits *)

Section decimal.
Local Open Scope N_scope.

Lemma dec_value_from_app a s t :
  dec_value_from a (s ++ t) = dec_value_from (dec_value_from a s) t.
Proof. revert a; induction s as [|c s IH]; intros a; simpl; [done|apply IH]. Qed.

Lemma dec_digits_app fuel n acc : dec_digits fuel n acc = dec_digits fuel n [] ++ acc.
Proof.
  revert n acc; induction fuel as [|f IH]; intros n acc; cbn [dec_digits]; [done|].
  destruct (n <? 10); [done|].
  rewrite IH, (IH (n / 10) [48 + n mod 10]), <-app_assoc. done.
Qed.

Lemma dec_digits_value fuel n :
  n < 10 ^ N.of_nat fuel → fuel ≠ O → dec_value (dec_digits fuel n []) = n.
Proof.
  unfold dec_value. revert n; induction fuel as [|f IH]; intros n Hn Hf; [done|].
  cbn [dec_digits]. destruct (N.ltb_spec n 10).
  - cbn [dec_value_from]. rewrite N.mod_small by lia. lia.
  - rewrite dec_digits_app, dec_value_from_app.
    rewrite Nat2N.inj_succ, N.pow_succ_r' in Hn.
    rewrite IH.
    + cbn [dec_value_from]. pose proof (N.div_mod n 10 ltac:(lia)).
      set (d := n / 10) in *. set (r := n mod 10) in *. clearbody d r. lia.
    + apply N.Div0.div_lt_upper_bound; lia.
    + destruct f; [|done]. simpl in Hn. lia.
Qed.

Lemma size_nat_gt p : N.pos p < 2 ^ N.of_nat (Pos.size_nat p).
Proof.
  induction p as [p IH|p IH|]; cbn [Pos.size_nat]; [| |done];
    rewrite Nat2N.inj_succ, N.pow_succ_r'; lia.
Qed.

Lemma dec_of_N_fuel n : n < 10 ^ N.of_nat (S (N.size_nat n)).
Proof.
  destruct n as [|p]; [done|]. cbn [N.size_nat].
  rewrite Nat2N.inj_succ, N.pow_succ_r'.
  pose proof (size_nat_gt p).
  assert (2 ^ N.of_nat (Pos.size_nat p) <= 10 ^ N.of_nat (Pos.size_nat p))
    by (apply N.pow_le_mono_l; lia). lia.
Qed.

(** Reading back a printed numeral. *)
Lemma dec_value_dec_of_N n : dec_value (dec_of_N n) = n.
Proof. apply dec_digits_value; [apply dec_of_N_fuel | done]. Qed.

Lemma dec_of_N_inj n m : dec_of_N n = dec_of_N m → n = m.
Proof. intros H. by rewrite <-(dec_value_dec_of_N n), H, dec_value_dec_of_N. Qed.

Lemma is_digit_48 d : d < 10 → is_digit (48 + d) = true.
Proof. intros. unfold is_digit. apply andb_true_iff; split; apply N.leb_le; lia. Qed.

Lemma dec_digits_digits fuel n acc :
  forallb is_digit acc = true → forallb is_digit (dec_digits fuel n acc) = true.
Proof.
  revert n acc; induction fuel as [|f IH]; intros n acc H; cbn [dec_digits]; [done|].
  assert (forallb is_digit ((48 + n mod 10) :: acc) = true) as H'.
  { cbn [forallb]. rewrite is_digit_48, H; [done|]. apply N.mod_lt. lia. }
  destruct (n <? 10); [done | by apply IH].
Qed.

Lemma dec_of_N_digits n : forallb is_digit (dec_of_N n) = true.
Proof. by apply dec_digits_digits. Qed.

Lemma dec_digits_nonempty fuel n acc : acc ≠ [] → dec_digits fuel n acc ≠ [].
Proof.
  revert n acc; induction fuel as [|f IH]; intros n acc H; cbn [dec_digits]; [done|].
  destruct (n <? 10); [done | by apply IH].
Qed.

Lemma dec_of_N_nonempty n : dec_of_N n ≠ [].
Proof.
  unfold dec_of_N. cbn [dec_digits]. destruct (n <? 10); [done|].
  by apply dec_digits_nonempty.
Qed.

Lemma dec_digits_head fuel n acc :
  0 < n → n < 10 ^ N.of_nat fuel → head (dec_digits fuel n acc) ≠ Some 48.
Proof.
  revert n acc; induction fuel as [|f IH]; intros n acc H0 Hn; [simpl in Hn; lia|].
  cbn [dec_digits]. destruct (N.ltb_spec n 10).
  - rewrite N.mod_small by lia. simpl. intros [= E]. lia.
  - rewrite Nat2N.inj_succ, N.pow_succ_r' in Hn. apply IH.
    + apply N.div_str_pos. lia.
    + apply N.Div0.div_lt_upper_bound; lia.
Qed.

(** Only zero starts with the digit zero. *)
Lemma dec_of_N_head n : head (dec_of_N n) = Some 48 → n = 0.
Proof.
  intros H. destruct (decide (n = 0)); [done|].
  exfalso. revert H. apply dec_digits_head; [lia | apply dec_of_N_fuel].
Qed.

Lemma digit_not_ws c : is_digit c = true → is_ws c = false.
Proof.
  unfold is_digit, is_ws. intros ?; unbool.
  repeat match goal with H : (_ <=? _) = true |- _ => apply N.leb_le in H end.
  repeat match goal with
  | |- context [?a <=? ?b] => destruct (N.leb_spec a b); try lia
  | |- context [?a =? ?b] => destruct (N.eqb_spec a b); try lia
  end; done.
Qed.

Lemma digits_no_ws s : forallb is_digit s = true → forallb (λ c, negb (is_ws c)) s = true.
Proof.
  rewrite !forallb_forall_elem. intros H x Hx.
  by rewrite (digit_not_ws x (H x Hx)).
Qed.

Lemma span_digits_app d r :
  forallb is_digit d = true →
  (∀ c, head r = Some c → is_digit c = false) →
  span_digits (d ++ r) = (d, r).
Proof.
  intros Hd Hr. induction d as [|c d IH]; simpl in *.
  - destruct r as [|c r]; [done|]. simpl. by rewrite (Hr c).
  - unbool. by rewrite H, IH.
Qed.
End decimal.

#[export] Hint Resolve dec_of_N_digits dec_of_N_nonempty digits_no_ws : jsdb.
#[export] Hint Rewrite dec_value_dec_of_N : jsdb.

(** ** Exactness on safe integers *)

Section exact.
Local Open Scope Z_scope.

(** Number of bits of [|z|]. *)
Definition bits (z : Z) : Z := Zdigits2 z.

Lemma bits_pos_bounds p : 2 ^ (bits (Zpos p) - 1) <= Zpos p < 2 ^ bits (Zpos p).
Proof.
  unfold bits, Zdigits2.
  assert (digits2_pos p = Pos.size p) as ->.
  { induction p; simpl; congruence. }
  pose proof (Pos.size_gt p). pose proof (Pos.size_le p).
  assert (Zpos (2 ^ Pos.size p) = 2 ^ Zpos (Pos.size p)) as E
    by (apply Pos2Z.inj_pow).
  assert (2 ^ Zpos (Pos.size p) = 2 * 2 ^ (Zpos (Pos.size p) - 1)) as E'.
  { rewrite <-Z.pow_succ_r by lia. f_equal. lia. }
  split; [|lia]. assert (Zpos (p~0) = 2 * Zpos p) by lia. lia.
Qed.

Lemma bits_unique p d : 0 < d → 2 ^ (d - 1) <= Zpos p < 2 ^ d → bits (Zpos p) = d.
Proof.
  intros Hd Hb. pose proof (bits_pos_bounds p) as Hp.
  assert (0 < bits (Zpos p)) by (unfold bits, Zdigits2; lia).
  destruct (Z.lt_trichotomy (bits (Zpos p)) d) as [Hl|[?|Hl]]; [|done|].
  - assert (2 ^ bits (Zpos p) <= 2 ^ (d - 1)) by (apply Z.pow_le_mono_r; lia). lia.
  - assert (2 ^ d <= 2 ^ (bits (Zpos p) - 1)) by (apply Z.pow_le_mono_r; lia). lia.
Qed.

Lemma bits_shift p k : 0 <= k → bits (Zpos p * 2 ^ k) = bits (Zpos p) + k.
Proof.
  intros Hk. pose proof (bits_pos_bounds p).
  assert (0 < bits (Zpos p)) by (unfold bits, Zdigits2; lia).
  assert (0 < 2 ^ k) by (apply Z.pow_pos_nonneg; lia).
  destruct (Zpos p * 2 ^ k) as [|q|] eqn:E; [lia| |lia].
  apply bits_unique; [lia|]. rewrite <-E.
  replace (bits (Zpos p) + k - 1) with ((bits (Zpos p) - 1) + k) by lia.
  rewrite !Z.pow_add_r by lia. nia.
Qed.

Lemma bits_le p n : 0 <= n → Zpos p < 2 ^ n → bits (Zpos p) <= n.
Proof.
  intros Hn Hp. pose proof (bits_pos_bounds p).
  destruct (Z.le_gt_cases (bits (Zpos p)) n); [done|].
  assert (2 ^ n <= 2 ^ (bits (Zpos p) - 1)) by (apply Z.pow_le_mono_r; lia). lia.
Qed.

(** Shifting right by [k] an exact multiple of [2^k] loses nothing. *)
Lemma shr_exact m k :
  0 <= m →
  Nat.iter k shr_1 (Build_shr_record (m * 2 ^ Z.of_nat k) false false)
  = Build_shr_record m false false.
Proof.
  intros Hm. revert m Hm; induction k as [|k IH]; intros m Hm.
  - simpl. f_equal. lia.
  - rewrite Nat.iter_succ.
    replace (m * 2 ^ Z.of_nat (S k)) with ((2 * m) * 2 ^ Z.of_nat k)
      by (rewrite Nat2Z.inj_succ, Z.pow_succ_r by lia; lia).
    rewrite IH by lia. by destruct m.
Qed.

Lemma iter_pos_nat {A} (f : A → A) p x : SpecFloat.iter_pos f p x = Nat.iter (Pos.to_nat p) f x.
Proof.
  revert x; induction p as [p IH|p IH|]; intros x; cbn [SpecFloat.iter_pos]; [| |done].
  - rewrite !IH, <-Nat.iter_add, Pos2Nat.inj_xI.
    replace (S (2 * Pos.to_nat p)) with ((Pos.to_nat p + Pos.to_nat p) + 1)%nat by lia.
    by rewrite !Nat.iter_add.
  - rewrite !IH, <-Nat.iter_add, Pos2Nat.inj_xO. f_equal. lia.
Qed.

Lemma shr_fexp_exact m e k :
  0 <= m → 0 <= k → fexp 53 1024 (bits (m * 2 ^ k) + e) - e = k →
  shr_fexp 53 1024 (m * 2 ^ k) e loc_Exact = (Build_shr_record m false false, e + k).
Proof.
  intros Hm Hk E. unfold shr_fexp, shr_record_of_loc, shr.
  unfold bits in E. rewrite E.
  destruct k as [|p|p]; [f_equal; [f_equal|]; lia| |lia].
  f_equal. rewrite iter_pos_nat.
  rewrite <-(positive_nat_Z p). by apply shr_exact.
Qed.

(** The canonical form of a nonzero safe integer: 53 significant bits. *)
Definition safe_num (s : bool) (p : positive) : num :=
  let k := 53 - bits (Zpos p) in
  S754_finite s (Z.to_pos (Zpos p * 2 ^ k)) (- k).

Lemma round_aux_exact s p k e :
  bits (Zpos p) <= 53 → -1000 < e <= 0 → 0 <= k <= 100 →
  bits (Zpos p * 2 ^ k) + e - 53 = e + k →
  binary_round_aux 53 1024 s (Zpos p * 2 ^ k) e loc_Exact
  = S754_finite s p (e + k).
Proof.
  intros Hp He Hk Hb. assert (0 < bits (Zpos p)) by (unfold bits, Zdigits2; lia).
  unfold binary_round_aux.
  rewrite shr_fexp_exact by (first [done | unfold fexp, emin; lia]).
  cbn [shr_m loc_of_shr_record round_nearest_even].
  rewrite bits_shift in Hb by lia.
  pose proof (shr_fexp_exact (Zpos p) (e + k) 0) as H0.
  rewrite Z.pow_0_r, Z.mul_1_r in H0. rewrite H0; [|lia..|unfold fexp, emin; lia].
  cbn [shr_m]. rewrite (proj2 (Z.leb_le _ _)) by lia. f_equal. lia.
Qed.

Lemma iter_xO p d : Zpos (Pos.iter xO p d) = Zpos p * 2 ^ Zpos d.
Proof.
  induction d as [|d IH] using Pos.peano_ind; [rewrite Z.pow_1_r; cbn; lia|].
  rewrite Pos.iter_succ, Pos2Z.inj_succ, Z.pow_succ_r by lia. lia.
Qed.

(** Normalising an integer scaled by [2^k] gives its canonical form,
    whatever the scaling. *)
Lemma binary_round_safe s p q k :
  0 <= k <= 60 → bits (Zpos p) <= 53 → Zpos q = Zpos p * 2 ^ k →
  binary_round 53 1024 s q (- k) = safe_num s p.
Proof.
  intros Hk Hp Hq. assert (0 < bits (Zpos p)) by (unfold bits, Zdigits2; lia).
  unfold binary_round, shl_align, safe_num.
  assert (Zpos (digits2_pos q) = bits (Zpos p) + k) as ->.
  { change (bits (Zpos q) = bits (Zpos p) + k). rewrite Hq. apply bits_shift; lia. }
  replace (fexp 53 1024 (bits (Zpos p) + k + - k)) with (bits (Zpos p) - 53)
    by (unfold fexp, emin; lia).
  remember (53 - bits (Zpos p)) as c eqn:Ec.
  assert (0 < 2 ^ c) by (apply Z.pow_pos_nonneg; lia).
  assert (bits (Zpos p * 2 ^ c) = 53) as Hc by (rewrite bits_shift by lia; lia).
  destruct (Zpos p * 2 ^ c) as [|pc|] eqn:Epc; [lia| |lia].
  change (Z.to_pos (Zpos pc)) with pc.
  destruct (bits (Zpos p) - 53 - - k) as [|d|d] eqn:Ed.
  - (* already aligned *)
    assert (q = pc) as -> by (apply Pos2Z.inj; rewrite Hq, <-Epc; do 2 f_equal; lia).
    rewrite <-(Z.mul_1_r (Zpos pc)), <-(Z.pow_0_r 2), round_aux_exact.
    + f_equal. lia.
    + lia.
    + lia.
    + lia.
    + rewrite Z.pow_0_r, Z.mul_1_r, Hc. lia.
  - (* too many bits: the extra ones are zeros *)
    assert (Zpos q = Zpos pc * 2 ^ Zpos d) as Eq.
    { rewrite Hq, <-Epc, <-Z.mul_assoc, <-Z.pow_add_r by lia. do 2 f_equal. lia. }
    rewrite Eq, round_aux_exact.
    + f_equal. lia.
    + lia.
    + lia.
    + lia.
    + rewrite bits_shift, Hc by lia. lia.
  - (* too few bits: shifted left *)
    assert (Zpos (Pos.iter xO q d) = Zpos pc) as E.
    { rewrite iter_xO, Hq, <-Epc, <-Z.mul_assoc, <-Z.pow_add_r by lia. do 2 f_equal. lia. }
    rewrite E, <-(Z.mul_1_r (Zpos pc)), <-(Z.pow_0_r 2), round_aux_exact.
    + f_equal. lia.
    + lia.
    + lia.
    + lia.
    + rewrite Z.pow_0_r, Z.mul_1_r, Hc. lia.
Qed.

(** ** The safe range *)

Definition safe (z : Z) : Prop := Z.abs z < 2 ^ 53.

Lemma safe_bits p : safe (Zpos p) → 0 < bits (Zpos p) <= 53.
Proof.
  unfold safe. intros. split; [unfold bits, Zdigits2; lia|]. apply bits_le; lia.
Qed.

Lemma binary_normalize_safe z k q :
  safe z → 0 <= k <= 60 → q = z * 2 ^ k →
  binary_normalize 53 1024 q (- k) false
  = match z with
    | 0 => num_zero
    | Zpos p => safe_num false p
    | Zneg p => safe_num true p
    end.
Proof.
  intros Hz Hk ->. assert (0 < 2 ^ k) by (apply Z.pow_pos_nonneg; lia).
  destruct z as [|p|p]; [done| |].
  - destruct (Zpos p * 2 ^ k) as [|q|] eqn:E; [lia| |lia].
    apply binary_round_safe; [lia | by apply safe_bits | done].
  - destruct (Zneg p * 2 ^ k) as [| |q] eqn:E; [lia|lia|].
    apply binary_round_safe; [lia | | lia].
    apply safe_bits. unfold safe in *. lia.
Qed.

Lemma num_of_Z_safe z :
  safe z →
  num_of_Z z = match z with
               | 0 => num_zero
               | Zpos p => safe_num false p
               | Zneg p => safe_num true p
               end.
Proof. intros Hz. apply (binary_normalize_safe z 0 z); [done|lia|lia]. Qed.

Lemma safe_num_scaled p e :
  safe (Zpos p) → e <= bits (Zpos p) - 53 →
  Zpos (fst (shl_align (Z.to_pos (Zpos p * 2 ^ (53 - bits (Zpos p))))
                       (- (53 - bits (Zpos p))) e))
  = Zpos p * 2 ^ (- e).
Proof.
  intros Hp He. pose proof (safe_bits p Hp).
  remember (53 - bits (Zpos p)) as c eqn:Ec.
  assert (0 < 2 ^ c) by (apply Z.pow_pos_nonneg; lia).
  destruct (Zpos p * 2 ^ c) as [|m|] eqn:E; [lia| |lia].
  change (Z.to_pos (Zpos m)) with m. unfold shl_align.
  destruct (e - - c) as [|d|d] eqn:Ed; [|lia|]; cbn [fst].
  - rewrite <-E. do 2 f_equal. lia.
  - rewrite iter_xO, <-E, <-Z.mul_assoc, <-Z.pow_add_r by lia. do 2 f_equal. lia.
Qed.

Lemma cond_Zopp_pos b p : cond_Zopp b (Zpos p) = if b then Zneg p else Zpos p.
Proof. by destruct b. Qed.

Definition sgn_pos (s : bool) (p : positive) : Z := if s then Zneg p else Zpos p.

Lemma add_safe_num s p s' p' :
  safe (Zpos p) → safe (Zpos p') → safe (sgn_pos s p + sgn_pos s' p') →
  num_add (safe_num s p) (safe_num s' p') = num_of_Z (sgn_pos s p + sgn_pos s' p').
Proof.
  intros Hp Hp' Hs. pose proof (safe_bits p Hp). pose proof (safe_bits p' Hp').
  unfold num_add, safe_num, SFadd.
  remember (Z.min (- (53 - bits (Zpos p))) (- (53 - bits (Zpos p')))) as e eqn:Ee.
  rewrite !safe_num_scaled by (first [done | lia]).
  rewrite num_of_Z_safe by done.
  replace e with (- - e) at 3 by lia.
  apply binary_normalize_safe; [done | lia |].
  destruct s, s'; simpl; lia.
Qed.

(** Sums of safe integers that stay safe are exact. *)
Lemma num_add_exact a b :
  safe a → safe b → safe (a + b) → num_add (num_of_Z a) (num_of_Z b) = num_of_Z (a + b).
Proof.
  intros Ha Hb Hab. rewrite (num_of_Z_safe a), (num_of_Z_safe b) by done.
  destruct a as [|p|p], b as [|p'|p']; try done;
    try (rewrite num_of_Z_safe by done; done).
  - by apply (add_safe_num false p false p').
  - by apply (add_safe_num false p true p').
  - by apply (add_safe_num true p false p').
  - by apply (add_safe_num true p true p').
Qed.

Lemma num_opp_safe b : safe b → b ≠ 0 → SFopp (num_of_Z b) = num_of_Z (- b).
Proof.
  intros Hb H0. rewrite !num_of_Z_safe by (unfold safe in *; lia).
  by destruct b.
Qed.

Lemma sub_add_opp x y :
  num_is_finite x = true → (∃ s m e, y = S754_finite s m e) →
  num_sub x y = num_add x (SFopp y).
Proof.
  intros Hx (s & m & e & ->). destruct x as [[]| | |s' m' e']; try done.
  unfold num_sub, num_add, SFsub, SFadd, SFopp. f_equal. destruct s; simpl; lia.
Qed.

Lemma num_of_Z_finite z : safe z → num_is_finite (num_of_Z z) = true.
Proof. intros Hz. rewrite num_of_Z_safe by done. by destruct z. Qed.

Lemma num_sub_exact a b :
  safe a → safe b → safe (a - b) → num_sub (num_of_Z a) (num_of_Z b) = num_of_Z (a - b).
Proof.
  intros Ha Hb Hab. destruct (decide (b = 0)) as [->|Hb0].
  - rewrite Z.sub_0_r, (num_of_Z_safe a) by done. by destruct a.
  - rewrite sub_add_opp.
    + rewrite num_opp_safe, num_add_exact; try done; unfold safe in *; try lia; f_equal; lia.
    + by apply num_of_Z_finite.
    + rewrite num_of_Z_safe by done. destruct b; [done| |]; unfold safe_num; eauto.
Qed.

Lemma safe_num_compare p q :
  safe (Zpos p) → safe (Zpos q) →
  SFcompare (safe_num false p) (safe_num false q) = Some (Zpos p ?= Zpos q).
Proof.
  intros Hp Hq. pose proof (safe_bits p Hp). pose proof (safe_bits q Hq).
  unfold safe_num, SFcompare. f_equal.
  pose proof (bits_pos_bounds p). pose proof (bits_pos_bounds q).
  destruct (Z.compare_spec (- (53 - bits (Zpos p))) (- (53 - bits (Zpos q)))) as [E|E|E].
  - assert (bits (Zpos p) = bits (Zpos q)) as -> by lia.
    remember (53 - bits (Zpos q)) as c. assert (0 < 2 ^ c) by (apply Z.pow_pos_nonneg; lia).
    change (Z.compare (Zpos (Z.to_pos (Zpos p * 2 ^ c))) (Zpos (Z.to_pos (Zpos q * 2 ^ c)))
            = (Zpos p ?= Zpos q)).
    rewrite !Z2Pos.id by lia.
    destruct (Z.compare_spec (Zpos p) (Zpos q)) as [E'|E'|E'].
    + rewrite E'. apply Z.compare_refl.
    + apply Z.compare_lt_iff, Z.mul_lt_mono_pos_r; lia.
    + apply Z.compare_gt_iff, Z.mul_lt_mono_pos_r; lia.
  - symmetry. apply Z.compare_lt_iff.
    assert (2 ^ bits (Zpos p) <= 2 ^ (bits (Zpos q) - 1)) by (apply Z.pow_le_mono_r; lia). lia.
  - symmetry. apply Z.compare_gt_iff.
    assert (2 ^ bits (Zpos q) <= 2 ^ (bits (Zpos p) - 1)) by (apply Z.pow_le_mono_r; lia). lia.
Qed.

Lemma safe_num_compare_neg p q :
  SFcompare (safe_num true p) (safe_num true q)
  = option_map CompOpp (SFcompare (safe_num false p) (safe_num false q)).
Proof. unfold safe_num, SFcompare. simpl. f_equal. by case_match. Qed.

(** Comparison of safe integers is that of [Z]. *)
Lemma num_compare_exact a b :
  safe a → safe b → SFcompare (num_of_Z a) (num_of_Z b) = Some (a ?= b).
Proof.
  intros Ha Hb. rewrite !num_of_Z_safe by done.
  destruct a as [|p|p], b as [|q|q]; try done.
  - by apply safe_num_compare.
  - rewrite safe_num_compare_neg, safe_num_compare by (unfold safe in *; lia).
    simpl. by rewrite Pos.compare_antisym, CompOpp_involutive.
Qed.

Lemma num_ltb_exact a b : safe a → safe b → num_ltb (num_of_Z a) (num_of_Z b) = (a <? b).
Proof.
  intros. unfold num_ltb, SFltb. rewrite num_compare_exact by done.
  unfold Z.ltb. by destruct (a ?= b).
Qed.

Lemma num_leb_exact a b : safe a → safe b → num_leb (num_of_Z a) (num_of_Z b) = (a <=? b).
Proof.
  intros. unfold num_leb, SFleb. rewrite num_compare_exact by done.
  unfold Z.leb. by destruct (a ?= b).
Qed.

Lemma num_eqb_exact a b : safe a → safe b → num_eqb (num_of_Z a) (num_of_Z b) = (a =? b).
Proof.
  intros. unfold num_eqb, SFeqb. rewrite num_compare_exact by done.
  rewrite Z.eqb_compare. by destruct (a ?= b).
Qed.

Lemma num_truthy_exact a : safe a → num_truthy (num_of_Z a) = negb (a =? 0).
Proof. intros. rewrite num_of_Z_safe by done. by destruct a. Qed.

Lemma num_to_Z_safe z : safe z → num_to_Z (num_of_Z z) = Some z.
Proof.
  intros Hz. rewrite num_of_Z_safe by done. destruct z as [|p|p]; [done| |];
    unfold safe_num, num_to_Z;
    (assert (safe (Zpos p)) as Hp by (unfold safe in *; lia);
     pose proof (safe_bits p Hp);
     remember (53 - bits (Zpos p)) as c;
     assert (0 < 2 ^ c) by (apply Z.pow_pos_nonneg; lia);
     replace (- - c) with c by lia).
  - rewrite Z2Pos.id by lia. destruct (Z.leb_spec 0 (- c)).
    + assert (c = 0) as -> by lia. f_equal. rewrite Z.pow_0_r. lia.
    + rewrite Z.mod_mul, Z.eqb_refl, Z.div_mul by lia. done.
  - replace (Zneg (Z.to_pos (Zpos p * 2 ^ c))) with (Zneg p * 2 ^ c)
      by (pose proof (Z2Pos.id (Zpos p * 2 ^ c)); lia).
    destruct (Z.leb_spec 0 (- c)).
    + assert (c = 0) as -> by lia. f_equal. rewrite Z.pow_0_r. lia.
    + rewrite Z.mod_mul, Z.eqb_refl, Z.div_mul by lia. done.
Qed.

Lemma num_of_Z_inj a b : safe a → safe b → num_of_Z a = num_of_Z b → a = b.
Proof.
  intros Ha Hb E. assert (Some a = Some b) as [= ?]; [|done].
  by rewrite <-(num_to_Z_safe a Ha), E, num_to_Z_safe.
Qed.

(** Printing a safe integer gives its decimal expansion. *)
Lemma num_to_string_safe z : safe z → num_to_string (num_of_Z z) = dec_of_Z z.
Proof.
  intros Hz. pose proof (num_to_Z_safe z Hz) as E.
  unfold num_to_string. rewrite E. rewrite num_of_Z_safe by done.
  assert ((Z.abs z <? safe_bound) = true) as -> by (apply Z.ltb_lt; exact Hz).
  by destruct z.
Qed.

Lemma of_decimal_safe n : safe (Z.of_N n) → of_decimal false n 0 = num_of_Z (Z.of_N n).
Proof.
  intros Hn. destruct n as [|p]; [done|]. unfold of_decimal.
  rewrite (proj2 (Z.ltb_ge 1100 0)) by lia.
  rewrite (proj2 (Z.ltb_ge _ (-1200))) by lia. cbn [Z.leb].
  rewrite (proj2 (Z.leb_le 0 0)) by lia.
  unfold id. by rewrite Z.pow_0_r, Z.mul_1_r.
Qed.

Lemma parse_unsigned_digits d :
  d ≠ [] → forallb is_digit d = true → parse_unsigned false d = of_decimal false (dec_value d) 0.
Proof.
  intros Hd Hdig. unfold parse_unsigned.
  rewrite bool_decide_eq_false_2.
  2:{ intros ->. vm_compute in Hdig. done. }
  rewrite <-(app_nil_r d) at 1. rewrite span_digits_app by done.
  rewrite app_nil_r, bool_decide_eq_false_2 by done. done.
Qed.

Lemma num_of_string_digits d :
  d ≠ [] → forallb is_digit d = true → num_of_string d = of_decimal false (dec_value d) 0.
Proof.
  intros Hd Hdig. rewrite <-parse_unsigned_digits by done. unfold num_of_string.
  rewrite trim_no_ws by auto with jsdb.
  assert (∀ c, c ∈ d → ∀ x, is_digit x = false → c ≠ x) as Hne.
  { intros c Hc x Hx ->. rewrite forallb_forall_elem in Hdig. rewrite Hdig in Hx; done. }
  destruct d as [|a d]; [done|].
  destruct (decide (a = 48)%N) as [->|].
  - destruct d as [|c r]; [done|].
    repeat match goal with
    | |- context [(c =? ?x)%N] =>
        rewrite (proj2 (N.eqb_neq c x)) by (apply Hne; [set_solver | done])
    end. done.
  - assert (a ≠ 43%N) by (apply Hne; [set_solver | done]).
    assert (a ≠ 45%N) by (apply Hne; [set_solver | done]).
    repeat case_match; simplify_eq; done.
Qed.

(** [Number(String(n))] is [n] on safe naturals. *)
Lemma num_of_string_dec n : safe (Z.of_N n) → num_of_string (dec_of_N n) = num_of_Z (Z.of_N n).
Proof.
  intros Hn. rewrite num_of_string_digits by auto with jsdb.
  rewrite dec_value_dec_of_N. by apply of_decimal_safe.
Qed.
End exact.

#[export] Hint Rewrite num_to_string_safe using done : jsdb.
