(* ===== verification/JsCollections.v ===== *)
(** * Map, Set and Array.prototype.sort

    A [Map] is the list of its entries in insertion order; setting a key that
    is present keeps its position.  A [Set] is the list of its elements in
    insertion order ([uniq] of what was added).  [sort] is stable and driven
    by a comparator that returns a number. *)

From stdpp Require Import sorting.
From S2P Require Import Prelude JsString JsNumber.

(** ** Insertion-ordered maps *)

Section omap.
Context {K V : Type} `{!EqDecision K}.

Fixpoint mget (k : K) (m : list (K * V)) : option V :=
  match m with
  | [] => None
  | (k', v) :: m' => if decide (k = k') then Some v else mget k m'
  end.

Fixpoint mset (k : K) (v : V) (m : list (K * V)) : list (K * V) :=
  match m with
  | [] => [(k, v)]
  | (k', v') :: m' => if decide (k = k') then (k', v) :: m' else (k', v') :: mset k v m'
  end.

Definition mkeys (m : list (K * V)) : list K := map fst m.
Definition mvalues (m : list (K * V)) : list V := map snd m.

(** [m.set(k, f(m.get(k)))]. *)
Definition mupd (k : K) (f : option V → V) (m : list (K * V)) : list (K * V) :=
  mset k (f (mget k m)) m.

Implicit Types m : list (K * V).

Lemma mget_mset_eq k v m : mget k (mset k v m) = Some v.
Proof.
  induction m as [|[k' v'] m IH]; simpl; [by rewrite decide_True|].
  destruct (decide (k = k')) as [->|]; simpl; [by rewrite decide_True|].
  by rewrite decide_False.
Qed.

Lemma mget_mset_ne k k' v m : k ≠ k' → mget k (mset k' v m) = mget k m.
Proof.
  intros Hk. induction m as [|[j w] m IH]; simpl; [by rewrite decide_False|].
  destruct (decide (k' = j)) as [->|]; simpl; [by rewrite !decide_False|].
  by rewrite IH.
Qed.

Lemma mget_mset k k' v m :
  mget k (mset k' v m) = if decide (k' = k) then Some v else mget k m.
Proof. case_decide; subst; [apply mget_mset_eq | by apply mget_mset_ne]. Qed.

Lemma mget_None k m : mget k m = None ↔ k ∉ mkeys m.
Proof.
  induction m as [|[k' v] m IH]; simpl; [set_solver|].
  rewrite not_elem_of_cons. case_decide; [naive_solver|]. rewrite IH. naive_solver.
Qed.

Lemma mget_is_Some k m : is_Some (mget k m) ↔ k ∈ mkeys m.
Proof.
  rewrite <-not_eq_None_Some, mget_None. split; [apply dec_stable | naive_solver].
Qed.

Lemma mget_elem_of k v m : mget k m = Some v → (k, v) ∈ m.
Proof.
  induction m as [|[k' v'] m IH]; simpl; [done|].
  case_decide; intros; simplify_eq; [constructor | constructor; auto].
Qed.

Lemma elem_of_mget k v m : NoDup (mkeys m) → (k, v) ∈ m → mget k m = Some v.
Proof.
  induction m as [|[k' v'] m IH]; simpl; [set_solver|]. intros Hm Hin.
  inversion Hm as [|? ? Hnot Hnd]; subst.
  apply elem_of_cons in Hin as [?|Hin]; simplify_eq; [by rewrite decide_True|].
  rewrite decide_False; [by apply IH|]. intros ->. apply Hnot.
  by apply (list_elem_of_fmap_2 fst) in Hin.
Qed.

Lemma mkeys_mset k v m :
  mkeys (mset k v m) = if decide (k ∈ mkeys m) then mkeys m else mkeys m ++ [k].
Proof.
  induction m as [|[k' v'] m IH]; simpl; [done|].
  destruct (decide (k = k')) as [->|Hk]; simpl.
  - rewrite decide_True by constructor. done.
  - rewrite IH. destruct (decide (k ∈ mkeys m)).
    + by rewrite decide_True by (by constructor).
    + rewrite decide_False; [done|]. by rewrite elem_of_cons; intros [?|?].
Qed.

Lemma NoDup_mset k v m : NoDup (mkeys m) → NoDup (mkeys (mset k v m)).
Proof.
  intros Hm. rewrite mkeys_mset. case_decide; [done|].
  apply NoDup_app; split; [done|]. split; [|by apply NoDup_singleton]. set_solver.
Qed.

(** *** Grouping loops

    [for (const x of xs) m.set(key(x), g(x, m.get(key(x))))]. *)
Section group.
Context {X : Type} (key : X → K) (g : X → option V → V).

Definition group_step (m : list (K * V)) (x : X) : list (K * V) :=
  mupd (key x) (g x) m.

Definition group_by (xs : list X) (m : list (K * V)) : list (K * V) :=
  fold_left group_step xs m.

(** What the loop leaves at [k] depends only on the elements keyed [k], in
    order. *)
Lemma mget_group_by k xs m :
  mget k (group_by xs m)
  = fold_left (λ o x, Some (g x o))
              (List.filter (λ x, bool_decide (key x = k)) xs) (mget k m).
Proof.
  revert m; induction xs as [|x xs IH]; intros m; simpl; [done|].
  rewrite IH. unfold group_step, mupd. rewrite mget_mset.
  case_bool_decide; subst; simpl; [by rewrite decide_True | by rewrite decide_False].
Qed.

Lemma mkeys_group_by xs m :
  mkeys (group_by xs m) = mkeys m ++ uniq_from (mkeys m) (map key xs).
Proof.
  revert m; induction xs as [|x xs IH]; intros m; simpl; [by rewrite app_nil_r|].
  rewrite IH. unfold group_step, mupd. rewrite mkeys_mset.
  case_decide; [done|]. rewrite <-app_assoc. simpl. do 2 f_equal.
  apply uniq_from_ext. set_solver.
Qed.

Lemma NoDup_group_by xs m : NoDup (mkeys m) → NoDup (mkeys (group_by xs m)).
Proof.
  revert m; induction xs as [|x xs IH]; intros m Hm; simpl; [done|].
  by apply IH, NoDup_mset.
Qed.
End group.
End omap.

(** Entries transformed in place, keys kept. *)
Definition mmap {K V W} (f : V → W) (m : list (K * V)) : list (K * W) :=
  map (λ kv, (fst kv, f (snd kv))) m.

Lemma mget_mmap {K V W} `{!EqDecision K} (f : V → W) (m : list (K * V)) k :
  mget k (mmap f m) = f <$> mget k m.
Proof. induction m as [|[k' v] m IH]; simpl; [done|]. by case_decide. Qed.

Lemma mkeys_mmap {K V W} (f : V → W) (m : list (K * V)) : mkeys (mmap f m) = mkeys m.
Proof. unfold mkeys, mmap. rewrite map_map. done. Qed.

Lemma group_by_key_ext {K V X} `{!EqDecision K} (key key' : X → K) (g : X → option V → V) xs m :
  (∀ x, key x = key' x) → group_by key g xs m = group_by key' g xs m.
Proof.
  intros Hk. revert m; induction xs as [|x xs IH]; intros m; simpl; [done|].
  rewrite IH. unfold group_step. by rewrite Hk.
Qed.

(** A transformation of the values that the loop body respects commutes with
    the loop. *)
Lemma mset_mmap {K V W} `{!EqDecision K} (h : V → W) k v (m : list (K * V)) :
  mset k (h v) (mmap h m) = mmap h (mset k v m).
Proof.
  unfold mmap. induction m as [|[k' v'] m IH]; simpl; [done|].
  case_decide; simpl; [done|]. by rewrite IH.
Qed.

Lemma group_by_mmap {K V W X} `{!EqDecision K} (key : X → K) (g : X → option V → V)
    (g' : X → option W → W) (h : V → W) xs m :
  (∀ x o, g' x (h <$> o) = h (g x o)) →
  group_by key g' xs (mmap h m) = mmap h (group_by key g xs m).
Proof.
  intros Hg. revert m; induction xs as [|x xs IH]; intros m; simpl; [done|].
  rewrite <-IH. f_equal. unfold group_step, mupd. by rewrite mget_mmap, Hg, mset_mmap.
Qed.

Lemma group_by_app {K V X} `{!EqDecision K} (key : X → K) (g : X → option V → V) xs ys m :
  group_by key g (xs ++ ys) m = group_by key g ys (group_by key g xs m).
Proof. apply fold_left_app. Qed.

Lemma group_by_map {K V X Y} `{!EqDecision K} (key : X → K) (g : X → option V → V) (f : Y → X) ys m :
  group_by key g (map f ys) m = group_by (λ y, key (f y)) (λ y, g (f y)) ys m.
Proof. revert m; induction ys as [|y ys IH]; intros m; simpl; [done | apply IH]. Qed.

#[export] Hint Rewrite @mget_mset_eq @mget_mmap @mkeys_mmap : jsdb.
#[export] Hint Resolve NoDup_mset NoDup_group_by : jsdb.

(** ** Sorting *)

Section sort.
Context {A : Type} (cmp : A → A → num).

(** A positive result puts the first argument after the second; NaN counts
    as zero. *)
Definition cmp_gt (x y : A) : bool := num_ltb num_zero (cmp x y).

Fixpoint sort_insert (x : A) (l : list A) : list A :=
  match l with
  | [] => [x]
  | y :: l' => if cmp_gt x y then y :: sort_insert x l' else x :: l
  end.

(** [l.sort(cmp)]: the stable sort. *)
Definition js_sort (l : list A) : list A := foldr sort_insert [] l.

Lemma sort_insert_perm x l : sort_insert x l ≡ₚ x :: l.
Proof.
  induction l as [|y l IH]; simpl; [done|]. case_match; [|done].
  rewrite IH. apply Permutation_swap.
Qed.

Lemma js_sort_perm l : js_sort l ≡ₚ l.
Proof. induction l as [|x l IH]; simpl; [done|]. by rewrite sort_insert_perm, IH. Qed.

Lemma elem_of_js_sort x l : x ∈ js_sort l ↔ x ∈ l.
Proof. by rewrite js_sort_perm. Qed.

Lemma length_js_sort l : length (js_sort l) = length l.
Proof. by rewrite js_sort_perm. Qed.

(** The comparator orders the elements of the list consistently. *)
Record consistent_on (P : A → Prop) : Prop := {
  cmp_asym : ∀ x y, P x → P y → cmp_gt x y = true → cmp_gt y x = false;
  cmp_trans : ∀ x y z, P x → P y → P z →
    cmp_gt x y = false → cmp_gt y z = false → cmp_gt x z = false
}.

Definition in_order (x y : A) : Prop := cmp_gt x y = false.

Lemma sort_insert_sorted P x l :
  consistent_on P → P x → Forall P l →
  StronglySorted in_order l → StronglySorted in_order (sort_insert x l).
Proof.
  intros HP Hx Hl Hs. induction Hs as [|y l Hs IH Hy]; simpl; [repeat constructor|].
  inversion Hl as [|? ? Py Hl']; subst. destruct (cmp_gt x y) eqn:E.
  - constructor; [by apply IH|].
    rewrite sort_insert_perm. constructor; [by eapply cmp_asym | done].
  - constructor; [by constructor|]. constructor; [done|].
    rewrite Forall_forall in Hy, Hl' |- *. intros z Hz.
    eapply (cmp_trans _ HP x y z); auto. by apply Hy.
Qed.

Lemma js_sort_sorted P l :
  consistent_on P → Forall P l → StronglySorted in_order (js_sort l).
Proof.
  intros HP Hl. induction Hl as [|x l Hx Hl IH]; simpl; [constructor|].
  eapply sort_insert_sorted; eauto. by rewrite js_sort_perm.
Qed.
End sort.

(** Sorting commutes with a transformation the comparator does not see. *)
Lemma js_sort_map {A B} (cmp : A → A → num) (cmp' : B → B → num) (f : A → B) l :
  (∀ x y, cmp' (f x) (f y) = cmp x y) → js_sort cmp' (map f l) = map f (js_sort cmp l).
Proof.
  intros Hc. assert (∀ x l, sort_insert cmp' (f x) (map f l) = map f (sort_insert cmp x l)) as Hi.
  { intros x l'. induction l' as [|y l' IH]; simpl; [done|]. unfold cmp_gt. rewrite Hc.
    destruct (num_ltb num_zero (cmp x y)); simpl; [by rewrite IH | done]. }
  induction l as [|x l IH]; simpl; [done|]. by rewrite IH, Hi.
Qed.

(** [l.sort()] on strings: by code units. *)
Definition cmp_code_units (a b : jsstr) : num :=
  if str_ltb a b then num_of_Z (-1) else if str_ltb b a then num_of_Z 1 else num_zero.

Definition sort_strings (l : list jsstr) : list jsstr := js_sort cmp_code_units l.

Lemma cmp_code_units_gt a b : cmp_gt cmp_code_units a b = str_ltb b a.
Proof.
  unfold cmp_gt, cmp_code_units.
  destruct (str_ltb a b) eqn:E; [|by destruct (str_ltb b a)].
  destruct (str_ltb b a) eqn:E'; [|done].
  pose proof (str_ltb_trans _ _ _ E E') as H. by rewrite str_ltb_irrefl in H.
Qed.

Lemma cmp_code_units_consistent : consistent_on cmp_code_units (λ _, True).
Proof.
  split; intros *; rewrite !cmp_code_units_gt.
  - intros _ _ H. destruct (str_ltb x y) eqn:E; [|done].
    pose proof (str_ltb_trans _ _ _ H E) as H'. by rewrite str_ltb_irrefl in H'.
  - intros _ _ _ Hxy Hyz. destruct (str_ltb z x) eqn:E; [|done].
    destruct (str_ltb x y) eqn:E1.
    + pose proof (str_ltb_trans _ _ _ E E1). congruence.
    + rewrite (str_ltb_total x y) in E by done. congruence.
Qed.

Lemma sort_strings_sorted l : StronglySorted (λ a b, str_ltb b a = false) (sort_strings l).
Proof.
  assert (StronglySorted (in_order cmp_code_units) (sort_strings l)) as H.
  { apply (js_sort_sorted _ (λ _, True)); [apply cmp_code_units_consistent|].
    by apply Forall_true. }
  induction H as [|x m _ IH Hx]; constructor; [done|].
  eapply Forall_impl; [exact Hx|]. intros y. unfold in_order. by rewrite cmp_code_units_gt.
Qed.
