(* ===== verification/JsOrder.v ===== *)
(** * Comparators that order

    The sign of a comparator's result; comparators whose sign is a total
    preorder, and how the comparators of the code ([c1 || c2], [b - a],
    [localeCompare]) are built from them. *)

From Stdlib Require Import ZArith.
From stdpp Require Import sorting.
From S2P Require Import Prelude JsString JsNumber JsNumberFacts JsCollections.

Definition sign (n : num) : comparison :=
  if num_ltb num_zero n then Gt else if num_truthy n then Lt else Eq.

Lemma sign_or a b : sign (num_or a b) = match sign a with Eq => sign b | s => s end.
Proof. unfold sign, num_or. by destruct a as [[]|[]| |[] ? ?]. Qed.

Lemma cmp_gt_sign {A} (cmp : A → A → num) x y : cmp_gt cmp x y = true ↔ sign (cmp x y) = Gt.
Proof. unfold cmp_gt, sign. by destruct (num_ltb num_zero (cmp x y)), (num_truthy (cmp x y)). Qed.

(** On the elements satisfying [P] the sign is a total preorder. *)
Record lawful {A} (P : A → Prop) (cmp : A → A → num) : Prop := {
  law_anti : ∀ x y, P x → P y → sign (cmp y x) = CompOpp (sign (cmp x y));
  law_trans : ∀ x y z, P x → P y → P z →
    sign (cmp x y) ≠ Gt → sign (cmp y z) ≠ Gt → sign (cmp x z) ≠ Gt
}.

Section lawful.
Context {A : Type} (P : A → Prop).

Lemma lawful_consistent cmp : lawful P cmp → consistent_on cmp P.
Proof.
  intros [Ha Ht]. split.
  - intros x y Hx Hy Hgt%cmp_gt_sign. apply not_true_is_false. rewrite cmp_gt_sign.
    rewrite (Ha x y), Hgt; done.
  - intros x y z Hx Hy Hz H1 H2. apply not_true_is_false. apply not_true_iff_false in H1, H2.
    rewrite cmp_gt_sign in *. by apply (Ht x y z).
Qed.

Lemma lawful_strict cmp x y z :
  lawful P cmp → P x → P y → P z →
  sign (cmp x y) = Lt → sign (cmp y z) ≠ Gt → sign (cmp x z) = Lt.
Proof.
  intros [Ha Ht] Hx Hy Hz H1 H2. pose proof (Ht x y z Hx Hy Hz ltac:(by rewrite H1) H2) as H3.
  destruct (sign (cmp x z)) eqn:E; [|done|done]. exfalso.
  apply (Ht y z x Hy Hz Hx H2); [by rewrite (Ha x z), E | by rewrite (Ha x y), H1].
Qed.

Lemma lawful_strict_r cmp x y z :
  lawful P cmp → P x → P y → P z →
  sign (cmp x y) ≠ Gt → sign (cmp y z) = Lt → sign (cmp x z) = Lt.
Proof.
  intros [Ha Ht] Hx Hy Hz H1 H2. pose proof (Ht x y z Hx Hy Hz H1 ltac:(by rewrite H2)) as H3.
  destruct (sign (cmp x z)) eqn:E; [|done|done]. exfalso.
  apply (Ht z x y Hz Hx Hy); [by rewrite (Ha x z), E | done | by rewrite (Ha y z), H2].
Qed.

(** [c1(x, y) || c2(x, y)]. *)
Lemma lawful_or c1 c2 : lawful P c1 → lawful P c2 → lawful P (λ x y, num_or (c1 x y) (c2 x y)).
Proof.
  intros L1 L2. split.
  - intros x y Hx Hy. rewrite !sign_or, (law_anti _ _ L1 x y), (law_anti _ _ L2 x y) by done.
    by destruct (sign (c1 x y)).
  - intros x y z Hx Hy Hz. rewrite !sign_or.
    pose proof (law_trans _ _ L1 x y z Hx Hy Hz) as T1.
    pose proof (law_trans _ _ L2 x y z Hx Hy Hz) as T2.
    pose proof (lawful_strict c1 x y z L1 Hx Hy Hz) as S1.
    pose proof (lawful_strict_r c1 x y z L1 Hx Hy Hz) as S2.
    destruct (sign (c1 x y)) eqn:E1, (sign (c1 y z)) eqn:E2; intros H1 H2; try done;
      [|by rewrite S2|by rewrite S1|by rewrite S1].
    destruct (sign (c1 x z)) eqn:E3; [by apply T2 | done | by destruct T1].
Qed.
End lawful.

Lemma lawful_map {A B} (f : A → B) P cmp : lawful P cmp → lawful (λ x, P (f x)) (λ x y, cmp (f x) (f y)).
Proof. intros [Ha Ht]. split; intros; eauto. Qed.

Lemma lawful_weaken {A} (P Q : A → Prop) cmp : (∀ x, Q x → P x) → lawful P cmp → lawful Q cmp.
Proof. intros H [Ha Ht]. split; intros; eauto. Qed.

(** Numbers whose differences are exact. *)
Definition counter (n : num) : Prop := ∃ z, n = num_of_Z z ∧ (0 ≤ z < 2 ^ 53)%Z.

Lemma sign_exact z : safe z → sign (num_of_Z z) = (z ?= 0)%Z.
Proof.
  intros Hz. unfold sign. change num_zero with (num_of_Z 0).
  rewrite num_ltb_exact, num_truthy_exact by (done || by unfold safe).
  by destruct z.
Qed.

Lemma sign_sub_exact a b :
  (0 ≤ a < 2 ^ 53)%Z → (0 ≤ b < 2 ^ 53)%Z → sign (num_sub (num_of_Z b) (num_of_Z a)) = (b ?= a)%Z.
Proof.
  intros Ha Hb. rewrite num_sub_exact, sign_exact by (unfold safe; lia).
  symmetry. apply Z.compare_sub.
Qed.

(** [b - a]: descending. *)
Lemma lawful_desc : lawful counter (λ a b, num_sub b a).
Proof.
  split.
  - intros ? ? (a & -> & Ha) (b & -> & Hb). rewrite !sign_sub_exact by done. apply Z.compare_antisym.
  - intros ? ? ? (a & -> & Ha) (b & -> & Hb) (c & -> & Hc). rewrite !sign_sub_exact by done.
    rewrite !Z.compare_gt_iff. lia.
Qed.

(** What is relied on of [localeCompare]. *)
Class LocaleCompare (lc : jsstr → jsstr → num) : Prop :=
  locale_lawful : lawful (λ _, True) lc.

#[export] Instance cmp_code_units_locale : LocaleCompare cmp_code_units.
Proof.
  assert (∀ a b, sign (cmp_code_units a b)
            = if str_ltb a b then Lt else if str_ltb b a then Gt else Eq) as H.
  { intros a b. unfold cmp_code_units. by destruct (str_ltb a b), (str_ltb b a). }
  split.
  - intros x y _ _. rewrite !H. destruct (str_ltb x y) eqn:E1, (str_ltb y x) eqn:E2; try done.
    pose proof (str_ltb_trans _ _ _ E1 E2) as E. by rewrite str_ltb_irrefl in E.
  - intros x y z _ _ _ H1 H2. assert (cmp_gt cmp_code_units x z = false) as Hn.
    { apply (cmp_trans _ _ cmp_code_units_consistent x y z); try done;
        apply not_true_is_false; by rewrite cmp_gt_sign. }
    apply not_true_iff_false in Hn. by rewrite cmp_gt_sign in Hn.
Qed.

(** The comparators of the usage flow: descending value, then another. *)
Lemma lawful_desc_then {A} (P : A → Prop) (v : A → num) c :
  (∀ x, P x → counter (v x)) → lawful P c → lawful P (λ x y, num_or (num_sub (v y) (v x)) (c x y)).
Proof.
  intros Hv Hc. apply lawful_or; [|done].
  apply (lawful_weaken (λ x, counter (v x))); [done|]. apply (lawful_map v counter _ lawful_desc).
Qed.

(** A list sorted by such a comparator has descending values. *)
Lemma desc_sorted {A} (P : A → Prop) (v : A → num) c l :
  (∀ x, P x → counter (v x)) → lawful P c → Forall P l →
  StronglySorted (λ x y, num_leb (v y) (v x) = true)
    (js_sort (λ x y, num_or (num_sub (v y) (v x)) (c x y)) l).
Proof.
  intros Hv Hc Hl.
  assert (StronglySorted (in_order (λ x y, num_or (num_sub (v y) (v x)) (c x y)))
            (js_sort (λ x y, num_or (num_sub (v y) (v x)) (c x y)) l)) as Hs.
  { apply (js_sort_sorted _ P); [|done]. by apply lawful_consistent, lawful_desc_then. }
  assert (Forall P (js_sort (λ x y, num_or (num_sub (v y) (v x)) (c x y)) l)) as Hp
    by (by rewrite js_sort_perm).
  induction Hs as [|x l' Hs IH Hx]; constructor; inversion Hp as [|? ? Px Pl]; subst; [by apply IH|].
  rewrite Forall_forall in Hx, Pl |- *. intros y Hy. specialize (Hx y Hy).
  apply not_true_iff_false in Hx. rewrite cmp_gt_sign, sign_or in Hx.
  destruct (Hv x Px) as (a & Ea & Ha), (Hv y (Pl y Hy)) as (b & Eb & Hb).
  rewrite Ea, Eb in Hx |- *. rewrite sign_sub_exact in Hx by done.
  unfold num_leb, SFleb. rewrite num_compare_exact by (unfold safe; lia).
  by destruct (b ?= a)%Z.
Qed.
