(* ===== verification/JsValue.v ===== *)
(** * JavaScript values and exceptions

    The values a program can reach from [JSON.parse] and object literals.
    Own properties are kept in the order [Object.entries] lists them: array
    index keys first in ascending order, then the others in order of
    creation. *)

From Stdlib Require Import ZArith.
From S2P Require Import Prelude JsString JsNumber JsCollections.

Inductive val :=
  | VUndef
  | VNull
  | VBool (b : bool)
  | VNum (n : num)
  | VStr (s : jsstr)
  | VArr (l : list val)
  | VObj (props : list (jsstr * val)).

(** Induction with hypotheses for the components. *)
Section val_induction.
Context (P : val → Prop).
Hypothesis HUndef : P VUndef.
Hypothesis HNull : P VNull.
Hypothesis HBool : ∀ b, P (VBool b).
Hypothesis HNum : ∀ n, P (VNum n).
Hypothesis HStr : ∀ s, P (VStr s).
Hypothesis HArr : ∀ l, Forall P l → P (VArr l).
Hypothesis HObj : ∀ ps, Forall (λ kv, P (snd kv)) ps → P (VObj ps).

Fixpoint val_ind' (v : val) : P v :=
  match v with
  | VUndef => HUndef
  | VNull => HNull
  | VBool b => HBool b
  | VNum n => HNum n
  | VStr s => HStr s
  | VArr l => HArr l ((fix go l : Forall P l :=
      match l with
      | [] => List.Forall_nil _
      | x :: l' => List.Forall_cons _ x l' (val_ind' x) (go l')
      end) l)
  | VObj ps => HObj ps ((fix go ps : Forall (λ kv, P (snd kv)) ps :=
      match ps with
      | [] => List.Forall_nil _
      | kv :: ps' => List.Forall_cons _ kv ps' (val_ind' (snd kv)) (go ps')
      end) ps)
  end.
End val_induction.

(** ** Exceptions *)

Inductive exn := TypeError | SyntaxError | ErrorMsg (m : jsstr).

(** The outcome of running code that may throw. *)
Inductive res (A : Type) :=
  | Ok (a : A)
  | Throw (e : exn).
Arguments Ok {A} a.
Arguments Throw {A} e.

#[export] Instance res_ret : MRet res := λ A a, Ok a.
#[export] Instance res_bind : MBind res := λ A B f m,
  match m with Ok a => f a | Throw e => Throw e end.

(** [try { m } catch { h }]. *)
Definition try_catch {A} (m : res A) (h : A) : A :=
  match m with Ok a => a | Throw _ => h end.

Fixpoint res_mapM {A B} (f : A → res B) (l : list A) : res (list B) :=
  match l with
  | [] => Ok []
  | x :: l' => y ← f x; ys ← res_mapM f l'; Ok (y :: ys)
  end.

(** Runs the sequencing of computations whose outcome is known, leaving the
    property names folded. *)
Ltac run_res := cbv beta iota zeta delta [mbind res_bind mret res_ret].

Lemma res_bind_ok {A B} (m : res A) (f : A → res B) b :
  (m ≫= f) = Ok b ↔ ∃ a, m = Ok a ∧ f a = Ok b.
Proof. destruct m as [a|e]; simpl; naive_solver. Qed.

Lemma res_mapM_ok {A B} (f : A → res B) l ys :
  res_mapM f l = Ok ys ↔ Forall2 (λ x y, f x = Ok y) l ys.
Proof.
  revert ys; induction l as [|x l IH]; intros ys; simpl.
  - split; [intros [= <-]; constructor | by inversion 1].
  - rewrite res_bind_ok. setoid_rewrite res_bind_ok. setoid_rewrite IH. split.
    + intros (y & Hy & ys' & Hys & [= <-]). by constructor.
    + inversion 1; subst; eauto 10.
Qed.

Lemma res_mapM_total {A B} (f : A → res B) (g : A → B) l :
  Forall (λ x, f x = Ok (g x)) l → res_mapM f l = Ok (map g l).
Proof. intros H. apply res_mapM_ok. induction H; simpl; constructor; auto. Qed.

(** ** Truthiness and property access *)

Definition truthy (v : val) : bool :=
  match v with
  | VUndef | VNull => false
  | VBool b => b
  | VNum n => num_truthy n
  | VStr s => truthy_str s
  | VArr _ | VObj _ => true
  end.

(** [a || b], [a ?? b]. *)
Definition val_or (a b : val) : val := if truthy a then a else b.
Definition nullish (v : val) : bool := match v with VUndef | VNull => true | _ => false end.

(** [v.k] for a name [k] that no built-in prototype defines. *)
Definition get_prop (v : val) (k : jsstr) : res val :=
  match v with
  | VUndef | VNull => Throw TypeError
  | VObj ps => Ok (default VUndef (mget k ps))
  | _ => Ok VUndef
  end.

(** [v.trim()]: only strings have the method. *)
Definition call_trim (v : val) : res val :=
  match v with VStr s => Ok (VStr (trim s)) | _ => Throw TypeError end.

(** [v?.trim()]. *)
Definition call_trim_opt (v : val) : res val :=
  if nullish v then Ok VUndef else call_trim v.

(** [a === b] restricted to what the program compares: primitives. *)
Definition strict_eqb (a b : val) : bool :=
  match a, b with
  | VUndef, VUndef | VNull, VNull => true
  | VBool x, VBool y => eqb x y
  | VNum x, VNum y => num_eqb x y
  | VStr x, VStr y => bool_decide (x = y)
  | _, _ => false
  end.

(** [typeof v === 'object' && v && !Array.isArray(v)]. *)
Definition is_plain_object (v : val) : bool := match v with VObj _ => true | _ => false end.

(** ** Property creation *)

(** Canonical numeric strings of array indices: [0 .. 2^32 - 2]. *)
Definition array_index (k : jsstr) : option N :=
  if bool_decide (k ≠ []) && forallb is_digit k
     && (bool_decide (k = [48%N]) || negb (bool_decide (head k = Some 48%N)))
     && (dec_value k <? 4294967295)%N
  then Some (dec_value k) else None.

Fixpoint insert_index {V} (i : N) (k : jsstr) (v : V) (ps : list (jsstr * V))
    : list (jsstr * V) :=
  match ps with
  | [] => [(k, v)]
  | (k', v') :: ps' =>
      match array_index k' with
      | Some j => if (j <? i)%N then (k', v') :: insert_index i k v ps' else (k, v) :: ps
      | None => (k, v) :: ps
      end
  end.

(** [o[k] = v] as CreateDataProperty does it. *)
Definition obj_set {V} (k : jsstr) (v : V) (ps : list (jsstr * V)) : list (jsstr * V) :=
  match mget k ps with
  | Some _ => mset k v ps
  | None => match array_index k with
            | Some i => insert_index i k v ps
            | None => ps ++ [(k, v)]
            end
  end.

(** [delete o[k]]. *)
Definition obj_del {V} (k : jsstr) (ps : list (jsstr * V)) : list (jsstr * V) :=
  List.filter (λ kv, negb (bool_decide (fst kv = k))) ps.

Section properties.
Context {V : Type}.
Implicit Types (ps : list (jsstr * V)) (k j : jsstr).

Lemma insert_index_perm i k (v : V) ps : insert_index i k v ps ≡ₚ (k, v) :: ps.
Proof.
  induction ps as [|[k' v'] ps IH]; simpl; [done|].
  destruct (array_index k') as [n|]; [|done]. destruct (n <? i)%N; [|done].
  rewrite IH. apply Permutation_swap.
Qed.

(** A lookup does not depend on where a fresh property is put. *)
Lemma mget_perm ps ps' j : NoDup (mkeys ps) → ps ≡ₚ ps' → mget j ps = mget j ps'.
Proof.
  intros Hnd Hp. assert (NoDup (mkeys ps')) as Hnd'.
  { unfold mkeys in *. change (map ?f ?l) with (f <$> l) in *. by rewrite <-Hp. }
  destruct (mget j ps) as [v|] eqn:E.
  - symmetry. apply elem_of_mget; [done|]. rewrite <-Hp. by apply mget_elem_of.
  - symmetry. apply mget_None. apply mget_None in E. intros Hj. apply E.
    unfold mkeys in *. change (map ?f ?l) with (f <$> l) in *. by rewrite Hp.
Qed.

Lemma mget_insert_index i k (v : V) ps j :
  k ∉ mkeys ps →
  mget j (insert_index i k v ps) = if decide (k = j) then Some v else mget j ps.
Proof.
  intros Hk. induction ps as [|[k' v'] ps IH]; simpl.
  - destruct (decide (k = j)) as [->|]; [by rewrite decide_True | by rewrite decide_False].
  - simpl in Hk. apply not_elem_of_cons in Hk as [Hkk Hk].
    assert (mget j ((k, v) :: (k', v') :: ps)
            = if decide (k = j) then Some v else if decide (j = k') then Some v' else mget j ps) as He.
    { simpl. destruct (decide (k = j)) as [->|]; [by rewrite decide_True|].
      by rewrite (decide_False (P := j = k)). }
    destruct (array_index k') as [n|]; [|exact He]. destruct (n <? i)%N; [|exact He].
    simpl. rewrite IH by done. destruct (decide (j = k')) as [->|]; [|done].
    by rewrite decide_False.
Qed.

Lemma mget_obj_set k (v : V) ps j :
  mget j (obj_set k v ps) = if decide (k = j) then Some v else mget j ps.
Proof.
  unfold obj_set. destruct (mget k ps) as [w|] eqn:E; [apply mget_mset|].
  pose proof (proj1 (mget_None k ps) E) as Hk.
  destruct (array_index k) as [i|]; [by apply mget_insert_index|].
  clear E. induction ps as [|[k' v'] ps IH]; simpl.
  - destruct (decide (k = j)) as [->|]; [by rewrite decide_True | by rewrite decide_False].
  - simpl in Hk. apply not_elem_of_cons in Hk as [Hkk Hk]. rewrite IH by done.
    destruct (decide (j = k')) as [->|]; [by rewrite decide_False | done].
Qed.

Lemma mget_obj_del k ps j :
  mget j (obj_del k ps) = if decide (k = j) then None else mget j ps.
Proof.
  unfold obj_del. induction ps as [|[k' v'] ps IH]; simpl; [by case_decide|].
  case_bool_decide as Hk; simpl; rewrite IH.
  - subst. repeat case_decide; congruence.
  - repeat case_decide; congruence.
Qed.

Lemma elem_of_obj_del k ps kv : kv ∈ obj_del k ps ↔ kv ∈ ps ∧ fst kv ≠ k.
Proof. unfold obj_del. by rewrite elem_of_filterb, negb_true_iff, bool_decide_eq_false. Qed.

Lemma mkeys_obj_set k (v : V) ps :
  mkeys (obj_set k v ps) ≡ₚ if decide (k ∈ mkeys ps) then mkeys ps else mkeys ps ++ [k].
Proof.
  unfold obj_set. destruct (mget k ps) as [w|] eqn:E.
  - by rewrite mkeys_mset.
  - apply mget_None in E. rewrite decide_False by done.
    destruct (array_index k) as [i|].
    + unfold mkeys. change (map ?f ?l) with (f <$> l). rewrite (insert_index_perm i k v ps).
      simpl. apply Permutation_cons_append.
    + unfold mkeys. by rewrite map_app.
Qed.

Lemma NoDup_obj_set k (v : V) ps : NoDup (mkeys ps) → NoDup (mkeys (obj_set k v ps)).
Proof.
  intros Hnd. rewrite mkeys_obj_set. case_decide; [done|].
  apply NoDup_app; split; [done|]. split; [set_solver | apply NoDup_singleton].
Qed.

Lemma NoDup_mkeys_filter (f : jsstr * V → bool) ps :
  NoDup (mkeys ps) → NoDup (mkeys (List.filter f ps)).
Proof.
  induction ps as [|kv ps IH]; simpl; [done|]. intros [Hk Hnd]%NoDup_cons.
  destruct (f kv); simpl; [|by apply IH]. constructor; [|by apply IH].
  intros Hin. apply Hk. apply list_elem_of_fmap in Hin as (x & -> & Hx).
  apply elem_of_filterb in Hx as [Hx _]. by apply (list_elem_of_fmap_2 fst).
Qed.

Lemma NoDup_obj_del k ps : NoDup (mkeys ps) → NoDup (mkeys (obj_del k ps)).
Proof. apply NoDup_mkeys_filter. Qed.

(** A filter by the key. *)
Lemma mget_filter_keys (p : jsstr → bool) ps j :
  mget j (List.filter (λ kv, p (fst kv)) ps) = if p j then mget j ps else None.
Proof.
  induction ps as [|[k' v'] ps IH]; simpl; [by destruct (p j)|].
  destruct (p k') eqn:Ek; simpl; rewrite IH; case_decide; subst; try done.
  - by rewrite Ek.
  - by rewrite Ek.
Qed.
End properties.

(** ** String(v), Number(v)

    A plain object is converted by the [toString] it inherits, unless an own
    property of that name (never a function here) hides it. *)
Fixpoint to_string (v : val) : res jsstr :=
  match v with
  | VUndef => Ok (js "undefined")
  | VNull => Ok (js "null")
  | VBool b => Ok (if b then js "true" else js "false")
  | VNum n => Ok (num_to_string n)
  | VStr s => Ok s
  | VArr l =>
      ws ← (fix go (l : list val) : res (list jsstr) :=
              match l with
              | [] => Ok []
              | x :: l' =>
                  w ← (match x with VUndef | VNull => Ok [] | _ => to_string x end);
                  ws ← go l'; Ok (w :: ws)
              end) l;
      Ok (join [comma] ws)
  | VObj ps =>
      match mget (js "toString") ps with
      | Some _ => Throw TypeError
      | None => Ok (js "[object Object]")
      end
  end.

Definition to_number (v : val) : res num :=
  match v with
  | VUndef => Ok num_nan
  | VNull => Ok num_zero
  | VBool b => Ok (if b then num_of_Z 1 else num_zero)
  | VNum n => Ok n
  | VStr _ | VArr _ | VObj _ => s ← to_string v; Ok (num_of_string s)
  end.

(** ** Object.entries, Object.keys, Object.values *)

Fixpoint index_entries (i : N) (l : list val) : list (jsstr * val) :=
  match l with
  | [] => []
  | x :: l' => (dec_of_N i, x) :: index_entries (i + 1) l'
  end.

Definition own_entries (v : val) : list (jsstr * val) :=
  match v with
  | VObj ps => ps
  | VArr l => index_entries 0 l
  | VStr s => index_entries 0 (map (λ c, VStr [c]) s)
  | _ => []
  end.
