(* ===== verification/JsonFacts.v ===== *)
(** * JSON round trip *)

From Stdlib Require Import ZArith ZifyN.
From S2P Require Import Prelude JsString JsNumber JsNumberFacts JsCollections JsValue Json.

Ltac Zify.zify_post_hook ::= Z.div_mod_to_equations.

(** ** Strings *)

Section strings.
Local Open Scope N_scope.

Definition code_unit (c : N) : Prop := c < 65536.

#[global] Instance code_unit_dec c : Decision (code_unit c).
Proof. unfold code_unit. apply _. Defined.

Lemma digit_of_hex_digit d : d < 16 → digit_of 16 (hex_digit d) = Some d.
Proof.
  intros Hd. unfold hex_digit, digit_of, is_digit.
  destruct (N.ltb_spec d 10).
  - rewrite (proj2 (N.leb_le 48 (48 + d))), (proj2 (N.leb_le (48 + d) 57)) by lia. simpl.
    rewrite (proj2 (N.ltb_lt _ 16)) by lia. f_equal. lia.
  - rewrite (proj2 (N.leb_gt (87 + d) 57)), andb_false_r by lia.
    rewrite (proj2 (N.leb_le 97 (87 + d))), (proj2 (N.leb_le (87 + d) 122)) by lia. simpl.
    rewrite (proj2 (N.ltb_lt _ 16)) by lia. f_equal. lia.
Qed.

Lemma parse_str_unit c t :
  code_unit c → parse_str (quote_unit c ++ t) = consr c (parse_str t).
Proof.
  unfold code_unit. intros Hc. unfold quote_unit.
  repeat match goal with
  | |- context [if c =? ?k then _ else _] => destruct (N.eqb_spec c k) as [->|]; [reflexivity|]
  end.
  destruct ((c <? 32) || is_high_surrogate c || is_low_surrogate c) eqn:E.
  - unfold unicode_escape. simpl. unfold hex4.
    rewrite !digit_of_hex_digit by lia.
    do 2 f_equal. lia.
  - assert ((c <? 32) = false) as E32 by (by destruct (c <? 32)).
    simpl. by rewrite (proj2 (N.eqb_neq c 34)), (proj2 (N.eqb_neq c 92)), E32.
Qed.

Lemma surrogate_plain c :
  is_high_surrogate c = true ∨ is_low_surrogate c = true →
  (c =? 34) = false ∧ (c =? 92) = false ∧ (c <? 32) = false.
Proof.
  unfold is_high_surrogate, is_low_surrogate. intros H.
  rewrite !andb_true_iff, !N.leb_le in H. rewrite !N.eqb_neq, N.ltb_ge. lia.
Qed.

Lemma parse_str_quote s t :
  Forall code_unit s → parse_str (quote_units s ++ 34 :: t) = Some (s, t).
Proof.
  induction s as [s IH] using (induction_ltof1 _ (@length N)). unfold ltof in IH.
  intros Hs. destruct s as [|c s]; [done|]. inversion Hs as [|? ? Hc Hs']; subst.
  destruct s as [|d s].
  - simpl. by rewrite parse_str_unit.
  - inversion Hs' as [|? ? Hd Hs'']; subst. cbn [quote_units].
    destruct (is_high_surrogate c && is_low_surrogate d) eqn:E.
    + unbool. destruct (surrogate_plain c) as (C1 & C2 & C3); [by left|].
      destruct (surrogate_plain d) as (D1 & D2 & D3); [by right|].
      simpl. rewrite C1, C2, C3, D1, D2, D3, IH by (simpl; auto; lia). done.
    + change (match s with [] => quote_unit d | d' :: s'' =>
        if is_high_surrogate d && is_low_surrogate d' then d :: d' :: quote_units s''
        else quote_unit d ++ quote_units s end) with (quote_units (d :: s)).
      rewrite <-app_assoc, parse_str_unit, IH by (simpl; auto). done.
Qed.
End strings.

(** ** Values that JSON can express faithfully

    Safe integers, strings of code units, objects whose properties are in the
    order their creation gives. *)

Definition obj_of (ps acc : list (jsstr * val)) : list (jsstr * val) :=
  fold_left (λ acc kv, obj_set (fst kv) (snd kv) acc) ps acc.

Inductive json_ok : val → Prop :=
  | ok_null : json_ok VNull
  | ok_bool b : json_ok (VBool b)
  | ok_num z : safe z → json_ok (VNum (num_of_Z z))
  | ok_str s : Forall code_unit s → json_ok (VStr s)
  | ok_arr l : Forall json_ok l → json_ok (VArr l)
  | ok_obj ps :
      Forall (λ kv, Forall code_unit (fst kv)) ps →
      Forall (λ kv, json_ok (snd kv)) ps →
      obj_of ps [] = ps → json_ok (VObj ps).

(** What may follow a value in a printed text. *)
Definition delim (r : jsstr) : Prop :=
  match r with [] => True | c :: _ => (c = 44 ∨ c = 93 ∨ c = 125 ∨ c = 10)%N end.

Definition all_ws (s : jsstr) : Prop := Forall (λ c, is_json_ws c = true) s.

Lemma skip_ws_app s r : all_ws s → skip_ws (s ++ r) = skip_ws r.
Proof.
  unfold skip_ws. induction 1 as [|c s Hc Hs IH]; simpl; [done|]. by rewrite Hc.
Qed.

Lemma skip_ws_cons c r : is_json_ws c = false → skip_ws (c :: r) = c :: r.
Proof. unfold skip_ws. simpl. by intros ->. Qed.

Lemma next_is_app s c r :
  all_ws s → is_json_ws c = false → next_is c (s ++ c :: r) = Some r.
Proof.
  intros. unfold next_is. rewrite skip_ws_app, skip_ws_cons by done. by rewrite N.eqb_refl.
Qed.

Lemma next_is_other s c d r :
  all_ws s → is_json_ws d = false → c ≠ d → next_is c (s ++ d :: r) = None.
Proof.
  intros. unfold next_is. rewrite skip_ws_app, skip_ws_cons by done.
  by rewrite (proj2 (N.eqb_neq d c)).
Qed.

(** ** Numbers *)

Lemma delim_span r : delim r → ∀ c, head r = Some c → is_digit c = false.
Proof. destruct r; simpl; [done|]. intros H c [= <-]. by destruct H as [-> | [-> | [-> | ->]]]. Qed.

Lemma parse_num_dec neg n r :
  delim r → parse_num neg (dec_of_N n ++ r) = Some (VNum (of_decimal neg n 0), r).
Proof.
  intros Hr. unfold parse_num.
  assert (parse_frac r = Some ([], r)) as Hf.
  { destruct r as [|c r]; [done|]. by destruct Hr as [-> | [-> | [-> | ->]]]. }
  assert (parse_exp r = Some (0%Z, r)) as He.
  { destruct r as [|c r]; [done|]. by destruct Hr as [-> | [-> | [-> | ->]]]. }
  assert (match dec_of_N n ++ r with
          | c :: r0 => if (c =? 48)%N then ([48%N], r0) else span_digits (dec_of_N n ++ r)
          | [] => ([], [])
          end = (dec_of_N n, r)) as ->.
  { pose proof (span_digits_app (dec_of_N n) r (dec_of_N_digits n) (delim_span r Hr)) as Hs.
    destruct (dec_of_N n) as [|c t] eqn:E; [by apply dec_of_N_nonempty in E|].
    simpl app in Hs |- *. cbn beta iota. destruct (N.eqb_spec c 48) as [->|]; [|exact Hs].
    assert (n = 0%N) as -> by (apply dec_of_N_head; by rewrite E).
    change (dec_of_N 0) with [48%N] in E. by injection E as <-. }
  pose proof (dec_of_N_nonempty n).
  destruct (dec_of_N n) eqn:E; [done|]. rewrite <-E, Hf, He.
  rewrite app_nil_r, dec_value_dec_of_N. done.
Qed.

Lemma of_decimal_neg_safe p :
  safe (Zneg p) → of_decimal true (Npos p) 0 = num_of_Z (Zneg p).
Proof.
  intros Hn. unfold of_decimal.
  rewrite (proj2 (Z.ltb_ge 1100 0)) by lia.
  rewrite (proj2 (Z.ltb_ge _ (-1200))) by lia.
  rewrite (proj2 (Z.leb_le 0 0)) by lia.
  by rewrite Z.pow_0_r, Z.mul_1_r.
Qed.

(** ** The round trip *)

Section roundtrip.
Context (gap : jsstr) (Hgap : all_ws gap).

(** [w] reads back as [v] whatever white space precedes it. *)
Definition reads (v : val) (w : jsstr) : Prop :=
  ∀ f pre r, all_ws pre → delim r → (2 * length w ≤ f)%nat →
    parse_value f (pre ++ w ++ r) = Some (v, r).

(** The break before an item or a closing bracket. *)
Definition lead (ind : jsstr) : jsstr := match gap with [] => [] | _ => 10%N :: ind end.

Lemma lead_ws ind : all_ws ind → all_ws (lead ind).
Proof. unfold lead. destruct gap; [constructor | by constructor]. Qed.

Lemma delim_lead ind c r : (c = 93 ∨ c = 125)%N → delim (lead ind ++ c :: r).
Proof. unfold lead. destruct gap; simpl; tauto. Qed.

Lemma bracket_cons o c ind ind' w ws :
  bracket gap o c ind ind' (w :: ws)
  = o :: lead ind' ++ join (44%N :: lead ind') (w :: ws) ++ lead ind ++ [c].
Proof. unfold bracket, lead. by destruct gap. Qed.

Definition cost (ws : list jsstr) : nat := sum_list_with (λ w, 2 * length w + 2)%nat ws.

Lemma cost_join sep ws :
  sep ≠ [] → (cost ws ≤ 2 * length (join sep ws) + 2)%nat.
Proof.
  intros Hs. assert (1 ≤ length sep)%nat by (destruct sep; simpl; [done|lia]).
  induction ws as [|w [|w' ws] IH]; [cbn; lia | cbn; lia |].
  change (cost (w :: w' :: ws)) with (2 * length w + 2 + cost (w' :: ws))%nat.
  change (join sep (w :: w' :: ws)) with (w ++ sep ++ join sep (w' :: ws)).
  rewrite !length_app. lia.
Qed.

Lemma parse_elems_ok ind s1 vs ws g r :
  all_ws ind → all_ws s1 → Forall2 reads vs ws → ws ≠ [] → (cost ws ≤ g)%nat →
  parse_elems g (s1 ++ join (44%N :: s1) ws ++ lead ind ++ 93%N :: r) = Some (vs, r).
Proof.
  intros Hind Hs1 H. revert g. induction H as [|v w vs ws Hv H IH]; intros g Hne Hg; [done|].
  unfold cost in Hg. simpl in Hg. destruct g as [|g]; [lia|]. cbn [parse_elems].
  destruct ws as [|w' ws].
  - inversion H; subst. cbn [join].
    rewrite Hv by (first [done | lia | apply delim_lead; by left]).
    rewrite next_is_other by (first [done | by apply lead_ws]).
    by rewrite next_is_app by (first [done | by apply lead_ws]).
  - cbn [join]. rewrite <-!app_assoc.
    rewrite Hv by (first [done | lia | simpl; by left]).
    change (44%N :: s1) with ([] ++ 44%N :: s1). rewrite <-app_assoc, <-app_comm_cons.
    rewrite next_is_app by (first [done | constructor]).
    rewrite IH; [done|done|]. unfold cost. simpl in *. lia.
Qed.

(** A printed member. *)
Definition reads_member (kv : jsstr * val) (it : jsstr) : Prop :=
  ∃ w, it = quote_json (fst kv) ++ colon gap ++ w ∧
       Forall code_unit (fst kv) ∧ reads (snd kv) w.

Lemma next_is_colon w : ∃ pre, all_ws pre ∧ next_is 58 (colon gap ++ w) = Some (pre ++ w).
Proof.
  unfold colon. destruct gap; [exists [] | exists [32%N]]; split; try done;
    by repeat constructor.
Qed.

Lemma parse_members_step k v it t g acc :
  all_ws t → reads_member (k, v) it → ∀ r, delim r → (2 * length it ≤ g)%nat →
  parse_members (S g) (t ++ it ++ r) acc
  = match next_is 44 r, next_is 125 r with
    | Some r', _ => parse_members g r' (obj_set k v acc)
    | None, Some r' => Some (obj_set k v acc, r')
    | None, None => None
    end.
Proof.
  intros Ht (w & -> & Hk & Hv) r Hr Hg. cbn [parse_members fst snd] in *.
  rewrite !length_app in Hg. unfold quote_json. rewrite <-!app_assoc, <-app_comm_cons.
  rewrite next_is_app by done. rewrite <-app_assoc. simpl app.
  rewrite parse_str_quote by done.
  destruct (next_is_colon (w ++ r)) as (pre & Hpre & ->).
  rewrite Hv by (first [done | lia]). done.
Qed.

Lemma parse_members_ok ind s1 ps its g r acc :
  all_ws ind → all_ws s1 → Forall2 reads_member ps its → its ≠ [] → (cost its ≤ g)%nat →
  parse_members g (s1 ++ join (44%N :: s1) its ++ lead ind ++ 125%N :: r) acc
  = Some (obj_of ps acc, r).
Proof.
  intros Hind Hs1 H. revert g acc.
  induction H as [|[k v] it ps its Hv H IH]; intros g acc Hne Hg; [done|].
  unfold cost in Hg. simpl in Hg. destruct g as [|g]; [lia|].
  destruct its as [|it' its].
  - inversion H; subst. cbn [join].
    rewrite (parse_members_step k v) by (first [done | lia | apply delim_lead; by right]).
    rewrite next_is_other by (first [done | by apply lead_ws]).
    by rewrite next_is_app by (first [done | by apply lead_ws]).
  - cbn [join]. rewrite <-!app_assoc.
    rewrite (parse_members_step k v) by (first [done | lia | simpl; by left]).
    change (44%N :: s1) with ([] ++ 44%N :: s1). rewrite <-app_assoc, <-app_comm_cons.
    rewrite next_is_app by (first [done | constructor]).
    rewrite IH; [done|done|]. unfold cost. simpl in *. lia.
Qed.

(** Dispatch of [parse_value] on the first unit of a text. *)
Lemma parse_value_string k : Forall code_unit k → reads (VStr k) (quote_json k).
Proof.
  intros Hk f pre r Hpre Hr Hf. destruct f as [|f]; [simpl in Hf; lia|].
  cbn [parse_value]. unfold quote_json. rewrite <-app_comm_cons, skip_ws_app, skip_ws_cons by done.
  rewrite <-app_assoc. simpl app. by rewrite N.eqb_refl, parse_str_quote.
Qed.

Lemma parse_value_dec z : safe z → reads (VNum (num_of_Z z)) (dec_of_Z z).
Proof.
  intros Hz f pre r Hpre Hr Hf.
  assert (1 ≤ length (dec_of_Z z))%nat as Hl.
  { unfold dec_of_Z. case_match; simpl; [lia|].
    pose proof (dec_of_N_nonempty (Z.to_N z)). destruct (dec_of_N (Z.to_N z)); [done|simpl; lia]. }
  destruct f as [|f]; [lia|]. cbn [parse_value]. unfold dec_of_Z.
  destruct (Z.ltb_spec z 0).
  - rewrite <-app_comm_cons, skip_ws_app, skip_ws_cons by done.
    change (45 =? 34)%N with false. cbn [N.eqb Pos.eqb]. rewrite parse_num_dec by done.
    destruct z as [|p|p]; [lia|lia|]. simpl Z.opp. simpl Z.to_N. by rewrite of_decimal_neg_safe.
  - pose proof (dec_of_N_digits (Z.to_N z)) as Hd.
    pose proof (parse_num_dec false (Z.to_N z) r Hr) as Hp.
    pose proof (dec_of_N_nonempty (Z.to_N z)).
    destruct (dec_of_N (Z.to_N z)) as [|c t]; [done|].
    simpl in Hd. apply andb_true_iff in Hd as [Hc _].
    rewrite <-app_comm_cons, skip_ws_app, skip_ws_cons; [|  |done].
    + assert (∀ x, is_digit x = false → (c =? x)%N = false) as Hx.
      { intros x Hx. apply N.eqb_neq. intros ->. congruence. }
      rewrite !Hx by done. rewrite app_comm_cons, Hp. do 3 f_equal.
      rewrite of_decimal_safe; [f_equal|]; unfold safe in *; lia.
    + pose proof (digit_not_ws c Hc) as Hw. revert Hw Hc.
      unfold is_ws, is_json_ws, is_digit. intros _ Hc.
      apply andb_true_iff in Hc as [Hc%N.leb_le _].
      by rewrite !(proj2 (N.eqb_neq c _)) by lia.
Qed.

(** The first unit of a printed value. *)
Lemma ser_head ind v w :
  json_ok v → ser gap ind v = Some w →
  ∃ c t, w = c :: t ∧ is_json_ws c = false ∧ c ≠ 93%N ∧ c ≠ 125%N.
Proof.
  intros Hv. destruct Hv as [|b|z Hz|s Hs|l Hl|ps Hk Hps Ho]; cbn [ser]; intros [= <-].
  - by eexists _, _.
  - destruct b; by eexists _, _.
  - rewrite num_of_Z_finite, num_to_string_safe by done. unfold dec_of_Z.
    case_match; [by eexists _, _|].
    pose proof (dec_of_N_digits (Z.to_N z)) as Hd. pose proof (dec_of_N_nonempty (Z.to_N z)).
    destruct (dec_of_N (Z.to_N z)) as [|c t]; [done|]. exists c, t.
    simpl in Hd. apply andb_true_iff in Hd as [Hc _]. unfold is_digit in Hc.
    apply andb_true_iff in Hc as [H1%N.leb_le H2%N.leb_le].
    split; [done|]. split; [|lia]. unfold is_json_ws.
    by rewrite !(proj2 (N.eqb_neq c _)) by lia.
  - by eexists _, _.
  - unfold bracket. case_match; [by eexists _, _|]. destruct gap; by eexists _, _.
  - unfold bracket. case_match; [by eexists _, _|]. destruct gap; by eexists _, _.
Qed.

Lemma ser_some ind v : json_ok v → ∃ w, ser gap ind v = Some w.
Proof. destruct 1; cbn [ser]; eauto. Qed.

Lemma json_ok_ser_default ind v :
  json_ok v → ser gap ind v = Some (default (js "null") (ser gap ind v)).
Proof. intros Hv. by destruct (ser_some ind v Hv) as [w ->]. Qed.

Lemma bracket_length o c ind ind' ws :
  (cost ws + 2 ≤ 2 * length (bracket gap o c ind ind' ws))%nat.
Proof.
  destruct ws as [|w ws]; [cbn; lia|]. rewrite bracket_cons. cbn [length].
  rewrite !length_app. pose proof (cost_join (44%N :: lead ind') (w :: ws) ltac:(done)).
  cbn [length]. lia.
Qed.

(** A non-empty item list does not start with a closing bracket. *)
Lemma next_is_first c s w ws sep t :
  all_ws s → (∃ d u, w = d :: u ∧ is_json_ws d = false ∧ d ≠ c) →
  next_is c (s ++ join sep (w :: ws) ++ t) = None.
Proof.
  intros Hs (d & u & -> & Hd & Hc).
  destruct ws; simpl; rewrite next_is_other; done.
Qed.

Lemma all_ws_app s t : all_ws s → all_ws t → all_ws (s ++ t).
Proof. apply Forall_app_2. Qed.

Lemma reads_array ind l :
  all_ws ind →
  (∀ x, x ∈ l → json_ok x ∧ ∀ w, ser gap (ind ++ gap) x = Some w → reads x w) →
  ∀ w, ser gap ind (VArr l) = Some w → reads (VArr l) w.
Proof.
  intros Hind Hl w. cbn [ser]. intros [= <-]. set (ind' := ind ++ gap).
  assert (all_ws ind') by (by apply all_ws_app).
  set (ws := map _ l).
  assert (Forall2 reads l ws) as Hreads.
  { unfold ws. apply Forall2_fmap_r, Forall_Forall2_diag, Forall_forall.
    intros x Hx. destruct (Hl x Hx) as [Hok Hr]. by apply Hr, json_ok_ser_default. }
  pose proof (bracket_length 91 93 ind ind' ws) as Hlen.
  intros f pre r Hpre Hr Hf. destruct f as [|f]; [lia|]. cbn [parse_value].
  destruct ws as [|w ws'] eqn:Ews.
  - apply Forall2_nil_inv_r in Hreads as ->. cbn [bracket app].
    by rewrite skip_ws_app, skip_ws_cons by done.
  - rewrite bracket_cons, <-app_comm_cons, skip_ws_app, skip_ws_cons by done.
    cbn [N.eqb Pos.eqb]. rewrite <-!app_assoc.
    rewrite next_is_first.
    + change ([93%N] ++ r) with (93%N :: r).
      by rewrite (parse_elems_ok ind _ l) by (first [done | by apply lead_ws | lia]).
    + by apply lead_ws.
    + assert (∃ x, x ∈ l ∧ w = default (js "null") (ser gap ind' x)) as (x & Hx & Hw).
      { destruct l as [|x l']; [done|]. exists x. split; [constructor|]. by injection Ews. }
      destruct (Hl x Hx) as [Hok _].
      destruct (ser_head ind' x w Hok) as (c & t & -> & ? & ? & ?);
        [by rewrite Hw; apply json_ok_ser_default | eauto].
Qed.

Lemma reads_object ind ps :
  all_ws ind → Forall (λ kv, Forall code_unit (fst kv)) ps → obj_of ps [] = ps →
  (∀ kv, kv ∈ ps → json_ok (snd kv) ∧ ∀ w, ser gap (ind ++ gap) (snd kv) = Some w → reads (snd kv) w) →
  ∀ w, ser gap ind (VObj ps) = Some w → reads (VObj ps) w.
Proof.
  intros Hind Hk Ho Hps w. cbn [ser]. intros [= <-]. set (ind' := ind ++ gap).
  assert (all_ws ind') by (by apply all_ws_app).
  set (its := omap _ ps).
  assert (Forall2 reads_member ps its) as Hreads.
  { unfold its. clear Ho. induction ps as [|kv ps IH]; [constructor|].
    apply Forall_cons in Hk as [Hk1 Hk].
    destruct (Hps kv) as [Hok Hr]; [constructor|].
    destruct (ser_some ind' (snd kv) Hok) as [w Hw].
    simpl. rewrite Hw. constructor.
    - exists w. split; [done|]. split; [done|]. by apply Hr.
    - apply IH; [done|]. intros kv' Hkv'. apply Hps. by constructor. }
  pose proof (bracket_length 123 125 ind ind' its) as Hlen.
  intros f pre r Hpre Hr Hf. destruct f as [|f]; [lia|]. cbn [parse_value].
  destruct its as [|it its'] eqn:Eits.
  - apply Forall2_nil_inv_r in Hreads as ->. cbn [bracket app].
    by rewrite skip_ws_app, skip_ws_cons by done.
  - rewrite bracket_cons, <-app_comm_cons, skip_ws_app, skip_ws_cons by done.
    cbn [N.eqb Pos.eqb]. rewrite <-!app_assoc.
    rewrite next_is_first.
    + change ([125%N] ++ r) with (125%N :: r).
      rewrite (parse_members_ok ind _ ps) by (first [done | by apply lead_ws | lia]).
      by rewrite Ho.
    + by apply lead_ws.
    + apply Forall2_cons_inv_r in Hreads as (kv & ps' & (v & -> & _) & _ & _).
      unfold quote_json. by eexists _, _.
Qed.

Lemma ser_reads v :
  json_ok v → ∀ ind, all_ws ind → ∀ w, ser gap ind v = Some w → reads v w.
Proof.
  induction v as [| |b|n|s|l IH|ps IH] using val_ind'; intros Hv ind Hind; inversion Hv; subst.
  - intros w [= <-] [|f] pre r Hpre Hr Hf; [simpl in Hf; lia|].
    cbn [parse_value]. by rewrite skip_ws_app.
  - intros w [= <-] [|f] pre r Hpre Hr Hf; [destruct b; simpl in Hf; lia|].
    cbn [parse_value]. destruct b; by rewrite skip_ws_app.
  - cbn [ser]. intros w. rewrite num_of_Z_finite, num_to_string_safe by done.
    intros [= <-]. by apply parse_value_dec.
  - intros w [= <-]. by apply parse_value_string.
  - apply reads_array; [done|]. rewrite Forall_forall in IH, H0.
    intros x Hx. split; [by apply H0|]. apply IH; [done | by apply H0 | by apply all_ws_app].
  - rewrite Forall_forall in IH, H1. apply reads_object; [done|done|done|].
    intros kv Hkv. split; [by apply H1|].
    apply (IH kv Hkv); [by apply H1 | by apply all_ws_app].
Qed.

(** [JSON.parse(JSON.stringify(v, null, gap))] is [v]. *)
Lemma json_parse_stringify v :
  json_ok v → ∃ w, json_stringify gap v = Some w ∧ json_parse w = Ok v.
Proof.
  intros Hv. destruct (ser_some [] v Hv) as [w Hw]. exists w. split; [done|].
  unfold json_parse.
  pose proof (ser_reads v Hv [] ltac:(constructor) w Hw (2 * length w + 2)%nat [] [])
    as Hr. rewrite app_nil_r in Hr.
  change ([] ++ w) with w in Hr. rewrite Hr; [done|constructor|done|lia].
Qed.
End roundtrip.

(** ** Blank texts *)

Lemma ws_no_value c r f s :
  is_ws c = true → skip_ws s = c :: r → parse_value f s = None.
Proof.
  intros Hc Hs. destruct f as [|f]; [done|]. cbn [parse_value]. rewrite Hs.
  unfold parse_num. cbn [span_digits].
  assert ((c =? 34) = false ∧ (c =? 91) = false ∧ (c =? 123) = false ∧ (c =? 116) = false ∧
          (c =? 102) = false ∧ (c =? 110) = false ∧ (c =? 45) = false ∧ (c =? 48) = false ∧
          is_digit c = false)%N as (-> & -> & -> & -> & -> & -> & -> & -> & ->); [|done].
  unfold is_ws in Hc. unfold is_digit. repeat split; first [apply N.eqb_neq; intros -> | idtac];
    try (vm_compute in Hc; discriminate Hc).
  apply not_true_iff_false. intros Hd. apply andb_true_iff in Hd as [H1%N.leb_le H2%N.leb_le].
  rewrite !orb_true_iff, !andb_true_iff, !N.eqb_eq, !N.leb_le in Hc. lia.
Qed.

(** A text that [trim] empties is not JSON. *)
Lemma json_parse_blank s : trim s = [] → json_parse s = Throw SyntaxError.
Proof.
  intros H. unfold json_parse. destruct (skip_ws s) as [|c r] eqn:E.
  - by replace (parse_value (2 * length s + 2) s) with (@None (val * jsstr))
      by (rewrite Nat.add_comm; cbn [Nat.add parse_value]; by rewrite E).
  - rewrite (ws_no_value c r); [done | | done]. apply (trim_nil_all_ws s); [done|].
    unfold skip_ws in E. destruct (drop_while_suffix is_json_ws s) as [k ->]. rewrite E. set_solver.
Qed.

Lemma strip_prefix_app p s : strip_prefix p (p ++ s) = Some s.
Proof. induction p as [|c p IH]; simpl; [done|]. by rewrite N.eqb_refl. Qed.
