(* ===== verification/JsonData.v ===== *)
(** * What JSON keeps of a value

    [JSON.stringify] leaves out the properties that are [undefined], writes
    [null] for [undefined] elements of arrays and for numbers that are not
    finite, and otherwise keeps everything: [kept v] is the value that comes
    back.  Object literals whose names are no array indices keep their order. *)

From Stdlib Require Import ZArith.
From S2P Require Import Prelude JsString JsNumber JsNumberFacts JsCollections JsValue Json JsonFacts.

(** The property as it comes back, if it does. *)
Definition kept_prop (k : jsstr) (w : val) : option (jsstr * val) :=
  match w with VUndef => None | _ => Some (k, w) end.

Fixpoint kept (v : val) : val :=
  match v with
  | VNum n => if num_is_finite n then VNum n else VNull
  | VArr l => VArr (map (λ x, match kept x with VUndef => VNull | w => w end) l)
  | VObj ps => VObj (omap (λ kv, kept_prop (fst kv) (kept (snd kv))) ps)
  | _ => v
  end.

Definition kept_props (ps : list (jsstr * val)) : list (jsstr * val) :=
  omap (λ kv, kept_prop (fst kv) (kept (snd kv))) ps.

Lemma kept_undef v : kept v = VUndef ↔ v = VUndef.
Proof. destruct v as [| | |n| | |]; simpl; try done. by destruct (num_is_finite n). Qed.

Lemma undef_or v : v = VUndef ∨ v ≠ VUndef.
Proof. destruct v; by (left + right). Qed.

Lemma kept_prop_defined k v : v ≠ VUndef → kept_prop k (kept v) = Some (k, kept v).
Proof.
  intros Hv. assert (kept v ≠ VUndef) as H by by rewrite kept_undef.
  unfold kept_prop. by destruct (kept v).
Qed.

Lemma omap_omap {A B C} (f : A → option B) (g : B → option C) (l : list A) :
  omap g (omap f l) = omap (λ x, y ← f x; g y) l.
Proof.
  induction l as [|x l IH]; [done|]. csimpl. destruct (f x) as [y|]; csimpl; [|done].
  destruct (g y); csimpl; by rewrite IH.
Qed.

Lemma omap_ext_Forall {A B} (f g : A → option B) (l : list A) :
  Forall (λ x, f x = g x) l → omap f l = omap g l.
Proof. induction 1 as [|x l Hx Hl IH]; [done|]. csimpl. by rewrite Hx, IH. Qed.

Lemma map_ext_Forall {A B} (f g : A → B) (l : list A) : Forall (λ x, f x = g x) l → map f l = map g l.
Proof. induction 1 as [|x l Hx Hl IH]; simpl; [done|]. by rewrite Hx, IH. Qed.

(** The text of a value is the text of what is kept of it. *)
Lemma ser_kept gap v : ∀ ind, ser gap ind (kept v) = ser gap ind v.
Proof.
  induction v as [| |b|n|s|l IH|ps IH] using val_ind'; intros ind; try done.
  - cbn [kept ser]. destruct (num_is_finite n) eqn:E; cbn [ser]; by rewrite ?E.
  - cbn [kept ser]. do 2 f_equal. rewrite map_map. apply map_ext_Forall.
    eapply Forall_impl; [exact IH|]. intros x Hx. cbv beta.
    destruct (kept x) eqn:E; try (rewrite <-E, Hx; done).
    by apply kept_undef in E as ->.
  - cbn [kept ser]. do 2 f_equal. rewrite omap_omap. apply omap_ext_Forall.
    eapply Forall_impl; [exact IH|]. intros [k v] Hv. cbn [fst snd] in *.
    destruct (undef_or v) as [->|Hne]; [done|]. rewrite kept_prop_defined by done.
    cbn [mbind option_bind fst snd]. by rewrite Hv.
Qed.

Lemma kept_ok v : json_ok v → kept v = v.
Proof.
  induction v as [| |b|n|s|l IH|ps IH] using val_ind'; intros H; inversion H; subst; try done.
  - simpl. by rewrite num_of_Z_finite.
  - cbn [kept]. f_equal. rewrite <-(map_id l) at 2. apply map_ext_Forall.
    rewrite Forall_forall in *. intros x Hx. rewrite IH by auto.
    destruct (H1 x Hx); done.
  - cbn [kept]. f_equal.
    match goal with |- omap ?f ps = _ => set (f0 := f) end.
    assert (omap f0 ps = omap Some ps) as ->.
    { apply omap_ext_Forall. rewrite Forall_forall in *. intros [k v] Hkv. unfold f0. cbn [fst snd].
      pose proof (IH (k, v) Hkv (H2 (k, v) Hkv)) as E. cbn [snd] in E. rewrite E.
      pose proof (H2 (k, v) Hkv) as Hv. cbn [snd] in Hv. by destruct Hv. }
    clear. induction ps as [|x ps IH]; [done|]. csimpl. by rewrite IH.
Qed.

(** [JSON.parse(JSON.stringify(v))] is what is kept of [v]. *)
Lemma json_parse_kept gap v :
  all_ws gap → json_ok (kept v) →
  ∃ w, json_stringify gap v = Some w ∧ json_parse w = Ok (kept v).
Proof.
  intros Hg Hv. destruct (json_parse_stringify gap Hg _ Hv) as (w & Hw & Hp).
  exists w. split; [|done]. unfold json_stringify in *. by rewrite <-ser_kept.
Qed.

(** ** Properties *)

(** A text that parses is not empty. *)
Lemma parsed_truthy text v : json_parse text = Ok v → truthy_str text = true.
Proof. intros H. apply truthy_str_true. intros ->. vm_compute in H. discriminate. Qed.

Lemma parsed_defined text : json_parse text ≠ Ok VUndef.
Proof.
  unfold json_parse. rewrite Nat.add_comm. cbn [Nat.add parse_value]. unfold parse_literal, parse_num.
  intros H. repeat case_match; simplify_eq.
Qed.

Lemma mget_kept ps k :
  NoDup (mkeys ps) →
  mget k (kept_props ps)
  = match mget k ps with Some v => snd <$> kept_prop k (kept v) | None => None end.
Proof.
  induction ps as [|[j v] ps IH]; [done|]. intros [Hj Hnd]%NoDup_cons. unfold kept_props. csimpl.
  fold (kept_props ps). assert (k = j → mget k (kept_props ps) = None) as Habs.
  { intros ->. rewrite IH by done. by rewrite (proj2 (mget_None j ps)). }
  destruct (undef_or v) as [->|Hv].
  - cbn. destruct (decide (k = j)) as [Hkj|]; [by apply Habs | by apply IH].
  - rewrite kept_prop_defined by done. cbn [mget].
    destruct (decide (k = j)) as [->|]; [|by apply IH].
    by rewrite kept_prop_defined.
Qed.

Lemma get_kept ps k :
  NoDup (mkeys ps) → default VUndef (mget k (kept_props ps)) = kept (default VUndef (mget k ps)).
Proof.
  intros Hnd. rewrite mget_kept by done. destruct (mget k ps) as [v|]; simpl; [|done].
  unfold kept_prop. by destruct (kept v).
Qed.

(** Names that are no array indices and come once. *)
Definition plain_names (ks : list jsstr) : bool :=
  bool_decide (NoDup ks) && forallb (λ k, bool_decide (array_index k = None)) ks.

Lemma obj_set_fresh {V} k (v : V) ps :
  k ∉ mkeys ps → array_index k = None → obj_set k v ps = ps ++ [(k, v)].
Proof. intros Hk Ha. unfold obj_set. by rewrite (proj2 (mget_None k ps)), Ha. Qed.

Lemma obj_set_same {V} k (v : V) ps : mget k ps = Some v → obj_set k v ps = ps.
Proof.
  intros H. unfold obj_set. rewrite H.
  induction ps as [|[j w] ps IH]; [done|]. simpl in *.
  case_decide; simplify_eq; [done|]. by rewrite IH.
Qed.

Lemma obj_del_absent {V} k (ps : list (jsstr * V)) : mget k ps = None → obj_del k ps = ps.
Proof.
  intros H%mget_None. unfold obj_del. apply filterb_all. intros [j w] Hj.
  apply negb_true_iff, bool_decide_eq_false. intros Hjk. simpl in Hjk. subst.
  apply H. by apply (list_elem_of_fmap_2 fst) in Hj.
Qed.

Lemma from_plain {V} (ps acc : list (jsstr * V)) :
  plain_names (mkeys (acc ++ ps)) = true →
  fold_left (λ acc kv, obj_set (fst kv) (snd kv) acc) ps acc = acc ++ ps.
Proof.
  revert acc; induction ps as [|[k v] ps IH]; intros acc H; [by rewrite app_nil_r|].
  cbn [fold_left fst snd]. pose proof H as [Hnd Hi]%andb_true_iff.
  apply bool_decide_eq_true in Hnd. unfold mkeys in Hnd, Hi. rewrite map_app in Hnd, Hi. cbn [map fst] in Hnd, Hi.
  rewrite obj_set_fresh.
  - rewrite (cons_middle (k, v) acc ps), app_assoc. apply IH. by rewrite <-app_assoc.
  - apply NoDup_app in Hnd as (_ & Hn & _). intros Hk. apply (Hn k); [done | set_solver].
  - rewrite forallb_forall_elem in Hi. specialize (Hi k ltac:(set_solver)). by unbool.
Qed.

Lemma obj_of_plain ps : plain_names (mkeys ps) = true → obj_of ps [] = ps.
Proof. intros H. unfold obj_of. by apply (from_plain ps []). Qed.

Lemma plain_sublist ks ks' : ks `sublist_of` ks' → plain_names ks' = true → plain_names ks = true.
Proof.
  unfold plain_names. intros Hs H. unbool. apply andb_true_iff. split.
  - apply bool_decide_eq_true. by eapply sublist_NoDup.
  - rewrite forallb_forall_elem in *. intros k Hk. apply H0. by eapply elem_of_submseteq, sublist_submseteq.
Qed.

Lemma kept_props_sublist ps : mkeys (kept_props ps) `sublist_of` mkeys ps.
Proof.
  induction ps as [|[k v] ps IH]; [done|]. unfold kept_props. csimpl. fold (kept_props ps).
  unfold kept_prop. destruct (kept v); csimpl; by constructor.
Qed.

(** An object literal of plain names whose values can be written. *)
Lemma json_ok_kept ps :
  plain_names (mkeys ps) = true → Forall (Forall code_unit) (mkeys ps) →
  Forall (λ kv, snd kv = VUndef ∨ json_ok (kept (snd kv))) ps →
  json_ok (kept (VObj ps)).
Proof.
  intros Hn Hu Hv. change (kept (VObj ps)) with (VObj (kept_props ps)).
  assert (Forall (λ kv, Forall code_unit (fst kv) ∧ json_ok (snd kv)) (kept_props ps)) as H.
  { unfold mkeys in Hu. rewrite Forall_fmap in Hu. rewrite Forall_forall in *. intros kv Hkv.
    apply list_elem_of_omap in Hkv as ([k v] & Hin & E). cbn [fst snd] in E.
    destruct (Hv _ Hin) as [Hx|Hx]; cbn [snd] in Hx; [by subst v|].
    unfold kept_prop in E. destruct (kept v) eqn:Ek; try done; injection E as <-; split;
      try done; apply (Hu (k, v) Hin). }
  apply Forall_and in H as [Hk Hj]. constructor; [done | done |].
  apply obj_of_plain. eapply plain_sublist; [apply kept_props_sublist | done].
Qed.

(** ** Object literals and what is read from them *)

(** A member that may be missing. *)
Definition opt_js {A} (f : A → val) (o : option A) : val :=
  match o with Some x => f x | None => VUndef end.

Lemma kept_object ps : kept (VObj ps) = VObj (kept_props ps).
Proof. reflexivity. Qed.

(** The property at a place of a literal, before and after the text. *)
Lemma literal_at ps i k v :
  plain_names (mkeys ps) = true → ps !! i = Some (k, v) → default VUndef (mget k ps) = v.
Proof.
  intros Hn Hi. unfold plain_names in Hn. unbool.
  rewrite (elem_of_mget k v ps); [done | done |]. by eapply list_elem_of_lookup_2.
Qed.

Lemma kept_at ps i k v :
  plain_names (mkeys ps) = true → ps !! i = Some (k, v) → default VUndef (mget k (kept_props ps)) = kept v.
Proof.
  intros Hn Hi. rewrite get_kept by (unfold plain_names in Hn; by unbool). by rewrite (literal_at ps i k v Hn Hi).
Qed.

Lemma bind_ok {A B} (m : res A) a (f : A → res B) r : m = Ok a → f a = r → (m ≫= f) = r.
Proof. by intros ->. Qed.
