(* ===== verification/HttpStatusCodeRules.v ===== *)
(** * Status code rules (lib/http-status-code-rules.ts)

    Administrators type lists such as ["401, 429, 500-503"]; the module
    parses them, merges the ranges and prints the canonical text back. *)

From Stdlib Require Import ZArith ZifyN.
From stdpp Require Import sorting.
From S2P Require Import Prelude JsString JsNumber JsNumberFacts JsCollections JsValue.

Local Open Scope N_scope.

Record StatusCodeRange := { start : N; end_ : N }.

#[export] Instance StatusCodeRange_eq_dec : EqDecision StatusCodeRange.
Proof. solve_decision. Defined.

Record ParsedHttpStatusCodeRules := {
  ok : bool;
  ranges : list StatusCodeRange;
  tokens : list jsstr;
  normalized : jsstr;
  invalidTokens : list jsstr
}.

(** [/^\d+$/.test(s)]. *)
Definition isNumber (s : jsstr) : bool := bool_decide (s ≠ []) && forallb is_digit s.

(** The code is the integer [parseInt] denotes; beyond the exact range both
    it and the rounded number exceed 599. *)
Definition isValidCode (code : N) : bool := (100 <=? code) && (code <=? 599).

Definition hyphen : N := 45.

Definition parseToken (token : jsstr) : option StatusCodeRange :=
  let cleaned := strip_ws (trim token) in
  match cleaned with
  | [] => None
  | _ =>
      if includes cleaned [hyphen] then
        match split_on hyphen cleaned with
        | a :: b :: _ =>
            if negb (isNumber a) || negb (isNumber b) then None
            else
              let start := dec_value a in
              let end_ := dec_value b in
              if negb (isValidCode start) || negb (isValidCode end_) || (end_ <? start)
              then None
              else Some {| start := start; end_ := end_ |}
        | _ => None
        end
      else if negb (isNumber cleaned) then None
      else
        let code := dec_value cleaned in
        if negb (isValidCode code) then None
        else Some {| start := code; end_ := code |}
  end.

(** The comparator of the sort; differences of valid codes are exact. *)
Definition cmp_range (a b : StatusCodeRange) : num :=
  if negb (start a =? start b)
  then num_of_Z (Z.of_N (start a) - Z.of_N (start b))
  else num_of_Z (Z.of_N (end_ a) - Z.of_N (end_ b)).

(** The reducer: [merged] holds fresh copies, of which it updates the last. *)
Definition merge_step (merged : list StatusCodeRange) (current : StatusCodeRange)
    : list StatusCodeRange :=
  match last merged with
  | None => merged ++ [current]
  | Some lst =>
      if end_ lst + 1 <? start current then merged ++ [current]
      else removelast merged
           ++ [{| start := start lst; end_ := N.max (end_ lst) (end_ current) |}]
  end.

Definition mergeRanges (ranges : list StatusCodeRange) : list StatusCodeRange :=
  match ranges with
  | [] => []
  | _ => fold_left merge_step (js_sort cmp_range ranges) []
  end.

(** The loop over the segments, filling [ranges] and [invalidTokens]. *)
Definition parse_segments (segments : list jsstr) : list StatusCodeRange * list jsstr :=
  fold_left (λ '(ranges, invalid) segment,
    match parseToken segment with
    | None => (ranges, invalid ++ [segment])
    | Some parsed => (ranges ++ [parsed], invalid)
    end) segments ([], []).

Definition range_token (r : StatusCodeRange) : jsstr :=
  if start r =? end_ r then dec_of_N (start r)
  else dec_of_N (start r) ++ [hyphen] ++ dec_of_N (end_ r).

Definition segments_of (raw : jsstr) : list jsstr :=
  let sanitized := replace_char 0xFF0C comma raw in
  List.filter truthy_str (map trim (split_on comma sanitized)).

Definition parse_rules_text (input : jsstr) : ParsedHttpStatusCodeRules :=
  let raw := trim input in
  match raw with
  | [] => {| ok := true; ranges := []; tokens := []; normalized := []; invalidTokens := [] |}
  | _ =>
      let '(rs, invalid) := parse_segments (segments_of raw) in
      match invalid with
      | _ :: _ =>
          {| ok := false; ranges := []; tokens := []; normalized := raw;
             invalidTokens := invalid |}
      | [] =>
          let merged := mergeRanges rs in
          let toks := map range_token merged in
          {| ok := true; ranges := merged; tokens := toks;
             normalized := join [comma] toks; invalidTokens := [] |}
      end
  end.

(** [(input ?? '').toString()] comes first. *)
Definition parseHttpStatusCodeRules (input : val) : res ParsedHttpStatusCodeRules :=
  text ← (if nullish input then Ok [] else to_string input);
  Ok (parse_rules_text text).

Example parse_rules_ex :
  (λ r, (ok r, normalized r)) <$>
    (match parseHttpStatusCodeRules (VStr (js "500-503，429, 504 ,501")) with
     | Ok r => Some r | _ => None end)
  = Some (true, js "429,500-504").
Proof. vm_compute. reflexivity. Qed.

Example parse_rules_ex_bad :
  parse_rules_text (js "99,500-400,x")
  = {| ok := false; ranges := []; tokens := []; normalized := js "99,500-400,x";
       invalidTokens := [js "99"; js "500-400"; js "x"] |}.
Proof. vm_compute. reflexivity. Qed.

(** ** Denotation of rules and the canonical form *)

Definition in_range (c : N) (r : StatusCodeRange) : Prop := start r <= c <= end_ r.

(** The codes a list of ranges selects. *)
Definition covers (rs : list StatusCodeRange) (c : N) : Prop := ∃ r, r ∈ rs ∧ in_range c r.

Definition well_formed (r : StatusCodeRange) : Prop :=
  100 <= start r ∧ start r <= end_ r ∧ end_ r <= 599.

(** A gap of at least one code separates [a] from the later [b]. *)
Definition before (a b : StatusCodeRange) : Prop := end_ a + 1 < start b.

(** Canonical lists: well-formed ranges in order, no two of them touching. *)
Definition canonical (rs : list StatusCodeRange) : Prop :=
  Forall well_formed rs ∧ StronglySorted before rs.

Lemma covers_app rs rs' c : covers (rs ++ rs') c ↔ covers rs c ∨ covers rs' c.
Proof. unfold covers. setoid_rewrite elem_of_app. naive_solver. Qed.

Lemma covers_single r c : covers [r] c ↔ in_range c r.
Proof. unfold covers. setoid_rewrite list_elem_of_singleton. naive_solver. Qed.

Lemma covers_cons r rs c : covers (r :: rs) c ↔ in_range c r ∨ covers rs c.
Proof. change (r :: rs) with ([r] ++ rs). by rewrite covers_app, covers_single. Qed.

#[export] Instance covers_perm : Proper ((≡ₚ) ==> (=) ==> iff) covers.
Proof. intros rs rs' H c ? <-. unfold covers. by setoid_rewrite H. Qed.

(** *** Sorting *)

Definition range_le (a b : StatusCodeRange) : Prop :=
  start a < start b ∨ (start a = start b ∧ end_ a <= end_ b).

Lemma cmp_range_gt a b :
  well_formed a → well_formed b → cmp_gt cmp_range a b = false ↔ range_le a b.
Proof.
  unfold well_formed, cmp_gt, cmp_range, range_le. intros Ha Hb.
  change num_zero with (num_of_Z 0).
  destruct (N.eqb_spec (start a) (start b)); cbn [negb];
    rewrite num_ltb_exact by (unfold safe; lia); rewrite Z.ltb_ge; lia.
Qed.

Lemma cmp_range_consistent : consistent_on cmp_range well_formed.
Proof.
  split.
  - intros x y Hx Hy H. apply cmp_range_gt; [done..|].
    destruct (cmp_gt cmp_range y x) eqn:E; [|by apply cmp_range_gt in E].
    exfalso. assert (¬ range_le x y) as Hn.
    { rewrite <-cmp_range_gt by done. congruence. }
    assert (¬ range_le y x) as Hn'.
    { rewrite <-cmp_range_gt by done. congruence. }
    unfold range_le in *. lia.
  - intros x y z Hx Hy Hz. rewrite !cmp_range_gt by done. unfold range_le. lia.
Qed.

Lemma sorted_ranges rs :
  Forall well_formed rs → StronglySorted range_le (js_sort cmp_range rs).
Proof.
  intros Hrs.
  pose proof (js_sort_sorted cmp_range well_formed rs cmp_range_consistent Hrs) as Hs.
  assert (Forall well_formed (js_sort cmp_range rs)) as Hw by (by rewrite js_sort_perm).
  revert Hw. induction Hs as [|x l Hs IH Hx]; intros Hw; [constructor|].
  apply Forall_cons in Hw as [Hwx Hwl]. constructor; [by apply IH|].
  rewrite Forall_forall in *. intros y Hy. apply cmp_range_gt; [done | by apply Hwl | by apply Hx].
Qed.

(** *** Merging *)

(** The invariant of the reducer: the accumulator is canonical and starts
    no later than what remains. *)
Record merge_inv (merged rest : list StatusCodeRange) : Prop := {
  inv_canonical : canonical merged;
  inv_rest : ∀ lst r, last merged = Some lst → r ∈ rest → start lst <= start r
}.

Lemma canonical_snoc rs r :
  canonical (rs ++ [r]) ↔ canonical rs ∧ well_formed r ∧ ∀ x, x ∈ rs → before x r.
Proof.
  unfold canonical. rewrite Forall_app, Forall_singleton. split.
  - intros [[Hrs Hr] Hs]. apply StronglySorted_app in Hs as (Hx & Hs1 & _).
    split_and!; try done. intros x H. apply Hx; [done | by constructor].
  - intros [[Hrs Hs] [Hr Hx]]. split_and!; try done.
    apply StronglySorted_app. split_and!; [|done|by repeat constructor].
    intros x y H ->%list_elem_of_singleton. by apply Hx.
Qed.

Lemma merge_step_inv merged cur rest :
  well_formed cur → (∀ r, r ∈ rest → start cur <= start r) →
  merge_inv merged (cur :: rest) →
  merge_inv (merge_step merged cur) rest ∧
  (∀ c, covers (merge_step merged cur) c ↔ covers merged c ∨ in_range c cur).
Proof.
  intros Hc Hrest [Hcan Hle]. unfold merge_step.
  destruct merged as [|l merged' _] using rev_ind; simpl.
  - split; [|intros c; rewrite covers_single; unfold covers; set_solver].
    split; [split; [by constructor | by repeat constructor]|].
    intros lst r [= <-]. apply Hrest.
  - rewrite last_snoc. apply canonical_snoc in Hcan as (Hm & Hl & Hbefore).
    assert (start l <= start cur) as Hstart.
    { apply Hle; [by rewrite last_snoc | by constructor]. }
    destruct (N.ltb_spec (end_ l + 1) (start cur)) as [Hgap|Hgap].
    + split; [split|].
      * apply canonical_snoc. split_and!; [by apply canonical_snoc|done|].
        unfold before, well_formed in *. intros x [Hx| ->%list_elem_of_singleton]%elem_of_app; [|done].
        specialize (Hbefore x Hx). lia.
      * intros lst r. rewrite last_snoc. intros [= <-]. apply Hrest.
      * intros c. by rewrite covers_app, covers_single.
    + rewrite removelast_last. split; [split|].
      * apply canonical_snoc. split_and!; [done| |done].
        unfold well_formed in *; simpl. lia.
      * intros lst r. rewrite last_snoc. intros [= <-] Hr. simpl.
        specialize (Hrest r Hr). lia.
      * intros c. rewrite !covers_app, !covers_single. unfold in_range, well_formed in *. simpl.
        split; [intros [?|?]; [tauto|] | intros [[?|?]|?]; [tauto| |]]; [|right; lia..].
        destruct (N.le_gt_cases c (end_ l)); [left; right; lia | right; lia].
Qed.

Lemma merge_fold rest merged :
  Forall well_formed rest → StronglySorted range_le rest → merge_inv merged rest →
  canonical (fold_left merge_step rest merged) ∧
  (∀ c, covers (fold_left merge_step rest merged) c ↔ covers merged c ∨ covers rest c).
Proof.
  revert merged. induction rest as [|cur rest IH]; intros merged Hw Hs Hinv; simpl.
  - split; [apply Hinv|]. intros c. unfold covers at 3. set_solver.
  - apply Forall_cons in Hw as [Hc Hw]. apply StronglySorted_inv in Hs as [Hs Hcur].
    destruct (merge_step_inv merged cur rest) as [Hinv' Hcov]; [done| |done|].
    { intros r Hr. rewrite Forall_forall in Hcur. destruct (Hcur r Hr); lia. }
    destruct (IH _ Hw Hs Hinv') as [Hcan Hcov']. split; [done|].
    intros c. rewrite Hcov', Hcov, covers_cons. tauto.
Qed.

Lemma mergeRanges_spec rs :
  Forall well_formed rs →
  canonical (mergeRanges rs) ∧ ∀ c, covers (mergeRanges rs) c ↔ covers rs c.
Proof.
  intros Hrs. unfold mergeRanges. destruct rs as [|r rs'] eqn:E; [|rewrite <-E in *].
  { split; [split; constructor | done]. }
  destruct (merge_fold (js_sort cmp_range rs) []) as [Hcan Hcov].
  - by rewrite js_sort_perm.
  - by apply sorted_ranges.
  - split; [split; constructor | done].
  - split; [done|]. intros c. rewrite Hcov, js_sort_perm. unfold covers at 1. set_solver.
Qed.

(** *** Uniqueness of the canonical form *)

Lemma canonical_cons r rs :
  canonical (r :: rs) ↔ well_formed r ∧ canonical rs ∧ ∀ x, x ∈ rs → before r x.
Proof.
  unfold canonical. rewrite Forall_cons. split.
  - intros [[Hr Hrs] Hs]. apply StronglySorted_inv in Hs as [Hs Hx].
    rewrite Forall_forall in Hx. done.
  - intros (Hr & [Hrs Hs] & Hx). split; [done|]. constructor; [done|].
    by rewrite Forall_forall.
Qed.

Lemma canonical_head_covers r rs c :
  canonical (r :: rs) → covers (r :: rs) c →
  start r <= c ∧ (covers rs c ↔ end_ r < c) ∧ c ≠ end_ r + 1.
Proof.
  rewrite canonical_cons, covers_cons. unfold well_formed, before.
  intros (Hr & Hcan & Hx) Hc.
  assert (covers rs c → end_ r + 1 < c) as Htail.
  { intros (x & Hin & Hi). specialize (Hx x Hin). unfold in_range in Hi. lia. }
  unfold in_range in Hc. destruct Hc as [Hc|Hc].
  - split; [lia|]. split; [|lia]. split; [intros H; apply Htail in H; lia | lia].
  - pose proof (Htail Hc). split; [lia|]. split; [split; [lia | done] | lia].
Qed.

Lemma canonical_unique rs rs' :
  canonical rs → canonical rs' → (∀ c, covers rs c ↔ covers rs' c) → rs = rs'.
Proof.
  revert rs'; induction rs as [|r rs IH]; intros [|r' rs'] Hc Hc' Heq; [done| | |].
  - apply canonical_cons in Hc' as (Hr & _). unfold well_formed in Hr.
    destruct (proj2 (Heq (start r'))) as (x & Hx & _); [|by apply elem_of_nil in Hx].
    apply covers_cons. left. unfold in_range. lia.
  - apply canonical_cons in Hc as (Hr & _). unfold well_formed in Hr.
    destruct (proj1 (Heq (start r))) as (x & Hx & _); [|by apply elem_of_nil in Hx].
    apply covers_cons. left. unfold in_range. lia.
  - pose proof Hc as (Hr & Hcan & _)%canonical_cons.
    pose proof Hc' as (Hr' & Hcan' & _)%canonical_cons. unfold well_formed in Hr, Hr'.
    assert (∀ c, in_range c r → covers (r' :: rs') c) as H1.
    { intros c H. apply Heq, covers_cons. by left. }
    assert (∀ c, in_range c r' → covers (r :: rs) c) as H2.
    { intros c H. apply Heq, covers_cons. by left. }
    unfold in_range in H1, H2.
    assert (start r = start r') as Hs.
    { pose proof (canonical_head_covers _ _ (start r) Hc' ltac:(apply H1; lia)).
      pose proof (canonical_head_covers _ _ (start r') Hc ltac:(apply H2; lia)). lia. }
    assert (end_ r = end_ r') as He.
    { destruct (N.lt_trichotomy (end_ r) (end_ r')) as [Hlt|[?|Hlt]]; [|done|].
      - pose proof (canonical_head_covers _ _ (end_ r + 1) Hc ltac:(apply H2; lia)). lia.
      - pose proof (canonical_head_covers _ _ (end_ r' + 1) Hc' ltac:(apply H1; lia)). lia. }
    assert (r = r') as -> by (destruct r, r'; simpl in *; congruence).
    f_equal. apply IH; [done|done|].
    intros c. split; intros H.
    + assert (covers (r' :: rs) c) as Hcov by (apply covers_cons; by right).
      pose proof (canonical_head_covers _ _ c Hc Hcov) as (_ & Ht & _).
      apply Heq in Hcov. pose proof (canonical_head_covers _ _ c Hc' Hcov) as (_ & Ht' & _).
      tauto.
    + assert (covers (r' :: rs') c) as Hcov by (apply covers_cons; by right).
      pose proof (canonical_head_covers _ _ c Hc' Hcov) as (_ & Ht & _).
      apply Heq in Hcov. pose proof (canonical_head_covers _ _ c Hc Hcov) as (_ & Ht' & _).
      tauto.
Qed.

Lemma mergeRanges_canonical rs : canonical rs → mergeRanges rs = rs.
Proof.
  intros Hc. destruct (mergeRanges_spec rs) as [Hm Hcov]; [apply Hc|].
  by apply canonical_unique.
Qed.

(** *** Tokens *)

Lemma isNumber_dec n : isNumber (dec_of_N n) = true.
Proof.
  unfold isNumber. rewrite dec_of_N_digits, bool_decide_eq_true_2; [done|].
  apply dec_of_N_nonempty.
Qed.

Lemma hyphen_not_in_dec n : hyphen ∉ dec_of_N n.
Proof.
  intros H. pose proof (dec_of_N_digits n) as Hd. rewrite forallb_forall_elem in Hd.
  by specialize (Hd _ H).
Qed.

(** The units of a printed token. *)
Lemma elem_of_range_token r c : c ∈ range_token r → is_digit c = true ∨ c = hyphen.
Proof.
  assert (∀ n, c ∈ dec_of_N n → is_digit c = true) as H.
  { intros n. pose proof (dec_of_N_digits n) as Hd. rewrite forallb_forall_elem in Hd. apply Hd. }
  unfold range_token. case_match; [left; eauto|].
  rewrite !elem_of_app, list_elem_of_singleton. naive_solver.
Qed.

Lemma range_token_no_ws r : forallb (λ c, negb (is_ws c)) (range_token r) = true.
Proof.
  apply forallb_forall_elem. intros c Hc. apply elem_of_range_token in Hc as [Hd | ->]; [|done].
  by rewrite digit_not_ws.
Qed.

Lemma range_token_nonempty r : range_token r ≠ [].
Proof.
  unfold range_token. pose proof (dec_of_N_nonempty (start r)).
  case_match; [done|]. by destruct (dec_of_N (start r)).
Qed.

Lemma isValidCode_wf c : 100 <= c → c <= 599 → isValidCode c = true.
Proof. intros. unfold isValidCode. apply andb_true_iff; split; apply N.leb_le; lia. Qed.

Lemma parseToken_range_token r : well_formed r → parseToken (range_token r) = Some r.
Proof.
  unfold well_formed. intros Hr. unfold parseToken.
  rewrite trim_no_ws, strip_ws_id by apply range_token_no_ws.
  pose proof (range_token_nonempty r) as Hne.
  destruct (range_token r) as [|c0 t] eqn:E; [done|]. rewrite <-E. clear c0 t E Hne.
  unfold range_token. destruct (N.eqb_spec (start r) (end_ r)) as [Heq|Hneq].
  - assert (includes (dec_of_N (start r)) [hyphen] = false) as ->.
    { destruct (includes _ _) eqn:E; [|done].
      apply includes_char, hyphen_not_in_dec in E as []. }
    rewrite isNumber_dec, dec_value_dec_of_N, isValidCode_wf by lia. simpl.
    destruct r; simpl in *; congruence.
  - assert (includes (dec_of_N (start r) ++ [hyphen] ++ dec_of_N (end_ r)) [hyphen] = true) as ->.
    { apply includes_char. set_solver. }
    simpl app. rewrite split_on_app_sep by apply hyphen_not_in_dec.
    rewrite split_on_no_sep by apply hyphen_not_in_dec.
    rewrite !isNumber_dec, !dec_value_dec_of_N, !isValidCode_wf by lia. simpl.
    rewrite (proj2 (N.ltb_ge _ _)) by lia. by destruct r.
Qed.

Lemma parseToken_wf token r : parseToken token = Some r → well_formed r.
Proof.
  unfold parseToken, isValidCode. intros H.
  repeat (case_match; simplify_eq/=); unbool;
    repeat match goal with H : (_ <=? _) = true |- _ => apply N.leb_le in H end;
    repeat match goal with H : (_ <? _) = false |- _ => apply N.ltb_ge in H end;
    unfold well_formed; simpl; lia.
Qed.

(** *** Segments *)

Lemma parse_segments_spec segs :
  parse_segments segs
  = (omap parseToken segs,
     List.filter (λ s, bool_decide (parseToken s = None)) segs).
Proof.
  unfold parse_segments.
  assert (∀ rs inv, fold_left (λ '(ranges, invalid) segment,
      match parseToken segment with
      | None => (ranges, invalid ++ [segment])
      | Some parsed => (ranges ++ [parsed], invalid)
      end) segs (rs, inv)
    = (rs ++ omap parseToken segs,
       inv ++ List.filter (λ s, bool_decide (parseToken s = None)) segs)) as H; [|apply H].
  induction segs as [|s segs IH]; intros rs inv; simpl; [by rewrite !app_nil_r|].
  destruct (parseToken s) as [r|]; rewrite IH; simpl; by rewrite <-app_assoc.
Qed.

Lemma canonical_segments rs :
  canonical rs → rs ≠ [] →
  trim (join [comma] (map range_token rs)) = join [comma] (map range_token rs) ∧
  segments_of (join [comma] (map range_token rs)) = map range_token rs.
Proof.
  intros Hc Hne.
  assert (∀ x, x ∈ join [comma] (map range_token rs) → is_digit x = true ∨ x = hyphen ∨ x = comma) as Hj.
  { intros x [->%list_elem_of_singleton|(w & (r & -> & _)%list_elem_of_fmap & Hx)]%elem_of_join;
      [tauto|]. apply elem_of_range_token in Hx. tauto. }
  split.
  - apply trim_no_ws, forallb_forall_elem. intros x Hx.
    destruct (Hj x Hx) as [Hd | [-> | ->]]; [by rewrite digit_not_ws|done|done].
  - unfold segments_of, replace_char.
    assert (map (λ c, if c =? 65292 then comma else c) (join [comma] (map range_token rs))
            = join [comma] (map range_token rs)) as ->.
    { rewrite <-(map_id (join _ _)) at 2. apply map_ext_in. intros x Hx.
      destruct (N.eqb_spec x 65292) as [->|]; [|done].
      apply list_elem_of_In, Hj in Hx as [?|[?|?]]; done. }
    rewrite split_on_join.
    + rewrite map_map.
      assert (map (λ x, trim (range_token x)) rs = map range_token rs) as ->.
      { apply map_ext. intros r. apply trim_no_ws, range_token_no_ws. }
      clear. induction rs as [|r rs IH]; [done|]. simpl.
      pose proof (range_token_nonempty r) as Hn%truthy_str_true. by rewrite Hn, IH.
    + by destruct rs.
    + apply Forall_map, Forall_true. intros r Hx. apply elem_of_range_token in Hx as [?|?]; done.
Qed.

Lemma omap_all {A B} (f : A → option B) (g : B → A) l :
  Forall (λ y, f (g y) = Some y) l → omap f (map g l) = l.
Proof. induction 1 as [|y l Hy _ IH]; csimpl; [done|]. by rewrite Hy, IH. Qed.

Lemma filter_none {A} (p : A → bool) l : (∀ x, x ∈ l → p x = false) → List.filter p l = [].
Proof.
  induction l as [|x l IH]; simpl; intros H; [done|].
  rewrite H by constructor. apply IH. intros y Hy. apply H. by constructor.
Qed.

(** ** Properties *)

(** The codes an input selects, segment by segment. *)
Definition denotes (text : jsstr) (c : N) : Prop :=
  ∃ seg r, seg ∈ segments_of (trim text) ∧ parseToken seg = Some r ∧ in_range c r.

Definition accepted (text : jsstr) : Prop := ok (parse_rules_text text) = true.

Lemma covers_omap segs c :
  covers (omap parseToken segs) c ↔ ∃ seg r, seg ∈ segs ∧ parseToken seg = Some r ∧ in_range c r.
Proof.
  unfold covers. setoid_rewrite list_elem_of_omap. naive_solver.
Qed.

Lemma segments_of_nil : segments_of [] = [].
Proof. done. Qed.

(** Shape of the result on each branch. *)
Lemma parse_rules_text_cases text :
  let segs := segments_of (trim text) in
  let bad := List.filter (λ s, bool_decide (parseToken s = None)) segs in
  let merged := mergeRanges (omap parseToken segs) in
  (bad = [] ∧
   parse_rules_text text
   = {| ok := true; ranges := merged; tokens := map range_token merged;
        normalized := join [comma] (map range_token merged); invalidTokens := [] |}) ∨
  (bad ≠ [] ∧
   parse_rules_text text
   = {| ok := false; ranges := []; tokens := []; normalized := trim text;
        invalidTokens := bad |}).
Proof.
  cbv zeta. unfold parse_rules_text. destruct (trim text) as [|c t] eqn:E; [by left|].
  rewrite parse_segments_spec.
  destruct (List.filter _ _) as [|s bad] eqn:Eb; [by left | by right].
Qed.

Lemma accepted_ranges text :
  accepted text →
  canonical (ranges (parse_rules_text text)) ∧
  (∀ c, covers (ranges (parse_rules_text text)) c ↔ denotes text c) ∧
  tokens (parse_rules_text text) = map range_token (ranges (parse_rules_text text)) ∧
  normalized (parse_rules_text text) = join [comma] (tokens (parse_rules_text text)) ∧
  invalidTokens (parse_rules_text text) = [].
Proof.
  unfold accepted. intros Hok.
  destruct (parse_rules_text_cases text) as [[_ E]|[_ E]]; rewrite E in *; [|done]. simpl.
  destruct (mergeRanges_spec (omap parseToken (segments_of (trim text)))) as [Hc Hcov].
  { apply Forall_forall. intros r (s & _ & Hs)%list_elem_of_omap. by eapply parseToken_wf. }
  split_and!; try done. intros c. rewrite Hcov. apply covers_omap.
Qed.

Lemma parse_rules_text_canonical rs :
  canonical rs →
  parse_rules_text (join [comma] (map range_token rs))
  = {| ok := true; ranges := rs; tokens := map range_token rs;
       normalized := join [comma] (map range_token rs); invalidTokens := [] |}.
Proof.
  intros Hc. destruct (decide (rs = [])) as [->|Hne]; [done|].
  destruct (canonical_segments rs Hc Hne) as [Ht Hs].
  assert (Forall (λ r, parseToken (range_token r) = Some r) rs) as Hp.
  { destruct Hc as [Hw _]. eapply Forall_impl; [exact Hw|]. apply parseToken_range_token. }
  destruct (parse_rules_text_cases (join [comma] (map range_token rs))) as [[_ E]|[Hbad _]].
  - rewrite E, Ht, Hs, omap_all, mergeRanges_canonical by done. done.
  - exfalso. apply Hbad. rewrite Ht, Hs. apply filter_none.
    intros s (r & -> & Hr)%list_elem_of_fmap. rewrite Forall_forall in Hp.
    apply bool_decide_eq_false. by rewrite Hp.
Qed.

(** C4: The normalized text is a canonical form: two accepted inputs get the
    same normalized text exactly when they select the same status codes,
    whatever the order, overlap, spacing or full-width commas of the input. *)
Theorem normalized_canonical (t1 t2 : jsstr) (H1 : accepted t1) (H2 : accepted t2) :
  normalized (parse_rules_text t1) = normalized (parse_rules_text t2) ↔
  (∀ c, denotes t1 c ↔ denotes t2 c).
Proof.
  destruct (accepted_ranges t1 H1) as (C1 & D1 & T1 & N1 & _).
  destruct (accepted_ranges t2 H2) as (C2 & D2 & T2 & N2 & _).
  split; intros H.
  - rewrite N1, N2, T1, T2 in H.
    pose proof (parse_rules_text_canonical _ C1) as P1.
    rewrite H, (parse_rules_text_canonical _ C2) in P1.
    apply (f_equal ranges) in P1. simpl in P1. intros c. by rewrite <-D1, <-D2, P1.
  - rewrite N1, N2, T1, T2. do 2 f_equal. apply canonical_unique; [done|done|].
    intros c. by rewrite D1, D2.
Qed.

Lemma normalized_canonical_witness :
  accepted (js "503, 500-502") ∧
  normalized (parse_rules_text (js "503, 500-502")) = js "500-503" ∧
  (normalized (parse_rules_text (js "503, 500-502"))
     = normalized (parse_rules_text (js "500-503")) ↔
   (∀ c, denotes (js "503, 500-502") c ↔ denotes (js "500-503") c)).
Proof.
  split; [reflexivity|]. split; [vm_compute; reflexivity|].
  apply normalized_canonical; reflexivity.
Defined.

(** Parsing an accepted input and parsing its normalized text again give
    the same ranges, tokens and text: normalization is idempotent, and the
    ranges are in increasing order with at least one unselected code between
    neighbours. *)
Theorem normalized_round_trip (t : jsstr) (H : accepted t) :
  parse_rules_text (normalized (parse_rules_text t)) = parse_rules_text t ∧
  canonical (ranges (parse_rules_text t)).
Proof.
  destruct (accepted_ranges t H) as (C & _ & T & N & I). split; [|done].
  rewrite N, T, parse_rules_text_canonical by done.
  unfold accepted in H. destruct (parse_rules_text t); simpl in *; congruence.
Qed.

Lemma normalized_round_trip_witness :
  accepted (js "404,401-403") ∧
  parse_rules_text (normalized (parse_rules_text (js "404,401-403")))
  = parse_rules_text (js "404,401-403").
Proof. split; [reflexivity|]. apply normalized_round_trip. reflexivity. Defined.

(** C38: Error reporting: every input is either accepted with no invalid
    token, or rejected with no range, its own trimmed text, and exactly the
    segments that do not parse, in their order of appearance. *)
Theorem rules_error_report (t : jsstr) :
  let r := parse_rules_text t in
  let bad := List.filter (λ s, bool_decide (parseToken s = None)) (segments_of (trim t)) in
  invalidTokens r = bad ∧
  (ok r = true ↔ bad = []) ∧
  (ok r = false → ranges r = [] ∧ tokens r = [] ∧ normalized r = trim t) ∧
  Forall well_formed (ranges r).
Proof.
  cbv zeta.
  destruct (parse_rules_text_cases t) as [[Hb E]|[Hb E]]; rewrite E; simpl.
  - split_and!; [by rewrite Hb | done | done |].
    apply mergeRanges_spec, Forall_forall.
    intros r (s & _ & Hs)%list_elem_of_omap. by eapply parseToken_wf.
  - split_and!; [done | by split | done | constructor].
Qed.

(** Three-part tokens: everything after the second number is ignored. *)
Lemma three_part_token : parseToken (js "400-500-600") = Some {| start := 400; end_ := 500 |}.
Proof. vm_compute. reflexivity. Qed.
