(* ===== verification/StatusCodeRisk.v ===== *)
(** * Guard on status code mappings (channels/lib/status-code-risk-guard.ts)

    A channel may rewrite upstream status codes through a JSON object.  The
    guard lists malformed entries and the rewrites of codes that must never
    be retried, and tells which of the latter are new in an edit. *)

From Stdlib Require Import ZArith ZifyN.
From stdpp Require Import sorting.
From S2P Require Import Prelude JsString JsNumber JsNumberFacts JsCollections JsValue Json.

Local Open Scope N_scope.

Definition NON_REDIRECTABLE_STATUS_CODES : list N := [504; 524].

(** [/^[1-5]\d{2}$/]. *)
Definition is_status_code_text (s : jsstr) : bool :=
  match s with
  | [a; b; c] => (49 <=? a) && (a <=? 53) && is_digit b && is_digit c
  | _ => false
  end.

Definition parseStatusCodeKey (rawKey : jsstr) : option N :=
  let normalized := trim rawKey in
  if negb (is_status_code_text normalized) then None else Some (dec_value normalized).

Definition parseStatusCodeMappingTarget (rawValue : val) : option N :=
  match rawValue with
  | VNum n =>
      match num_to_Z n with
      | Some z => if (100 <=? z)%Z && (z <=? 599)%Z then Some (Z.to_N z) else None
      | None => None
      end
  | VStr s =>
      let normalized := trim s in
      if negb (is_status_code_text normalized) then None
      else let code := dec_value normalized in
           if (100 <=? code) && (code <=? 599) then Some code else None
  | _ => None
  end.

(** The mapping, when the text holds a JSON object. *)
Definition parsed_mapping (str : jsstr) : option (list (jsstr * val)) :=
  if negb (truthy_str (trim str)) then None
  else match json_parse str with
       | Ok (VObj ps) => Some ps
       | _ => None
       end.

Definition entry_invalid (rawKey : jsstr) (rawValue : val) : bool :=
  bool_decide (parseStatusCodeKey rawKey = None)
  || bool_decide (parseStatusCodeMappingTarget rawValue = None).

(** The template literal converts the value to a string, which may throw. *)
Fixpoint invalid_entries (ps : list (jsstr * val)) : res (list jsstr) :=
  match ps with
  | [] => Ok []
  | (rawKey, rawValue) :: ps' =>
      if entry_invalid rawKey rawValue then
        t ← to_string rawValue;
        rest ← invalid_entries ps';
        Ok ((rawKey ++ js " → " ++ t) :: rest)
      else invalid_entries ps'
  end.

Definition collectInvalidStatusCodeEntries (statusCodeMappingStr : jsstr) : res (list jsstr) :=
  match parsed_mapping statusCodeMappingStr with
  | None => Ok []
  | Some ps => invalid_entries ps
  end.

Definition redirect_text (fromCode toCode : N) : jsstr :=
  dec_of_N fromCode ++ js " -> " ++ dec_of_N toCode.

(** The loop body: what one entry pushes on [riskyMappings]. *)
Definition risky_entry (kv : jsstr * val) : option jsstr :=
  match parseStatusCodeKey (fst kv), parseStatusCodeMappingTarget (snd kv) with
  | Some fromCode, Some toCode =>
      if negb (bool_decide (fromCode ∈ NON_REDIRECTABLE_STATUS_CODES)) then None
      else if fromCode =? toCode then None
      else Some (redirect_text fromCode toCode)
  | _, _ => None
  end.

Definition collectDisallowedStatusCodeRedirects (statusCodeMappingStr : jsstr) : list jsstr :=
  match parsed_mapping statusCodeMappingStr with
  | None => []
  | Some ps => sort_strings (uniq (omap risky_entry ps))
  end.

Definition collectNewDisallowedStatusCodeRedirects (originalStr currentStr : jsstr) : list jsstr :=
  let currentRisky := collectDisallowedStatusCodeRedirects currentStr in
  match currentRisky with
  | [] => []
  | _ =>
      let originalRiskySet := uniq (collectDisallowedStatusCodeRedirects originalStr) in
      List.filter (λ m, negb (bool_decide (m ∈ originalRiskySet))) currentRisky
  end.

(** ** Lemmas *)

Lemma is_status_code_text_range s :
  is_status_code_text s = true → 100 <= dec_value s <= 599.
Proof.
  unfold is_status_code_text, is_digit.
  destruct s as [|a [|b [|c [|]]]]; try done. intros ?; unbool.
  repeat match goal with H : (_ <=? _) = true |- _ => apply N.leb_le in H end.
  unfold dec_value. cbn [dec_value_from]. lia.
Qed.

Lemma parseStatusCodeKey_range k c : parseStatusCodeKey k = Some c → 100 <= c <= 599.
Proof.
  unfold parseStatusCodeKey. case_match; [done|]. intros [= <-].
  by apply is_status_code_text_range, negb_false_iff.
Qed.

Lemma parseStatusCodeMappingTarget_range v c :
  parseStatusCodeMappingTarget v = Some c → 100 <= c <= 599.
Proof.
  unfold parseStatusCodeMappingTarget. intros H.
  repeat (case_match; simplify_eq/=); unbool;
    repeat match goal with H : (_ <=? _) = true |- _ => apply N.leb_le in H end;
    repeat match goal with H : (_ <=? _)%Z = true |- _ => apply Z.leb_le in H end; lia.
Qed.

(** An entry that redirects a protected code to another one. *)
Definition redirects (kv : jsstr * val) (fromCode toCode : N) : Prop :=
  parseStatusCodeKey (fst kv) = Some fromCode ∧
  parseStatusCodeMappingTarget (snd kv) = Some toCode ∧
  (fromCode = 504 ∨ fromCode = 524) ∧ fromCode ≠ toCode.

Lemma risky_entry_spec kv m :
  risky_entry kv = Some m ↔ ∃ f t, redirects kv f t ∧ m = redirect_text f t.
Proof.
  unfold risky_entry, redirects. split.
  - intros H. destruct (parseStatusCodeKey _) as [f|] eqn:Ef; [|done].
    destruct (parseStatusCodeMappingTarget _) as [t|] eqn:Et; [|done].
    case_bool_decide as Hin; [|done]. simpl in H.
    destruct (N.eqb_spec f t); [done|]. injection H as <-. exists f, t. split_and!; try done.
    unfold NON_REDIRECTABLE_STATUS_CODES in Hin. set_solver.
  - intros (f & t & (-> & -> & Hf & Hne) & ->).
    rewrite bool_decide_eq_true_2 by (unfold NON_REDIRECTABLE_STATUS_CODES; set_solver).
    simpl. by rewrite (proj2 (N.eqb_neq f t)).
Qed.

Lemma elem_of_disallowed str m :
  m ∈ collectDisallowedStatusCodeRedirects str ↔
  ∃ ps kv f t, parsed_mapping str = Some ps ∧ kv ∈ ps ∧ redirects kv f t ∧ m = redirect_text f t.
Proof.
  unfold collectDisallowedStatusCodeRedirects.
  destruct (parsed_mapping str) as [ps|]; [|set_solver].
  unfold sort_strings. rewrite elem_of_js_sort, elem_of_uniq, list_elem_of_omap.
  setoid_rewrite risky_entry_spec. naive_solver.
Qed.

Lemma NoDup_disallowed str : NoDup (collectDisallowedStatusCodeRedirects str).
Proof.
  unfold collectDisallowedStatusCodeRedirects. destruct (parsed_mapping str); [|constructor].
  unfold sort_strings. rewrite js_sort_perm. apply NoDup_uniq.
Qed.

(** The text of a redirect determines it. *)
Lemma redirect_text_inj f t f' t' :
  redirect_text f t = redirect_text f' t' → f = f' ∧ t = t'.
Proof.
  unfold redirect_text. intros H.
  assert (∀ n r, span_digits (dec_of_N n ++ js " -> " ++ r) = (dec_of_N n, js " -> " ++ r)) as Hs.
  { intros n r. apply span_digits_app; [apply dec_of_N_digits|]. by intros c [= <-]. }
  pose proof (Hs f (dec_of_N t)) as E. rewrite H, Hs in E. simplify_eq.
  split; [by apply dec_of_N_inj | by apply dec_of_N_inj].
Qed.

(** ** Properties *)

(** The disallowed redirects of a mapping are exactly the texts
    ["f -> t"] of its entries whose key is 504 or 524 and whose target is a
    different valid code, each once, in code-unit order; text that is blank,
    not JSON or not an object has none. *)
Theorem disallowed_redirects_spec (str : jsstr) :
  let l := collectDisallowedStatusCodeRedirects str in
  (∀ m, m ∈ l ↔ ∃ ps kv f t,
     parsed_mapping str = Some ps ∧ kv ∈ ps ∧ redirects kv f t ∧ m = redirect_text f t) ∧
  NoDup l ∧ StronglySorted (λ a b, str_ltb a b = true) l.
Proof.
  cbv zeta. split_and!; [apply elem_of_disallowed | apply NoDup_disallowed|].
  pose proof (NoDup_disallowed str) as Hnd. revert Hnd.
  unfold collectDisallowedStatusCodeRedirects.
  destruct (parsed_mapping str) as [ps|]; [|constructor].
  pose proof (sort_strings_sorted (uniq (omap risky_entry ps))) as Hs.
  induction Hs as [|x l _ IH Hx]; intros Hnd; [constructor|].
  apply NoDup_cons in Hnd as [Hxl Hnd]. constructor; [by apply IH|].
  rewrite Forall_forall in *. intros y Hy. destruct (str_ltb x y) eqn:E; [done|].
  exfalso. apply Hxl. rewrite (str_ltb_total x y); [done|done|by apply Hx].
Qed.

(** An edit is flagged exactly for the redirects the original mapping did
    not already have: saving an unchanged mapping, or one that only removes
    entries, raises nothing. *)
Theorem new_redirects_spec (original current : jsstr) :
  let fresh := collectNewDisallowedStatusCodeRedirects original current in
  (∀ m, m ∈ fresh ↔ m ∈ collectDisallowedStatusCodeRedirects current
                    ∧ m ∉ collectDisallowedStatusCodeRedirects original) ∧
  fresh `sublist_of` collectDisallowedStatusCodeRedirects current ∧
  (fresh = [] ↔ collectDisallowedStatusCodeRedirects current
                ⊆ collectDisallowedStatusCodeRedirects original).
Proof.
  cbv zeta.
  assert (collectNewDisallowedStatusCodeRedirects original current
          = List.filter (λ m, negb (bool_decide (m ∈ uniq (collectDisallowedStatusCodeRedirects original))))
              (collectDisallowedStatusCodeRedirects current)) as ->.
  { unfold collectNewDisallowedStatusCodeRedirects.
    by destruct (collectDisallowedStatusCodeRedirects current). }
  set (cur := collectDisallowedStatusCodeRedirects current).
  set (orig := collectDisallowedStatusCodeRedirects original).
  assert (∀ m, m ∈ List.filter (λ m, negb (bool_decide (m ∈ uniq orig))) cur ↔ m ∈ cur ∧ m ∉ orig) as H.
  { intros m. rewrite elem_of_filterb, negb_true_iff, bool_decide_eq_false, elem_of_uniq. done. }
  split_and!; [done| |].
  - clear H. induction cur as [|x l IH]; simpl; [constructor|].
    case_match; by constructor.
  - split.
    + intros E m Hm. destruct (decide (m ∈ orig)); [done|].
      assert (m ∈ @nil jsstr) as []%elem_of_nil. rewrite <-E. by apply H.
    + intros Hsub. destruct (List.filter _ cur) as [|m l] eqn:E; [done|].
      destruct (H m) as [Hm _]. destruct Hm as [Hm Hn]; [constructor|].
      by apply Hsub in Hm.
Qed.

(** Values whose conversion to a string cannot throw. *)
Definition primitive (v : val) : Prop :=
  match v with VArr _ | VObj _ => False | _ => True end.

(** On a mapping with primitive values the malformed entries are reported
    without exception, one line per entry whose key or target is not a status
    code, in entry order; the mapping is clean exactly when every entry maps
    a code in 100..599 to a code in 100..599. *)
Theorem invalid_entries_spec (str : jsstr) (ps : list (jsstr * val))
    (Hps : parsed_mapping str = Some ps) (Hprim : Forall (λ kv, primitive (snd kv)) ps) :
  ∃ l, collectInvalidStatusCodeEntries str = Ok l ∧
    length l = length (List.filter (λ kv, entry_invalid (fst kv) (snd kv)) ps) ∧
    (l = [] ↔ ∀ kv, kv ∈ ps → ∃ f t,
       parseStatusCodeKey (fst kv) = Some f ∧ parseStatusCodeMappingTarget (snd kv) = Some t
       ∧ 100 <= f <= 599 ∧ 100 <= t <= 599).
Proof.
  unfold collectInvalidStatusCodeEntries. rewrite Hps. clear Hps.
  induction Hprim as [|[k v] ps Hv Hprim (l & El & Hlen & Hnil)]; simpl.
  - exists []. split_and!; [done|done|]. split; [set_solver|done].
  - assert (∃ t, to_string v = Ok t) as [t Ht] by (destruct v; simpl in *; eauto; done).
    destruct (entry_invalid k v) eqn:Ek.
    + rewrite Ht, El. simpl. eexists. split; [done|]. split; [simpl; lia|]. split; [done|].
      intros H. exfalso. destruct (H (k, v)) as (f & t' & Hf & Ht' & _); [constructor|].
      unfold entry_invalid in Ek. simpl in *. rewrite Hf, Ht' in Ek. done.
    + exists l. split; [done|]. split; [done|]. rewrite Hnil. split.
      * intros H kv [->|Hkv]%elem_of_cons; [|by apply H].
        unfold entry_invalid in Ek. apply orb_false_iff in Ek as [Ef%bool_decide_eq_false Et%bool_decide_eq_false].
        destruct (parseStatusCodeKey k) as [f|] eqn:Hf; [|done].
        destruct (parseStatusCodeMappingTarget v) as [t'|] eqn:Ht'; [|done].
        exists f, t'. split_and!; try done;
          first [by eapply parseStatusCodeKey_range | by eapply parseStatusCodeMappingTarget_range].
      * intros H kv Hkv. apply H. by constructor.
Qed.

Lemma invalid_entries_spec_witness :
  collectInvalidStatusCodeEntries (jq "{`429`: 500, `abc`: `503`, `404`: 99}")
  = Ok [js "404 → 99"; js "abc → 503"] ∧
  ∃ l, collectInvalidStatusCodeEntries (jq "{`429`: 500, `abc`: `503`, `404`: 99}") = Ok l ∧
    length l = 2%nat.
Proof.
  split; [vm_compute; reflexivity|].
  destruct (invalid_entries_spec (jq "{`429`: 500, `abc`: `503`, `404`: 99}")
    [(js "404", VNum (num_of_Z 99)); (js "429", VNum (num_of_Z 500)); (js "abc", VStr (js "503"))])
    as (l & Hl & Hlen & _); [vm_compute; reflexivity | repeat constructor|].
  exists l. split; [exact Hl|]. rewrite Hlen. vm_compute. reflexivity.
Defined.
