(* ===== verification/ModelMapping.v ===== *)
(** * Model lists and model mappings (channels/lib/model-mapping-validation.ts)

    A channel has a comma-separated list of models and a JSON object that
    redirects requested models to upstream ones.  The module parses both and
    computes which models are missing from, or wrongly exposed in, the list. *)

From Stdlib Require Import ZArith.
From S2P Require Import Prelude JsString JsNumber JsCollections JsValue Json.

Definition parseModelsString (modelsStr : jsstr) : list jsstr :=
  if truthy_str modelsStr
  then List.filter truthy_str (map trim (split_on comma modelsStr))
  else [].

Definition formatModelsArray (models : list jsstr) : jsstr := join [comma] (uniq models).

Definition normalizeModelName (model : jsstr) : jsstr := trim model.

(** The properties of the object a text holds; [None] when it does not parse
    or holds something else. *)
Definition parse_object (text : jsstr) : option (list (jsstr * val)) :=
  match json_parse text with Ok (VObj ps) => Some ps | _ => None end.

Definition extractMappingSourceModels (modelMapping : jsstr) : list jsstr :=
  let trimmed := trim modelMapping in
  if negb (truthy_str trimmed) then []
  else match parse_object trimmed with
       | None => []
       | Some ps => uniq (List.filter truthy_str (map (λ kv, trim (fst kv)) ps))
       end.

(** [typeof value === 'string' ? value.trim() : undefined], kept if truthy. *)
Definition string_value (v : val) : option jsstr :=
  match v with
  | VStr s => if truthy_str (trim s) then Some (trim s) else None
  | _ => None
  end.

Definition extractRedirectModels (modelMapping : jsstr) : list jsstr :=
  let trimmed := trim modelMapping in
  if negb (truthy_str trimmed) then []
  else match parse_object trimmed with
       | None => []
       | Some ps => uniq (omap (λ kv, string_value (snd kv)) ps)
       end.

(** The index loop over two arrays of the same length. *)
Fixpoint models_differ (current initial : list jsstr) : bool :=
  match current, initial with
  | x :: current', y :: initial' =>
      if negb (bool_decide (x = y)) then true else models_differ current' initial'
  | _, _ => false
  end.

Definition hasModelConfigChanged (currentModels : list jsstr) (currentModelMapping : jsstr)
    (initialModels : list jsstr) (initialModelMapping : jsstr) : bool :=
  if bool_decide (length initialModels = 0%nat) && negb (truthy_str initialModelMapping) then true
  else if negb (bool_decide (length currentModels = length initialModels)) then true
  else if models_differ currentModels initialModels then true
  else negb (bool_decide (trim (str_or currentModelMapping []) = trim (str_or initialModelMapping []))).

Definition findMissingModelsInMapping (modelMapping : jsstr) (currentModels : list jsstr)
    : list jsstr :=
  if negb (truthy_str modelMapping) || bool_decide (trim modelMapping = []) then []
  else match parse_object modelMapping with
       | None => []
       | Some ps =>
           let modelSet := uniq (map normalizeModelName currentModels) in
           uniq (List.filter (λ key, truthy_str key && negb (bool_decide (key ∈ modelSet)))
                   (map (λ kv, normalizeModelName (fst kv)) ps))
       end.

Record Validation := { valid : bool; error : option jsstr }.

Definition is_string (v : val) : bool := match v with VStr _ => true | _ => false end.

Definition validateModelMappingJson (modelMapping : jsstr) : Validation :=
  if negb (truthy_str modelMapping) || bool_decide (trim modelMapping = [])
  then {| valid := true; error := None |}
  else match json_parse modelMapping with
       | Throw _ => {| valid := false; error := Some (js "Model mapping must be valid JSON format") |}
       | Ok (VObj ps) =>
           if existsb (λ kv, negb (is_string (snd kv))) ps
           then {| valid := false; error := Some (js "Model mapping values must be strings") |}
           else {| valid := true; error := None |}
       | Ok _ => {| valid := false; error := Some (js "Model mapping must be a valid JSON object") |}
       end.

Definition findExposedTargetModels (modelMapping : jsstr) (currentModels : list jsstr)
    : list jsstr :=
  let redirectModels := extractRedirectModels modelMapping in
  match redirectModels with
  | [] => []
  | _ =>
      let modelSet := uniq (map normalizeModelName currentModels) in
      List.filter (λ model, bool_decide (normalizeModelName model ∈ modelSet)) redirectModels
  end.

Record Categories := {
  normalizedCurrentModels : list jsstr;
  normalizedRedirectModels : list jsstr;
  classificationSet : list jsstr;
  redirectOnlySet : list jsstr
}.

Definition categorizeModelsWithRedirect (currentModels redirectModels : list jsstr) : Categories :=
  let ncm := uniq (List.filter truthy_str (map normalizeModelName currentModels)) in
  let nrm := uniq (List.filter truthy_str (map normalizeModelName redirectModels)) in
  {| normalizedCurrentModels := ncm;
     normalizedRedirectModels := nrm;
     classificationSet := uniq (ncm ++ nrm);
     redirectOnlySet := uniq (List.filter (λ m, negb (bool_decide (m ∈ ncm))) nrm) |}.

(** ** Model names *)

(** What a name in a parsed list looks like. *)
Definition model_name (m : jsstr) : Prop := m ≠ [] ∧ trimmed m.

#[export] Instance model_name_dec m : Decision (model_name m).
Proof. unfold model_name. apply _. Defined.

Lemma parseModelsString_names s m :
  m ∈ parseModelsString s → model_name m ∧ comma ∉ m.
Proof.
  unfold parseModelsString. case_match; [|set_solver].
  rewrite elem_of_filterb, truthy_str_true, list_elem_of_fmap.
  intros [(w & -> & Hw) Hne]. split; [split; [done | apply trim_trimmed]|].
  intros Hc%elem_of_trim. pose proof (split_on_pieces comma s) as Hp.
  rewrite Forall_forall in Hp. by apply (Hp w).
Qed.

Lemma filter_map_trim l :
  Forall model_name l → List.filter truthy_str (map trim l) = l.
Proof.
  induction 1 as [|m l [Hne Ht] _ IH]; simpl; [done|].
  rewrite trim_id by done. by rewrite (proj2 (truthy_str_true m) Hne), IH.
Qed.

Lemma parse_format l :
  Forall (λ m, model_name m ∧ comma ∉ m) l → parseModelsString (formatModelsArray l) = uniq l.
Proof.
  intros Hl. unfold formatModelsArray.
  assert (Forall (λ m, model_name m ∧ comma ∉ m) (uniq l)) as Hu.
  { rewrite Forall_forall in *. intros m Hm%uniq_elem_of. exact (Hl m Hm). }
  revert Hu. generalize (uniq l). intros u Hu. unfold parseModelsString.
  destruct (decide (u = [])) as [->|Hne]; [done|].
  assert (truthy_str (join [comma] u) = true) as ->.
  { apply truthy_str_true. intros E. apply join_nil_inv in E; [done|].
    eapply Forall_impl; [exact Hu|]. by intros m [[? _] _]. }
  rewrite split_on_join; [|done|].
  - apply filter_map_trim. eapply Forall_impl; [exact Hu|]. by intros m [? _].
  - eapply Forall_impl; [exact Hu|]. by intros m [_ ?].
Qed.

(** Formatting a list of models and parsing it back gives the list without
    its duplicates, provided each name is what parsing yields (non-empty,
    trimmed, comma-free); and whatever text is parsed, reformatting and
    parsing again changes nothing but duplicates. *)
Theorem models_round_trip (l : list jsstr) (s : jsstr)
    (Hl : Forall (λ m, model_name m ∧ comma ∉ m) l) :
  parseModelsString (formatModelsArray l) = uniq l ∧
  parseModelsString (formatModelsArray (parseModelsString s)) = uniq (parseModelsString s).
Proof.
  split; [by apply parse_format|]. apply parse_format, Forall_forall.
  intros m Hm. by apply parseModelsString_names in Hm.
Qed.

Lemma models_round_trip_witness :
  parseModelsString (formatModelsArray [js "gpt-4o"; js "o3 mini"; js "gpt-4o"])
  = [js "gpt-4o"; js "o3 mini"].
Proof.
  refine (eq_trans (proj1 (models_round_trip _ (js " a ,, b ") _)) _).
  - apply (bool_decide_eq_true_1 _). vm_compute. reflexivity.
  - vm_compute. reflexivity.
Defined.

(** ** Missing and exposed models *)

Lemma parse_object_Some text ps : parse_object text = Some ps ↔ json_parse text = Ok (VObj ps).
Proof.
  unfold parse_object. destruct (json_parse text) as [[]|]; naive_solver.
Qed.

(** The mapping text holds the properties [ps]. *)
Definition holds (text : jsstr) (ps : list (jsstr * val)) : Prop :=
  trim text ≠ [] ∧ parse_object text = Some ps.

Lemma trim_nonempty s : trim s ≠ [] → s ≠ [].
Proof. intros H ->. by apply H. Qed.

Lemma findMissing_holds text ps current :
  holds text ps →
  findMissingModelsInMapping text current
  = uniq (List.filter (λ key, truthy_str key
             && negb (bool_decide (key ∈ uniq (map normalizeModelName current))))
            (map (λ kv, normalizeModelName (fst kv)) ps)).
Proof.
  intros [Hne Hps]. unfold findMissingModelsInMapping.
  rewrite (proj2 (truthy_str_true text)) by (by apply trim_nonempty).
  by rewrite bool_decide_eq_false_2, Hps.
Qed.

Lemma elem_of_missing text ps current m :
  holds text ps →
  m ∈ findMissingModelsInMapping text current ↔
  m ≠ [] ∧ (∃ kv, kv ∈ ps ∧ m = trim (fst kv)) ∧ (∀ c, c ∈ current → trim c ≠ m).
Proof.
  intros Hh. rewrite (findMissing_holds text ps) by done.
  rewrite elem_of_uniq, elem_of_filterb, andb_true_iff, truthy_str_true, negb_true_iff,
    bool_decide_eq_false, elem_of_uniq, !list_elem_of_fmap.
  unfold normalizeModelName. naive_solver.
Qed.

(** A model is reported missing exactly when it is the non-blank trimmed
    name of a mapping key that no entry of the list has after trimming; each
    is reported once, and adding the reported models to the list leaves
    nothing to report. *)
Theorem missing_models_spec (text : jsstr) (ps : list (jsstr * val)) (current : list jsstr)
    (Hh : holds text ps) :
  let missing := findMissingModelsInMapping text current in
  (∀ m, m ∈ missing ↔
     m ≠ [] ∧ (∃ kv, kv ∈ ps ∧ m = trim (fst kv)) ∧ (∀ c, c ∈ current → trim c ≠ m)) ∧
  NoDup missing ∧
  findMissingModelsInMapping text (current ++ missing) = [].
Proof.
  cbv zeta. split_and!.
  - intros m. by apply elem_of_missing.
  - rewrite (findMissing_holds text ps) by done. apply NoDup_uniq.
  - destruct (findMissingModelsInMapping text (current ++ _)) as [|m l] eqn:E; [done|].
    assert (m ∈ findMissingModelsInMapping text
                  (current ++ findMissingModelsInMapping text current)) as Hm
      by (rewrite E; constructor).
    apply (elem_of_missing text ps) in Hm as (Hne & Hkey & Hcur); [|done]. exfalso.
    apply (Hcur m).
    + apply elem_of_app. right. apply (elem_of_missing text ps); [done|].
      split_and!; [done|done|]. intros c Hc. apply Hcur, elem_of_app. by left.
    + destruct Hkey as (kv & _ & ->). apply trim_idemp.
Qed.

Lemma missing_models_spec_witness :
  findMissingModelsInMapping (jq "{` a `: `x`, `b`: `y`, `a`: `z`}") [js "b "] = [js "a"] ∧
  NoDup (findMissingModelsInMapping (jq "{` a `: `x`, `b`: `y`, `a`: `z`}") [js "b "]).
Proof.
  split; [vm_compute; reflexivity|].
  refine (proj1 (proj2 (missing_models_spec _
    [(js " a ", VStr (js "x")); (js "b", VStr (js "y")); (js "a", VStr (js "z"))] _ _))).
  split; vm_compute; [discriminate | reflexivity].
Defined.

Lemma elem_of_redirects text ps m :
  parse_object (trim text) = Some ps → trim text ≠ [] →
  m ∈ extractRedirectModels text ↔
  m ≠ [] ∧ ∃ kv s, kv ∈ ps ∧ snd kv = VStr s ∧ m = trim s.
Proof.
  intros Hps Hne. unfold extractRedirectModels.
  rewrite (proj2 (truthy_str_true _)) by done. simpl. rewrite Hps.
  rewrite elem_of_uniq, list_elem_of_omap. unfold string_value. split.
  - intros (kv & Hkv & H). destruct (snd kv) as [| | | |s| |] eqn:E; try done.
    case_match eqn:Et; [|done]. simplify_eq. split; [by apply truthy_str_true | eauto].
  - intros [Hm (kv & s & Hkv & E & ->)]. exists kv. split; [done|].
    rewrite E. by rewrite (proj2 (truthy_str_true (trim s))).
Qed.

Lemma redirects_trimmed text m : m ∈ extractRedirectModels text → trim m = m.
Proof.
  unfold extractRedirectModels. case_match; [set_solver|].
  destruct (parse_object _) as [ps|]; [|set_solver].
  rewrite elem_of_uniq, list_elem_of_omap. intros (kv & _ & Hv).
  unfold string_value in Hv. destruct (snd kv); try done. case_match; simplify_eq.
  apply trim_idemp.
Qed.

Lemma findExposed_filter text current :
  findExposedTargetModels text current
  = List.filter (λ model, bool_decide (normalizeModelName model ∈ uniq (map normalizeModelName current)))
      (extractRedirectModels text).
Proof. unfold findExposedTargetModels. by destruct (extractRedirectModels text). Qed.

Lemma elem_of_exposed text current m :
  m ∈ findExposedTargetModels text current ↔
  m ∈ extractRedirectModels text ∧ ∃ c, c ∈ current ∧ trim c = m.
Proof.
  rewrite findExposed_filter, elem_of_filterb, bool_decide_eq_true, elem_of_uniq, list_elem_of_fmap.
  unfold normalizeModelName. split.
  - intros [Hm (c & Hc & Hin)]. split; [done|]. exists c. split; [done|].
    rewrite <-Hc. by eapply redirects_trimmed.
  - intros [Hm (c & Hc & Hin)]. split; [done|]. exists c. split; [|done].
    rewrite (redirects_trimmed _ _ Hm). by symmetry.
Qed.

(** The exposed models are the redirect targets that some entry of the list
    names after trimming; dropping those entries from the list leaves no
    target exposed. *)
Theorem exposed_models_spec (text : jsstr) (current : list jsstr) :
  let exposed := findExposedTargetModels text current in
  (∀ m, m ∈ exposed ↔ m ∈ extractRedirectModels text ∧ ∃ c, c ∈ current ∧ trim c = m) ∧
  NoDup exposed ∧
  findExposedTargetModels text
    (List.filter (λ c, negb (bool_decide (trim c ∈ exposed))) current) = [].
Proof.
  cbv zeta. split_and!.
  - intros m. apply elem_of_exposed.
  - rewrite findExposed_filter. rewrite NoDup_ListNoDup. apply List.NoDup_filter.
    rewrite <-NoDup_ListNoDup. unfold extractRedirectModels.
    case_match; [constructor|]. destruct (parse_object _); [apply NoDup_uniq | constructor].
  - destruct (findExposedTargetModels text (List.filter _ current)) as [|m l] eqn:E; [done|].
    assert (m ∈ findExposedTargetModels text
      (List.filter (λ c, negb (bool_decide (trim c ∈ findExposedTargetModels text current))) current))
      as Hm by (rewrite E; constructor).
    apply elem_of_exposed in Hm as [Hr (c & Hc & Ht)].
    apply elem_of_filterb in Hc as [Hc Hn]. apply negb_true_iff, bool_decide_eq_false in Hn.
    exfalso. apply Hn. rewrite Ht. apply elem_of_exposed. eauto.
Qed.

(** ** Change detection, validation, categories *)

Lemma models_differ_false l l' :
  length l = length l' → models_differ l l' = false ↔ l = l'.
Proof.
  revert l'; induction l as [|x l IH]; intros [|y l']; simpl; try done. intros [= Hlen].
  case_bool_decide; simpl; [rewrite IH by done|]; naive_solver.
Qed.

(** An edit counts as unchanged exactly when the channel existed (it had a
    model or a mapping), the model lists are equal element by element, and
    the mapping texts are equal up to surrounding white space. *)
Theorem config_unchanged_spec (cur : list jsstr) (curMap : jsstr) (init : list jsstr) (initMap : jsstr) :
  hasModelConfigChanged cur curMap init initMap = false ↔
  (init ≠ [] ∨ initMap ≠ []) ∧ cur = init ∧ trim curMap = trim initMap.
Proof.
  assert (∀ s, str_or s [] = s) as Hor.
  { intros s. unfold str_or. destruct (truthy_str s) eqn:E; [done|]. by apply truthy_str_false in E. }
  unfold hasModelConfigChanged. rewrite !Hor.
  case_bool_decide as Hl; simpl; [apply nil_length_inv in Hl as ->|].
  - destruct (truthy_str initMap) eqn:Ei; simpl.
    + apply truthy_str_true in Ei.
      case_bool_decide as Hc; simpl; [apply nil_length_inv in Hc as ->|]; simpl.
      * rewrite negb_false_iff, bool_decide_eq_true. naive_solver.
      * split; [done|]. intros (_ & -> & _). done.
    + apply truthy_str_false in Ei as ->. naive_solver.
  - assert (init ≠ []) by (by intros ->).
    case_bool_decide as Hc; simpl; [|naive_solver].
    destruct (models_differ cur init) eqn:Ed.
    + split; [done|]. intros (_ & -> & _).
      by rewrite (proj2 (models_differ_false init init eq_refl)) in Ed.
    + apply models_differ_false in Ed as ->; [|done].
      rewrite negb_false_iff, bool_decide_eq_true. naive_solver.
Qed.

(** A mapping text is valid exactly when it is blank or a JSON object all of
    whose values are strings; an invalid one carries one of three messages
    telling malformed JSON, another JSON value and a non-string value apart. *)
Theorem validate_mapping_spec (text : jsstr) :
  let v := validateModelMappingJson text in
  (valid v = true ↔ trim text = [] ∨ ∃ ps, json_parse text = Ok (VObj ps) ∧
                      ∀ kv, kv ∈ ps → ∃ s, snd kv = VStr s) ∧
  (valid v = true ↔ error v = None) ∧
  (valid v = false →
     (error v = Some (js "Model mapping must be valid JSON format") ∧ ∃ e, json_parse text = Throw e)
   ∨ (error v = Some (js "Model mapping must be a valid JSON object") ∧
        ∃ w, json_parse text = Ok w ∧ is_plain_object w = false)
   ∨ (error v = Some (js "Model mapping values must be strings") ∧
        ∃ ps, json_parse text = Ok (VObj ps))).
Proof.
  cbv zeta. unfold validateModelMappingJson.
  destruct (negb (truthy_str text) || bool_decide (trim text = [])) eqn:Eb.
  { assert (trim text = []) as Ht.
    { apply orb_true_iff in Eb as [H|H%bool_decide_eq_true]; [|done].
      apply negb_true_iff, truthy_str_false in H as ->. done. }
    cbn [valid error]. split_and!; [split; [by left | done] | done | done]. }
  apply orb_false_iff in Eb as [_ Hne%bool_decide_eq_false].
  destruct (json_parse text) as [w|e] eqn:Ej.
  2:{ cbn [valid error]. split_and!; [|done|intros _; left; eauto].
      split; [done|]. by intros [?|(ps & ? & _)]. }
  destruct w as [| |b|n|s|l|ps];
    try (cbn [valid error]; split_and!;
         [split; [done | by intros [?|(? & ? & _)]] | done | intros _; right; left; eauto]).
  destruct (existsb _ ps) eqn:Ex; cbn [valid error].
  - split_and!; [|done|intros _; right; right; eauto].
    apply existsb_exists_elem in Ex as (kv & Hkv & Hs).
    split; [done|]. intros [?|(ps' & [= <-] & Hall)]; [done|].
    destruct (Hall kv Hkv) as [s Hv]. by rewrite Hv in Hs.
  - split_and!; [|done|done]. split; [|done]. intros _. right. exists ps. split; [done|].
    intros kv Hkv. destruct (is_string (snd kv)) eqn:Es; [destruct (snd kv); eauto; done|].
    assert (existsb (λ kv, negb (is_string (snd kv))) ps = true) as H; [|congruence].
    apply existsb_exists_elem. exists kv. by rewrite Es.
Qed.

(** The categories of the model picker partition the names: the
    classification set is the union of the normalized current and redirect
    names, and its redirect-only part is disjoint from the current names and
    completes them. *)
Theorem categories_partition (current redirect : list jsstr) :
  let c := categorizeModelsWithRedirect current redirect in
  (∀ m, m ∈ classificationSet c ↔ m ∈ normalizedCurrentModels c ∨ m ∈ redirectOnlySet c) ∧
  (∀ m, m ∈ redirectOnlySet c → m ∉ normalizedCurrentModels c) ∧
  NoDup (normalizedCurrentModels c ++ redirectOnlySet c) ∧
  normalizedCurrentModels c ++ redirectOnlySet c = classificationSet c.
Proof.
  cbv zeta. unfold categorizeModelsWithRedirect; simpl.
  set (ncm := uniq (List.filter truthy_str (map normalizeModelName current))).
  set (nrm := uniq (List.filter truthy_str (map normalizeModelName redirect))).
  assert (∀ m, m ∈ uniq (List.filter (λ m, negb (bool_decide (m ∈ ncm))) nrm)
               ↔ m ∈ nrm ∧ m ∉ ncm) as Hro.
  { intros m. by rewrite elem_of_uniq, elem_of_filterb, negb_true_iff, bool_decide_eq_false. }
  assert (NoDup (ncm ++ uniq (List.filter (λ m, negb (bool_decide (m ∈ ncm))) nrm))) as Hnd.
  { apply NoDup_app. split; [apply NoDup_uniq|]. split; [|apply NoDup_uniq].
    intros m Hm Hm'. by apply Hro in Hm' as []. }
  split_and!; [| |done|].
  - intros m. rewrite elem_of_uniq, elem_of_app, Hro. destruct (decide (m ∈ ncm)); naive_solver.
  - intros m Hm. by apply Hro in Hm as [].
  - symmetry. apply uniq_app, NoDup_uniq.
Qed.
