(* ===== verification/AdvancedCustom.v ===== *)
(** * Advanced custom channels (channels/lib/advanced-custom.ts)

    A channel of this type routes incoming API paths to upstream paths, one
    route per entry of [advanced_routes].  The configuration comes from a JSON
    text the administrator edits, so every operation is defined on arbitrary
    JavaScript values and throws where the code would.  [AdvancedCustomSpec]
    states what the operations promise on configurations of the declared
    type. *)

From Stdlib Require Import ZArith.
From stdpp Require Import gmap.
From S2P Require Import Prelude JsString JsNumber JsCollections JsValue Json.

Definition CHANNEL_TYPE_ADVANCED_CUSTOM : Z := 58.

(** ** Option tables *)

Record ConverterOption := { co_value : jsstr; co_label : jsstr; co_triggerLabel : jsstr }.

Definition converter_option (v l t : String.string) : ConverterOption :=
  {| co_value := js v; co_label := js l; co_triggerLabel := js t |}.
Arguments converter_option (v l t)%_string.

Definition ADVANCED_CUSTOM_CONVERTER_OPTIONS : list ConverterOption :=
  [ converter_option "none" "Native forwarding" "Native forwarding";
    converter_option "anthropic_messages_to_openai_chat_completions"
      "Anthropic Messages to OpenAI Chat" "To OpenAI Chat";
    converter_option "openai_chat_completions_to_anthropic_messages"
      "OpenAI Chat to Anthropic Messages" "To Anthropic Messages";
    converter_option "openai_chat_completions_to_openai_responses"
      "OpenAI Chat to OpenAI Responses" "To OpenAI Responses";
    converter_option "openai_responses_to_openai_chat_completions"
      "OpenAI Responses to OpenAI Chat" "To OpenAI Chat";
    converter_option "openai_responses_to_gemini_generate_content"
      "OpenAI Responses to Gemini Generate Content" "To Gemini Generate Content";
    converter_option "gemini_generate_content_to_openai_chat_completions"
      "Gemini Generate Content to OpenAI Chat" "To OpenAI Chat";
    converter_option "openai_chat_completions_to_gemini_generate_content"
      "OpenAI Chat to Gemini Generate Content" "To Gemini Generate Content" ].

Record LabelledOption := { lo_value : jsstr; lo_label : jsstr }.

Definition labelled (v l : String.string) : LabelledOption :=
  {| lo_value := js v; lo_label := js l |}.
Arguments labelled (v l)%_string.

Definition ADVANCED_CUSTOM_AUTH_MODE_OPTIONS : list LabelledOption :=
  [ labelled "default" "Default Bearer"; labelled "none" "No Auth";
    labelled "header" "Header"; labelled "query" "Query" ].

Definition ADVANCED_CUSTOM_INCOMING_PATH_OPTIONS : list LabelledOption :=
  [ labelled "/v1/chat/completions" "OpenAI Chat";
    labelled "/v1/responses" "OpenAI Responses";
    labelled "/v1/responses/compact" "OpenAI Responses Compact";
    labelled "/v1/embeddings" "OpenAI Embeddings";
    labelled "/v1/images/generations" "OpenAI Image Generations";
    labelled "/v1/images/edits" "OpenAI Image Edits";
    labelled "/v1/completions" "OpenAI Completions";
    labelled "/v1/audio/speech" "OpenAI Audio Speech";
    labelled "/v1/audio/transcriptions" "OpenAI Audio Transcriptions";
    labelled "/v1/audio/translations" "OpenAI Audio Translations";
    labelled "/v1/rerank" "OpenAI Rerank";
    labelled "/v1/realtime" "OpenAI Realtime";
    labelled "/v1/messages" "Claude Messages";
    labelled "/v1beta/models/{model}:generateContent" "Gemini Generate Content";
    labelled "/v1beta/models/{model}:embedContent" "Gemini Embed Content";
    labelled "/v1beta/models/{model}:batchEmbedContents" "Gemini Batch Embed Contents" ].

Definition ADVANCED_CUSTOM_ROUTE_SUMMARY_LABELS : list (jsstr * jsstr) :=
  [(js "/v1/chat/completions", js "OpenAI Chat")].

Record ValidationError := { message : jsstr; routeIndex : option nat }.

Definition ADVANCED_CUSTOM_MODEL_REGEX_PREFIX : jsstr := js "re:".

Inductive ModelRuleKind := Exact | Regex.

#[export] Instance ModelRuleKind_eq_dec : EqDecision ModelRuleKind.
Proof. solve_decision. Defined.

Definition openAIChatPath : jsstr := js "/v1/chat/completions".
Definition openAIResponsesPath : jsstr := js "/v1/responses".
Definition claudeMessagesPath : jsstr := js "/v1/messages".
Definition geminiGenerateContentPath : jsstr := js "/v1beta/models/{model}:generateContent".

(** ** Object literals of the configuration *)

Definition auth_obj (type name value : String.string) : val :=
  VObj [(js "type", VStr (js type)); (js "name", VStr (js name)); (js "value", VStr (js value))].
Arguments auth_obj (type name value)%_string.

Definition bearerHeaderAuth : val := auth_obj "header" "Authorization" "Bearer {api_key}".
Definition apiKeyHeaderAuth : val := auth_obj "header" "x-api-key" "{api_key}".
Definition geminiQueryAuth : val := auth_obj "query" "key" "{api_key}".

Definition template_route (incoming upstream converter : String.string) (auth : val) : val :=
  VObj [(js "incoming_path", VStr (js incoming)); (js "upstream_path", VStr (js upstream));
        (js "converter", VStr (js converter)); (js "auth", auth)].
Arguments template_route (incoming upstream converter)%_string auth.

Definition config_obj (routes : list val) : val := VObj [(js "advanced_routes", VArr routes)].

Record TemplateOption := { to_value : jsstr; to_label : jsstr; to_config : val }.

Definition template (v l : String.string) (routes : list val) : TemplateOption :=
  {| to_value := js v; to_label := js l; to_config := config_obj routes |}.
Arguments template (v l)%_string routes.

Definition ADVANCED_CUSTOM_TEMPLATE_OPTIONS : list TemplateOption :=
  [ template "official_openai_chat" "Official OpenAI Chat"
      [template_route "/v1/chat/completions" "/v1/chat/completions" "none" bearerHeaderAuth];
    template "official_openai_responses" "Official OpenAI Responses"
      [template_route "/v1/responses" "/v1/responses" "none" bearerHeaderAuth];
    template "official_openai_embeddings" "Official OpenAI Embeddings"
      [template_route "/v1/embeddings" "/v1/embeddings" "none" bearerHeaderAuth];
    template "official_openai_images" "Official OpenAI Images"
      [template_route "/v1/images/generations" "/v1/images/generations" "none" bearerHeaderAuth;
       template_route "/v1/images/edits" "/v1/images/edits" "none" bearerHeaderAuth];
    template "official_claude_messages" "Official Claude Messages"
      [template_route "/v1/messages" "/v1/messages" "none" apiKeyHeaderAuth];
    template "official_gemini_native" "Official Gemini Native"
      [template_route "/v1beta/models/{model}:generateContent"
         "/v1beta/models/{model}:generateContent" "none" geminiQueryAuth;
       template_route "/v1beta/models/{model}:embedContent"
         "/v1beta/models/{model}:embedContent" "none" geminiQueryAuth;
       template_route "/v1beta/models/{model}:batchEmbedContents"
         "/v1beta/models/{model}:batchEmbedContents" "none" geminiQueryAuth];
    template "official_gemini_from_openai_chat" "Official Gemini from OpenAI Chat"
      [template_route "/v1/chat/completions" "/v1beta/models/{model}:generateContent"
         "openai_chat_completions_to_gemini_generate_content" geminiQueryAuth] ].

(** A deep copy through JSON. *)
Definition cloneAdvancedCustomConfig (config : val) : res val :=
  match json_stringify [] config with
  | Some text => json_parse text
  | None => Throw SyntaxError
  end.

Definition getAdvancedCustomTemplateConfig (templateKey : jsstr) : res val :=
  match List.find (λ o, bool_decide (to_value o = templateKey)) ADVANCED_CUSTOM_TEMPLATE_OPTIONS with
  | Some t => cloneAdvancedCustomConfig (to_config t)
  | None =>
      match ADVANCED_CUSTOM_TEMPLATE_OPTIONS with
      | t :: _ => cloneAdvancedCustomConfig (to_config t)
      | [] => Throw TypeError
      end
  end.

Definition createAdvancedCustomRoute : val :=
  VObj [(js "incoming_path", VStr openAIChatPath); (js "upstream_path", VStr openAIChatPath);
        (js "converter", VStr (js "none"))].

Definition createAdvancedCustomConfig : val := config_obj [createAdvancedCustomRoute].

(** ** Converters and paths *)

Definition str_is (s : jsstr) (lit : String.string) : bool := bool_decide (s = js lit).
Arguments str_is s lit%_string.

Definition isConverterPathAllowed (incomingPath converter : jsstr) : bool :=
  if str_is converter "none" then true
  else if str_is converter "anthropic_messages_to_openai_chat_completions"
  then str_is incomingPath "/v1/messages"
  else if str_is converter "openai_chat_completions_to_anthropic_messages"
          || str_is converter "openai_chat_completions_to_openai_responses"
          || str_is converter "openai_chat_completions_to_gemini_generate_content"
  then str_is incomingPath "/v1/chat/completions"
  else if str_is converter "openai_responses_to_openai_chat_completions"
  then str_is incomingPath "/v1/responses"
  else if str_is converter "openai_responses_to_gemini_generate_content"
  then str_is incomingPath "/v1/responses"
  else includes incomingPath (js ":generateContent")
       || includes incomingPath (js ":streamGenerateContent").

Definition getAdvancedCustomIncomingPathOptions (converter : jsstr) : list LabelledOption :=
  List.filter (λ o, isConverterPathAllowed (lo_value o) converter)
    ADVANCED_CUSTOM_INCOMING_PATH_OPTIONS.

Definition getDefaultAdvancedCustomIncomingPath (converter : jsstr) : jsstr :=
  str_or (match getAdvancedCustomIncomingPathOptions converter with
          | o :: _ => lo_value o
          | [] => []
          end) (js "/v1/chat/completions").

Definition isAdvancedCustomIncomingPathAllowed (incomingPath converter : jsstr) : bool :=
  isConverterPathAllowed incomingPath converter.

Definition getAdvancedCustomConverterOptions (incomingPath : jsstr) : list ConverterOption :=
  let normalizedIncomingPath := trim incomingPath in
  List.filter (λ o, str_is (co_value o) "none"
                    || isConverterPathAllowed normalizedIncomingPath (co_value o))
    ADVANCED_CUSTOM_CONVERTER_OPTIONS.

Definition getAdvancedCustomNativeAuth (incomingPath : jsstr) : val :=
  if bool_decide (incomingPath = claudeMessagesPath) then apiKeyHeaderAuth
  else if includes incomingPath (js ":generateContent")
          || includes incomingPath (js ":streamGenerateContent")
          || includes incomingPath (js ":embedContent")
          || includes incomingPath (js ":batchEmbedContents")
  then geminiQueryAuth
  else bearerHeaderAuth.

Record ConverterDefaults := { upstream_path : jsstr; auth : val }.

Definition getAdvancedCustomConverterDefaults (converter incomingPath : jsstr) : ConverterDefaults :=
  let normalizedIncomingPath :=
    str_or (trim incomingPath) (getDefaultAdvancedCustomIncomingPath converter) in
  if str_is converter "none" then
    {| upstream_path := normalizedIncomingPath;
       auth := getAdvancedCustomNativeAuth normalizedIncomingPath |}
  else if str_is converter "anthropic_messages_to_openai_chat_completions"
          || str_is converter "gemini_generate_content_to_openai_chat_completions"
          || str_is converter "openai_responses_to_openai_chat_completions"
  then {| upstream_path := openAIChatPath; auth := bearerHeaderAuth |}
  else if str_is converter "openai_chat_completions_to_openai_responses"
  then {| upstream_path := openAIResponsesPath; auth := bearerHeaderAuth |}
  else if str_is converter "openai_chat_completions_to_anthropic_messages"
  then {| upstream_path := claudeMessagesPath; auth := apiKeyHeaderAuth |}
  else if str_is converter "openai_chat_completions_to_gemini_generate_content"
          || str_is converter "openai_responses_to_gemini_generate_content"
  then {| upstream_path := geminiGenerateContentPath; auth := geminiQueryAuth |}
  else {| upstream_path := str_or normalizedIncomingPath openAIChatPath;
          auth := getAdvancedCustomNativeAuth normalizedIncomingPath |}.

(** The default argument is [getDefaultAdvancedCustomIncomingPath(converter)]. *)
Definition getAdvancedCustomUpstreamPathPlaceholder (converter : jsstr)
    (incomingPath : option jsstr) : jsstr :=
  upstream_path (getAdvancedCustomConverterDefaults converter
    (default (getDefaultAdvancedCustomIncomingPath converter) incomingPath)).

Definition getAdvancedCustomIncomingPathLabel (value : jsstr) : jsstr :=
  str_or (match List.find (λ o, bool_decide (lo_value o = value))
                  ADVANCED_CUSTOM_INCOMING_PATH_OPTIONS with
          | Some o => lo_label o
          | None => []
          end) value.

(** ** Normalisation and text form *)

(** [(route.upstream_path || '').trim()]. *)
Definition getAdvancedCustomRouteUpstreamPath (route : val) : res val :=
  up ← get_prop route (js "upstream_path");
  call_trim (val_or up (VStr [])).

(** [models.map((model) => model.trim()).filter(Boolean)]. *)
Definition normalizeAdvancedCustomRouteModels (models : val) : res (list jsstr) :=
  match models with
  | VArr l =>
      ws ← res_mapM (λ m, match m with VStr s => Ok (trim s) | _ => Throw TypeError end) l;
      Ok (List.filter truthy_str ws)
  | _ => Ok []
  end.

Definition normalizeAdvancedCustomRoute (route : val) : res val :=
  incoming ← get_prop route (js "incoming_path");
  upstream ← getAdvancedCustomRouteUpstreamPath route;
  converter ← get_prop route (js "converter");
  models0 ← get_prop route (js "models");
  models ← normalizeAdvancedCustomRouteModels models0;
  auth ← get_prop route (js "auth");
  let nextRoute :=
    [(js "incoming_path", val_or incoming (VStr []));
     (js "upstream_path", upstream);
     (js "converter", val_or converter (VStr (js "none")))]
    ++ (match models with [] => [] | _ => [(js "models", VArr (map VStr models))] end) in
  if truthy auth then
    type ← get_prop auth (js "type");
    name ← get_prop auth (js "name");
    value ← get_prop auth (js "value");
    Ok (VObj (nextRoute ++ [(js "auth",
          VObj [(js "type", type); (js "name", val_or name (VStr []));
                (js "value", val_or value (VStr []))])]))
  else Ok (VObj nextRoute).

Definition normalizeAdvancedCustomConfig (config : val) : res val :=
  routes ← get_prop config (js "advanced_routes");
  match routes with
  | VArr l => routes' ← res_mapM normalizeAdvancedCustomRoute l; Ok (config_obj routes')
  | _ => Ok (config_obj [])
  end.

(** [None] is JavaScript's [null]; the argument is [string | undefined]. *)
Definition parseAdvancedCustomConfig (value : option jsstr) : option val :=
  match value with
  | None => None
  | Some text =>
      if negb (truthy_str (trim text)) then None
      else
        match json_parse text with
        | Ok (VObj ps) =>
            match normalizeAdvancedCustomConfig (VObj ps) with
            | Ok c => Some c
            | Throw _ => None
            end
        | _ => None
        end
  end.

Definition stringifyAdvancedCustomConfig (config : val) : res (option jsstr) :=
  c ← normalizeAdvancedCustomConfig config;
  Ok (json_stringify (js "  ") c).

Definition parseAdvancedCustomRouteModels (value : jsstr) : list jsstr :=
  uniq (List.filter truthy_str (map trim (split_on comma value))).

Definition getAdvancedCustomModelRuleKind (modelRule : jsstr) : ModelRuleKind :=
  if starts_with modelRule ADVANCED_CUSTOM_MODEL_REGEX_PREFIX then Regex else Exact.

Definition getAdvancedCustomRegexModelPattern (modelRule : jsstr) : jsstr :=
  drop (length ADVANCED_CUSTOM_MODEL_REGEX_PREFIX) modelRule.

(** ** Validation *)

(** What has been seen for one incoming path. *)
Record PathState := { catchAllIndex : option nat; seenModels : gmap jsstr nat }.

Definition err (routeIndex : nat) (m : String.string) : ValidationError :=
  {| message := js m; routeIndex := Some routeIndex |}.
Arguments err routeIndex m%_string.

(** The loop over the models of a route: [seen] are those of this route,
    [models] those of the path, both updated as the loop goes. *)
Fixpoint check_models (routeIndex : nat) (ms : list jsstr) (seen : gset jsstr)
    (models : gmap jsstr nat) : option ValidationError * gmap jsstr nat :=
  match ms with
  | [] => (None, models)
  | m :: ms' =>
      if bool_decide (getAdvancedCustomModelRuleKind m = Regex)
         && bool_decide (getAdvancedCustomRegexModelPattern m = [])
      then (Some (err routeIndex "Model regex cannot be empty"), models)
      else if bool_decide (m ∈ seen)
      then (Some (err routeIndex "Duplicate model in route models"), models)
      else match models !! m with
           | Some _ =>
               (Some (err routeIndex "Route models must be unique for the same incoming path"), models)
           | None => check_models routeIndex ms' ({[m]} ∪ seen) (<[m := routeIndex]> models)
           end
  end.

(** The per-path state is shared with the map, so its updates are the map's. *)
Definition validateAdvancedCustomRouteModels (routeIndex : nat) (incomingPath : jsstr)
    (models : list jsstr) (routeModelsByPath : gmap jsstr PathState)
    : option ValidationError * gmap jsstr PathState :=
  let state := default {| catchAllIndex := None; seenModels := ∅ |}
                       (routeModelsByPath !! incomingPath) in
  match models with
  | [] =>
      match catchAllIndex state with
      | Some _ =>
          (Some (err routeIndex "Only one catch-all route is allowed for the same incoming path"),
           <[incomingPath := state]> routeModelsByPath)
      | None =>
          (None, <[incomingPath := {| catchAllIndex := Some routeIndex;
                                      seenModels := seenModels state |}]> routeModelsByPath)
      end
  | _ =>
      match catchAllIndex state with
      | Some _ =>
          (Some (err routeIndex "Catch-all route must be last for the same incoming path"),
           <[incomingPath := state]> routeModelsByPath)
      | None =>
          let '(e, ms) := check_models routeIndex models ∅ (seenModels state) in
          (e, <[incomingPath := {| catchAllIndex := None; seenModels := ms |}]> routeModelsByPath)
      end
  end.

(** Whether the value is one of the registered converters. *)
Definition isAdvancedCustomConverter (value : val) : bool :=
  existsb (λ o, strict_eqb (VStr (co_value o)) value) ADVANCED_CUSTOM_CONVERTER_OPTIONS.

(** [!v?.trim()] *)
Definition blank_opt (v : val) : res bool :=
  t ← call_trim_opt v; Ok (negb (truthy t)).

Definition validateRouteAuth (auth : val) : res (option jsstr) :=
  if negb (truthy auth) then Ok None
  else
    type ← get_prop auth (js "type");
    if strict_eqb type (VStr (js "none")) then Ok None
    else if negb (strict_eqb type (VStr (js "header"))) && negb (strict_eqb type (VStr (js "query")))
    then Ok (Some (js "Auth type is invalid"))
    else
      name ← get_prop auth (js "name");
      b ← blank_opt name;
      if (b : bool) then Ok (Some (js "Auth name is required"))
      else
        value ← get_prop auth (js "value");
        b ← blank_opt value;
        if (b : bool) then Ok (Some (js "Auth value is required")) else Ok None.

Section url.
(** [new URL(value)]: its host and protocol, or nothing when it throws.  The
    WHATWG URL parser is not part of the program. *)
Variable url_parse : jsstr → option (jsstr * jsstr).

Definition isFullHttpURLOrAbsolutePath (value : jsstr) : bool :=
  if starts_with value (js "/") then negb (starts_with value (js "//"))
  else
    match url_parse value with
    | Some (host, protocol) =>
        truthy_str host && (str_is protocol "http:" || str_is protocol "https:")
    | None => false
    end.

(** One iteration of the loop: an error, or the updated state. *)
Definition validate_route (index : nat) (route : val) (byPath : gmap jsstr PathState)
    : res (option ValidationError * gmap jsstr PathState) :=
  incoming ← get_prop route (js "incoming_path");
  trimmed ← call_trim_opt incoming;
  upstream ← getAdvancedCustomRouteUpstreamPath route;
  converter0 ← get_prop route (js "converter");
  models0 ← get_prop route (js "models");
  routeModels ← normalizeAdvancedCustomRouteModels models0;
  let incomingPath := match val_or trimmed (VStr []) with VStr s => s | _ => [] end in
  let upstreamPath := match upstream with VStr s => s | _ => [] end in
  let converter := val_or converter0 (VStr (js "none")) in
  if negb (truthy_str incomingPath)
  then Ok (Some (err index "Incoming path is required"), byPath)
  else if negb (starts_with incomingPath (js "/"))
  then Ok (Some (err index "Incoming path must start with /"), byPath)
  else if includes incomingPath (js "?")
  then Ok (Some (err index "Incoming path must not include query"), byPath)
  else
    match validateAdvancedCustomRouteModels index incomingPath routeModels byPath with
    | (Some e, byPath') => Ok (Some e, byPath')
    | (None, byPath') =>
        if negb (truthy_str upstreamPath)
        then Ok (Some (err index "Upstream path is required"), byPath')
        else if negb (isFullHttpURLOrAbsolutePath upstreamPath)
        then Ok (Some (err index "Upstream path must be a full URL or a path starting with /"), byPath')
        else if negb (isAdvancedCustomConverter converter)
        then Ok (Some (err index "Converter is not registered"), byPath')
        else
          let converterName := match converter with VStr s => s | _ => [] end in
          if negb (isConverterPathAllowed incomingPath converterName)
          then Ok (Some (err index "Converter does not match incoming path"), byPath')
          else
            auth ← get_prop route (js "auth");
            authError ← validateRouteAuth auth;
            match authError with
            | Some m => Ok (Some {| message := m; routeIndex := Some index |}, byPath')
            | None => Ok (None, byPath')
            end
    end.

Fixpoint validate_routes (index : nat) (routes : list val) (byPath : gmap jsstr PathState)
    : res (option ValidationError) :=
  match routes with
  | [] => Ok None
  | route :: routes' =>
      r ← validate_route index route byPath;
      match r with
      | (Some e, _) => Ok (Some e)
      | (None, byPath') => validate_routes (S index) routes' byPath'
      end
  end.

Definition validateAdvancedCustomConfig (config : val) : res (option ValidationError) :=
  if negb (truthy config)
  then Ok (Some {| message := js "Advanced custom configuration is required"; routeIndex := None |})
  else
    normalized ← normalizeAdvancedCustomConfig config;
    routes ← get_prop normalized (js "advanced_routes");
    match routes with
    | VArr ((_ :: _) as l) => validate_routes O l ∅
    | _ => Ok (Some {| message := js "Advanced custom configuration requires at least one route";
                       routeIndex := None |})
    end.

(** ** Derived views *)

(** The label table is indexed by the path; a path that names a member of
    [Object.prototype] (it could not start with a slash) is not modelled. *)
Definition getAdvancedCustomRouteSummaryLabel (route : val) : res (option jsstr) :=
  incoming ← get_prop route (js "incoming_path");
  trimmed ← call_trim_opt incoming;
  match val_or trimmed (VStr []) with
  | VStr incomingPath =>
      if negb (truthy_str incomingPath) then Ok None
      else Ok (Some (str_or (default [] (mget incomingPath ADVANCED_CUSTOM_ROUTE_SUMMARY_LABELS))
                            (getAdvancedCustomIncomingPathLabel incomingPath)))
  | _ => Ok None
  end.

Record Stats := { routeCount : nat; stats_valid : bool; routeTypeLabels : list jsstr }.

Fixpoint summary_labels (routes : list val) (acc : list jsstr) : res (list jsstr) :=
  match routes with
  | [] => Ok acc
  | route :: routes' =>
      label ← getAdvancedCustomRouteSummaryLabel route;
      match label with
      | Some l => if bool_decide (l ∈ acc) || negb (truthy_str l)
                  then summary_labels routes' acc
                  else summary_labels routes' (acc ++ [l])
      | None => summary_labels routes' acc
      end
  end.

Definition getAdvancedCustomStats (value : option jsstr) : res Stats :=
  match parseAdvancedCustomConfig value with
  | None => Ok {| routeCount := O; stats_valid := false; routeTypeLabels := [] |}
  | Some config =>
      normalized ← normalizeAdvancedCustomConfig config;
      routes ← get_prop normalized (js "advanced_routes");
      let l := match routes with VArr l => l | _ => [] end in
      labels ← summary_labels l [];
      e ← validateAdvancedCustomConfig normalized;
      Ok {| routeCount := length l;
            stats_valid := match e with None => true | Some _ => false end;
            routeTypeLabels := labels |}
  end.
End url.

Fixpoint some_relative (routes : list val) : res bool :=
  match routes with
  | [] => Ok false
  | route :: routes' =>
      up ← getAdvancedCustomRouteUpstreamPath route;
      match up with
      | VStr s => if starts_with s (js "/") then Ok true else some_relative routes'
      | _ => Throw TypeError
      end
  end.

Definition advancedCustomConfigUsesRelativeUpstreamPath (config : val) : res bool :=
  if negb (truthy config) then Ok false
  else
    normalized ← normalizeAdvancedCustomConfig config;
    routes ← get_prop normalized (js "advanced_routes");
    match routes with VArr l => some_relative l | _ => Ok false end.

(** [route.auth?.type || 'default']. *)
Definition getAdvancedCustomAuthMode (route : val) : res val :=
  auth ← get_prop route (js "auth");
  type ← (if nullish auth then Ok VUndef else get_prop auth (js "type"));
  Ok (val_or type (VStr (js "default"))).

(** [previousAuth?.name || d]. *)
Definition previous_or (previousAuth : val) (k : jsstr) (d : String.string) : res val :=
  v ← (if nullish previousAuth then Ok VUndef else get_prop previousAuth k);
  Ok (val_or v (VStr (js d))).
Arguments previous_or previousAuth k d%_string.

(** [undefined] is [VUndef]. *)
Definition buildAdvancedCustomAuth (mode : jsstr) (previousAuth : val) : res val :=
  if str_is mode "default" then Ok VUndef
  else if str_is mode "none" then Ok (VObj [(js "type", VStr (js "none"))])
  else if str_is mode "header" then
    name ← previous_or previousAuth (js "name") "Authorization";
    value ← previous_or previousAuth (js "value") "Bearer {api_key}";
    Ok (VObj [(js "type", VStr (js "header")); (js "name", name); (js "value", value)])
  else
    name ← previous_or previousAuth (js "name") "api_key";
    value ← previous_or previousAuth (js "value") "{api_key}";
    Ok (VObj [(js "type", VStr (js "query")); (js "name", name); (js "value", value)]).

Example parse_ill_typed_config :
  parseAdvancedCustomConfig (Some (jq "{`advanced_routes`: [{`models`: [1]}]}")) = None.
Proof. vm_compute. reflexivity. Qed.

Example validate_ill_typed_config :
  validateAdvancedCustomConfig (λ _, None)
    (config_obj [VObj [(js "incoming_path", VNum (num_of_Z 5))]]) = Throw TypeError.
Proof. vm_compute. reflexivity. Qed.

Example validate_two_catch_alls :
  validateAdvancedCustomConfig (λ _, None)
    (config_obj [createAdvancedCustomRoute; createAdvancedCustomRoute])
  = Ok (Some (err 1 "Only one catch-all route is allowed for the same incoming path")).
Proof. vm_compute. reflexivity. Qed.
