(* ===== verification/AdvancedCustomSpec.v ===== *)
(** * What advanced custom configurations promise

    [Route] and [Auth] are the declared TypeScript types; [enc_config] builds
    the JavaScript value of a typed configuration.  [route_ok] says, without
    reference to the validator's maps, when a route may follow others.  The
    refinement theorem relates the two. *)

From Stdlib Require Import ZArith.
From stdpp Require Import gmap.
From S2P Require Import Prelude JsString JsNumber JsCollections JsValue Json JsonFacts ModelMapping AdvancedCustom.

(** ** The declared types *)

Record Auth := { a_type : option jsstr; a_name : option jsstr; a_value : option jsstr }.

Record Route := {
  r_incoming : option jsstr;
  r_upstream : option jsstr;
  r_converter : option jsstr;
  r_models : option (list jsstr);
  r_auth : option Auth
}.

Definition opt_prop {A} (k : jsstr) (f : A → val) (o : option A) : list (jsstr * val) :=
  match o with Some x => [(k, f x)] | None => [] end.

Definition opt_val (o : option jsstr) : val := match o with Some s => VStr s | None => VUndef end.

Definition enc_auth (a : Auth) : val :=
  VObj (opt_prop (js "type") VStr (a_type a) ++ opt_prop (js "name") VStr (a_name a)
        ++ opt_prop (js "value") VStr (a_value a)).

Definition enc_models (ms : list jsstr) : val := VArr (map VStr ms).

Definition enc_route (r : Route) : val :=
  VObj (opt_prop (js "incoming_path") VStr (r_incoming r)
        ++ opt_prop (js "upstream_path") VStr (r_upstream r)
        ++ opt_prop (js "converter") VStr (r_converter r)
        ++ opt_prop (js "models") enc_models (r_models r)
        ++ opt_prop (js "auth") enc_auth (r_auth r)).

Definition enc_config (rs : list Route) : val := config_obj (map enc_route rs).

(** ** Effective values of a route *)

Definition incoming_of (r : Route) : jsstr := default [] (r_incoming r).
Definition path_of (r : Route) : jsstr := trim (incoming_of r).
Definition upstream_of (r : Route) : jsstr := trim (default [] (r_upstream r)).
Definition converter_of (r : Route) : jsstr := str_or (default [] (r_converter r)) (js "none").
Definition models_of (r : Route) : list jsstr :=
  List.filter truthy_str (map trim (default [] (r_models r))).

Definition norm_auth (a : Auth) : val :=
  VObj [(js "type", opt_val (a_type a)); (js "name", VStr (default [] (a_name a)));
        (js "value", VStr (default [] (a_value a)))].

(** The normal form of a typed route. *)
Definition norm_route (r : Route) : val :=
  VObj ([(js "incoming_path", VStr (incoming_of r)); (js "upstream_path", VStr (upstream_of r));
         (js "converter", VStr (converter_of r))]
        ++ match models_of r with [] => [] | ms => [(js "models", enc_models ms)] end
        ++ match r_auth r with Some a => [(js "auth", norm_auth a)] | None => [] end).

Lemma val_or_str s t : val_or (VStr s) (VStr t) = VStr (str_or s t).
Proof. unfold val_or, str_or. simpl. by destruct (truthy_str s). Qed.

Lemma val_or_opt o t : val_or (opt_val o) (VStr t) = VStr (str_or (default [] o) t).
Proof. destruct o; [apply val_or_str | done]. Qed.

Lemma str_or_nil s : str_or s [] = s.
Proof.
  unfold str_or. destruct (truthy_str s) eqn:E; [done|]. symmetry. by apply truthy_str_false.
Qed.

Lemma get_enc_route r :
  get_prop (enc_route r) (js "incoming_path") = Ok (opt_val (r_incoming r)) ∧
  get_prop (enc_route r) (js "upstream_path") = Ok (opt_val (r_upstream r)) ∧
  get_prop (enc_route r) (js "converter") = Ok (opt_val (r_converter r)) ∧
  get_prop (enc_route r) (js "models") = Ok (match r_models r with Some l => enc_models l | None => VUndef end) ∧
  get_prop (enc_route r) (js "auth") = Ok (match r_auth r with Some a => enc_auth a | None => VUndef end).
Proof.
  destruct r as [i u c m a]. unfold enc_route; simpl r_incoming; simpl r_upstream;
    simpl r_converter; simpl r_models; simpl r_auth.
  generalize enc_models enc_auth. intros em ea.
  split_and!; destruct i, u, c, m, a; vm_compute; reflexivity.
Qed.

Lemma get_enc_auth a :
  get_prop (enc_auth a) (js "type") = Ok (opt_val (a_type a)) ∧
  get_prop (enc_auth a) (js "name") = Ok (opt_val (a_name a)) ∧
  get_prop (enc_auth a) (js "value") = Ok (opt_val (a_value a)).
Proof. destruct a as [t n v]; split_and!; destruct t, n, v; vm_compute; reflexivity. Qed.

Lemma normalize_models_enc ms :
  normalizeAdvancedCustomRouteModels (enc_models ms)
  = Ok (List.filter truthy_str (map trim ms)).
Proof.
  unfold normalizeAdvancedCustomRouteModels, enc_models.
  assert (res_mapM (λ m, match m with VStr s => Ok (trim s) | _ => Throw TypeError end) (map VStr ms)
          = Ok (map trim ms)) as ->; [|done].
  apply res_mapM_ok. induction ms; simpl; constructor; auto.
Qed.

Lemma normalize_route_enc r : normalizeAdvancedCustomRoute (enc_route r) = Ok (norm_route r).
Proof.
  destruct (get_enc_route r) as (Ei & Eu & Ec & Em & Ea).
  unfold normalizeAdvancedCustomRoute, getAdvancedCustomRouteUpstreamPath.
  rewrite Ei, Eu, Ec, Em, Ea. run_res. rewrite !val_or_opt, !str_or_nil.
  assert (normalizeAdvancedCustomRouteModels
            (match r_models r with Some l => enc_models l | None => VUndef end) = Ok (models_of r)) as ->.
  { unfold models_of. destruct (r_models r); [apply normalize_models_enc | done]. }
  unfold norm_route, incoming_of, upstream_of, converter_of, norm_auth. cbn [call_trim].
  destruct (r_auth r) as [a|]; cbn [truthy].
  - destruct (get_enc_auth a) as (Et & En & Ev).
    change (truthy (enc_auth a)) with true. cbn [truthy].
    rewrite Et, En, Ev, !val_or_opt, !str_or_nil. by destruct (models_of r).
  - by destruct (models_of r).
Qed.

Lemma normalize_config_enc rs :
  normalizeAdvancedCustomConfig (enc_config rs) = Ok (config_obj (map norm_route rs)).
Proof.
  unfold normalizeAdvancedCustomConfig, enc_config, config_obj. simpl.
  assert (res_mapM normalizeAdvancedCustomRoute (map enc_route rs) = Ok (map norm_route rs)) as ->; [|done].
  apply res_mapM_ok. induction rs; simpl; constructor; auto using normalize_route_enc.
Qed.

(** ** Reading a normal form *)

Lemma get_norm_route r :
  get_prop (norm_route r) (js "incoming_path") = Ok (VStr (incoming_of r)) ∧
  get_prop (norm_route r) (js "upstream_path") = Ok (VStr (upstream_of r)) ∧
  get_prop (norm_route r) (js "converter") = Ok (VStr (converter_of r)) ∧
  get_prop (norm_route r) (js "models")
    = Ok (match models_of r with [] => VUndef | ms => enc_models ms end) ∧
  get_prop (norm_route r) (js "auth")
    = Ok (match r_auth r with Some a => norm_auth a | None => VUndef end).
Proof.
  unfold norm_route. generalize (incoming_of r) (upstream_of r) (converter_of r) (models_of r).
  generalize enc_models norm_auth. intros em na i u c ms.
  destruct (r_auth r), ms as [|m ms]; split_and!; vm_compute; reflexivity.
Qed.

Lemma get_norm_auth a :
  get_prop (norm_auth a) (js "type") = Ok (opt_val (a_type a)) ∧
  get_prop (norm_auth a) (js "name") = Ok (VStr (default [] (a_name a))) ∧
  get_prop (norm_auth a) (js "value") = Ok (VStr (default [] (a_value a))).
Proof. unfold norm_auth. split_and!; vm_compute; reflexivity. Qed.

Lemma models_of_names r : Forall model_name (models_of r).
Proof.
  apply Forall_forall. intros m. unfold models_of.
  rewrite elem_of_filterb, truthy_str_true, list_elem_of_fmap.
  intros [(w & -> & _) Hm]. split; [done | apply trim_trimmed].
Qed.

Lemma normalize_models_norm r :
  normalizeAdvancedCustomRouteModels (match models_of r with [] => VUndef | ms => enc_models ms end)
  = Ok (models_of r).
Proof.
  pose proof (filter_map_trim (models_of r) (models_of_names r)) as E.
  destruct (models_of r) as [|m ms]; [done|]. by rewrite normalize_models_enc, E.
Qed.

Lemma upstream_norm r : getAdvancedCustomRouteUpstreamPath (norm_route r) = Ok (VStr (upstream_of r)).
Proof.
  destruct (get_norm_route r) as (_ & Eu & _). unfold getAdvancedCustomRouteUpstreamPath.
  rewrite Eu. run_res. rewrite val_or_str, str_or_nil. cbn [call_trim].
  by rewrite (trim_idemp (default [] (r_upstream r)) : trim (upstream_of r) = _).
Qed.

Definition registered (c : jsstr) : bool :=
  existsb (λ o, bool_decide (co_value o = c)) ADVANCED_CUSTOM_CONVERTER_OPTIONS.

(** The authentication block of a route, when it is acceptable. *)
Definition auth_error (a : Auth) : option jsstr :=
  let ty := opt_val (a_type a) in
  if strict_eqb ty (VStr (js "none")) then None
  else if negb (strict_eqb ty (VStr (js "header"))) && negb (strict_eqb ty (VStr (js "query")))
  then Some (js "Auth type is invalid")
  else if negb (truthy_str (trim (default [] (a_name a)))) then Some (js "Auth name is required")
  else if negb (truthy_str (trim (default [] (a_value a)))) then Some (js "Auth value is required")
  else None.

Lemma validateRouteAuth_norm a : validateRouteAuth (norm_auth a) = Ok (auth_error a).
Proof.
  destruct (get_norm_auth a) as (Et & En & Ev). unfold validateRouteAuth, auth_error, blank_opt.
  change (truthy (norm_auth a)) with true. cbn [negb]. rewrite Et, En, Ev. run_res.
  change (call_trim_opt (VStr ?s)) with (Ok (VStr (trim s))).
  unfold call_trim_opt. cbn [nullish call_trim truthy].
  by repeat case_match.
Qed.

Lemma validate_auth_norm r :
  validateRouteAuth (match r_auth r with Some a => norm_auth a | None => VUndef end)
  = Ok (r_auth r ≫= auth_error).
Proof. destruct (r_auth r); [apply validateRouteAuth_norm | done]. Qed.

Definition auth_ok (a : Auth) : Prop :=
  a_type a = Some (js "none")
  ∨ (a_type a = Some (js "header") ∨ a_type a = Some (js "query"))
    ∧ trim (default [] (a_name a)) ≠ [] ∧ trim (default [] (a_value a)) ≠ [].

Lemma regex_pattern_empty m :
  bool_decide (getAdvancedCustomModelRuleKind m = Regex)
  && bool_decide (getAdvancedCustomRegexModelPattern m = []) = true
  ↔ m = ADVANCED_CUSTOM_MODEL_REGEX_PREFIX.
Proof.
  unfold getAdvancedCustomModelRuleKind, getAdvancedCustomRegexModelPattern.
  rewrite andb_true_iff, !bool_decide_eq_true. split; [|intros ->; done].
  intros [Hs Hd]. destruct (starts_with m ADVANCED_CUSTOM_MODEL_REGEX_PREFIX) eqn:E; [|done].
  apply starts_with_spec in E as [k ->]. rewrite drop_app_length in Hd. by rewrite Hd, app_nil_r.
Qed.

(** The inner loop reports an error exactly when the models are not fresh. *)
Lemma check_models_spec i ms seen models :
  match check_models i ms seen models with
  | (None, models') =>
      NoDup ms ∧ (ADVANCED_CUSTOM_MODEL_REGEX_PREFIX ∉ ms)
      ∧ (∀ m, m ∈ ms → (m ∉ seen) ∧ models !! m = None)
      ∧ (∀ m, is_Some (models' !! m) ↔ is_Some (models !! m) ∨ m ∈ ms)
  | (Some e, _) =>
      routeIndex e = Some i
      ∧ ¬ (NoDup ms ∧ (ADVANCED_CUSTOM_MODEL_REGEX_PREFIX ∉ ms)
           ∧ ∀ m, m ∈ ms → (m ∉ seen) ∧ models !! m = None)
  end.
Proof.
  revert seen models; induction ms as [|m ms IH]; intros seen models;
    cbn [check_models].
  { split_and!; [constructor | set_solver | set_solver | set_solver]. }
  destruct (bool_decide (getAdvancedCustomModelRuleKind m = Regex) && _) eqn:Ere.
  { apply regex_pattern_empty in Ere as ->. split; [done|]. intros (_ & Hn & _). set_solver. }
  destruct (bool_decide (m ∈ seen)) eqn:Hseen; unbool.
  { split; [done|]. intros (_ & _ & Hf). by destruct (Hf m ltac:(set_solver)). }
  destruct (models !! m) eqn:Em.
  { split; [done|]. intros (_ & _ & Hf). destruct (Hf m ltac:(set_solver)); congruence. }
  assert (m ≠ ADVANCED_CUSTOM_MODEL_REGEX_PREFIX) as Hre.
  { intros Hm%regex_pattern_empty. congruence. }
  specialize (IH ({[m]} ∪ seen) (<[m:=i]> models)).
  assert (∀ m', (m' ∉ ({[m]} ∪ seen : gset jsstr)) ∧ (<[m:=i]> models) !! m' = None
                ↔ m' ≠ m ∧ (m' ∉ seen) ∧ models !! m' = None) as Hins.
  { intros m'. rewrite lookup_insert_None. set_solver. }
  destruct (check_models i ms _ _) as [[e|] models'].
  - destruct IH as [He Hn]. split; [done|]. intros (Hnd & Hnr & Hf).
    apply NoDup_cons in Hnd as [Hm Hnd]. apply Hn. split_and!; [done | set_solver |].
    intros m' Hm'. apply Hins. split; [congruence | apply Hf; set_solver].
  - destruct IH as (Hnd & Hnr & Hf & Hm'). split_and!.
    + constructor; [|done]. intros Hm. by apply Hf, Hins in Hm as [? _].
    + set_solver.
    + intros m' [->|Hin]%elem_of_cons; [done | by apply Hf, Hins in Hin as [_ ?]].
    + intros m'. rewrite Hm', elem_of_cons. destruct (decide (m = m')) as [->|].
      * rewrite lookup_insert_eq. naive_solver.
      * rewrite lookup_insert_ne by done. naive_solver.
Qed.

Lemma auth_error_spec a : auth_error a = None ↔ auth_ok a.
Proof.
  unfold auth_error, auth_ok. destruct (a_type a) as [t|]; cbn [opt_val strict_eqb negb andb];
    [|split; [done|]; naive_solver].
  assert (∀ s, Some t = Some s ↔ t = s) as Hs by naive_solver. rewrite !Hs.
  repeat case_bool_decide; cbn [negb andb];
    destruct (truthy_str (trim (default [] (a_name a)))) eqn:En,
      (truthy_str (trim (default [] (a_value a)))) eqn:Ev; cbn [negb];
    rewrite ?truthy_str_true, ?truthy_str_false in *; intuition congruence.
Qed.

Lemma registered_spec c :
  registered c = true ↔ c ∈ map co_value ADVANCED_CUSTOM_CONVERTER_OPTIONS.
Proof.
  unfold registered. rewrite existsb_exists_elem, list_elem_of_fmap.
  setoid_rewrite bool_decide_eq_true. naive_solver.
Qed.

Section refinement.
Variable url_parse : jsstr → option (jsstr * jsstr).

(** The iteration on a typed route. *)
Definition check_route (i : nat) (r : Route) (st : gmap jsstr PathState)
    : option ValidationError * gmap jsstr PathState :=
  if negb (truthy_str (path_of r)) then (Some (err i "Incoming path is required"), st)
  else if negb (starts_with (path_of r) (js "/"))
  then (Some (err i "Incoming path must start with /"), st)
  else if includes (path_of r) (js "?")
  then (Some (err i "Incoming path must not include query"), st)
  else
    match validateAdvancedCustomRouteModels i (path_of r) (models_of r) st with
    | (Some e, st') => (Some e, st')
    | (None, st') =>
        if negb (truthy_str (upstream_of r)) then (Some (err i "Upstream path is required"), st')
        else if negb (isFullHttpURLOrAbsolutePath url_parse (upstream_of r))
        then (Some (err i "Upstream path must be a full URL or a path starting with /"), st')
        else if negb (registered (converter_of r))
        then (Some (err i "Converter is not registered"), st')
        else if negb (isConverterPathAllowed (path_of r) (converter_of r))
        then (Some (err i "Converter does not match incoming path"), st')
        else match r_auth r ≫= auth_error with
             | Some m => (Some {| message := m; routeIndex := Some i |}, st')
             | None => (None, st')
             end
    end.

Lemma validate_route_norm i r st :
  validate_route url_parse i (norm_route r) st = Ok (check_route i r st).
Proof.
  destruct (get_norm_route r) as (Ei & _ & Ec & Em & Ea).
  unfold validate_route, check_route. rewrite Ei, upstream_norm, Ec, Em, Ea.
  run_res. change (call_trim_opt (VStr (incoming_of r))) with (Ok (VStr (path_of r))).
  rewrite normalize_models_norm. run_res. rewrite !val_or_str, str_or_nil.
  assert (str_or (converter_of r) (js "none") = converter_of r) as ->.
  { unfold converter_of, str_or.
    destruct (truthy_str (default [] (r_converter r))) eqn:E; [by rewrite E | done]. }
  change (isAdvancedCustomConverter (VStr (converter_of r))) with (registered (converter_of r)).
  rewrite validate_auth_norm. run_res.
  destruct (validateAdvancedCustomRouteModels _ _ _ _) as [[e|] st']; [by repeat case_match|].
  by destruct (r_auth r ≫= auth_error); repeat case_match.
Qed.

Fixpoint check_routes (i : nat) (rs : list Route) (st : gmap jsstr PathState)
    : option ValidationError :=
  match rs with
  | [] => None
  | r :: rs' => match check_route i r st with
                | (Some e, _) => Some e
                | (None, st') => check_routes (S i) rs' st'
                end
  end.

Lemma validate_routes_norm i rs st :
  validate_routes url_parse i (map norm_route rs) st = Ok (check_routes i rs st).
Proof.
  revert i st; induction rs as [|r rs IH]; intros i st; [done|].
  cbn [map validate_routes check_routes]. rewrite validate_route_norm. run_res.
  destruct (check_route i r st) as [[e|] st']; [done | apply IH].
Qed.

(** *** The specification, without the maps *)

(** What is asked of a route alone. *)
Record shape_ok (r : Route) : Prop := {
  shape_incoming : starts_with (path_of r) (js "/") = true;
  shape_no_query : includes (path_of r) (js "?") = false;
  shape_upstream : upstream_of r ≠ [];
  shape_reachable : isFullHttpURLOrAbsolutePath url_parse (upstream_of r) = true;
  shape_converter : converter_of r ∈ map co_value ADVANCED_CUSTOM_CONVERTER_OPTIONS;
  shape_compatible : isConverterPathAllowed (path_of r) (converter_of r) = true;
  shape_auth : ∀ a, r_auth r = Some a → auth_ok a
}.

(** What is asked of a route given the routes before it. *)
Record models_ok (prior : list Route) (r : Route) : Prop := {
  models_after_catch_all : ∀ r', r' ∈ prior → path_of r' = path_of r → models_of r' ≠ [];
  models_no_dup : NoDup (models_of r);
  models_no_empty_regex : ADVANCED_CUSTOM_MODEL_REGEX_PREFIX ∉ models_of r;
  models_fresh : ∀ r' m, r' ∈ prior → path_of r' = path_of r →
                         m ∈ models_of r' → m ∉ models_of r
}.

Definition route_ok (prior : list Route) (r : Route) : Prop := shape_ok r ∧ models_ok prior r.

(** The maps of the validator after the routes [prior]. *)
Definition represents (st : gmap jsstr PathState) (prior : list Route) : Prop :=
  ∀ p, let s := default {| catchAllIndex := None; seenModels := ∅ |} (st !! p) in
    (is_Some (catchAllIndex s) ↔ ∃ r, r ∈ prior ∧ path_of r = p ∧ models_of r = [])
    ∧ (∀ m, is_Some (seenModels s !! m) ↔ ∃ r, r ∈ prior ∧ path_of r = p ∧ m ∈ models_of r).

Lemma represents_nil : represents ∅ [].
Proof.
  intros p. rewrite lookup_empty. simpl. split; [|intros m; rewrite lookup_empty];
    (split; [by intros [? ?] | by intros (r & ?%elem_of_nil & _)]).
Qed.

Definition state_at (p : jsstr) (st : gmap jsstr PathState) : PathState :=
  default {| catchAllIndex := None; seenModels := ∅ |} (st !! p).

Lemma represents_step st prior r s :
  represents st prior →
  (is_Some (catchAllIndex s)
     ↔ is_Some (catchAllIndex (state_at (path_of r) st)) ∨ models_of r = []) →
  (∀ m, is_Some (seenModels s !! m)
     ↔ is_Some (seenModels (state_at (path_of r) st) !! m) ∨ m ∈ models_of r) →
  represents (<[path_of r := s]> st) (prior ++ [r]).
Proof.
  intros Hrep Hc Hm p. destruct (decide (path_of r = p)) as [<-|Hp].
  - rewrite lookup_insert_eq. simpl. destruct (Hrep (path_of r)) as [Hc' Hm'].
    fold (state_at (path_of r) st) in Hc', Hm'.
    split; [rewrite Hc, Hc' | intros m; rewrite Hm, Hm']; set_solver.
  - rewrite lookup_insert_ne by done. destruct (Hrep p) as [Hc' Hm'].
    split; [rewrite Hc' | intros m; rewrite Hm']; set_solver.
Qed.

Lemma validate_models_spec i r st prior :
  represents st prior →
  match validateAdvancedCustomRouteModels i (path_of r) (models_of r) st with
  | (None, st') => models_ok prior r ∧ represents st' (prior ++ [r])
  | (Some e, _) => routeIndex e = Some i ∧ ¬ models_ok prior r
  end.
Proof.
  intros Hrep. unfold validateAdvancedCustomRouteModels. fold (state_at (path_of r) st).
  destruct (Hrep (path_of r)) as [Hc Hs]. fold (state_at (path_of r) st) in Hc, Hs.
  assert (is_Some (catchAllIndex (state_at (path_of r) st)) → ¬ models_ok prior r) as Hlast.
  { intros (r' & Hr' & Hp & Hn)%Hc [Hok _ _ _]. by apply (Hok r'). }
  assert (¬ is_Some (catchAllIndex (state_at (path_of r) st)) →
          ∀ r', r' ∈ prior → path_of r' = path_of r → models_of r' ≠ []) as Hfree.
  { intros Hno r' ? ? ?. apply Hno, Hc. eauto. }
  pose proof (check_models_spec i (models_of r) ∅ (seenModels (state_at (path_of r) st))) as Hcheck.
  assert ((∀ m, m ∈ models_of r → (m ∉ (∅ : gset jsstr))
                 ∧ seenModels (state_at (path_of r) st) !! m = None)
          ↔ ∀ r' m, r' ∈ prior → path_of r' = path_of r → m ∈ models_of r' → m ∉ models_of r)
    as Hfresh.
  { setoid_rewrite eq_None_not_Some. setoid_rewrite Hs. set_solver. }
  pose proof (represents_step st prior r) as Hstep.
  destruct (catchAllIndex (state_at (path_of r) st)) as [j|].
  { destruct (models_of r); (split; [done | apply Hlast; eauto]). }
  specialize (Hfree (is_Some_None)). clear Hlast Hc.
  destruct (models_of r) as [|m ms] eqn:Hms.
  - split; [split; rewrite ?Hms; [done | constructor | set_solver | set_solver] |].
    apply Hstep; simpl; [done | | set_solver]. split; [by right | eauto].
  - rewrite <-Hms in *. destruct (check_models i (models_of r) ∅ _) as [[e|] models'].
    + destruct Hcheck as [? Hn]. split; [done|]. intros [_ ? ? ?]. apply Hn. by rewrite Hfresh.
    + destruct Hcheck as (? & ? & Hf & Hm). split; [split; auto; by apply Hfresh|].
      apply Hstep; simpl; [done | | done].
      split; [by intros [? ?] | intros [[? ?]|?]; congruence].
Qed.

Lemma check_route_spec i r st prior :
  represents st prior →
  match check_route i r st with
  | (None, st') => route_ok prior r ∧ represents st' (prior ++ [r])
  | (Some e, _) => routeIndex e = Some i ∧ ¬ route_ok prior r
  end.
Proof.
  intros Hrep. unfold check_route, route_ok.
  destruct (truthy_str (path_of r)) eqn:Ep; cbn [negb].
  2:{ split; [done|]. intros [[Hin _ _ _ _ _ _] _]. apply truthy_str_false in Ep.
      rewrite Ep in Hin. done. }
  destruct (starts_with (path_of r) (js "/")) eqn:Es; cbn [negb];
    [|split; [done|]; intros [[? _ _ _ _ _ _] _]; congruence].
  destruct (includes (path_of r) (js "?")) eqn:Eq;
    [split; [done|]; intros [[_ ? _ _ _ _ _] _]; congruence|].
  pose proof (validate_models_spec i r st prior Hrep) as Hm.
  destruct (validateAdvancedCustomRouteModels _ _ _ _) as [[e|] st'];
    [split; [apply Hm|]; intros [_ ?]; by apply Hm|]. destruct Hm as [Hok Hrep'].
  destruct (truthy_str (upstream_of r)) eqn:Eu; cbn [negb].
  2:{ split; [done|]. apply truthy_str_false in Eu. by intros [[_ _ ? _ _ _ _] _]. }
  destruct (isFullHttpURLOrAbsolutePath url_parse (upstream_of r)) eqn:Ef; cbn [negb];
    [|split; [done|]; intros [[_ _ _ ? _ _ _] _]; congruence].
  destruct (registered (converter_of r)) eqn:Ec; cbn [negb].
  2:{ split; [done|]. intros [[_ _ _ _ Hc%registered_spec _ _] _]. congruence. }
  destruct (isConverterPathAllowed (path_of r) (converter_of r)) eqn:Ea; cbn [negb];
    [|split; [done|]; intros [[_ _ _ _ _ ? _] _]; congruence].
  destruct (r_auth r ≫= auth_error) as [m|] eqn:Eauth.
  - split; [done|]. intros [[_ _ _ _ _ _ Hauth] _].
    destruct (r_auth r) as [a|]; [|done]. specialize (Hauth a eq_refl).
    apply auth_error_spec in Hauth. simpl in Eauth. congruence.
  - split; [|done]. split; [|done]. constructor; try done.
    + by apply truthy_str_true.
    + by apply registered_spec.
    + intros a Ha. rewrite Ha in Eauth. by apply auth_error_spec.
Qed.

Lemma validate_enc rs :
  rs ≠ [] →
  validateAdvancedCustomConfig url_parse (enc_config rs) = Ok (check_routes 0 rs ∅).
Proof.
  intros Hne. unfold validateAdvancedCustomConfig.
  change (truthy (enc_config rs)) with true. cbn [negb]. rewrite normalize_config_enc. run_res.
  assert (get_prop (config_obj (map norm_route rs)) (js "advanced_routes")
          = Ok (VArr (map norm_route rs))) as -> by reflexivity.
  rewrite <-validate_routes_norm. by destruct rs.
Qed.

Lemma check_routes_spec i rs st prior :
  represents st prior →
  match check_routes i rs st with
  | None => ∀ k r, rs !! k = Some r → route_ok (prior ++ take k rs) r
  | Some e => ∃ k r, rs !! k = Some r ∧ routeIndex e = Some (i + k)%nat
      ∧ ¬ route_ok (prior ++ take k rs) r
      ∧ ∀ j r', (j < k)%nat → rs !! j = Some r' → route_ok (prior ++ take j rs) r'
  end.
Proof.
  revert i st prior; induction rs as [|r rs IH]; intros i st prior Hrep; [done|].
  cbn [check_routes]. pose proof (check_route_spec i r st prior Hrep) as Hr.
  destruct (check_route i r st) as [[e|] st'].
  { exists O, r. rewrite app_nil_r, Nat.add_0_r. split_and!; [done | apply Hr | apply Hr | lia]. }
  destruct Hr as [Hok Hrep']. specialize (IH (S i) st' (prior ++ [r]) Hrep').
  assert (∀ k r', (r :: rs) !! k = Some r' →
            (∀ k', k = S k' → rs !! k' = Some r' →
                   route_ok (prior ++ [r] ++ take k' rs) r') →
            route_ok (prior ++ take k (r :: rs)) r') as Hcons.
  { intros [|k] r' Hk Hs; [|by apply Hs]. simplify_eq/=. by rewrite app_nil_r. }
  destruct (check_routes (S i) rs st') as [e|]; setoid_rewrite <-app_assoc in IH.
  - destruct IH as (k & r' & Hk & He & Hn & Hj). exists (S k), r'.
    split_and!; [done | rewrite He; f_equal; lia | done |].
    intros j r'' Hlt Hj'. apply Hcons; [done|]. intros k' -> ?. apply Hj; [lia | done].
  - intros k r' Hk. apply Hcons; [done|]. intros k' -> ?. by apply IH.
Qed.

(** C1: on a configuration of the declared type with at least one route the
    validator never throws; it accepts exactly the configurations in which
    every route is well formed and compatible with the routes before it (at
    most one catch-all per path, last; no model twice for a path; no empty
    regex), and when it rejects, the index it reports is that of the first
    offending route. *)
Theorem validate_refines (rs : list Route) (Hne : rs ≠ []) :
  ∃ e, validateAdvancedCustomConfig url_parse (enc_config rs) = Ok e
    ∧ (e = None ↔ ∀ i r, rs !! i = Some r → route_ok (take i rs) r)
    ∧ (∀ er, e = Some er → ∃ i r, routeIndex er = Some i ∧ rs !! i = Some r
         ∧ ¬ route_ok (take i rs) r
         ∧ ∀ j r', (j < i)%nat → rs !! j = Some r' → route_ok (take j rs) r').
Proof.
  exists (check_routes 0 rs ∅). split; [by apply validate_enc|].
  pose proof (check_routes_spec 0 rs ∅ [] represents_nil) as H. simpl app in H.
  destruct (check_routes 0 rs ∅) as [e|]; [|done].
  destruct H as (k & r & Hk & He & Hn & Hj).
  split; [split; [done | intros Hall; by destruct Hn; apply Hall]|].
  intros er [= <-]. eauto 10.
Qed.
End refinement.

(** Two routes for one path: the catch-all must come last. *)
Definition sample_route (models : option (list jsstr)) : Route :=
  {| r_incoming := Some (js " /v1/messages "); r_upstream := Some (js "/v1/messages");
     r_converter := None; r_models := models; r_auth := None |}.

Lemma validate_refines_witness :
  ∃ e, validateAdvancedCustomConfig (λ _, None)
         (enc_config [sample_route None; sample_route (Some [js "gpt"])]) = Ok e
    ∧ (e = None ↔ ∀ i r, [sample_route None; sample_route (Some [js "gpt"])] !! i = Some r →
         route_ok (λ _, None) (take i [sample_route None; sample_route (Some [js "gpt"])]) r)
    ∧ (∀ er, e = Some er → ∃ i r, routeIndex er = Some i
         ∧ [sample_route None; sample_route (Some [js "gpt"])] !! i = Some r
         ∧ ¬ route_ok (λ _, None) (take i [sample_route None; sample_route (Some [js "gpt"])]) r
         ∧ ∀ j r', (j < i)%nat → [sample_route None; sample_route (Some [js "gpt"])] !! j = Some r' →
             route_ok (λ _, None) (take j [sample_route None; sample_route (Some [js "gpt"])]) r').
Proof. apply validate_refines. discriminate. Defined.

(** ** The text form *)

(** The route a normal form stands for. *)
Definition canonical_auth (a : Auth) : Auth :=
  {| a_type := a_type a; a_name := Some (default [] (a_name a));
     a_value := Some (default [] (a_value a)) |}.

Definition canonical (r : Route) : Route :=
  {| r_incoming := Some (incoming_of r); r_upstream := Some (upstream_of r);
     r_converter := Some (converter_of r);
     r_models := match models_of r with [] => None | ms => Some ms end;
     r_auth := canonical_auth <$> r_auth r |}.

Lemma converter_of_or r : str_or (converter_of r) (js "none") = converter_of r.
Proof.
  unfold converter_of, str_or.
  destruct (truthy_str (default [] (r_converter r))) eqn:E; [by rewrite E | done].
Qed.

Lemma norm_canonical r : norm_route (canonical r) = norm_route r.
Proof.
  assert (incoming_of (canonical r) = incoming_of r) as Ei by done.
  assert (upstream_of (canonical r) = upstream_of r) as Eu by apply trim_idemp.
  assert (converter_of (canonical r) = converter_of r) as Ec by apply converter_of_or.
  assert (models_of (canonical r) = models_of r) as Em.
  { pose proof (filter_map_trim (models_of r) (models_of_names r)) as E.
    revert E. unfold models_of at 3, canonical, r_models at 1.
    by destruct (models_of r). }
  unfold norm_route. rewrite Ei, Eu, Ec, Em. by destruct r as [? ? ? ? [a|]].
Qed.

Lemma normalize_route_norm r : normalizeAdvancedCustomRoute (norm_route r) = Ok (norm_route r).
Proof.
  destruct (get_norm_route r) as (Ei & _ & Ec & Em & Ea).
  unfold normalizeAdvancedCustomRoute. rewrite upstream_norm, Ei, Ec, Em, Ea. run_res.
  rewrite normalize_models_norm. run_res. rewrite !val_or_str, str_or_nil, converter_of_or.
  unfold norm_route. destruct (r_auth r) as [a|]; cbn [truthy].
  - destruct (get_norm_auth a) as (Et & En & Ev). change (truthy (norm_auth a)) with true.
    cbn [truthy]. rewrite Et, En, Ev. run_res. rewrite !val_or_str, !str_or_nil.
    by destruct (models_of r).
  - by destruct (models_of r).
Qed.

Lemma normalize_config_norm rs :
  normalizeAdvancedCustomConfig (config_obj (map norm_route rs))
  = Ok (config_obj (map norm_route rs)).
Proof.
  unfold normalizeAdvancedCustomConfig, config_obj. simpl.
  assert (res_mapM normalizeAdvancedCustomRoute (map norm_route rs) = Ok (map norm_route rs)) as ->;
    [|done].
  apply res_mapM_ok. induction rs; simpl; constructor; auto using normalize_route_norm.
Qed.

(** The undefined entry of a normal form is not written. *)
Lemma ser_norm_auth gap ind a :
  ser gap ind (norm_auth a) = ser gap ind (enc_auth (canonical_auth a)).
Proof. by destruct a as [[t|] n v]. Qed.

Lemma ser_obj_last gap ind ps k v w :
  (∀ ind', ser gap ind' v = ser gap ind' w) →
  ser gap ind (VObj (ps ++ [(k, v)])) = ser gap ind (VObj (ps ++ [(k, w)])).
Proof. intros Hs. cbn [ser]. rewrite !omap_app. csimpl. by rewrite Hs. Qed.

Lemma ser_norm_route gap ind r :
  ser gap ind (norm_route r) = ser gap ind (enc_route (canonical r)).
Proof.
  unfold norm_route, enc_route, canonical. cbn [r_incoming r_upstream r_converter r_models r_auth].
  destruct (r_auth r) as [a|]; cbn [fmap option_fmap option_map opt_prop];
    destruct (models_of r) as [|m ms]; [| |done|done].
  - apply (ser_obj_last gap ind [_; _; _]). intros ind'. apply ser_norm_auth.
  - apply (ser_obj_last gap ind [_; _; _; _]). intros ind'. apply ser_norm_auth.
Qed.

Lemma ser_norm_config gap ind rs :
  ser gap ind (config_obj (map norm_route rs)) = ser gap ind (enc_config (map canonical rs)).
Proof.
  unfold enc_config, config_obj. cbn [ser]. csimpl. rewrite !map_map.
  by rewrite (map_ext (λ x, default (js "null") (ser gap ((ind ++ gap) ++ gap) (norm_route x))) _
             (λ r, f_equal (default _) (ser_norm_route gap ((ind ++ gap) ++ gap) r))).
Qed.

(** Every string of a route is a sequence of UTF-16 code units. *)
Definition units_opt (o : option jsstr) : Prop := Forall code_unit (default [] o).

Record route_units (r : Route) : Prop := {
  units_incoming : units_opt (r_incoming r);
  units_upstream : units_opt (r_upstream r);
  units_converter : units_opt (r_converter r);
  units_models : Forall (Forall code_unit) (default [] (r_models r));
  units_auth : ∀ a, r_auth r = Some a →
    units_opt (a_type a) ∧ units_opt (a_name a) ∧ units_opt (a_value a)
}.

Lemma units_trim s : Forall code_unit s → Forall code_unit (trim s).
Proof. rewrite !Forall_forall. intros H c Hc. by apply H, elem_of_trim. Qed.

Lemma json_ok_object ps :
  Forall (λ kv : jsstr * val, Forall code_unit (fst kv) ∧ json_ok (snd kv)) ps →
  obj_of ps [] = ps → json_ok (VObj ps).
Proof. intros [? ?]%Forall_and ?. by constructor. Qed.

#[local] Hint Constructors json_ok : core.

(** The properties of an object literal, one by one. *)
Ltac object_ok :=
  apply json_ok_object; [|reflexivity];
  repeat (apply Forall_cons_2;
          [split; cbn [fst snd];
           [apply (bool_decide_eq_true_1 _); vm_compute; reflexivity | solve [auto]]|]);
  try apply Forall_nil_2.

Lemma json_ok_auth a :
  units_opt (a_type a) → units_opt (a_name a) → units_opt (a_value a) →
  json_ok (enc_auth (canonical_auth a)).
Proof.
  unfold units_opt. intros Ht Hn Hv. destruct a as [[t|] n v]; simpl in *; object_ok.
Qed.

Lemma json_ok_models ms : Forall (Forall code_unit) ms → json_ok (enc_models ms).
Proof. intros H. constructor. apply Forall_map. by eapply Forall_impl; [exact H|]; auto. Qed.

Lemma models_of_units r : route_units r → Forall (Forall code_unit) (models_of r).
Proof.
  intros [_ _ _ Hm _]. rewrite Forall_forall in Hm. apply Forall_forall. intros m.
  unfold models_of. rewrite elem_of_filterb, list_elem_of_fmap.
  intros [(w & -> & Hw) _]. by apply units_trim, Hm.
Qed.

Lemma converter_of_units r : route_units r → Forall code_unit (converter_of r).
Proof.
  intros [_ _ Hc _ _]. unfold converter_of, str_or. destruct (truthy_str _); [done|].
  apply (bool_decide_eq_true_1 _). vm_compute. reflexivity.
Qed.

Lemma json_ok_route r : route_units r → json_ok (enc_route (canonical r)).
Proof.
  intros Hr. pose proof (models_of_units r Hr) as Hms. pose proof (converter_of_units r Hr) as Hc.
  destruct Hr as [Hi Hu _ _ Ha]. apply units_trim in Hu. fold (upstream_of r) in Hu.
  apply json_ok_models in Hms.
  assert (∀ a, r_auth r = Some a → json_ok (enc_auth (canonical_auth a))) as Hauth.
  { intros a ?. destruct (Ha a) as (? & ? & ?); [done|]. by apply json_ok_auth. }
  unfold enc_route, canonical.
  cbn [r_incoming r_upstream r_converter r_models r_auth opt_prop].
  destruct (models_of r) as [|m ms], (r_auth r) as [a|];
    cbn [opt_prop app fmap option_fmap option_map]; object_ok.
Qed.

Lemma json_ok_config rs : Forall route_units rs → json_ok (enc_config (map canonical rs)).
Proof.
  intros Hrs. assert (Forall json_ok (map enc_route (map canonical rs))) as Hl.
  { rewrite map_map. apply Forall_map. eapply Forall_impl; [exact Hrs|]. apply json_ok_route. }
  unfold enc_config, config_obj. object_ok.
Qed.

Lemma config_text_not_blank gap rs text :
  ser gap [] (config_obj rs) = Some text → truthy_str (trim text) = true.
Proof.
  unfold config_obj. cbn [ser]. csimpl. intros [= <-]. apply truthy_str_true.
  unfold bracket. destruct gap; by apply trim_cons_ne.
Qed.

Lemma text_of_config rs :
  Forall route_units rs →
  ∃ text, stringifyAdvancedCustomConfig (enc_config rs) = Ok (Some text)
          ∧ parseAdvancedCustomConfig (Some text) = Some (config_obj (map norm_route rs)).
Proof.
  intros Hrs.
  destruct (json_parse_stringify (js "  ") ltac:(repeat constructor)
              (enc_config (map canonical rs)) (json_ok_config rs Hrs)) as (text & Hw & Hp).
  exists text. unfold stringifyAdvancedCustomConfig, json_stringify.
  rewrite normalize_config_enc. run_res.
  rewrite ser_norm_config. unfold json_stringify in Hw. rewrite Hw. split; [done|].
  unfold parseAdvancedCustomConfig.
  rewrite (config_text_not_blank _ _ _ Hw).
  cbn [negb]. rewrite Hp. unfold enc_config at 1, config_obj.
  fold (config_obj (map enc_route (map canonical rs))).
  fold (enc_config (map canonical rs)). rewrite normalize_config_enc, map_map.
  by rewrite (map_ext (λ r, norm_route (canonical r)) _ norm_canonical).
Qed.

(** C5: the text of a typed configuration is a faithful copy of its normal
    form.  Normalising succeeds and is idempotent; the text written for the
    configuration reads back as that normal form, and the normal form has the
    same text. *)
Theorem config_round_trip (rs : list Route) (Hrs : Forall route_units rs) :
  ∃ c text,
    normalizeAdvancedCustomConfig (enc_config rs) = Ok c
    ∧ normalizeAdvancedCustomConfig c = Ok c
    ∧ stringifyAdvancedCustomConfig (enc_config rs) = Ok (Some text)
    ∧ parseAdvancedCustomConfig (Some text) = Some c
    ∧ stringifyAdvancedCustomConfig c = Ok (Some text).
Proof.
  destruct (text_of_config rs Hrs) as (text & Ht & Hp).
  exists (config_obj (map norm_route rs)), text.
  split_and!; [apply normalize_config_enc | apply normalize_config_norm | done | done |].
  revert Ht. unfold stringifyAdvancedCustomConfig.
  by rewrite normalize_config_enc, normalize_config_norm.
Qed.

Lemma config_round_trip_witness :
  ∃ c text,
    normalizeAdvancedCustomConfig (enc_config [sample_route (Some [js " gpt "; js ""])]) = Ok c
    ∧ normalizeAdvancedCustomConfig c = Ok c
    ∧ stringifyAdvancedCustomConfig (enc_config [sample_route (Some [js " gpt "; js ""])])
      = Ok (Some text)
    ∧ parseAdvancedCustomConfig (Some text) = Some c
    ∧ stringifyAdvancedCustomConfig c = Ok (Some text).
Proof.
  apply config_round_trip. constructor; [|constructor].
  split; [..| discriminate]; apply (bool_decide_eq_true_1 _); vm_compute; reflexivity.
Defined.
