(* ===== verification/AdvancedCustomViews.v ===== *)
(** * Templates, defaults, authentication modes and statistics

    What the configuration editor of advanced custom channels derives from the
    tables and from a configuration text. *)

From Stdlib Require Import ZArith.
From stdpp Require Import gmap.
From S2P Require Import Prelude JsString JsNumber JsCollections JsValue Json JsonFacts ModelMapping AdvancedCustom AdvancedCustomSpec.

(** ** Normalisation of arbitrary values *)

Lemma val_or_idem v d : val_or (val_or v d) d = val_or v d.
Proof. unfold val_or. destruct (truthy v) eqn:E; [by rewrite E | by destruct (truthy d)]. Qed.

Lemma normalize_models_again v ms :
  normalizeAdvancedCustomRouteModels v = Ok ms →
  Forall model_name ms ∧
  normalizeAdvancedCustomRouteModels (match ms with [] => VUndef | _ => VArr (map VStr ms) end)
  = Ok ms.
Proof.
  intros H. assert (Forall model_name ms) as Hms.
  { destruct v as [| | | | |l|]; simpl in H; try (injection H as <-; constructor).
    destruct (res_mapM _ l) as [ws|] eqn:E; [|done]. simplify_eq/=.
    apply res_mapM_ok in E. apply Forall_forall. intros m.
    rewrite elem_of_filterb, truthy_str_true. intros [Hm Hne]. split; [done|].
    apply list_elem_of_lookup in Hm as [i Hi].
    destruct (Forall2_lookup_r _ _ _ _ _ E Hi) as (x & _ & Hx).
    destruct x; simplify_eq/=. apply trim_trimmed. }
  split; [done|]. pose proof (filter_map_trim ms Hms) as E.
  destruct ms as [|m ms]; [done|]. 
  change (VArr (map VStr (m :: ms))) with (enc_models (m :: ms)). by rewrite normalize_models_enc, E.
Qed.

(** The object a route is normalised to. *)
Definition built_auth (t n v : val) : val :=
  VObj [(js "type", t); (js "name", n); (js "value", v)].

Definition built_route (i u c : val) (ms : list jsstr) (auth : option val) : val :=
  VObj ([(js "incoming_path", i); (js "upstream_path", u); (js "converter", c)]
        ++ match ms with [] => [] | _ => [(js "models", VArr (map VStr ms))] end
        ++ match auth with Some a => [(js "auth", a)] | None => [] end).

Lemma get_built_route i u c ms auth :
  get_prop (built_route i u c ms auth) (js "incoming_path") = Ok i ∧
  get_prop (built_route i u c ms auth) (js "upstream_path") = Ok u ∧
  get_prop (built_route i u c ms auth) (js "converter") = Ok c ∧
  get_prop (built_route i u c ms auth) (js "models")
    = Ok (match ms with [] => VUndef | _ => VArr (map VStr ms) end) ∧
  get_prop (built_route i u c ms auth) (js "auth") = Ok (default VUndef auth).
Proof. destruct ms, auth; split_and!; vm_compute; reflexivity. Qed.

Lemma normalize_route_inv v r :
  normalizeAdvancedCustomRoute v = Ok r →
  ∃ i s c ms auth, r = built_route (val_or i (VStr [])) (VStr s) (val_or c (VStr (js "none"))) ms auth
    ∧ trim s = s
    ∧ (∃ m, normalizeAdvancedCustomRouteModels m = Ok ms)
    ∧ (∀ a, auth = Some a → ∃ t n w, a = built_auth t (val_or n (VStr [])) (val_or w (VStr []))).
Proof.
  unfold normalizeAdvancedCustomRoute, getAdvancedCustomRouteUpstreamPath.
  destruct (get_prop v (js "incoming_path")) as [i|]; run_res; [|done].
  destruct (get_prop v (js "upstream_path")) as [u|]; run_res; [|done].
  destruct (val_or u (VStr [])) as [| | | |s| |]; cbn [call_trim]; try done.
  destruct (get_prop v (js "converter")) as [c|]; run_res; [|done].
  destruct (get_prop v (js "models")) as [m|]; run_res; [|done].
  destruct (normalizeAdvancedCustomRouteModels m) as [ms|] eqn:Em; run_res; [|done].
  destruct (get_prop v (js "auth")) as [a|]; run_res; [|done].
  destruct (truthy a).
  - destruct (get_prop a (js "type")) as [t|]; run_res; [|done].
    destruct (get_prop a (js "name")) as [n|]; run_res; [|done].
    destruct (get_prop a (js "value")) as [w|]; run_res; [|done].
    intros [= <-]. exists i, (trim s), c, ms, (Some (built_auth t (val_or n (VStr [])) (val_or w (VStr [])))).
    split_and!; [by destruct ms | apply trim_idemp | eauto | intros ? [= <-]; eauto].
  - intros [= <-]. exists i, (trim s), c, ms, None.
    split_and!; [by destruct ms | apply trim_idemp | eauto | done].
Qed.

Lemma normalize_built i s c ms auth :
  trim s = s → (∃ m, normalizeAdvancedCustomRouteModels m = Ok ms) →
  (∀ a, auth = Some a → ∃ t n w, a = built_auth t (val_or n (VStr [])) (val_or w (VStr []))) →
  let r := built_route (val_or i (VStr [])) (VStr s) (val_or c (VStr (js "none"))) ms auth in
  normalizeAdvancedCustomRoute r = Ok r.
Proof.
  intros Hs [m Hm] Hauth r. destruct (normalize_models_again m ms Hm) as [_ Hms].
  destruct (get_built_route (val_or i (VStr [])) (VStr s) (val_or c (VStr (js "none"))) ms auth)
    as (Ei & Eu & Ec & Em & Ea).
  unfold normalizeAdvancedCustomRoute, getAdvancedCustomRouteUpstreamPath, r.
  rewrite Ei, Eu, Ec, Em, Ea. run_res. rewrite val_or_str, str_or_nil. cbn [call_trim].
  rewrite Hs, Hms. run_res. rewrite !val_or_idem.
  destruct auth as [a|]; simpl default; [|by destruct ms].
  destruct (Hauth a eq_refl) as (t & n & w & ->).
  change (truthy (built_auth t (val_or n (VStr [])) (val_or w (VStr [])))) with true. cbn match.
  assert (∀ x y z, get_prop (built_auth x y z) (js "type") = Ok x) as -> by reflexivity.
  assert (∀ x y z, get_prop (built_auth x y z) (js "name") = Ok y) as -> by reflexivity.
  assert (∀ x y z, get_prop (built_auth x y z) (js "value") = Ok z) as -> by reflexivity.
  run_res. rewrite !val_or_idem. by destruct ms.
Qed.

Lemma normalize_route_idem v r :
  normalizeAdvancedCustomRoute v = Ok r → normalizeAdvancedCustomRoute r = Ok r.
Proof.
  intros (i & s & c & ms & auth & -> & Hs & Hm & Ha)%normalize_route_inv.
  by apply normalize_built.
Qed.

(** Normalisation is a projection on every JavaScript value it accepts, of
    the declared type or not: its result is a configuration with an array of
    routes, and normalising it again changes nothing.  So whatever text the
    parser accepts, it returns a normal form. *)
Theorem normalize_projection (v c : val) (H : normalizeAdvancedCustomConfig v = Ok c) :
  (∃ rs, c = config_obj rs) ∧ normalizeAdvancedCustomConfig c = Ok c.
Proof.
  unfold normalizeAdvancedCustomConfig in H.
  destruct (get_prop v (js "advanced_routes")) as [routes|]; [|done]; cbv beta iota delta [mbind res_bind] in H.
  assert (∀ rs, normalizeAdvancedCustomConfig (config_obj rs)
          = match res_mapM normalizeAdvancedCustomRoute rs with
            | Ok rs' => Ok (config_obj rs') | Throw e => Throw e end) as Hc by reflexivity.
  destruct routes as [| | | | |l|]; try (injection H as <-; eauto; fail).
  destruct (res_mapM normalizeAdvancedCustomRoute l) as [rs|] eqn:E; [|done].
  injection H as <-. split; [eauto|]. rewrite Hc.
  assert (res_mapM normalizeAdvancedCustomRoute rs = Ok rs) as ->; [|done].
  apply res_mapM_ok. apply res_mapM_ok in E.
  induction E; constructor; eauto using normalize_route_idem.
Qed.

Lemma normalize_projection_witness :
  (∃ rs, config_obj [VObj [(js "incoming_path", VNum (num_of_Z 5)); (js "upstream_path", VStr []);
                           (js "converter", VStr (js "none"))]] = config_obj rs)
  ∧ normalizeAdvancedCustomConfig
      (config_obj [VObj [(js "incoming_path", VNum (num_of_Z 5)); (js "upstream_path", VStr []);
                         (js "converter", VStr (js "none"))]])
    = Ok (config_obj [VObj [(js "incoming_path", VNum (num_of_Z 5)); (js "upstream_path", VStr []);
                            (js "converter", VStr (js "none"))]]).
Proof.
  refine (normalize_projection
    (config_obj [VObj [(js "incoming_path", VNum (num_of_Z 5)); (js "models", VNull)]]) _ _).
  vm_compute. reflexivity.
Defined.

(** ** Valid configurations *)

Lemma single_route_valid url_parse r :
  route_ok url_parse [] r → validateAdvancedCustomConfig url_parse (enc_config [r]) = Ok None.
Proof.
  intros Hok. rewrite validate_enc by done. f_equal. simpl.
  pose proof (check_route_spec url_parse 0 r ∅ [] represents_nil) as H.
  destruct (check_route url_parse 0 r ∅) as [[e|] st]; [|done]. by destruct H as [_ []].
Qed.

(** The built-in templates are valid configurations, whatever the URL
    parser does; the template a key selects is an exact copy of the table's
    entry, and an unknown key selects the first. *)
Theorem templates_valid (url_parse : jsstr → option (jsstr * jsstr)) (key : jsstr) :
  Forall (λ t, validateAdvancedCustomConfig url_parse (to_config t) = Ok None
               ∧ getAdvancedCustomTemplateConfig (to_value t) = Ok (to_config t))
    ADVANCED_CUSTOM_TEMPLATE_OPTIONS
  ∧ (key ∈ map to_value ADVANCED_CUSTOM_TEMPLATE_OPTIONS
     ∨ getAdvancedCustomTemplateConfig key
       = Ok (config_obj [template_route "/v1/chat/completions" "/v1/chat/completions" "none"
                           bearerHeaderAuth])).
Proof.
  split; [repeat constructor; vm_compute; reflexivity|].
  destruct (decide (key ∈ map to_value ADVANCED_CUSTOM_TEMPLATE_OPTIONS)) as [|Hk]; [by left | right].
  assert (List.find (λ o, bool_decide (to_value o = key)) ADVANCED_CUSTOM_TEMPLATE_OPTIONS = None)
    as Hf.
  { apply find_none_elem. intros o Ho. apply bool_decide_eq_false_2. intros <-.
    apply Hk, list_elem_of_fmap. eauto. }
  unfold getAdvancedCustomTemplateConfig. rewrite Hf. vm_compute. reflexivity.
Qed.

(** ** Converter defaults *)

(** The authentication of the tables, as typed values. *)
Definition typed_auth (type name value : String.string) : Auth :=
  {| a_type := Some (js type); a_name := Some (js name); a_value := Some (js value) |}.
Arguments typed_auth (type name value)%_string.

Definition table_auths : list (val * Auth) :=
  [(bearerHeaderAuth, typed_auth "header" "Authorization" "Bearer {api_key}");
   (apiKeyHeaderAuth, typed_auth "header" "x-api-key" "{api_key}");
   (geminiQueryAuth, typed_auth "query" "key" "{api_key}")].

Lemma table_auths_ok : Forall (λ va, enc_auth (snd va) = fst va ∧ auth_error (snd va) = None) table_auths.
Proof. repeat constructor; vm_compute; reflexivity. Qed.

Lemma defaults_auth c p : auth (getAdvancedCustomConverterDefaults c p) ∈ map fst table_auths.
Proof.
  unfold getAdvancedCustomConverterDefaults, getAdvancedCustomNativeAuth.
  repeat case_match; cbn [auth map fst table_auths]; rewrite !elem_of_cons; auto.
Qed.

(** A path a route may have, and which is its own upstream path. *)
Definition plain_path (p : jsstr) : Prop :=
  starts_with p (js "/") = true ∧ starts_with p (js "//") = false ∧ includes p (js "?") = false.

#[export] Instance plain_path_dec p : Decision (plain_path p).
Proof. unfold plain_path. apply _. Defined.

Lemma plain_path_ne p : plain_path p → truthy_str p = true.
Proof. destruct p; [by intros (H & _) | done]. Qed.

Lemma defaults_upstream c p :
  plain_path (trim p) →
  let u := upstream_path (getAdvancedCustomConverterDefaults c p) in
  trim u = u ∧ plain_path u.
Proof.
  intros Hp. unfold getAdvancedCustomConverterDefaults, str_or.
  rewrite (plain_path_ne _ Hp).
  repeat case_match; cbn [upstream_path]; try (by split; [apply trim_idemp|]);
    (split; [|apply (bool_decide_eq_true_1 _)]; vm_compute; reflexivity).
Qed.

(** A route built from a registered converter, a plain incoming path the
    converter accepts, and the defaults the editor fills in for them is a valid
    configuration on its own. *)
Theorem converter_defaults_valid (url_parse : jsstr → option (jsstr * jsstr)) (c p : jsstr)
    (Hc : registered c = true) (Hp : plain_path (trim p))
    (Hcp : isAdvancedCustomIncomingPathAllowed (trim p) c = true) :
  validateAdvancedCustomConfig url_parse
    (config_obj
       [VObj [(js "incoming_path", VStr p);
              (js "upstream_path", VStr (upstream_path (getAdvancedCustomConverterDefaults c p)));
              (js "converter", VStr c);
              (js "auth", auth (getAdvancedCustomConverterDefaults c p))]])
  = Ok None.
Proof.
  destruct (defaults_upstream c p Hp) as (Ht & Hu & Hu2 & _).
  pose proof (defaults_auth c p) as Hd. apply list_elem_of_fmap in Hd as ([v a] & -> & Hin).
  pose proof table_auths_ok as Hall. rewrite Forall_forall in Hall.
  destruct (Hall _ Hin) as [Henc Herr]. simpl in Henc, Herr |- *. subst v.
  set (u := upstream_path (getAdvancedCustomConverterDefaults c p)) in *.
  assert (str_or c (js "none") = c) as Hcn by (unfold str_or; by destruct c).
  apply (single_route_valid url_parse
    {| r_incoming := Some p; r_upstream := Some u; r_converter := Some c;
       r_models := None; r_auth := Some a |}).
  destruct Hp as (Hp1 & _ & Hp3).
  assert (∀ i v, upstream_of (Build_Route i (Some u) v None (Some a)) = u) as Hup by (intros; exact Ht).
  assert (∀ i w, converter_of (Build_Route i w (Some c) None (Some a)) = c) as Hcv by (intros; exact Hcn).
  split.
  - constructor; rewrite ?Hup, ?Hcv; [exact Hp1 | exact Hp3 | | | | exact Hcp |].
    + intros H. by rewrite H in Hu.
    + unfold isFullHttpURLOrAbsolutePath. by rewrite Hu, Hu2.
    + by apply registered_spec.
    + intros a' [= <-]. by apply auth_error_spec.
  - constructor; [intros r Hr | apply NoDup_nil_2 | apply not_elem_of_nil | intros r m Hr];
      by apply elem_of_nil in Hr.
Qed.

Lemma converter_defaults_valid_witness :
  let c := js "openai_responses_to_gemini_generate_content" in
  let p := js " /v1/responses" in
  validateAdvancedCustomConfig (λ _, None)
    (config_obj
       [VObj [(js "incoming_path", VStr p);
              (js "upstream_path", VStr (upstream_path (getAdvancedCustomConverterDefaults c p)));
              (js "converter", VStr c);
              (js "auth", auth (getAdvancedCustomConverterDefaults c p))]])
  = Ok None.
Proof.
  apply (converter_defaults_valid (λ _, None)); apply (bool_decide_eq_true_1 _);
    vm_compute; reflexivity.
Defined.

(** ** Authentication modes *)

(** What the editor shows for the route of an authentication value. *)
Definition with_auth (v : val) : val := VObj [(js "auth", v)].

Lemma auth_modes mode :
  mode ∈ map lo_value ADVANCED_CUSTOM_AUTH_MODE_OPTIONS →
  mode = js "default" ∨ mode = js "none" ∨ mode = js "header" ∨ mode = js "query".
Proof.
  unfold ADVANCED_CUSTOM_AUTH_MODE_OPTIONS, labelled. cbn [map lo_value].
  rewrite !elem_of_cons, elem_of_nil. tauto.
Qed.

(** The authentication of mode [ty] that keeps the entries of [a]. *)
Definition kept_auth (ty name value : String.string) (a : Auth) : Auth :=
  {| a_type := Some (js ty); a_name := Some (str_or (default [] (a_name a)) (js name));
     a_value := Some (str_or (default [] (a_value a)) (js value)) |}.
Arguments kept_auth (ty name value)%_string a.

Lemma build_credentials a :
  buildAdvancedCustomAuth (js "header") (enc_auth a)
    = Ok (enc_auth (kept_auth "header" "Authorization" "Bearer {api_key}" a))
  ∧ buildAdvancedCustomAuth (js "query") (enc_auth a)
    = Ok (enc_auth (kept_auth "query" "api_key" "{api_key}" a)).
Proof.
  destruct (get_enc_auth a) as (_ & En & Ev). unfold buildAdvancedCustomAuth, previous_or.
  change (nullish (enc_auth a)) with false.
  change (str_is (js "header") "default") with false. change (str_is (js "header") "none") with false.
  change (str_is (js "header") "header") with true. change (str_is (js "query") "default") with false.
  change (str_is (js "query") "none") with false. change (str_is (js "query") "header") with false.
  cbn match. rewrite En, Ev. run_res. by rewrite !val_or_opt.
Qed.

Lemma mode_enc_auth a t :
  a_type a = Some t → t ≠ [] → getAdvancedCustomAuthMode (with_auth (enc_auth a)) = Ok (VStr t).
Proof.
  intros Ht Hne. destruct (get_enc_auth a) as (Et & _ & _).
  unfold getAdvancedCustomAuthMode.
  assert (get_prop (with_auth (enc_auth a)) (js "auth") = Ok (enc_auth a)) as -> by reflexivity.
  run_res. change (nullish (enc_auth a)) with false. cbn match. rewrite Et, Ht. run_res.
  rewrite val_or_opt. simpl default. unfold str_or.
  by apply truthy_str_true in Hne as ->.
Qed.

Lemma str_or_not_blank s d : s = [] ∨ trim s ≠ [] → trim d ≠ [] → trim (str_or s d) ≠ [].
Proof.
  intros [-> | Hs] Hd; [done|]. unfold str_or. destruct (truthy_str s) eqn:E; [done|].
  apply truthy_str_false in E as ->. done.
Qed.

Lemma kept_auth_valid ty n v a :
  js ty = js "header" ∨ js ty = js "query" → trim (js n) ≠ [] → trim (js v) ≠ [] →
  Forall (λ s, s = [] ∨ trim s ≠ []) [default [] (a_name a); default [] (a_value a)] →
  validateRouteAuth (enc_auth (kept_auth ty n v a)) = Ok None.
Proof.
  intros Hty Hn Hv [H1 [H2 _]%Forall_cons]%Forall_cons.
  change (enc_auth (kept_auth ty n v a)) with (norm_auth (kept_auth ty n v a)).
  rewrite validateRouteAuth_norm, (proj2 (auth_error_spec _)); [done|]. right.
  split; [|split]; cbn [kept_auth a_type a_name a_value]; [|by apply str_or_not_blank..].
  destruct Hty as [Ht|Ht]; rewrite Ht; auto.
Qed.

(** Choosing an authentication mode and reading the mode back gives the
    mode chosen, for each of the four; a header or query authentication keeps
    the name and value entered before and takes the mode's defaults for blanks,
    so it is acceptable unless a previous entry consists of white space only. *)
Theorem auth_mode_round_trip (mode : jsstr) (a : Auth)
    (Hm : mode ∈ map lo_value ADVANCED_CUSTOM_AUTH_MODE_OPTIONS) :
  ∃ v, buildAdvancedCustomAuth mode (enc_auth a) = Ok v
    ∧ getAdvancedCustomAuthMode (with_auth v) = Ok (VStr mode)
    ∧ (Forall (λ s, s = [] ∨ trim s ≠ []) [default [] (a_name a); default [] (a_value a)] →
       validateRouteAuth v = Ok None).
Proof.
  apply auth_modes in Hm as [-> | [-> | [-> | ->]]].
  - exists VUndef. split_and!; reflexivity.
  - exists (VObj [(js "type", VStr (js "none"))]). split_and!; vm_compute; reflexivity.
  - exists (enc_auth (kept_auth "header" "Authorization" "Bearer {api_key}" a)).
    split_and!; [apply build_credentials | by apply mode_enc_auth | intros H].
    apply kept_auth_valid; [auto | done | done | done].
  - exists (enc_auth (kept_auth "query" "api_key" "{api_key}" a)).
    split_and!; [apply build_credentials | by apply mode_enc_auth | intros H].
    apply kept_auth_valid; [auto | done | done | done].
Qed.

Lemma auth_mode_round_trip_witness :
  let a := {| a_type := Some (js "header"); a_name := Some (js "x-key"); a_value := None |} in
  ∃ v, buildAdvancedCustomAuth (js "query") (enc_auth a) = Ok v
    ∧ getAdvancedCustomAuthMode (with_auth v) = Ok (VStr (js "query"))
    ∧ (Forall (λ s, s = [] ∨ trim s ≠ []) [default [] (a_name a); default [] (a_value a)] →
       validateRouteAuth v = Ok None).
Proof.
  apply auth_mode_round_trip. apply (bool_decide_eq_true_1 _). vm_compute. reflexivity.
Defined.

(** ** Statistics of a configuration text *)

(** The label shown for a route, if it has a path. *)
Definition label_of (r : Route) : option jsstr :=
  if truthy_str (path_of r)
  then Some (str_or (default [] (mget (path_of r) ADVANCED_CUSTOM_ROUTE_SUMMARY_LABELS))
                    (getAdvancedCustomIncomingPathLabel (path_of r)))
  else None.

Lemma summary_label_norm r : getAdvancedCustomRouteSummaryLabel (norm_route r) = Ok (label_of r).
Proof.
  destruct (get_norm_route r) as (Ei & _). unfold getAdvancedCustomRouteSummaryLabel, label_of.
  rewrite Ei. run_res. change (call_trim_opt (VStr (incoming_of r))) with (Ok (VStr (path_of r))).
  run_res. rewrite val_or_str, str_or_nil. by destruct (truthy_str (path_of r)).
Qed.

Lemma str_or_truthy a b : truthy_str b = true → truthy_str (str_or a b) = true.
Proof. intros Hb. unfold str_or. by destruct (truthy_str a) eqn:E. Qed.

Lemma label_truthy r l : label_of r = Some l → truthy_str l = true.
Proof.
  unfold label_of. destruct (truthy_str (path_of r)) eqn:E; [|done]. intros [= <-].
  by apply str_or_truthy, str_or_truthy.
Qed.

Lemma summary_labels_norm rs acc :
  summary_labels (map norm_route rs) acc = Ok (acc ++ uniq_from acc (omap label_of rs)).
Proof.
  revert acc; induction rs as [|r rs IH]; intros acc; simpl; [by rewrite app_nil_r|].
  rewrite summary_label_norm. run_res. destruct (label_of r) as [l|] eqn:El; simpl; [|apply IH].
  rewrite (label_truthy r l El), orb_false_r. destruct (decide (l ∈ acc)) as [Hl|Hl].
  - by rewrite bool_decide_eq_true_2.
  - rewrite bool_decide_eq_false_2, IH by done. rewrite <-app_assoc. simpl. do 3 f_equal.
    apply uniq_from_ext. intros x. rewrite elem_of_app, !elem_of_cons, elem_of_nil. tauto.
Qed.

Lemma some_relative_norm rs :
  some_relative (map norm_route rs) = Ok (existsb (λ r, starts_with (upstream_of r) (js "/")) rs).
Proof.
  induction rs as [|r rs IH]; [done|]. cbn [map some_relative existsb].
  rewrite upstream_norm. run_res. by destruct (starts_with (upstream_of r) (js "/")).
Qed.

Lemma validate_normal url_parse rs :
  rs ≠ [] →
  validateAdvancedCustomConfig url_parse (config_obj (map norm_route rs))
  = validateAdvancedCustomConfig url_parse (enc_config rs).
Proof.
  intros Hne. rewrite validate_enc by done. unfold validateAdvancedCustomConfig.
  change (truthy (config_obj (map norm_route rs))) with true. cbn [negb].
  rewrite normalize_config_norm. run_res.
  assert (get_prop (config_obj (map norm_route rs)) (js "advanced_routes")
          = Ok (VArr (map norm_route rs))) as -> by reflexivity.
  rewrite <-validate_routes_norm. by destruct rs.
Qed.

(** The statistics shown for the text of a typed configuration are those
    of the configuration: the number of its routes, whether all of them are
    acceptable in their order, and the distinct labels of its paths in order of
    appearance; and the configuration is reported to need a base URL exactly
    when some upstream path is relative. *)
Theorem stats_of_text (url_parse : jsstr → option (jsstr * jsstr)) (rs : list Route)
    (Hrs : Forall route_units rs) (Hne : rs ≠ []) :
  ∃ text valid,
    stringifyAdvancedCustomConfig (enc_config rs) = Ok (Some text)
    ∧ getAdvancedCustomStats url_parse (Some text)
      = Ok {| routeCount := length rs; stats_valid := valid;
              routeTypeLabels := uniq (omap label_of rs) |}
    ∧ (valid = true ↔ ∀ i r, rs !! i = Some r → route_ok url_parse (take i rs) r)
    ∧ advancedCustomConfigUsesRelativeUpstreamPath (enc_config rs)
      = Ok (existsb (λ r, starts_with (upstream_of r) (js "/")) rs).
Proof.
  destruct (text_of_config rs Hrs) as (text & Ht & Hp).
  pose proof (check_routes_spec url_parse 0 rs ∅ [] represents_nil) as Hc. simpl app in Hc.
  exists text, (match check_routes url_parse 0 rs ∅ with None => true | Some _ => false end).
  split_and!; [done | | |].
  - unfold getAdvancedCustomStats. rewrite Hp, normalize_config_norm. run_res.
    assert (get_prop (config_obj (map norm_route rs)) (js "advanced_routes")
            = Ok (VArr (map norm_route rs))) as -> by reflexivity.
    run_res. rewrite summary_labels_norm. run_res. rewrite validate_normal, validate_enc by done.
    run_res. by rewrite length_map.
  - destruct (check_routes url_parse 0 rs ∅) as [e|]; [|done].
    destruct Hc as (k & r & Hk & _ & Hn & _). split; [done|]. intros Hall. by destruct Hn; apply Hall.
  - unfold advancedCustomConfigUsesRelativeUpstreamPath.
    change (truthy (enc_config rs)) with true. cbn [negb]. rewrite normalize_config_enc. run_res.
    assert (get_prop (config_obj (map norm_route rs)) (js "advanced_routes")
            = Ok (VArr (map norm_route rs))) as -> by reflexivity.
    apply some_relative_norm.
Qed.

Lemma stats_of_text_witness :
  let rs := [sample_route None; sample_route (Some [js "gpt"])] in
  ∃ text valid,
    stringifyAdvancedCustomConfig (enc_config rs) = Ok (Some text)
    ∧ getAdvancedCustomStats (λ _, None) (Some text)
      = Ok {| routeCount := length rs; stats_valid := valid;
              routeTypeLabels := uniq (omap label_of rs) |}
    ∧ (valid = true ↔ ∀ i r, rs !! i = Some r → route_ok (λ _, None) (take i rs) r)
    ∧ advancedCustomConfigUsesRelativeUpstreamPath (enc_config rs)
      = Ok (existsb (λ r, starts_with (upstream_of r) (js "/")) rs).
Proof.
  apply stats_of_text; [|discriminate].
  constructor; [|constructor; [|constructor]];
    (split; [..| discriminate]; apply (bool_decide_eq_true_1 _); vm_compute; reflexivity).
Defined.
