(* ===== verification/Flow.v ===== *)
(** * Usage flow of the dashboard (dashboard/lib/flow.ts)

    Rows of usage (user, node, token, group, model, channel, and three
    metrics) become a layered graph: a path of one node per visible stage for
    each row, nodes and links accumulating the metrics of the rows through
    them.  Objects the code mutates in place live in one [Map] each, so the
    map's entry is the object.  Not part of the program, hence parameters:
    [locale_compare] ([String.prototype.localeCompare]), [format_number]
    ([Intl.NumberFormat]) and the colour schemes of the chart package. *)

From Stdlib Require Import ZArith.
From S2P Require Import Prelude JsString JsNumber JsCollections JsValue.

Local Open Scope js_scope.

(** ** Types (dashboard/types.ts) *)

Record FlowQuotaDataItem := {
  user_id : option num;
  username : option jsstr;
  node_name : option jsstr;
  use_group : option jsstr;
  token_id : option num;
  token_name : option jsstr;
  channel_id : option num;
  channel_name : option jsstr;
  model_name : option jsstr;
  token_used : option num;
  count : option num;
  quota : option num
}.

Inductive FlowMetric := Quota | Tokens | Requests.

Inductive FlowOverflowMode := Aggregate | Hide.

#[export] Instance FlowOverflowMode_eq_dec : EqDecision FlowOverflowMode.
Proof. solve_decision. Defined.

Inductive FlowRole := RoleUser | RoleAdmin | RoleRoot.

Inductive FlowNodeKind := User | Node | Token | Group | Model | Channel.

#[export] Instance FlowNodeKind_eq_dec : EqDecision FlowNodeKind.
Proof. solve_decision. Defined.

Record FlowNodeFilter := { f_kind : FlowNodeKind; f_id : jsstr }.

Record FlowLinkSelection := { s_source : jsstr; s_target : jsstr }.

Record FlowBuildOptions := {
  role : option FlowRole;
  selectedUsers : option (list jsstr);
  selectedNodes : option (list FlowNodeFilter);
  activeNode : option FlowNodeFilter;
  activeLink : option FlowLinkSelection;
  o_colorPalette : option (list jsstr);
  visibleStages : option (list FlowNodeKind);
  topNodeLimit : option num;
  overflowMode : option FlowOverflowMode;
  maskSensitive : option bool;
  o_deletedTokenLabel : option (num → jsstr);
  otherNodeLabel : option (FlowNodeKind → jsstr)
}.

Record DashboardFlowNode := {
  n_id : jsstr; n_label : jsstr; n_kind : FlowNodeKind;
  n_value : num; n_requests : num; n_quota : num; n_tokens : num;
  n_color : jsstr; n_colorKey : jsstr;
  n_highlighted : option bool; n_dimmed : option bool
}.

Record DashboardFlowLink := {
  l_source : jsstr; l_target : jsstr;
  l_value : num; l_requests : num; l_quota : num; l_tokens : num;
  l_sourceLabel : jsstr; l_targetLabel : jsstr;
  l_color : jsstr; l_linkColor : jsstr; l_linkAlpha : num; l_hoverColor : jsstr;
  l_colorKey : jsstr; l_share : num;
  l_highlighted : option bool; l_dimmed : option bool
}.

Record DashboardFlowGraph := { nodes : list DashboardFlowNode; links : list DashboardFlowLink }.

Record FlowUserFilterOption := {
  u_value : jsstr; u_label : jsstr; u_valueLabel : jsstr; u_valueRaw : num; u_color : jsstr
}.

Record FlowNodeFilterOption := {
  fo_kind : FlowNodeKind; fo_value : jsstr; fo_label : jsstr; fo_valueLabel : jsstr;
  fo_valueRaw : num; fo_color : jsstr
}.

Record FlowFilterOptions := { fo_users : list FlowUserFilterOption; fo_nodes : list FlowNodeFilterOption }.

Record FlowSummary := { sum_quota : num; sum_tokens : num; sum_requests : num }.

Record ProcessedFlowData := {
  summary : FlowSummary; flow : DashboardFlowGraph; filterOptions : FlowFilterOptions
}.

(** ** Types and constants of flow.ts *)

Record FlowMetrics := { m_quota : num; m_tokens : num; m_requests : num }.

Record FlowPathNode := { p_id : jsstr; p_label : jsstr; p_kind : FlowNodeKind }.

Record PreparedFlowPath := { path : list FlowPathNode; metrics : FlowMetrics }.

Record FlowNodeRank := { r_node : FlowPathNode; r_value : num }.

(** [ctx.deletedTokenLabel]. *)
Definition FlowPathContext : Type := option (num → jsstr).

Definition EMPTY_FLOW_PATH_CONTEXT : FlowPathContext := None.

Record FlowHighlightSets := { h_nodes : list jsstr; h_links : list jsstr }.

Definition DEFAULT_FLOW_ROLE : FlowRole := RoleUser.
Definition DEFAULT_FLOW_OVERFLOW_MODE : FlowOverflowMode := Aggregate.
Definition DEFAULT_FLOW_CHART_COLOR : jsstr := js "#1664FF".

Definition FLOW_NODE_KINDS : list FlowNodeKind := [User; Node; Token; Group; Model; Channel].

(** The string a kind is. *)
Definition kind_str (k : FlowNodeKind) : jsstr :=
  match k with
  | User => js "user" | Node => js "node" | Token => js "token"
  | Group => js "group" | Model => js "model" | Channel => js "channel"
  end.

Definition OTHER_FLOW_NODE_IDS (k : FlowNodeKind) : jsstr :=
  match k with
  | User => js "user:__other__" | Node => js "node:__other__" | Token => js "token:__other__"
  | Group => js "group:__other__" | Model => js "model:__other__" | Channel => js "channel:__other__"
  end.

Definition DEFAULT_OTHER_FLOW_NODE_LABELS (k : FlowNodeKind) : jsstr :=
  match k with
  | User => js "Other users" | Node => js "Other nodes" | Token => js "Other tokens"
  | Group => js "Other groups" | Model => js "Other models" | Channel => js "Other channels"
  end.

Definition SENSITIVE_FLOW_KINDS : list FlowNodeKind := [User; Node; Token; Group; Channel].

Definition OTHER_FLOW_NODE_ID_SET : list jsstr := map OTHER_FLOW_NODE_IDS FLOW_NODE_KINDS.

(** A set is the list of its elements in insertion order. *)
Definition set_add {A} `{!EqDecision A} (x : A) (s : list A) : list A :=
  if decide (x ∈ s) then s else s ++ [x].

(** [s || d] for an optional string. *)
Definition opt_or (s : option jsstr) (d : jsstr) : jsstr := str_or (default [] s) d.

(** ** Rows and path nodes *)

(** [Number(value)], zero when that is not finite. *)
Definition numberValue (value : val) : res num :=
  n ← to_number value; Ok (if num_is_finite n then n else num_zero).

(** The same on an optional number. *)
Definition numberOf (value : option num) : num :=
  match value with
  | Some n => if num_is_finite n then n else num_zero
  | None => num_zero
  end.

Definition isFlowNodeKind (value : val) : option FlowNodeKind :=
  match value with
  | VStr s => List.find (λ k, bool_decide (kind_str k = s)) FLOW_NODE_KINDS
  | _ => None
  end.

Definition rowMetrics (row : FlowQuotaDataItem) : FlowMetrics :=
  {| m_quota := numberOf (quota row); m_tokens := numberOf (token_used row);
     m_requests := numberOf (count row) |}.

Definition metricValue (m : FlowMetrics) (metric : FlowMetric) : num :=
  match metric with
  | Requests => m_requests m
  | Tokens => m_tokens m
  | Quota => m_quota m
  end.

Definition positive (n : num) : bool := num_ltb num_zero n.

Definition userNode (row : FlowQuotaDataItem) : FlowPathNode :=
  let userID := numberOf (user_id row) in
  {| p_id := if positive userID then js "user:" ++ num_to_string userID
             else js "user:" ++ opt_or (username row) (js "unknown");
     p_label := opt_or (username row)
                  (if positive userID then js "user-" ++ num_to_string userID
                   else js "Unknown User");
     p_kind := User |}.

Definition nodeNameNode (row : FlowQuotaDataItem) : FlowPathNode :=
  let nodeName := opt_or (node_name row) (js "default-node") in
  {| p_id := js "node:" ++ nodeName; p_label := nodeName; p_kind := Node |}.

Definition deletedTokenLabel (tokenID : num) (ctx : FlowPathContext) : jsstr :=
  if num_leb tokenID num_zero then js "Unknown Token"
  else match ctx with
       | Some f => f tokenID
       | None => js "token-" ++ num_to_string tokenID
       end.

Definition tokenNode (row : FlowQuotaDataItem) (ctx : FlowPathContext) : FlowPathNode :=
  let tokenID := numberOf (token_id row) in
  {| p_id := if positive tokenID then js "token:" ++ num_to_string tokenID
             else js "token:" ++ opt_or (token_name row) (js "unknown");
     p_label := opt_or (token_name row) (deletedTokenLabel tokenID ctx);
     p_kind := Token |}.

Definition groupNode (row : FlowQuotaDataItem) : FlowPathNode :=
  let useGroup := opt_or (use_group row) (js "unknown") in
  {| p_id := js "group:" ++ useGroup; p_label := useGroup; p_kind := Group |}.

Definition modelNode (row : FlowQuotaDataItem) : FlowPathNode :=
  let model := opt_or (model_name row) (js "unknown") in
  {| p_id := js "model:" ++ model; p_label := opt_or (model_name row) (js "Unknown Model");
     p_kind := Model |}.

Definition channelNode (row : FlowQuotaDataItem) : FlowPathNode :=
  let channelID := numberOf (channel_id row) in
  {| p_id := if positive channelID then js "channel:" ++ num_to_string channelID
             else js "channel:" ++ opt_or (channel_name row) (js "unknown");
     p_label := opt_or (channel_name row)
                  (if positive channelID then js "channel-" ++ num_to_string channelID
                   else js "Unknown");
     p_kind := Channel |}.

Definition NODE_BUILDERS (kind : FlowNodeKind) (row : FlowQuotaDataItem) (ctx : FlowPathContext)
    : FlowPathNode :=
  match kind with
  | User => userNode row
  | Node => nodeNameNode row
  | Token => tokenNode row ctx
  | Group => groupNode row
  | Model => modelNode row
  | Channel => channelNode row
  end.

Definition ROLE_FLOW_STAGES (r : FlowRole) : list FlowNodeKind :=
  match r with
  | RoleRoot => [User; Node; Token; Group; Model; Channel]
  | RoleAdmin => [User; Group; Model; Channel]
  | RoleUser => [Token; Group; Model]
  end.

Definition MIN_FLOW_STAGES : nat := 2.

Definition getFlowStages (r : FlowRole) : list FlowNodeKind := ROLE_FLOW_STAGES r.

Definition resolveVisibleStages (r : FlowRole) (visible : option (list FlowNodeKind))
    : list FlowNodeKind :=
  let stages := getFlowStages r in
  match visible with
  | None => stages
  | Some vs =>
      let filtered := List.filter (λ stage, bool_decide (stage ∈ vs)) stages in
      if bool_decide (MIN_FLOW_STAGES ≤ length filtered)%nat then filtered else stages
  end.

Definition flowPathForStages (row : FlowQuotaDataItem) (stages : list FlowNodeKind)
    (ctx : FlowPathContext) : list FlowPathNode :=
  map (λ stage, NODE_BUILDERS stage row ctx) stages.

(** ** Colours *)

(** An entry of the chart package's default scheme table. *)
Record ColorScheme := { maxDomainLength : option num; scheme : list val }.

Definition is_hex_digit (c : N) : bool := match digit_of 16 c with Some _ => true | None => false end.

(** [Number.parseInt(hex, 16)] of hexadecimal digits. *)
Definition parse_hex (s : jsstr) : Z :=
  match parse_radix 16 0 s with Some n => Z.of_N n | None => 0%Z end.

Definition alphaColor (color : jsstr) (alpha : num) : jsstr * num :=
  let normalized := trim color in
  let hex := if starts_with normalized (js "#") then drop 1 normalized else normalized in
  if negb (Nat.eqb (length hex) 6 && forallb is_hex_digit hex) then (normalized, alpha)
  else
    let value := parse_hex hex in
    let red := Z.land (Z.shiftr value 16) 255 in
    let green := Z.land (Z.shiftr value 8) 255 in
    let blue := Z.land value 255 in
    (js "rgba(" ++ dec_of_Z red ++ js ", " ++ dec_of_Z green ++ js ", " ++ dec_of_Z blue
       ++ js ", " ++ num_to_fixed alpha 2 ++ js ")", num_of_Z 1).

(** [`${source}\u0000${target}`]. *)
Definition link_key (source target : jsstr) : jsstr := source ++ 0%N :: target.

Definition nodeFilterKey (filter : FlowNodeFilter) : jsstr :=
  kind_str (f_kind filter) ++ 0%N :: f_id filter.

(** ** Filters *)

Definition filterRows (rows : list FlowQuotaDataItem) (users : option (list jsstr))
    : list FlowQuotaDataItem :=
  let selected := uniq (default [] users) in
  match selected with
  | [] => rows
  | _ => List.filter (λ row, bool_decide (p_id (userNode row) ∈ selected)) rows
  end.

Definition normalizeSelectedNodeFilters (selected : option (list FlowNodeFilter))
    (stages : list FlowNodeKind) : list (FlowNodeKind * list jsstr) :=
  group_by f_kind (λ filter old, set_add (f_id filter) (default [] old))
    (List.filter (λ filter, bool_decide (f_kind filter ∈ stages)) (default [] selected)) [].

Definition pathMatchesNodeFilters (path : list FlowPathNode)
    (filters : list (FlowNodeKind * list jsstr)) : bool :=
  match filters with
  | [] => true
  | _ =>
      let pathNodesByKind :=
        group_by p_kind (λ node old, set_add (p_id node) (default [] old)) path [] in
      forallb (λ '(kind, selectedIds),
        match mget kind pathNodesByKind with
        | None => false
        | Some pathIds => existsb (λ id, bool_decide (id ∈ pathIds)) selectedIds
        end) filters
  end.

Definition filterRowsByNodes (rows : list FlowQuotaDataItem)
    (selected : option (list FlowNodeFilter)) (stages : list FlowNodeKind)
    (ctx : FlowPathContext) : list FlowQuotaDataItem :=
  let filters := normalizeSelectedNodeFilters selected stages in
  match filters with
  | [] => rows
  | _ => List.filter (λ row, pathMatchesNodeFilters (flowPathForStages row stages ctx) filters) rows
  end.

Definition selectedNodeFiltersExceptKind (selected : option (list FlowNodeFilter))
    (kind : FlowNodeKind) : option (list FlowNodeFilter) :=
  let filtered := List.filter (λ filter, negb (bool_decide (f_kind filter = kind)))
                    (default [] selected) in
  match filtered with [] => None | _ => Some filtered end.

(** ** Nodes and links *)

(** [map.set(id, previous)] where [previous] is the stored object or a new one,
    its counters advanced. *)
Definition bump_node (n : DashboardFlowNode) (m : FlowMetrics) (metric : FlowMetric)
    : DashboardFlowNode :=
  {| n_id := n_id n; n_label := n_label n; n_kind := n_kind n;
     n_value := num_add (n_value n) (metricValue m metric);
     n_requests := num_add (n_requests n) (m_requests m);
     n_quota := num_add (n_quota n) (m_quota m);
     n_tokens := num_add (n_tokens n) (m_tokens m);
     n_color := n_color n; n_colorKey := n_colorKey n;
     n_highlighted := n_highlighted n; n_dimmed := n_dimmed n |}.

Definition new_node (p : FlowPathNode) (color colorKey : jsstr) : DashboardFlowNode :=
  {| n_id := p_id p; n_label := p_label p; n_kind := p_kind p;
     n_value := num_zero; n_requests := num_zero; n_quota := num_zero; n_tokens := num_zero;
     n_color := color; n_colorKey := colorKey; n_highlighted := None; n_dimmed := None |}.

Definition addNode (map : list (jsstr * DashboardFlowNode)) (pathNode : FlowPathNode)
    (m : FlowMetrics) (metric : FlowMetric) (color colorKey : jsstr)
    : list (jsstr * DashboardFlowNode) :=
  mupd (p_id pathNode)
    (λ previous, bump_node (default (new_node pathNode color colorKey) previous) m metric) map.

Definition bump_link (l : DashboardFlowLink) (m : FlowMetrics) (metric : FlowMetric)
    : DashboardFlowLink :=
  {| l_source := l_source l; l_target := l_target l;
     l_value := num_add (l_value l) (metricValue m metric);
     l_requests := num_add (l_requests l) (m_requests m);
     l_quota := num_add (l_quota l) (m_quota m);
     l_tokens := num_add (l_tokens l) (m_tokens m);
     l_sourceLabel := l_sourceLabel l; l_targetLabel := l_targetLabel l;
     l_color := l_color l; l_linkColor := l_linkColor l; l_linkAlpha := l_linkAlpha l;
     l_hoverColor := l_hoverColor l; l_colorKey := l_colorKey l; l_share := l_share l;
     l_highlighted := l_highlighted l; l_dimmed := l_dimmed l |}.

Definition new_link (source target : FlowPathNode) (color colorKey : jsstr) : DashboardFlowLink :=
  {| l_source := p_id source; l_target := p_id target;
     l_value := num_zero; l_requests := num_zero; l_quota := num_zero; l_tokens := num_zero;
     l_sourceLabel := p_label source; l_targetLabel := p_label target;
     l_color := color; l_linkColor := color; l_linkAlpha := num_of_Z 1; l_hoverColor := color;
     l_colorKey := colorKey; l_share := num_zero; l_highlighted := None; l_dimmed := None |}.

Definition addLink (map : list (jsstr * DashboardFlowLink)) (source target : FlowPathNode)
    (m : FlowMetrics) (metric : FlowMetric) (color colorKey : jsstr)
    : list (jsstr * DashboardFlowLink) :=
  mupd (link_key (p_id source) (p_id target))
    (λ previous, bump_link (default (new_link source target color colorKey) previous) m metric) map.

Definition linkStableKey (link : DashboardFlowLink) : jsstr :=
  link_key (l_source link) (l_target link).

Definition pathLinkKey (source target : FlowPathNode) : jsstr :=
  link_key (p_id source) (p_id target).

(** The pairs of consecutive nodes, as the loops over [path.length - 1] visit
    them. *)
Fixpoint steps (path : list FlowPathNode) : list (FlowPathNode * FlowPathNode) :=
  match path with
  | source :: ((target :: _) as path') => (source, target) :: steps path'
  | _ => []
  end.

Definition buildSummary (rows : list FlowQuotaDataItem) : FlowSummary :=
  fold_left (λ s row,
    let m := rowMetrics row in
    {| sum_quota := num_add (sum_quota s) (m_quota m);
       sum_tokens := num_add (sum_tokens s) (m_tokens m);
       sum_requests := num_add (sum_requests s) (m_requests m) |})
    rows {| sum_quota := num_zero; sum_tokens := num_zero; sum_requests := num_zero |}.

(** A positive integer, by its integer value. *)
Definition normalizeTopNodeLimit (limit : option num) : option Z :=
  match limit with
  | None => None
  | Some l => match num_floor_Z l with
              | Some parsed => if (0 <? parsed)%Z then Some parsed else None
              | None => None
              end
  end.

Definition otherFlowNode (kind : FlowNodeKind) (labeler : option (FlowNodeKind → jsstr))
    : FlowPathNode :=
  {| p_id := OTHER_FLOW_NODE_IDS kind;
     p_label := match labeler with Some f => f kind | None => DEFAULT_OTHER_FLOW_NODE_LABELS kind end;
     p_kind := kind |}.

(** [l.slice(0, limit)]. *)
Definition slice_to {A} (limit : Z) (l : list A) : list A :=
  take (Z.to_nat (Z.min limit (Z.of_nat (length l)))) l.

Definition isTopFlowNode (node : FlowPathNode)
    (topNodeSets : option (list (FlowNodeKind * list jsstr))) : bool :=
  match topNodeSets ≫= mget (p_kind node) with
  | None => true
  | Some topNodes => bool_decide (p_id node ∈ topNodes)
  end.

Definition applyTopNodeLimit (path : list FlowPathNode)
    (topNodeSets : option (list (FlowNodeKind * list jsstr))) (mode : FlowOverflowMode)
    (labeler : option (FlowNodeKind → jsstr)) : option (list FlowPathNode) :=
  match topNodeSets with
  | None => Some path
  | Some _ =>
      if negb (existsb (λ node, negb (isTopFlowNode node topNodeSets)) path) then Some path
      else match mode with
           | Hide => None
           | Aggregate =>
               Some (map (λ node, if isTopFlowNode node topNodeSets then node
                                  else otherFlowNode (p_kind node) labeler) path)
           end
  end.

Definition pathContainsFlowNode (path : list FlowPathNode) (filter : FlowNodeFilter) : bool :=
  existsb (λ node, bool_decide (p_kind node = f_kind filter)
                   && bool_decide (p_id node = f_id filter)) path.

Definition pathContainsFlowLink (path : list FlowPathNode) (link : FlowLinkSelection) : bool :=
  existsb (λ st, bool_decide (p_id (fst st) = s_source link)
                 && bool_decide (p_id (snd st) = s_target link)) (steps path).

(** [matchesPath] inside buildFlowHighlightSets. *)
Definition matchesPath (activeNode : option FlowNodeFilter) (activeLink : option FlowLinkSelection)
    (path : list FlowPathNode) : bool :=
  match activeLink with
  | Some l => pathContainsFlowLink path l
  | None => match activeNode with Some n => pathContainsFlowNode path n | None => false end
  end.

Definition buildFlowHighlightSets (preparedPaths : list PreparedFlowPath)
    (activeNode : option FlowNodeFilter) (activeLink : option FlowLinkSelection)
    (stages : list FlowNodeKind) : option FlowHighlightSets :=
  let nodeActive := match activeNode with
                    | Some n => bool_decide (f_kind n ∈ stages)
                    | None => false
                    end in
  if negb nodeActive && negb (match activeLink with Some _ => true | None => false end) then None
  else
    let sets :=
      fold_left (λ s prepared,
        if negb (matchesPath activeNode activeLink (path prepared)) then s
        else {| h_nodes := fold_left (λ acc node, set_add (p_id node) acc) (path prepared) (h_nodes s);
                h_links := fold_left (λ acc st, set_add (pathLinkKey (fst st) (snd st)) acc)
                             (steps (path prepared)) (h_links s) |})
        preparedPaths {| h_nodes := []; h_links := [] |} in
    match h_nodes sets with [] => None | _ => Some sets end.

Definition FLOW_MASK_TEXT : jsstr := [0x2022; 0x2022; 0x2022; 0x2022]%N.

Definition maskFlowLabel (label : jsstr) : jsstr :=
  match label with [] => label | _ => FLOW_MASK_TEXT end.

Definition set_node_label (n : DashboardFlowNode) (label : jsstr) : DashboardFlowNode :=
  {| n_id := n_id n; n_label := label; n_kind := n_kind n; n_value := n_value n;
     n_requests := n_requests n; n_quota := n_quota n; n_tokens := n_tokens n;
     n_color := n_color n; n_colorKey := n_colorKey n;
     n_highlighted := n_highlighted n; n_dimmed := n_dimmed n |}.

Definition set_link_labels (l : DashboardFlowLink) (sourceLabel targetLabel : jsstr)
    : DashboardFlowLink :=
  {| l_source := l_source l; l_target := l_target l; l_value := l_value l;
     l_requests := l_requests l; l_quota := l_quota l; l_tokens := l_tokens l;
     l_sourceLabel := sourceLabel; l_targetLabel := targetLabel;
     l_color := l_color l; l_linkColor := l_linkColor l; l_linkAlpha := l_linkAlpha l;
     l_hoverColor := l_hoverColor l; l_colorKey := l_colorKey l; l_share := l_share l;
     l_highlighted := l_highlighted l; l_dimmed := l_dimmed l |}.

(** Whether the first loop masks the node. *)
Definition masked_node (n : DashboardFlowNode) : bool :=
  bool_decide (n_kind n ∈ SENSITIVE_FLOW_KINDS)
  && negb (bool_decide (n_id n ∈ OTHER_FLOW_NODE_ID_SET)).

Definition maskFlowGraphLabels (nodes : list (jsstr * DashboardFlowNode))
    (links : list (jsstr * DashboardFlowLink))
    : list (jsstr * DashboardFlowNode) * list (jsstr * DashboardFlowLink) :=
  let nodes' := mmap (λ n, if masked_node n then set_node_label n (maskFlowLabel (n_label n)) else n)
                     nodes in
  let maskedById :=
    fold_left (λ acc n, if masked_node n then mset (n_id n) (maskFlowLabel (n_label n)) acc else acc)
      (mvalues nodes) [] in
  match maskedById with
  | [] => (nodes', links)
  | _ =>
      (nodes',
       mmap (λ l, set_link_labels l (default (l_sourceLabel l) (mget (l_source l) maskedById))
                                    (default (l_targetLabel l) (mget (l_target l) maskedById))) links)
  end.

Definition set_node_flags (n : DashboardFlowNode) (highlighted dimmed : bool) : DashboardFlowNode :=
  {| n_id := n_id n; n_label := n_label n; n_kind := n_kind n; n_value := n_value n;
     n_requests := n_requests n; n_quota := n_quota n; n_tokens := n_tokens n;
     n_color := n_color n; n_colorKey := n_colorKey n;
     n_highlighted := Some highlighted; n_dimmed := Some dimmed |}.

Definition set_link_flags (l : DashboardFlowLink) (highlighted dimmed : bool) : DashboardFlowLink :=
  {| l_source := l_source l; l_target := l_target l; l_value := l_value l;
     l_requests := l_requests l; l_quota := l_quota l; l_tokens := l_tokens l;
     l_sourceLabel := l_sourceLabel l; l_targetLabel := l_targetLabel l;
     l_color := l_color l; l_linkColor := l_linkColor l; l_linkAlpha := l_linkAlpha l;
     l_hoverColor := l_hoverColor l; l_colorKey := l_colorKey l; l_share := l_share l;
     l_highlighted := Some highlighted; l_dimmed := Some dimmed |}.

Definition applyFlowHighlights (nodes : list (jsstr * DashboardFlowNode))
    (links : list (jsstr * DashboardFlowLink)) (sets : option FlowHighlightSets)
    : list (jsstr * DashboardFlowNode) * list (jsstr * DashboardFlowLink) :=
  match sets with
  | None => (nodes, links)
  | Some s =>
      (mmap (λ n, let highlighted := bool_decide (n_id n ∈ h_nodes s) in
                  set_node_flags n highlighted (negb highlighted)) nodes,
       mmap (λ l, let highlighted := bool_decide (linkStableKey l ∈ h_links s) in
                  set_link_flags l highlighted (negb highlighted)) links)
  end.

Definition set_link_share (l : DashboardFlowLink) (share : num) : DashboardFlowLink :=
  {| l_source := l_source l; l_target := l_target l; l_value := l_value l;
     l_requests := l_requests l; l_quota := l_quota l; l_tokens := l_tokens l;
     l_sourceLabel := l_sourceLabel l; l_targetLabel := l_targetLabel l;
     l_color := l_color l; l_linkColor := l_linkColor l; l_linkAlpha := l_linkAlpha l;
     l_hoverColor := l_hoverColor l; l_colorKey := l_colorKey l; l_share := share;
     l_highlighted := l_highlighted l; l_dimmed := l_dimmed l |}.

Definition set_link_colors (l : DashboardFlowLink) (linkColor : jsstr) (linkAlpha : num)
    (hoverColor : jsstr) : DashboardFlowLink :=
  {| l_source := l_source l; l_target := l_target l; l_value := l_value l;
     l_requests := l_requests l; l_quota := l_quota l; l_tokens := l_tokens l;
     l_sourceLabel := l_sourceLabel l; l_targetLabel := l_targetLabel l;
     l_color := l_color l; l_linkColor := linkColor; l_linkAlpha := linkAlpha;
     l_hoverColor := hoverColor; l_colorKey := l_colorKey l; l_share := l_share l;
     l_highlighted := l_highlighted l; l_dimmed := l_dimmed l |}.

(** ** Building the graph and the filter options *)

Section flow.
(** [a.localeCompare(b)]: negative, zero or positive. *)
Variable locale_compare : jsstr → jsstr → num.

(** [Intl.NumberFormat(undefined, { maximumFractionDigits: 0 }).format]. *)
Variable format_number : num → jsstr.

(** The default scheme table of the chart package: a first scheme and more. *)
Variable vchartDefaultDataScheme : ColorScheme * list ColorScheme.

Definition formatNumber (value : num) : jsstr := format_number value.

(** dashboard/lib/charts.ts. *)
Definition getDashboardChartColors (domainLength : nat) : list jsstr :=
  let '(s0, ss) := vchartDefaultDataScheme in
  let fits s := match maxDomainLength s with
                | None => true
                | Some m => negb (num_truthy m)
                            || num_leb (num_of_Z (Z.of_nat domainLength)) m
                end in
  let s := default (List.last ss s0) (List.find fits (s0 :: ss)) in
  omap (λ c, match c with VStr s => Some s | _ => None end) (scheme s).

Definition colorAt (index : nat) (palette : option (list jsstr)) : jsstr :=
  let colors := match palette with
                | Some ((_ :: _) as p) => p
                | _ => getDashboardChartColors (index + 1)
                end in
  match colors with
  | [] => DEFAULT_FLOW_CHART_COLOR
  | _ => default DEFAULT_FLOW_CHART_COLOR (colors !! (index mod length colors)%nat)
  end.

Definition colorPalette (colorCount : nat) (palette : option (list jsstr)) : list jsstr :=
  match palette with
  | Some ((_ :: _) as p) => p
  | _ => match getDashboardChartColors colorCount with
         | [] => [DEFAULT_FLOW_CHART_COLOR]
         | colors => colors
         end
  end.

Definition stableColorMap (keys : list jsstr) (palette : option (list jsstr))
    : list (jsstr * jsstr) :=
  let uniqueKeys := uniq keys in
  let colors := colorPalette (length uniqueKeys) palette in
  fold_left (λ m '(index, key), mset key (colorAt index (Some colors)) m)
    (imap pair uniqueKeys) [].

(** [b - a || c] of the comparators. *)
Definition desc_then (a b : num) (c : num) : num := num_or (num_sub b a) c.

Definition byValueThenLabel (a b : DashboardFlowNode) : num :=
  desc_then (n_value a) (n_value b) (locale_compare (n_label a) (n_label b)).

Definition link_value_order (a b : DashboardFlowLink) : num :=
  desc_then (l_value a) (l_value b) (locale_compare (linkStableKey a) (linkStableKey b)).

(** The links of each source, the largest first, get the weakest alpha.  The
    links of [sortedLinks] are those of the array, here by position. *)
Definition assignLinkDisplayColors (links : list DashboardFlowLink) : list DashboardFlowLink :=
  let linksBySource :=
    group_by (λ il, l_source (snd il)) (λ il sourceLinks, default [] sourceLinks ++ [il])
      (imap pair links) [] in
  fold_left (λ acc sourceLinks,
    let sortedLinks := js_sort (λ a b, link_value_order (snd a) (snd b)) sourceLinks in
    let denominator := Z.max (Z.of_nat (length sortedLinks) - 1) 1 in
    fold_left (λ acc '(index, (i, link)),
      let alpha :=
        if Nat.eqb (length sortedLinks) 1 then of_decimal false 34 (-2)
        else num_add (of_decimal false 24 (-2))
               (num_mul (num_div (num_of_Z (Z.of_nat index)) (num_of_Z denominator))
                        (of_decimal false 2 (-1))) in
      let displayColor := alphaColor (l_color link) alpha in
      alter (λ l, set_link_colors l (fst displayColor) (snd displayColor) (l_color l)) i acc)
      (imap pair sortedLinks) acc)
    (mvalues linksBySource) links.

(** [a.label.localeCompare(b.label) || a.id.localeCompare(b.id)] after the value. *)
Definition rank_order (a b : FlowNodeRank) : num :=
  desc_then (r_value a) (r_value b)
    (num_or (locale_compare (p_label (r_node a)) (p_label (r_node b)))
            (locale_compare (p_id (r_node a)) (p_id (r_node b)))).

Definition buildTopNodeSets (rows : list FlowQuotaDataItem) (metric : FlowMetric)
    (stages : list FlowNodeKind) (limit : option Z) (ctx : FlowPathContext)
    : option (list (FlowNodeKind * list jsstr)) :=
  match limit with
  | None => None
  | Some limit =>
      let totals0 := fold_left (λ m stage, mset stage [] m) stages [] in
      let totals :=
        fold_left (λ totals row,
          let value := metricValue (rowMetrics row) metric in
          fold_left (λ totals node,
            match mget (p_kind node) totals with
            | None => totals
            | Some stageTotals =>
                mset (p_kind node)
                  (mupd (p_id node)
                     (λ current,
                        let c := default {| r_node := node; r_value := num_zero |} current in
                        {| r_node := r_node c; r_value := num_add (r_value c) value |})
                     stageTotals) totals
            end) (flowPathForStages row stages ctx) totals) rows totals0 in
      Some (fold_left (λ topSets '(kind, stageTotals),
              let topIds := map (λ rank, p_id (r_node rank))
                              (slice_to limit (js_sort rank_order (mvalues stageTotals))) in
              mset kind (uniq topIds) topSets) totals [])
  end.

(** The paths of the graph: one for each row that is not dropped. *)
Definition preparePaths (rows : list FlowQuotaDataItem) (stages : list FlowNodeKind)
    (topNodeSets : option (list (FlowNodeKind * list jsstr))) (mode : FlowOverflowMode)
    (labeler : option (FlowNodeKind → jsstr)) (ctx : FlowPathContext) : list PreparedFlowPath :=
  omap (λ row, (λ p, {| path := p; metrics := rowMetrics row |})
               <$> applyTopNodeLimit (flowPathForStages row stages ctx) topNodeSets mode labeler) rows.

(** The ids of the roots, as the colour map and the share use them. *)
Definition root_ids (preparedPaths : list PreparedFlowPath) : list jsstr :=
  List.filter truthy_str (omap (λ prepared, p_id <$> head (path prepared)) preparedPaths).

(** One iteration of the loop that fills the two maps. *)
Definition add_prepared (metric : FlowMetric) (palette : option (list jsstr))
    (colors : list (jsstr * jsstr))
    (state : list (jsstr * DashboardFlowNode) * list (jsstr * DashboardFlowLink))
    (prepared : PreparedFlowPath)
    : list (jsstr * DashboardFlowNode) * list (jsstr * DashboardFlowLink) :=
  match head (path prepared) with
  | None => state
  | Some root =>
      let color := default (colorAt 0 palette) (mget (p_id root) colors) in
      (fold_left (λ m node, addNode m node (metrics prepared) metric color (p_id root))
         (path prepared) (fst state),
       fold_left (λ m st, addLink m (fst st) (snd st) (metrics prepared) metric color (p_id root))
         (steps (path prepared)) (snd state))
  end.

Definition link_order (a b : DashboardFlowLink) : num :=
  num_or (locale_compare (l_source a) (l_source b)) (locale_compare (l_target a) (l_target b)).

Record FlowGraphOptions := {
  g_topNodeLimit : option num;
  g_overflowMode : option FlowOverflowMode;
  g_otherNodeLabel : option (FlowNodeKind → jsstr);
  g_activeNode : option FlowNodeFilter;
  g_activeLink : option FlowLinkSelection;
  g_maskSensitive : option bool
}.

Definition buildFlowGraph (rows : list FlowQuotaDataItem) (metric : FlowMetric) (r : FlowRole)
    (palette : option (list jsstr)) (visible : option (list FlowNodeKind))
    (ctx : FlowPathContext) (options : FlowGraphOptions) : DashboardFlowGraph :=
  let stages := resolveVisibleStages r visible in
  let topNodeSets :=
    buildTopNodeSets rows metric stages (normalizeTopNodeLimit (g_topNodeLimit options)) ctx in
  let mode := default DEFAULT_FLOW_OVERFLOW_MODE (g_overflowMode options) in
  let preparedPaths := preparePaths rows stages topNodeSets mode (g_otherNodeLabel options) ctx in
  let colors := stableColorMap (js_sort locale_compare (root_ids preparedPaths)) palette in
  let '(nodes, links) := fold_left (add_prepared metric palette colors) preparedPaths ([], []) in
  let '(nodes, links) :=
    if default false (g_maskSensitive options) then maskFlowGraphLabels nodes links
    else (nodes, links) in
  let '(nodes, links) :=
    applyFlowHighlights nodes links
      (buildFlowHighlightSets preparedPaths (g_activeNode options) (g_activeLink options) stages) in
  let flowLinks := js_sort link_order (mvalues links) in
  let firstStepSources := uniq (root_ids preparedPaths) in
  let total :=
    fold_left (λ sum link, num_add sum (l_value link))
      (List.filter (λ link, bool_decide (l_source link ∈ firstStepSources)) flowLinks) num_zero in
  let flowLinks :=
    map (λ link, set_link_share link
                   (if positive total then num_div (l_value link) total else num_zero)) flowLinks in
  {| nodes := js_sort byValueThenLabel (mvalues nodes);
     links := assignLinkDisplayColors flowLinks |}.

Record UserTotal := { t_label : jsstr; t_value : num; t_color : jsstr }.

Definition buildUserFilterOptions (rows : list FlowQuotaDataItem) (metric : FlowMetric)
    (palette : option (list jsstr)) : list FlowUserFilterOption :=
  let colors :=
    stableColorMap (js_sort locale_compare (map (λ row, p_id (userNode row)) rows)) palette in
  let users :=
    fold_left (λ users row,
      let user := userNode row in
      if negb (num_truthy (default num_nan (user_id row))) && negb (truthy_str (default [] (username row)))
      then users
      else
        let value := metricValue (rowMetrics row) metric in
        mupd (p_id user)
          (λ current,
             let c := default {| t_label := p_label user; t_value := num_zero;
                                 t_color := default (colorAt 0 palette) (mget (p_id user) colors) |}
                        current in
             {| t_label := t_label c; t_value := num_add (t_value c) value; t_color := t_color c |})
          users) rows [] in
  js_sort (λ a b, desc_then (u_valueRaw a) (u_valueRaw b) (locale_compare (u_label a) (u_label b)))
    (map (λ '(value, user),
            {| u_value := value; u_label := t_label user;
               u_valueLabel := formatNumber (t_value user);
               u_valueRaw := t_value user; u_color := t_color user |}) users).

(** The totals of one stage over its candidate rows. *)
Definition stage_totals (rows : list FlowQuotaDataItem) (metric : FlowMetric)
    (stage : FlowNodeKind) (ctx : FlowPathContext) : list (jsstr * FlowNodeRank) :=
  fold_left (λ totals row,
    let value := metricValue (rowMetrics row) metric in
    let node := NODE_BUILDERS stage row ctx in
    mupd (nodeFilterKey {| f_kind := p_kind node; f_id := p_id node |})
      (λ current,
         let c := default {| r_node := node; r_value := num_zero |} current in
         {| r_node := r_node c; r_value := num_add (r_value c) value |}) totals) rows [].

Definition buildNodeFilterOptions (rows : list FlowQuotaDataItem) (metric : FlowMetric)
    (r : FlowRole) (visible : option (list FlowNodeKind)) (palette : option (list jsstr))
    (ctx : FlowPathContext) (selected : option (list FlowNodeFilter)) : list FlowNodeFilterOption :=
  let stages := resolveVisibleStages r visible in
  let stageOrder := fold_left (λ m '(index, stage), mset stage (num_of_Z (Z.of_nat index)) m)
                      (imap pair stages) [] in
  let colorIds := uniq (concat (map (λ row, map p_id (flowPathForStages row stages ctx)) rows)) in
  let colors := stableColorMap (js_sort locale_compare colorIds) palette in
  let options :=
    concat (map (λ stage,
      let candidateRows :=
        filterRowsByNodes rows (selectedNodeFiltersExceptKind selected stage) stages ctx in
      map (λ rank,
             {| fo_kind := p_kind (r_node rank); fo_value := p_id (r_node rank);
                fo_label := p_label (r_node rank); fo_valueLabel := formatNumber (r_value rank);
                fo_valueRaw := r_value rank;
                fo_color := default (colorAt 0 palette) (mget (p_id (r_node rank)) colors) |})
        (mvalues (stage_totals candidateRows metric stage ctx))) stages) in
  js_sort (λ a b,
    num_or (num_sub (default num_zero (mget (fo_kind a) stageOrder))
                    (default num_zero (mget (fo_kind b) stageOrder)))
      (desc_then (fo_valueRaw a) (fo_valueRaw b)
         (num_or (locale_compare (fo_label a) (fo_label b))
                 (locale_compare (fo_value a) (fo_value b))))) options.

Definition buildFlowFilterOptions (rows : list FlowQuotaDataItem) (metric : FlowMetric)
    (palette : option (list jsstr)) (r : FlowRole) (visible : option (list FlowNodeKind))
    (selected : option (list FlowNodeFilter)) : FlowFilterOptions :=
  {| fo_users := buildUserFilterOptions rows metric palette;
     fo_nodes := buildNodeFilterOptions rows metric r visible palette EMPTY_FLOW_PATH_CONTEXT
                   selected |}.

Definition buildDashboardFlowData (rows : list FlowQuotaDataItem) (metric : FlowMetric)
    (options : FlowBuildOptions) : ProcessedFlowData :=
  let r := default DEFAULT_FLOW_ROLE (role options) in
  let palette := o_colorPalette options in
  let ctx := o_deletedTokenLabel options in
  let stages := resolveVisibleStages r (visibleStages options) in
  let userFilteredRows := filterRows rows (selectedUsers options) in
  let filteredRows := filterRowsByNodes userFilteredRows (selectedNodes options) stages ctx in
  {| summary := buildSummary filteredRows;
     flow := buildFlowGraph filteredRows metric r palette (visibleStages options) ctx
               {| g_topNodeLimit := topNodeLimit options; g_overflowMode := overflowMode options;
                  g_otherNodeLabel := otherNodeLabel options; g_activeNode := activeNode options;
                  g_activeLink := activeLink options; g_maskSensitive := maskSensitive options |};
     filterOptions :=
       {| fo_users := buildUserFilterOptions rows metric palette;
          fo_nodes := buildNodeFilterOptions userFilteredRows metric r (visibleStages options)
                        palette ctx (selectedNodes options) |} |}.
End flow.
