(* ===== verification/FlowFacts.v ===== *)
(** * The graph of a usage flow, as sums over paths

    The loops of [buildFlowGraph] are grouping loops over the nodes and the
    steps of the prepared paths; here they are given their closed form, and
    the later passes (masking, highlighting, sorting, shares, colours) are
    shown to leave the counters alone. *)

From Stdlib Require Import ZArith.
From S2P Require Import Prelude JsString JsNumber JsNumberFacts JsCollections JsValue Flow.

(** ** Stages and ids *)

Lemma NoDup_stages r : NoDup (getFlowStages r).
Proof. apply (bool_decide_eq_true_1 _). by destruct r. Qed.

Lemma NoDup_visible r vs : NoDup (resolveVisibleStages r vs).
Proof.
  unfold resolveVisibleStages. destruct vs; [|apply NoDup_stages].
  case_bool_decide; [apply NoDup_filterb|]; apply NoDup_stages.
Qed.

(** Ids of different kinds differ in their first character. *)
Definition initial (k : FlowNodeKind) : N :=
  match k with
  | User => 117 | Node => 110 | Token => 116 | Group => 103 | Model => 109 | Channel => 99
  end.

#[export] Instance initial_inj : Inj (=) (=) initial.
Proof. by intros [] []. Qed.

Definition node_wf (n : FlowPathNode) : Prop := head (p_id n) = Some (initial (p_kind n)).

Lemma builder_wf k row ctx : node_wf (NODE_BUILDERS k row ctx) ∧ p_kind (NODE_BUILDERS k row ctx) = k.
Proof.
  unfold node_wf. destruct k; simpl; unfold userNode, tokenNode, channelNode; simpl;
    (split; [|done]); by try destruct (positive _).
Qed.

Lemma other_wf k f : node_wf (otherFlowNode k f) ∧ p_kind (otherFlowNode k f) = k.
Proof. by destruct k. Qed.

(** The shape of a path: one well-formed node per stage. *)
Definition path_ok (stages : list FlowNodeKind) (p : list FlowPathNode) : Prop :=
  map p_kind p = stages ∧ Forall node_wf p.

Lemma flowPath_ok row stages ctx : path_ok stages (flowPathForStages row stages ctx).
Proof.
  unfold flowPathForStages. induction stages as [|k stages [IH1 IH2]]; [done|].
  destruct (builder_wf k row ctx). split; simpl; [congruence | by constructor].
Qed.

Lemma applyTopNodeLimit_ok stages p sets mode f p' :
  path_ok stages p → applyTopNodeLimit p sets mode f = Some p' → path_ok stages p'.
Proof.
  intros [Hk Hw]. unfold applyTopNodeLimit. destruct sets as [s|]; [|by intros [= <-]].
  destruct (negb _); [by intros [= <-]|]. destruct mode; [|done]. intros [= <-].
  revert stages Hk; induction Hw as [|n p Hn Hw IH]; intros stages <-; simpl; [done|].
  destruct (IH _ eq_refl) as [IH1 IH2].
  split; simpl; [f_equal; [by case_match; [|apply other_wf] | done]|].
  constructor; [|done]. case_match; [done | apply other_wf].
Qed.

Lemma preparePaths_ok rows stages sets mode f ctx :
  Forall (λ p, path_ok stages (path p)) (preparePaths rows stages sets mode f ctx).
Proof.
  apply Forall_forall. intros p. unfold preparePaths. rewrite list_elem_of_omap.
  intros (row & _ & Hp). apply fmap_Some in Hp as (p' & Hp & ->). simpl.
  eapply applyTopNodeLimit_ok; [apply flowPath_ok | exact Hp].
Qed.

Lemma path_ok_inj stages p n n' :
  NoDup stages → path_ok stages p → n ∈ p → n' ∈ p → p_id n = p_id n' → n = n'.
Proof.
  intros Hnd [Hk Hw] Hn Hn' Hid. rewrite Forall_forall in Hw.
  assert (p_kind n = p_kind n') as Hkind.
  { apply initial_inj. pose proof (Hw n Hn) as H. pose proof (Hw n' Hn') as H'.
    unfold node_wf in *. congruence. }
  subst stages. apply list_elem_of_lookup in Hn as [i Hi]. apply list_elem_of_lookup in Hn' as [j Hj].
  assert (i = j) as ->; [|congruence].
  eapply (NoDup_lookup _ i j (p_kind n) Hnd); rewrite list_lookup_fmap; [by rewrite Hi|].
  by rewrite Hj, Hkind.
Qed.

Lemma path_ok_NoDup stages p : NoDup stages → path_ok stages p → NoDup (map p_id p).
Proof.
  intros Hnd [<- Hw]. apply NoDup_fmap_1 in Hnd as Hp.
  induction Hw as [|n p Hn Hw IH]; simpl in *; [constructor|].
  apply NoDup_cons in Hnd as [Hnk Hnd]. apply NoDup_cons in Hp as [_ Hp]. constructor; [|auto].
  rewrite list_elem_of_fmap. intros (n' & Hid & Hn'). apply Hnk.
  rewrite list_elem_of_fmap. exists n'. split; [|done]. apply initial_inj.
  rewrite Forall_forall in Hw. specialize (Hw n' Hn'). unfold node_wf in *. congruence.
Qed.

(** ** Sums in the order of the loops *)

Definition js_sum (l : list num) : num := fold_left num_add l num_zero.

(** ** The loops as grouping loops *)

(** A visit of a node or link: what the loop adds. *)
Record visit A := { v_item : A; v_metrics : FlowMetrics; v_color : jsstr; v_key : jsstr }.
Arguments v_item {A}. Arguments v_metrics {A}. Arguments v_color {A}. Arguments v_key {A}.
Arguments Build_visit {A}.

Section visits.
Context (metric : FlowMetric) (color : jsstr → jsstr).

Definition visits {A} (items : list FlowPathNode → list A) (p : PreparedFlowPath) : list (visit A) :=
  match head (path p) with
  | None => []
  | Some root => map (λ x, Build_visit x (metrics p) (color (p_id root)) (p_id root)) (items (path p))
  end.

Definition node_key (v : visit FlowPathNode) : jsstr := p_id (v_item v).
Definition node_add (v : visit FlowPathNode) (o : option DashboardFlowNode) : DashboardFlowNode :=
  bump_node (default (new_node (v_item v) (v_color v) (v_key v)) o) (v_metrics v) metric.

Definition step_key (v : visit (FlowPathNode * FlowPathNode)) : jsstr :=
  pathLinkKey (fst (v_item v)) (snd (v_item v)).
Definition step_add (v : visit (FlowPathNode * FlowPathNode)) (o : option DashboardFlowLink)
    : DashboardFlowLink :=
  bump_link (default (new_link (fst (v_item v)) (snd (v_item v)) (v_color v) (v_key v)) o)
    (v_metrics v) metric.

Definition all_visits {A} (items : list FlowPathNode → list A) (ps : list PreparedFlowPath)
    : list (visit A) :=
  concat (map (visits items) ps).

Definition raw_nodes (ps : list PreparedFlowPath) : list (jsstr * DashboardFlowNode) :=
  group_by node_key node_add (all_visits id ps) [].
Definition raw_links (ps : list PreparedFlowPath) : list (jsstr * DashboardFlowLink) :=
  group_by step_key step_add (all_visits steps ps) [].
End visits.

Lemma fold_add_prepared metric palette colors scheme ps :
  let color id := default (colorAt scheme 0 palette) (mget id colors) in
  fold_left (add_prepared scheme metric palette colors) ps ([], [])
  = (raw_nodes metric color ps, raw_links metric color ps).
Proof.
  intros color. unfold raw_nodes, raw_links, all_visits.
  assert (∀ ns ls, fold_left (add_prepared scheme metric palette colors) ps (ns, ls)
    = (group_by node_key (node_add metric) (concat (map (visits color id) ps)) ns,
       group_by step_key (step_add metric) (concat (map (visits color steps) ps)) ls)) as H; [|apply H].
  induction ps as [|p ps IH]; intros ns ls; [done|].
  cbn [fold_left map concat]. rewrite !group_by_app, <-IH. f_equal.
  unfold add_prepared, visits. destruct (head (path p)) as [root|]; [|done].
  by rewrite !group_by_map.
Qed.

(** *** What a grouping loop leaves in an entry *)

Section entries.
Context {X E : Type} (key : X → jsstr) (add : X → option E → E).

Lemma fold_some (x : X) (xs : list X) :
  ∃ e, fold_left (λ o x, Some (add x o)) xs (Some (add x None)) = Some e
    ∧ (∀ (T : Type) (f : E → T), (∀ x e, f (add x (Some e)) = f e) → f e = f (add x None))
    ∧ (∀ (get : E → num) (w : X → num),
         (∀ x e, get (add x (Some e)) = num_add (get e) (w x)) →
         get (add x None) = num_add num_zero (w x) →
         get e = js_sum (map w (x :: xs))).
Proof.
  assert (∀ e0, ∃ e, fold_left (λ o x, Some (add x o)) xs (Some e0) = Some e
    ∧ (∀ (T : Type) (f : E → T), (∀ x e, f (add x (Some e)) = f e) → f e = f e0)
    ∧ (∀ (get : E → num) (w : X → num),
         (∀ x e, get (add x (Some e)) = num_add (get e) (w x)) →
         get e = fold_left num_add (map w xs) (get e0))) as H.
  { induction xs as [|y xs IH]; intros e0; simpl; [eauto|].
    destruct (IH (add y (Some e0))) as (e & He & Hf & Hg). exists e. split; [done|]. split.
    - intros T f Hadd. by rewrite (Hf T f Hadd).
    - intros get w Hadd. by rewrite (Hg get w Hadd), Hadd. }
  destruct (H (add x None)) as (e & He & Hf & Hg). exists e.
  split; [done|]. split; [exact Hf|]. intros get w Hadd H0. by rewrite (Hg get w Hadd), H0.
Qed.

(** An entry comes from the elements of its key, of which there is one. *)
Lemma group_entry xs k e :
  (k, e) ∈ group_by key add xs [] →
  ∃ x xs', List.filter (λ x, bool_decide (key x = k)) xs = x :: xs'
    ∧ (∀ (T : Type) (f : E → T), (∀ x e, f (add x (Some e)) = f e) → f e = f (add x None))
    ∧ (∀ (get : E → num) (w : X → num),
         (∀ x e, get (add x (Some e)) = num_add (get e) (w x)) →
         (∀ x, get (add x None) = num_add num_zero (w x)) →
         get e = js_sum (map w (List.filter (λ x, bool_decide (key x = k)) xs))).
Proof.
  intros Hin. apply elem_of_mget in Hin; [|apply NoDup_group_by; constructor].
  rewrite mget_group_by in Hin. simpl in Hin.
  destruct (List.filter _ xs) as [|x xs'] eqn:Ef; [done|]. simpl in Hin.
  destruct (fold_some x xs') as (e' & He & Hf & Hg). rewrite He in Hin. simplify_eq.
  exists x, xs'. split; [done|]. split; [exact Hf | intros get w Hadd H0; by apply Hg].
Qed.

Lemma group_keys xs k : k ∈ mkeys (group_by key add xs []) ↔ ∃ x, x ∈ xs ∧ key x = k.
Proof.
  rewrite mkeys_group_by. simpl. rewrite elem_of_uniq_from, list_elem_of_fmap.
  split; [intros [(x & -> & ?) _]; eauto | intros (x & ? & <-); split; [eauto | apply not_elem_of_nil]].
Qed.

(** Every entry's key is that of the element it stands for. *)
Lemma group_key_of (id : E → jsstr) xs k e :
  (∀ x o, id (add x o) = match o with Some e => id e | None => key x end) →
  (k, e) ∈ group_by key add xs [] → id e = k.
Proof.
  intros Hid (x & xs' & Hf & Himm & _)%group_entry.
  rewrite (Himm _ id) by (intros; apply Hid). rewrite Hid.
  assert (x ∈ List.filter (λ x, bool_decide (key x = k)) xs) as Hx by (rewrite Hf; constructor).
  by apply elem_of_filterb in Hx as [_ ?%bool_decide_eq_true].
Qed.
End entries.

(** *** Visits of one key are the paths through it *)

(** Whether a path visits the key, and at most once. *)
Definition through {A} (items : list FlowPathNode → list A) (key : A → jsstr) (k : jsstr)
    (p : list FlowPathNode) : bool :=
  existsb (λ x, bool_decide (key x = k)) (items p).

Lemma visits_through {A} (items : list FlowPathNode → list A) (key : A → jsstr) color k
    (w : FlowMetrics → num) ps :
  Forall (λ p, NoDup (map key (items (path p))) ∧ (head (path p) = None → items (path p) = [])) ps →
  map (λ v : visit A, w (v_metrics v))
    (List.filter (λ v, bool_decide (key (v_item v) = k)) (all_visits color items ps))
  = map (λ p, w (metrics p)) (List.filter (λ p, through items key k (path p)) ps).
Proof.
  unfold all_visits. induction 1 as [|p ps [Hnd Hnil] _ IH]; [done|].
  cbn [map concat]. rewrite List.filter_app, map_app, IH. clear IH.
  assert (map (λ v : visit A, w (v_metrics v))
            (List.filter (λ v, bool_decide (key (v_item v) = k)) (visits color items p))
          = if through items key k (path p) then [w (metrics p)] else []) as ->.
  { unfold visits, through. destruct (head (path p)) as [root|].
    - generalize (color (p_id root)) (p_id root). intros c r.
      induction (items (path p)) as [|x l IH]; [done|]. simpl in Hnd |- *.
      apply NoDup_cons in Hnd as [Hx Hnd]. case_bool_decide as E; simpl; [|by apply IH].
      f_equal. clear IH.
      assert (existsb (λ x, bool_decide (key x = k)) l = false) as Hl.
      { apply not_true_is_false. rewrite existsb_exists_elem. intros (y & Hy & Ey%bool_decide_eq_true).
        apply Hx, list_elem_of_fmap. exists y. split; [congruence | done]. }
      clear Hx Hnd. induction l as [|y l IH]; [done|]. simpl in *.
      apply orb_false_iff in Hl as [-> Hl]. by apply IH.
    - rewrite Hnil by done. done. }
  simpl. by destruct (through items key k (path p)).
Qed.

(** *** Steps of a path *)

Lemma steps_cons a b p : steps (a :: b :: p) = (a, b) :: steps (b :: p).
Proof. done. Qed.

Lemma elem_of_steps st p : st ∈ steps p → fst st ∈ p ∧ snd st ∈ p.
Proof.
  induction p as [|a [|b p] IH]; [set_solver | set_solver|].
  rewrite steps_cons, elem_of_cons. intros [-> | Hst]; [set_solver|].
  destruct (IH Hst). set_solver.
Qed.

Lemma NoDup_step_keys stages p :
  NoDup stages → path_ok stages p → NoDup (map (λ st, pathLinkKey (fst st) (snd st)) (steps p)).
Proof.
  intros Hnd [<- Hw]. revert Hnd. induction Hw as [|a p Ha Hw IH]; intros Hnd; [constructor|].
  destruct p as [|b p]; [constructor|].
  rewrite steps_cons. cbn [map fst snd] in *. apply NoDup_cons in Hnd as [Hak Hnd].
  constructor; [|by apply IH]. rewrite list_elem_of_fmap. intros (st & Hk & Hst).
  apply elem_of_steps in Hst as [Hs _]. apply Hak. change (p_kind a ∈ p_kind <$> b :: p).
  apply list_elem_of_fmap. exists (fst st). split; [|done].
  apply initial_inj. rewrite Forall_forall in Hw. specialize (Hw _ Hs).
  unfold node_wf, pathLinkKey, link_key in *. apply (f_equal head) in Hk.
  destruct (p_id a) as [|x ?], (p_id (fst st)) as [|y ?]; simplify_eq/=. congruence.
Qed.

Lemma pathLinkKey_inj a b a' b' :
  (0%N ∉ a) → (0%N ∉ a') → link_key a b = link_key a' b' → a = a' ∧ b = b'.
Proof.
  unfold link_key. revert a'; induction a as [|x a IH]; intros [|y a'] Ha Ha' H; simplify_eq/=;
    [done | set_solver | set_solver |].
  destruct (IH a') as [-> ->]; [set_solver | set_solver | done | done].
Qed.

(** ** The accumulated counters *)

Definition visits_node (k : jsstr) (p : PreparedFlowPath) : bool :=
  existsb (λ n, bool_decide (p_id n = k)) (path p).

Definition visits_link (k : jsstr) (p : PreparedFlowPath) : bool :=
  existsb (λ st, bool_decide (pathLinkKey (fst st) (snd st) = k)) (steps (path p)).

(** The sum of a weight over the paths that satisfy a test, in row order. *)
Definition sum_over (w : FlowMetrics → num) (q : PreparedFlowPath → bool)
    (ps : list PreparedFlowPath) : num :=
  js_sum (map (λ p, w (metrics p)) (List.filter q ps)).

Section counters.
Context (metric : FlowMetric) (color : jsstr → jsstr).
Context (stages : list FlowNodeKind) (Hstages : NoDup stages).
Context (ps : list PreparedFlowPath) (Hps : Forall (λ p, path_ok stages (path p)) ps).

Lemma visits_elem {A} (items : list FlowPathNode → list A) v :
  v ∈ all_visits color items ps →
  ∃ p root, p ∈ ps ∧ head (path p) = Some root ∧ v_item v ∈ items (path p)
    ∧ v_metrics v = metrics p ∧ v_color v = color (p_id root) ∧ v_key v = p_id root.
Proof.
  unfold all_visits. rewrite list_elem_of_In, in_concat. intros (l & Hl & Hv).
  apply list_elem_of_In in Hl, Hv. apply list_elem_of_fmap in Hl as (p & -> & Hp).
  unfold visits in Hv. destruct (head (path p)) as [root|] eqn:Hr; [|set_solver].
  apply list_elem_of_fmap in Hv as (x & -> & Hx). by exists p, root.
Qed.

Lemma elem_visits {A} (items : list FlowPathNode → list A) p x :
  p ∈ ps → x ∈ items (path p) → items [] = [] →
  ∃ v, v ∈ all_visits color items ps ∧ v_item v = x.
Proof.
  intros Hp Hx Hnil. destruct (path p) as [|root q] eqn:Ep; [rewrite Hnil in Hx; set_solver|].
  exists (Build_visit x (metrics p) (color (p_id root)) (p_id root)). split; [|done].
  unfold all_visits. rewrite list_elem_of_In, in_concat. exists (visits color items p).
  rewrite <-!list_elem_of_In, list_elem_of_fmap. split; [eauto|].
  unfold visits. rewrite Ep. simpl. apply list_elem_of_fmap. eauto.
Qed.

Lemma raw_node k n :
  (k, n) ∈ raw_nodes metric color ps →
  n_id n = k
  ∧ (∃ p x root, p ∈ ps ∧ x ∈ path p ∧ head (path p) = Some root ∧ p_id x = k
       ∧ n_label n = p_label x ∧ n_kind n = p_kind x
       ∧ n_colorKey n = p_id root ∧ n_color n = color (p_id root))
  ∧ n_value n = sum_over (λ m, metricValue m metric) (visits_node k) ps
  ∧ n_quota n = sum_over m_quota (visits_node k) ps
  ∧ n_tokens n = sum_over m_tokens (visits_node k) ps
  ∧ n_requests n = sum_over m_requests (visits_node k) ps.
Proof.
  intros Hin. assert (n_id n = k) as Hid.
  { eapply (group_key_of node_key (node_add metric) n_id); [|exact Hin]. by intros x [e|]. }
  split; [done|]. apply group_entry in Hin as (v & vs & Hf & Himm & Hsum).
  assert (v ∈ all_visits color id ps ∧ node_key v = k) as [Hv Hk].
  { assert (v ∈ List.filter (λ x, bool_decide (node_key x = k)) (all_visits color id ps)) as Hv
      by (rewrite Hf; constructor).
    by apply elem_of_filterb in Hv as [? ?%bool_decide_eq_true]. }
  apply visits_elem in Hv as (p & root & Hp & Hroot & Hx & _ & Hc & Hck).
  split.
  { exists p, (v_item v), root. rewrite <-Hc, <-Hck.
    split_and!; try done; by rewrite Himm. }
  assert (∀ w, js_sum (map (λ v : visit FlowPathNode, w (v_metrics v))
             (List.filter (λ x, bool_decide (node_key x = k)) (all_visits color id ps)))
           = sum_over w (visits_node k) ps) as Hw.
  { intros w. unfold sum_over, node_key. f_equal. apply (visits_through id p_id).
    eapply Forall_impl; [exact Hps|]. intros q Hq. split; [by eapply path_ok_NoDup|].
    unfold id. by destruct (path q). }
  split_and!; rewrite <-Hw; by apply Hsum.
Qed.

Lemma raw_node_keys k : k ∈ mkeys (raw_nodes metric color ps) ↔ ∃ p, p ∈ ps ∧ visits_node k p = true.
Proof.
  unfold raw_nodes. rewrite group_keys. split.
  - intros (v & Hv & <-). apply visits_elem in Hv as (p & _ & Hp & _ & Hx & _). exists p.
    split; [done|]. apply existsb_exists_elem. exists (v_item v). by rewrite bool_decide_eq_true.
  - intros (p & Hp & (x & Hx & Hk%bool_decide_eq_true)%existsb_exists_elem).
    destruct (elem_visits id p x Hp Hx eq_refl) as (v & Hv & <-). eauto.
Qed.

Lemma raw_link k l :
  (k, l) ∈ raw_links metric color ps →
  linkStableKey l = k
  ∧ (∃ p st root, p ∈ ps ∧ st ∈ steps (path p) ∧ head (path p) = Some root
       ∧ l_source l = p_id (fst st) ∧ l_target l = p_id (snd st)
       ∧ l_sourceLabel l = p_label (fst st) ∧ l_targetLabel l = p_label (snd st)
       ∧ l_colorKey l = p_id root ∧ l_color l = color (p_id root))
  ∧ l_value l = sum_over (λ m, metricValue m metric) (visits_link k) ps
  ∧ l_quota l = sum_over m_quota (visits_link k) ps
  ∧ l_tokens l = sum_over m_tokens (visits_link k) ps
  ∧ l_requests l = sum_over m_requests (visits_link k) ps.
Proof.
  intros Hin. assert (linkStableKey l = k) as Hid.
  { eapply (group_key_of step_key (step_add metric) linkStableKey); [|exact Hin]. by intros x [e|]. }
  split; [done|]. apply group_entry in Hin as (v & vs & Hf & Himm & Hsum).
  assert (v ∈ all_visits color steps ps ∧ step_key v = k) as [Hv Hk].
  { assert (v ∈ List.filter (λ x, bool_decide (step_key x = k)) (all_visits color steps ps)) as Hv
      by (rewrite Hf; constructor).
    by apply elem_of_filterb in Hv as [? ?%bool_decide_eq_true]. }
  apply visits_elem in Hv as (p & root & Hp & Hroot & Hx & _ & Hc & Hck).
  split.
  { exists p, (v_item v), root. rewrite <-Hc, <-Hck.
    split_and!; try done; by rewrite Himm. }
  assert (∀ w, js_sum (map (λ v : visit (FlowPathNode * FlowPathNode), w (v_metrics v))
             (List.filter (λ x, bool_decide (step_key x = k)) (all_visits color steps ps)))
           = sum_over w (visits_link k) ps) as Hw.
  { intros w. unfold sum_over, step_key. f_equal.
    apply (visits_through steps (λ st, pathLinkKey (fst st) (snd st))).
    eapply Forall_impl; [exact Hps|]. intros q Hq. split; [by eapply NoDup_step_keys|].
    by destruct (path q). }
  split_and!; rewrite <-Hw; by apply Hsum.
Qed.

Lemma raw_link_keys k : k ∈ mkeys (raw_links metric color ps) ↔ ∃ p, p ∈ ps ∧ visits_link k p = true.
Proof.
  unfold raw_links. rewrite group_keys. split.
  - intros (v & Hv & <-). apply visits_elem in Hv as (p & _ & Hp & _ & Hx & _). exists p.
    split; [done|]. apply existsb_exists_elem. exists (v_item v). by rewrite bool_decide_eq_true.
  - intros (p & Hp & (x & Hx & Hk%bool_decide_eq_true)%existsb_exists_elem).
    destruct (elem_visits steps p x Hp Hx eq_refl) as (v & Hv & <-). eauto.
Qed.
End counters.

(** Counting leaves the flags unset. *)
Lemma raw_node_fresh metric color ps k n :
  (k, n) ∈ raw_nodes metric color ps → n_highlighted n = None ∧ n_dimmed n = None.
Proof. intros (v & vs & _ & Himm & _)%group_entry. by rewrite !Himm. Qed.

Lemma raw_link_fresh metric color ps k l :
  (k, l) ∈ raw_links metric color ps → l_highlighted l = None ∧ l_dimmed l = None.
Proof. intros (v & vs & _ & Himm & _)%group_entry. by rewrite !Himm. Qed.
