(* ===== verification/FlowGraph.v ===== *)
(** * What the usage graph counts

    The closed form of [buildFlowGraph], and its counters as sums over paths. *)

From Stdlib Require Import ZArith.
From S2P Require Import Prelude JsString JsNumber JsNumberFacts JsCollections JsValue Flow FlowFacts.

(** ** The passes after the counting loops *)

Definition mask_node (n : DashboardFlowNode) : DashboardFlowNode :=
  if masked_node n then set_node_label n (maskFlowLabel (n_label n)) else n.

(** The labels of the masked nodes, by id. *)
Definition masked_labels (ns : list DashboardFlowNode) : list (jsstr * jsstr) :=
  fold_left (λ acc n, if masked_node n then mset (n_id n) (maskFlowLabel (n_label n)) acc else acc) ns [].

Definition mask_link (masked : list (jsstr * jsstr)) (l : DashboardFlowLink) : DashboardFlowLink :=
  set_link_labels l (default (l_sourceLabel l) (mget (l_source l) masked))
                    (default (l_targetLabel l) (mget (l_target l) masked)).

Definition flag_node (sets : option FlowHighlightSets) (n : DashboardFlowNode) : DashboardFlowNode :=
  match sets with
  | None => n
  | Some s => let h := bool_decide (n_id n ∈ h_nodes s) in set_node_flags n h (negb h)
  end.

Definition flag_link (sets : option FlowHighlightSets) (l : DashboardFlowLink) : DashboardFlowLink :=
  match sets with
  | None => l
  | Some s => let h := bool_decide (linkStableKey l ∈ h_links s) in set_link_flags l h (negb h)
  end.

Lemma mask_link_nil l : mask_link [] l = l.
Proof. by destruct l. Qed.

Lemma mmap_id {K V} (f : V → V) (m : list (K * V)) : (∀ v, f v = v) → mmap f m = m.
Proof. intros Hf. induction m as [|[k v] m IH]; [done|]. unfold mmap in *. simpl. by rewrite Hf, IH. Qed.

Lemma mvalues_mmap {K V W} (f : V → W) (m : list (K * V)) : mvalues (mmap f m) = map f (mvalues m).
Proof. unfold mvalues, mmap. rewrite !map_map. done. Qed.

Lemma mask_pass ns ls :
  maskFlowGraphLabels ns ls
  = (mmap mask_node ns, mmap (mask_link (masked_labels (mvalues ns))) ls).
Proof.
  unfold maskFlowGraphLabels, masked_labels. destruct (fold_left _ (mvalues ns) []) eqn:E.
  - by rewrite (mmap_id (mask_link []) ls mask_link_nil).
  - done.
Qed.

Lemma flag_pass ns ls sets :
  applyFlowHighlights ns ls sets = (mmap (flag_node sets) ns, mmap (flag_link sets) ls).
Proof. destruct sets; simpl; [done|]. by rewrite !mmap_id. Qed.

(** Display colours only touch the three display fields. *)
Definition recolored (l l' : DashboardFlowLink) : Prop := ∃ c a h, l' = set_link_colors l c a h.

Lemma recolored_refl l : recolored l l.
Proof. exists (l_linkColor l), (l_linkAlpha l), (l_hoverColor l). by destruct l. Qed.

Lemma recolored_list_refl ls : Forall2 recolored ls ls.
Proof. induction ls; constructor; auto using recolored_refl. Qed.

Lemma recolored_alter ls acc i c a h :
  Forall2 recolored ls acc →
  Forall2 recolored ls (alter (λ l, set_link_colors l c a (h l)) i acc).
Proof.
  intros H; revert i. induction H as [|l l' ls acc (c' & a' & h' & ->) H IH]; intros i; [constructor|].
  destruct i; simpl; constructor; [by eexists _, _, _ | done | by eexists _, _, _ | apply IH].
Qed.

Lemma fold_left_inv {A B} (P : A → Prop) (f : A → B → A) l a :
  P a → (∀ a b, P a → P (f a b)) → P (fold_left f l a).
Proof. intros Ha Hf; revert a Ha; induction l; simpl; auto. Qed.

Lemma assign_recolored lc ls : Forall2 recolored ls (assignLinkDisplayColors lc ls).
Proof.
  unfold assignLinkDisplayColors.
  apply (fold_left_inv (Forall2 recolored ls)); [apply recolored_list_refl|]. intros acc group Hacc.
  apply (fold_left_inv (Forall2 recolored ls)); [done|]. intros acc' [index [i link]] Hacc'. by apply recolored_alter.
Qed.

(** ** The closed form *)

Section graph.
Context (lc : jsstr → jsstr → num) (colors : ColorScheme * list ColorScheme).
Context (rows : list FlowQuotaDataItem) (metric : FlowMetric) (r : FlowRole)
  (palette : option (list jsstr)) (visible : option (list FlowNodeKind))
  (ctx : FlowPathContext) (options : FlowGraphOptions).

Definition graph : DashboardFlowGraph :=
  buildFlowGraph lc colors rows metric r palette visible ctx options.

(** The paths the graph is made of. *)
Definition graph_paths : list PreparedFlowPath :=
  let stages := resolveVisibleStages r visible in
  preparePaths rows stages
    (buildTopNodeSets lc rows metric stages (normalizeTopNodeLimit (g_topNodeLimit options)) ctx)
    (default DEFAULT_FLOW_OVERFLOW_MODE (g_overflowMode options)) (g_otherNodeLabel options) ctx.

Definition graph_color (id : jsstr) : jsstr :=
  default (colorAt colors 0 palette)
    (mget id (stableColorMap colors (js_sort lc (root_ids graph_paths)) palette)).

Definition graph_sets : option FlowHighlightSets :=
  buildFlowHighlightSets graph_paths (g_activeNode options) (g_activeLink options)
    (resolveVisibleStages r visible).

Definition counted_nodes : list DashboardFlowNode := mvalues (raw_nodes metric graph_color graph_paths).
Definition counted_links : list DashboardFlowLink := mvalues (raw_links metric graph_color graph_paths).

Definition final_node (n : DashboardFlowNode) : DashboardFlowNode :=
  flag_node graph_sets (if default false (g_maskSensitive options) then mask_node n else n).
Definition final_link (l : DashboardFlowLink) : DashboardFlowLink :=
  flag_link graph_sets
    (if default false (g_maskSensitive options) then mask_link (masked_labels counted_nodes) l else l).

(** The total the shares refer to. *)
Definition share_total (ls : list DashboardFlowLink) : num :=
  fold_left (λ sum link, num_add sum (l_value link))
    (List.filter (λ link, bool_decide (l_source link ∈ uniq (root_ids graph_paths))) ls) num_zero.

Definition with_share (total : num) (l : DashboardFlowLink) : DashboardFlowLink :=
  set_link_share l (if positive total then num_div (l_value l) total else num_zero).

Definition sorted_links : list DashboardFlowLink :=
  js_sort (link_order lc) (map final_link counted_links).

Lemma graph_eq :
  graph = {| nodes := js_sort (byValueThenLabel lc) (map final_node counted_nodes);
             links := assignLinkDisplayColors lc
                        (map (with_share (share_total sorted_links)) sorted_links) |}.
Proof.
  unfold graph, buildFlowGraph. fold graph_paths.
  rewrite (fold_add_prepared metric palette
    (stableColorMap colors (js_sort lc (root_ids graph_paths)) palette) colors graph_paths).
  fold graph_color. fold graph_sets.
  unfold sorted_links, final_node, final_link, counted_links, counted_nodes.
  destruct (default false (g_maskSensitive options)); [rewrite mask_pass|];
    rewrite flag_pass, !mvalues_mmap, ?map_map; reflexivity.
Qed.

(** *** Entries of the graph and counted entries *)

Lemma final_node_core n :
  n_id (final_node n) = n_id n ∧ n_kind (final_node n) = n_kind n
  ∧ n_value (final_node n) = n_value n ∧ n_quota (final_node n) = n_quota n
  ∧ n_tokens (final_node n) = n_tokens n ∧ n_requests (final_node n) = n_requests n
  ∧ n_color (final_node n) = n_color n ∧ n_colorKey (final_node n) = n_colorKey n.
Proof.
  unfold final_node, flag_node, mask_node.
  destruct (default _ _), graph_sets, (masked_node n); done.
Qed.

Lemma final_link_core l :
  l_source (final_link l) = l_source l ∧ l_target (final_link l) = l_target l
  ∧ l_value (final_link l) = l_value l ∧ l_quota (final_link l) = l_quota l
  ∧ l_tokens (final_link l) = l_tokens l ∧ l_requests (final_link l) = l_requests l
  ∧ l_color (final_link l) = l_color l ∧ l_colorKey (final_link l) = l_colorKey l.
Proof. unfold final_link, flag_link. destruct (default _ _), graph_sets; done. Qed.

Lemma graph_node n : n ∈ nodes graph ↔ ∃ n0, n0 ∈ counted_nodes ∧ n = final_node n0.
Proof.
  rewrite graph_eq. cbn [nodes]. rewrite elem_of_js_sort, list_elem_of_fmap. naive_solver.
Qed.

Lemma graph_node_ids : map n_id (nodes graph) ≡ₚ map n_id counted_nodes.
Proof.
  rewrite graph_eq. cbn [nodes]. rewrite (js_sort_perm _ (map final_node counted_nodes)), map_map.
  apply reflexive_eq, map_ext. intros n. apply final_node_core.
Qed.

Lemma sorted_links_elem l : l ∈ sorted_links ↔ ∃ l0, l0 ∈ counted_links ∧ l = final_link l0.
Proof. unfold sorted_links. rewrite elem_of_js_sort, list_elem_of_fmap. naive_solver. Qed.

(** The links of the graph, in order: the sorted counted links with their
    share and display colours. *)
Lemma graph_links :
  Forall2 (λ l0 l, ∃ c a h,
    l = set_link_colors (with_share (share_total sorted_links) l0) c a h) sorted_links (links graph).
Proof.
  rewrite graph_eq. cbn [links].
  apply (Forall2_fmap_l (with_share (share_total sorted_links)) recolored), assign_recolored.
Qed.

Lemma graph_link l :
  l ∈ links graph → ∃ l0 c a h, l0 ∈ counted_links
    ∧ l = set_link_colors (with_share (share_total sorted_links) (final_link l0)) c a h.
Proof.
  intros [i Hi]%list_elem_of_lookup.
  destruct (Forall2_lookup_r _ _ _ _ _ graph_links Hi) as (l1 & Hl1 & c & a & h & ->).
  apply list_elem_of_lookup_2, sorted_links_elem in Hl1 as (l0 & Hl0 & ->).
  exists l0, c, a, h. done.
Qed.

Lemma graph_map {T} (f : DashboardFlowLink → T) :
  (∀ l s c a h, f (set_link_colors (set_link_share l s) c a h) = f l) →
  (∀ l, f (final_link l) = f l) → map f (links graph) ≡ₚ map f counted_links.
Proof.
  intros Hf Hfinal. transitivity (map f sorted_links).
  - apply reflexive_eq. pose proof graph_links as H. symmetry.
    induction H as [|l0 l ls ls' (c & a & h & ->) H IH]; simpl; [done|].
    unfold with_share. rewrite Hf. by f_equal.
  - unfold sorted_links. rewrite (js_sort_perm _ (map final_link counted_links)), map_map.
    by apply reflexive_eq, map_ext.
Qed.

Lemma graph_link_keys : map linkStableKey (links graph) ≡ₚ map linkStableKey counted_links.
Proof.
  apply graph_map; [done|]. intros l. unfold linkStableKey.
  by destruct (final_link_core l) as (-> & -> & _).
Qed.

Lemma graph_paths_ok : Forall (λ p, path_ok (resolveVisibleStages r visible) (path p)) graph_paths.
Proof. apply preparePaths_ok. Qed.

Lemma counted_node n :
  n ∈ counted_nodes → (n_id n, n) ∈ raw_nodes metric graph_color graph_paths.
Proof.
  unfold counted_nodes, mvalues. rewrite list_elem_of_fmap. intros ([k n'] & -> & Hn).
  pose proof Hn as Hn'. eapply raw_node in Hn' as [Hid _]; [|apply NoDup_visible | apply graph_paths_ok].
  simpl. by rewrite Hid.
Qed.

Lemma counted_link l :
  l ∈ counted_links → (linkStableKey l, l) ∈ raw_links metric graph_color graph_paths.
Proof.
  unfold counted_links, mvalues. rewrite list_elem_of_fmap. intros ([k l'] & -> & Hl).
  pose proof Hl as Hl'. eapply raw_link in Hl' as [Hid _]; [|apply NoDup_visible | apply graph_paths_ok].
  simpl. by rewrite Hid.
Qed.

Lemma counted_node_ids : map n_id counted_nodes = mkeys (raw_nodes metric graph_color graph_paths).
Proof.
  unfold counted_nodes, mvalues, mkeys. rewrite map_map. apply map_ext_in. intros [k n] Hin.
  apply list_elem_of_In in Hin.
  eapply raw_node in Hin as [Hid _]; [done | apply NoDup_visible | apply graph_paths_ok].
Qed.

Lemma counted_link_keys :
  map linkStableKey counted_links = mkeys (raw_links metric graph_color graph_paths).
Proof.
  unfold counted_links, mvalues, mkeys. rewrite map_map. apply map_ext_in. intros [k l] Hin.
  apply list_elem_of_In in Hin.
  eapply raw_link in Hin as [Hid _]; [done | apply NoDup_visible | apply graph_paths_ok].
Qed.

Lemma graph_node_keys :
  NoDup (map n_id (nodes graph))
  ∧ ∀ k, k ∈ map n_id (nodes graph) ↔ ∃ p, p ∈ graph_paths ∧ visits_node k p = true.
Proof.
  split; [rewrite graph_node_ids, counted_node_ids; apply NoDup_group_by, NoDup_nil_2|].
  intros k. rewrite graph_node_ids, counted_node_ids. eapply raw_node_keys; [apply NoDup_visible | apply graph_paths_ok].
Qed.

Lemma graph_node_sums n :
  n ∈ nodes graph → let sum w := sum_over w (visits_node (n_id n)) graph_paths in
  n_value n = sum (λ m, metricValue m metric)
  ∧ n_quota n = sum m_quota ∧ n_tokens n = sum m_tokens ∧ n_requests n = sum m_requests.
Proof.
  intros (n0 & Hn & ->)%graph_node. apply counted_node in Hn.
  destruct (final_node_core n0) as (-> & _ & -> & -> & -> & -> & _).
  eapply raw_node in Hn as (_ & _ & ? & ? & ? & ?); [done | apply NoDup_visible | apply graph_paths_ok].
Qed.

Lemma graph_link_steps :
  NoDup (map linkStableKey (links graph))
  ∧ ∀ k, k ∈ map linkStableKey (links graph) ↔ ∃ p, p ∈ graph_paths ∧ visits_link k p = true.
Proof.
  split; [rewrite graph_link_keys, counted_link_keys; apply NoDup_group_by, NoDup_nil_2|].
  intros k. rewrite graph_link_keys, counted_link_keys. eapply raw_link_keys; [apply NoDup_visible | apply graph_paths_ok].
Qed.

Lemma graph_link_sums l :
  l ∈ links graph → let sum w := sum_over w (visits_link (linkStableKey l)) graph_paths in
  l_value l = sum (λ m, metricValue m metric)
  ∧ l_quota l = sum m_quota ∧ l_tokens l = sum m_tokens ∧ l_requests l = sum m_requests.
Proof.
  intros (l0 & c & a & h & Hl & ->)%graph_link. apply counted_link in Hl. cbn.
  unfold linkStableKey in Hl |- *. cbn.
  destruct (final_link_core l0) as (-> & -> & -> & -> & -> & -> & _).
  eapply raw_link in Hl as (_ & _ & ? & ? & ? & ?); [done | apply NoDup_visible | apply graph_paths_ok].
Qed.

(** The graph has exactly one node for each id on a path and exactly one
    link for each pair of consecutive ids, and each of the four counters of a
    node (of a link) is the floating-point sum, in row order, of that metric
    over the paths through the node (over the paths taking that step). *)
Theorem graph_counts :
  NoDup (map n_id (nodes graph))
  ∧ (∀ k, k ∈ map n_id (nodes graph) ↔ ∃ p, p ∈ graph_paths ∧ visits_node k p = true)
  ∧ (∀ n, n ∈ nodes graph → let sum w := sum_over w (visits_node (n_id n)) graph_paths in
       n_value n = sum (λ m, metricValue m metric)
       ∧ n_quota n = sum m_quota ∧ n_tokens n = sum m_tokens ∧ n_requests n = sum m_requests)
  ∧ NoDup (map linkStableKey (links graph))
  ∧ (∀ k, k ∈ map linkStableKey (links graph) ↔ ∃ p, p ∈ graph_paths ∧ visits_link k p = true)
  ∧ (∀ l, l ∈ links graph → let sum w := sum_over w (visits_link (linkStableKey l)) graph_paths in
       l_value l = sum (λ m, metricValue m metric)
       ∧ l_quota l = sum m_quota ∧ l_tokens l = sum m_tokens ∧ l_requests l = sum m_requests).
Proof.
  destruct graph_node_keys, graph_link_steps. split_and!; auto using graph_node_sums, graph_link_sums.
Qed.
End graph.
