(* ===== verification/FlowConservation.v ===== *)
(** * Conservation of flow

    When the metric of every path is a non-negative integer and their sum is
    below [2^53], the counters are exact integers, and the graph is a flow:
    what enters a node leaves it. *)

From Stdlib Require Import ZArith.
From S2P Require Import Prelude JsString JsNumber JsNumberFacts JsCollections JsValue Flow FlowFacts FlowGraph.

Local Open Scope Z_scope.

(** ** Integer sums *)

Fixpoint sumZ (l : list Z) : Z := match l with [] => 0 | z :: l' => z + sumZ l' end.

Lemma sumZ_nonneg l : Forall (λ z, 0 ≤ z) l → 0 ≤ sumZ l.
Proof. induction 1; simpl; lia. Qed.

(** Floating-point addition of non-negative integers is exact below the bound. *)
Lemma js_sum_exact l :
  Forall (λ z, 0 ≤ z) l → sumZ l < 2 ^ 53 → js_sum (map num_of_Z l) = num_of_Z (sumZ l).
Proof.
  intros Hl Hs. unfold js_sum. change num_zero with (num_of_Z 0).
  assert (∀ a, 0 ≤ a → a + sumZ l < 2 ^ 53 →
            fold_left num_add (map num_of_Z l) (num_of_Z a) = num_of_Z (a + sumZ l)) as H;
    [|by apply (H 0)].
  clear Hs. induction Hl as [|z l Hz Hl IH]; intros a Ha Hs; simpl in *; [f_equal; lia|].
  pose proof (sumZ_nonneg l Hl).
  rewrite num_add_exact by (unfold safe; lia). rewrite IH by lia. f_equal. lia.
Qed.

(** Sums over pairs may be taken in either order. *)
Lemma sumZ_exchange {X Y} (q : X → Y → bool) (w : Y → Z) (xs : list X) (ys : list Y) :
  sumZ (map (λ x, sumZ (map w (List.filter (q x) ys))) xs)
  = sumZ (map (λ y, w y * Z.of_nat (length (List.filter (λ x, q x y) xs))) ys).
Proof.
  induction xs as [|x xs IH]; simpl.
  - induction ys; simpl; lia.
  - rewrite IH. clear IH. induction ys as [|y ys IH]; simpl; [done|].
    destruct (q x y); simpl; lia.
Qed.

Lemma sumZ_ext {Y} (f g : Y → Z) ys : (∀ y, y ∈ ys → f y = g y) → sumZ (map f ys) = sumZ (map g ys).
Proof. intros H. f_equal. apply map_ext_in. intros y Hy. by apply H, list_elem_of_In. Qed.

Lemma sumZ_filter {Y} (p : Y → bool) (w : Y → Z) ys :
  sumZ (map (λ y, w y * (if p y then 1 else 0)) ys) = sumZ (map w (List.filter p ys)).
Proof. induction ys as [|y ys IH]; simpl; [done|]. destruct (p y); simpl; lia. Qed.

Lemma sumZ_filter_le {Y} (p : Y → bool) (w : Y → Z) ys :
  Forall (λ y, 0 ≤ w y) ys → 0 ≤ sumZ (map w (List.filter p ys)) ≤ sumZ (map w ys).
Proof. induction 1 as [|y ys Hy _ IH]; simpl; [lia|]. destruct (p y); simpl; lia. Qed.

(** A duplicate-free list whose elements share their key has one element. *)
Lemma length_same_key {X} (f : X → jsstr) k l :
  NoDup (map f l) → (∀ x, x ∈ l → f x = k) → l ≠ [] → length l = 1%nat.
Proof.
  intros Hnd Hk Hne. destruct l as [|x [|y l]]; [done | done|]. exfalso.
  apply NoDup_cons in Hnd as [Hx _]. apply Hx. rewrite (Hk x), <-(Hk y); set_solver.
Qed.

(** ** Steps and endpoints *)

Lemma map_snd_steps p : map snd (steps p) = tail p.
Proof.
  induction p as [|a [|b p] IH]; [done | done|]. rewrite steps_cons. simpl in *. by rewrite IH.
Qed.

Lemma map_fst_steps p : map fst (steps p) = removelast p.
Proof.
  induction p as [|a [|b p] IH]; [done | done|]. rewrite steps_cons. cbn [map fst].
  rewrite IH. done.
Qed.

Lemma removelast_sublist {A} (l : list A) : removelast l `sublist_of` l.
Proof.
  destruct (decide (l = [])) as [->|Hne]; [done|]. destruct (exists_last Hne) as (l' & x & ->).
  rewrite removelast_last. by apply sublist_inserts_r.
Qed.

(** One end of the steps, and the field of a link that holds its id. *)
Record endpoint := { of_step : FlowPathNode * FlowPathNode → FlowPathNode; of_link : DashboardFlowLink → jsstr }.

Definition source_end : endpoint := {| of_step := fst; of_link := l_source |}.
Definition target_end : endpoint := {| of_step := snd; of_link := l_target |}.

Lemma endpoint_NoDup e stages p :
  e = source_end ∨ e = target_end → NoDup stages → path_ok stages p →
  NoDup (map (λ st, p_id (of_step e st)) (steps p)).
Proof.
  intros He Hnd Hok. pose proof (path_ok_NoDup _ _ Hnd Hok) as Hp.
  destruct He as [-> | ->]; cbn [of_step source_end target_end]; rewrite <-map_map.
  - change (NoDup (map p_id (map fst (steps p)))). rewrite map_fst_steps.
    eapply sublist_NoDup; [exact Hp|]. apply (fmap_sublist p_id), removelast_sublist.
  - change (NoDup (map p_id (map snd (steps p)))). rewrite map_snd_steps.
    destruct p; [done|]. by apply NoDup_cons in Hp as [_ ?].
Qed.

Definition is_id (id k : jsstr) : bool := bool_decide (k = id).

Section conservation.
Context (lc : jsstr → jsstr → num) (colors : ColorScheme * list ColorScheme).
Context (rows : list FlowQuotaDataItem) (metric : FlowMetric) (r : FlowRole)
  (palette : option (list jsstr)) (visible : option (list FlowNodeKind))
  (ctx : FlowPathContext) (options : FlowGraphOptions).

Abbreviation g := (graph lc colors rows metric r palette visible ctx options).
Abbreviation ps := (graph_paths lc rows metric r visible ctx options).
Abbreviation stages := (resolveVisibleStages r visible).

(** The integer value of a path in the chosen metric. *)
Definition weight (p : PreparedFlowPath) : Z := default 0 (num_to_Z (metricValue (metrics p) metric)).

Definition integral (p : PreparedFlowPath) : Prop :=
  metricValue (metrics p) metric = num_of_Z (weight p) ∧ 0 ≤ weight p.

#[global] Instance integral_dec p : Decision (integral p).
Proof. unfold integral. apply _. Defined.

(** No id contains the separator of the link keys. *)
Definition separable (p : PreparedFlowPath) : Prop := Forall (λ n, 0%N ∉ p_id n) (path p).

Context (Hint : Forall integral ps) (Hbound : sumZ (map weight ps) < 2 ^ 53)
  (Hsep : Forall separable ps).

Lemma weights_nonneg : Forall (λ p, 0 ≤ weight p) ps.
Proof using Hint. eapply Forall_impl; [exact Hint|]. by intros p [_ ?]. Qed.

Lemma sum_over_exact q :
  sum_over (λ m, metricValue m metric) q ps = num_of_Z (sumZ (map weight (List.filter q ps))).
Proof using Hint Hbound.
  unfold sum_over. pose proof (sumZ_filter_le q weight ps weights_nonneg) as Hle.
  rewrite <-js_sum_exact; [|apply Forall_map, Forall_forall | lia].
  - f_equal. rewrite map_map. apply map_ext_in. intros p Hp. apply list_elem_of_In in Hp.
    apply elem_of_filterb in Hp as [Hp _]. pose proof Hint as H. rewrite Forall_forall in H.
    by apply (H p Hp).
  - intros p [Hp _]%elem_of_filterb. pose proof weights_nonneg as H.
    rewrite Forall_forall in H. by apply (H p Hp).
Qed.

(** A link of the graph is a step of some path, and of every path that has
    its key. *)
Lemma link_step l :
  l ∈ links g → ∃ p st, p ∈ ps ∧ st ∈ steps (path p)
    ∧ l_source l = p_id (fst st) ∧ l_target l = p_id (snd st).
Proof.
  intros (l0 & c & a & h & Hl & ->)%graph_link. apply counted_link in Hl. cbn.
  destruct (final_link_core lc colors rows metric r palette visible ctx options l0) as (-> & -> & _).
  eapply raw_link in Hl as (_ & (p & st & root & Hp & Hst & _ & Hs & Ht & _) & _);
    [|apply NoDup_visible | apply graph_paths_ok].
  by exists p, st.
Qed.

Lemma step_sep p st : p ∈ ps → st ∈ steps (path p) → 0%N ∉ p_id (fst st).
Proof.
  intros Hp [Hst _]%elem_of_steps. pose proof Hsep as H. rewrite Forall_forall in H.
  specialize (H p Hp). unfold separable in H. rewrite Forall_forall in H. by apply H.
Qed.

Lemma link_of_key l p st :
  l ∈ links g → p ∈ ps → st ∈ steps (path p) →
  pathLinkKey (fst st) (snd st) = linkStableKey l →
  l_source l = p_id (fst st) ∧ l_target l = p_id (snd st).
Proof.
  intros Hl Hp Hst Hk. apply link_step in Hl as (p' & st' & Hp' & Hst' & Hs & Ht).
  unfold pathLinkKey, linkStableKey in Hk. rewrite Hs, Ht in Hk.
  apply pathLinkKey_inj in Hk as [-> ->]; [by rewrite Hs, Ht | by apply (step_sep p) | by apply (step_sep p')].
Qed.

Lemma link_of_key_end e l p st :
  e = source_end ∨ e = target_end →
  l ∈ links g → p ∈ ps → st ∈ steps (path p) →
  pathLinkKey (fst st) (snd st) = linkStableKey l → of_link e l = p_id (of_step e st).
Proof.
  intros He Hl Hp Hst Hk. destruct (link_of_key l p st Hl Hp Hst Hk). by destruct He as [-> | ->].
Qed.

(** The links of a path whose end has a property that at most one of its steps
    has: one if there is such a step. *)
Lemma links_at_endpoint e (Q : jsstr → bool) p :
  e = source_end ∨ e = target_end → p ∈ ps →
  (∀ st st', st ∈ steps (path p) → st' ∈ steps (path p) →
     Q (p_id (of_step e st)) = true → Q (p_id (of_step e st')) = true → st = st') →
  length (List.filter (λ l, visits_link (linkStableKey l) p)
            (List.filter (λ l, Q (of_link e l)) (links g)))
  = if existsb (λ st, Q (p_id (of_step e st))) (steps (path p)) then 1%nat else 0%nat.
Proof.
  intros He Hp Huniq. pose proof (graph_link_steps lc colors rows metric r palette visible ctx options)
    as [Hnd Hkeys].
  set (at_end := List.filter _ _). assert (∀ l, l ∈ at_end →
    ∃ st, l ∈ links g ∧ st ∈ steps (path p) ∧ pathLinkKey (fst st) (snd st) = linkStableKey l
          ∧ Q (p_id (of_step e st)) = true) as Hat.
  { intros l [[Hl Hid]%elem_of_filterb Hv]%elem_of_filterb.
    apply existsb_exists_elem in Hv as (st & Hst & Hk%bool_decide_eq_true). exists st.
    split_and!; try done. by rewrite <-(link_of_key_end e l p st). }
  destruct (existsb _ (steps (path p))) eqn:Ex.
  - apply existsb_exists_elem in Ex as (st & Hst & Hid).
    apply (length_same_key linkStableKey (pathLinkKey (fst st) (snd st))).
    + apply (sublist_NoDup _ (map linkStableKey (links g))); [exact Hnd|].
      apply (fmap_sublist linkStableKey). unfold at_end. etrans; apply filterb_sublist.
    + intros l Hl. destruct (Hat l Hl) as (st' & _ & Hst' & Hk' & Hid').
      rewrite <-Hk'. by rewrite (Huniq st' st).
    + assert (pathLinkKey (fst st) (snd st) ∈ map linkStableKey (links g)) as Hin.
      { apply Hkeys. exists p. split; [done|]. apply existsb_exists_elem. exists st.
        by rewrite bool_decide_eq_true. }
      apply list_elem_of_fmap in Hin as (l & Hk & Hl).
      assert (l ∈ at_end) as Hin; [|intros E; rewrite E in Hin; set_solver].
      unfold at_end. rewrite !elem_of_filterb. split_and!; [done | |].
      * by rewrite (link_of_key_end e l p st).
      * apply existsb_exists_elem. exists st. by rewrite bool_decide_eq_true.
  - destruct at_end as [|l ls]; [done|]. exfalso.
    destruct (Hat l ltac:(constructor)) as (st & _ & Hst & _ & Hid).
    assert (existsb (λ st, Q (p_id (of_step e st))) (steps (path p)) = true) as H; [|congruence].
    apply existsb_exists_elem. by exists st.
Qed.

Lemma endpoint_sum e (Q : jsstr → bool) :
  e = source_end ∨ e = target_end →
  (∀ p st st', p ∈ ps → st ∈ steps (path p) → st' ∈ steps (path p) →
     Q (p_id (of_step e st)) = true → Q (p_id (of_step e st')) = true → st = st') →
  js_sum (map l_value (List.filter (λ l, Q (of_link e l)) (links g)))
  = sum_over (λ m, metricValue m metric)
      (λ p, existsb (λ st, Q (p_id (of_step e st))) (steps (path p))) ps.
Proof.
  intros He Huniq. set (at_end := List.filter _ (links g)).
  pose (value l := sumZ (map weight (List.filter (visits_link (linkStableKey l)) ps))).
  assert (sumZ (map value at_end)
          = sumZ (map weight (List.filter (λ p, existsb (λ st, Q (p_id (of_step e st)))
                                                 (steps (path p))) ps))) as Hsum.
  { unfold value. rewrite (sumZ_exchange (λ l, visits_link (linkStableKey l)) weight).
    rewrite <-sumZ_filter. apply sumZ_ext. intros p Hp. f_equal.
    unfold at_end. rewrite links_at_endpoint by eauto. by case_match. }
  pose proof (sumZ_filter_le (λ p, existsb (λ st, Q (p_id (of_step e st)))
                                     (steps (path p))) weight ps weights_nonneg) as Hle.
  rewrite sum_over_exact, <-Hsum, <-js_sum_exact.
  - f_equal. rewrite map_map. apply map_ext_in. intros l Hl. apply list_elem_of_In in Hl.
    apply elem_of_filterb in Hl as [Hl _]. unfold value. rewrite <-sum_over_exact.
    by apply (graph_link_sums lc colors rows metric r palette visible ctx options).
  - apply Forall_map, Forall_forall. intros l _.
    by apply (sumZ_filter_le (visits_link (linkStableKey l)) weight ps weights_nonneg).
  - lia.
Qed.

Lemma path_ok_of p : p ∈ ps → path_ok stages (path p).
Proof using Type.
  pose proof (graph_paths_ok lc rows metric r visible ctx options) as H.
  rewrite Forall_forall in H. apply H.
Qed.

(** No two steps of a path share an end. *)
Lemma endpoint_unique e id p st st' :
  e = source_end ∨ e = target_end → p ∈ ps → st ∈ steps (path p) → st' ∈ steps (path p) →
  is_id id (p_id (of_step e st)) = true → is_id id (p_id (of_step e st')) = true →
  st = st'.
Proof.
  intros He Hp Hst Hst' H%bool_decide_eq_true H'%bool_decide_eq_true.
  eapply (NoDup_map_inj (λ st, p_id (of_step e st)) (steps (path p)));
    [eapply endpoint_NoDup; [done | apply NoDup_visible | by apply path_ok_of] | done | done | congruence].
Qed.

Lemma node_kind_of n p x :
  n ∈ nodes g → p ∈ ps → x ∈ path p → p_id x = n_id n → p_kind x = n_kind n.
Proof using Type.
  intros (n0 & Hn & ->)%graph_node Hp Hx Hid.
  destruct (final_node_core lc rows metric r visible ctx options n0)
    as (Eid & Ek & _). rewrite Ek, Eid in *. apply counted_node in Hn.
  pose proof (graph_paths_ok lc rows metric r visible ctx options) as Hok.
  eapply raw_node in Hn as (_ & (q & y & _ & Hq & Hy & _ & Hyid & _ & Hk & _) & _);
    [|apply NoDup_visible | apply Hok].
  rewrite Forall_forall in Hok. destruct (Hok p Hp) as [_ Hwp], (Hok q Hq) as [_ Hwq].
  rewrite Forall_forall in Hwp, Hwq. specialize (Hwp x Hx). specialize (Hwq y Hy).
  unfold node_wf in *. rewrite Hk. apply initial_inj. congruence.
Qed.

Lemma visits_tail n p :
  n ∈ nodes g → p ∈ ps → head stages ≠ Some (n_kind n) →
  existsb (λ st, bool_decide (p_id (snd st) = n_id n)) (steps (path p)) = visits_node (n_id n) p.
Proof.
  intros Hn Hp Hne. pose (q x := bool_decide (p_id x = n_id n)).
  change (existsb (λ st, q (snd st)) (steps (path p)) = existsb q (path p)).
  rewrite <-(existsb_map snd q), map_snd_steps. unfold q; clear q. destruct (path p) as [|x q] eqn:Eq; [done|]. simpl.
  rewrite (bool_decide_eq_false_2 (p_id x = n_id n)); [done|]. intros Hid. apply Hne.
  pose proof (graph_paths_ok lc rows metric r visible ctx options) as Hok.
  rewrite Forall_forall in Hok. destruct (Hok p Hp) as [Hk _]. rewrite <-Hk, Eq. simpl. f_equal.
  apply (node_kind_of n p); [done | done | rewrite Eq; constructor | done].
Qed.

Lemma visits_removelast n p :
  n ∈ nodes g → p ∈ ps → last stages ≠ Some (n_kind n) →
  existsb (λ st, bool_decide (p_id (fst st) = n_id n)) (steps (path p)) = visits_node (n_id n) p.
Proof.
  intros Hn Hp Hne. pose (q x := bool_decide (p_id x = n_id n)).
  change (existsb (λ st, q (fst st)) (steps (path p)) = existsb q (path p)).
  rewrite <-(existsb_map fst q), map_fst_steps. unfold q; clear q. destruct (decide (path p = [])) as [Eq|Eq]; [by rewrite Eq|].
  destruct (exists_last Eq) as (q & x & Eqx). rewrite Eqx, removelast_last, existsb_app. simpl.
  rewrite bool_decide_eq_false_2; [by rewrite !orb_false_r|]. intros Hid. apply Hne.
  pose proof (graph_paths_ok lc rows metric r visible ctx options) as Hok.
  rewrite Forall_forall in Hok. destruct (Hok p Hp) as [Hk _].
  rewrite <-Hk, Eqx, map_app. simpl. rewrite last_snoc. f_equal.
  apply (node_kind_of n p); [done | done | rewrite Eqx; set_solver | done].
Qed.

Lemma sum_over_ext w q q' l :
  (∀ p, p ∈ l → q p = q' p) → sum_over w q l = sum_over w q' l.
Proof.
  intros H. unfold sum_over. do 2 f_equal. apply List.filter_ext_in. intros p Hp.
  by apply H, list_elem_of_In.
Qed.

(** Every path has one node of each stage. *)
Lemma nodes_at_stage k p :
  k ∈ stages → p ∈ ps →
  length (List.filter (λ n, visits_node (n_id n) p) (List.filter (λ n, bool_decide (n_kind n = k)) (nodes g))) = 1%nat.
Proof using Type.
  intros Hk Hp. pose proof (graph_node_keys lc colors rows metric r palette visible ctx options) as [Hnd Hkeys].
  destruct (path_ok_of p Hp) as [Hkinds _]. pose proof (NoDup_visible r visible) as Hst.
  assert (∃ x, x ∈ path p ∧ p_kind x = k) as (x & Hx & Hxk).
  { rewrite <-Hkinds in Hk. apply list_elem_of_fmap in Hk as (x & -> & Hx). by exists x. }
  apply (length_same_key n_id (p_id x)).
  - apply (sublist_NoDup _ (map n_id (nodes g))); [exact Hnd|]. apply (fmap_sublist n_id). etrans; apply filterb_sublist.
  - intros n [[Hn Hnk%bool_decide_eq_true]%elem_of_filterb Hv]%elem_of_filterb.
    apply existsb_exists_elem in Hv as (y & Hy & Hid%bool_decide_eq_true).
    pose proof (node_kind_of n p y Hn Hp Hy Hid) as Hyk. rewrite <-Hid. clear Hint Hbound Hsep. f_equal.
    apply (NoDup_map_inj p_kind (path p)); [by rewrite Hkinds | done | done | congruence].
  - assert (p_id x ∈ map n_id (nodes g)) as (n & Hid & Hn)%list_elem_of_fmap.
    { apply Hkeys. exists p. split; [done|]. apply existsb_exists_elem. exists x. by rewrite bool_decide_eq_true. }
    pose proof (node_kind_of n p x Hn Hp Hx Hid) as Hnk.
    match goal with |- ?l ≠ [] => assert (n ∈ l) as Hin end; [|intros E; rewrite E in Hin; by apply elem_of_nil in Hin].
    rewrite !elem_of_filterb, bool_decide_eq_true. split_and!; [done | congruence|].
    apply existsb_exists_elem. exists x. by rewrite bool_decide_eq_true.
Qed.

(** The values of a stage add up to the whole. *)
Lemma stage_sum k :
  k ∈ stages →
  js_sum (map n_value (List.filter (λ n, bool_decide (n_kind n = k)) (nodes g))) = num_of_Z (sumZ (map weight ps)).
Proof using Hint Hbound.
  intros Hk. set (at_stage := List.filter _ (nodes g)).
  pose (value n := sumZ (map weight (List.filter (visits_node (n_id n)) ps))).
  assert (sumZ (map value at_stage) = sumZ (map weight ps)) as Hsum.
  { unfold value. rewrite (sumZ_exchange (λ n, visits_node (n_id n)) weight). apply sumZ_ext. intros p Hp.
    unfold at_stage. rewrite nodes_at_stage by done. lia. }
  rewrite <-Hsum, <-js_sum_exact.
  - f_equal. rewrite map_map. apply map_ext_in. intros n Hn%list_elem_of_In. apply elem_of_filterb in Hn as [Hn _].
    unfold value. rewrite <-sum_over_exact. by apply (graph_node_sums lc colors rows metric r palette visible ctx options).
  - apply Forall_map, Forall_forall. intros n _. by apply (sumZ_filter_le (visits_node (n_id n)) weight ps weights_nonneg).
  - lia.
Qed.

(** C2: the graph is a flow.  When the metric of every path is a non-negative
    integer, the sum over the paths is below [2^53] and no id contains the
    separator of the link keys, the values of the links into a node sum
    exactly to the value of the node unless it is in the first stage, and the
    values of the links out of it unless it is in the last stage. *)
Theorem flow_conserved n (Hn : n ∈ nodes g) :
  (head stages ≠ Some (n_kind n) →
   js_sum (map l_value (List.filter (λ l, bool_decide (l_target l = n_id n)) (links g))) = n_value n)
  ∧ (last stages ≠ Some (n_kind n) →
     js_sum (map l_value (List.filter (λ l, bool_decide (l_source l = n_id n)) (links g))) = n_value n).
Proof.
  assert (n_value n = sum_over (λ m, metricValue m metric) (visits_node (n_id n)) ps) as ->
    by (by apply (graph_node_sums lc colors rows metric r palette visible ctx options)).
  split; intros Hne.
  - refine (eq_trans (endpoint_sum target_end (is_id (n_id n)) _ _) _); [auto | |].
    + intros p st st'. apply endpoint_unique. auto.
    + apply sum_over_ext. intros p Hp. by apply visits_tail.
  - refine (eq_trans (endpoint_sum source_end (is_id (n_id n)) _ _) _); [auto | |].
    + intros p st st'. apply endpoint_unique. auto.
    + apply sum_over_ext. intros p Hp. by apply visits_removelast.
Qed.
End conservation.

(** ** Concrete data *)

Definition sample_row (user group model : String.string) (q : Z) : FlowQuotaDataItem :=
  {| user_id := None; username := Some (js user); node_name := None; use_group := Some (js group);
     token_id := None; token_name := None; channel_id := Some (num_of_Z 7); channel_name := None;
     model_name := Some (js model); token_used := None; count := Some (num_of_Z 1);
     quota := Some (num_of_Z q) |}.
Arguments sample_row (user group model)%_string q%_Z.

Definition sample_rows : list FlowQuotaDataItem :=
  [sample_row "alice" "vip" "gpt-4.1" 100; sample_row "bob" "vip" "claude" 50;
   sample_row "alice" "default" "claude" 70].

Definition no_graph_options : FlowGraphOptions :=
  {| g_topNodeLimit := None; g_overflowMode := None; g_otherNodeLabel := None;
     g_activeNode := None; g_activeLink := None; g_maskSensitive := None |}.

Definition no_schemes : ColorScheme * list ColorScheme := ({| maxDomainLength := None; scheme := [] |}, []).

Definition sample_graph : DashboardFlowGraph :=
  graph cmp_code_units no_schemes sample_rows Quota RoleAdmin None None None no_graph_options.

Definition sample_node : DashboardFlowNode :=
  List.nth 2 (nodes sample_graph) (new_node {| p_id := []; p_label := []; p_kind := User |} [] []).

(** The group "vip" receives 150 from two users and passes it to two models. *)
Lemma flow_conserved_witness :
  n_id sample_node = js "group:vip" ∧ n_value sample_node = num_of_Z 150
  ∧ js_sum (map l_value (List.filter (λ l, bool_decide (l_target l = n_id sample_node)) (links sample_graph)))
    = n_value sample_node
  ∧ js_sum (map l_value (List.filter (λ l, bool_decide (l_source l = n_id sample_node)) (links sample_graph)))
    = n_value sample_node.
Proof.
  split; [vm_compute; reflexivity|]. split; [vm_compute; reflexivity|].
  destruct (flow_conserved cmp_code_units no_schemes sample_rows Quota RoleAdmin None None None
              no_graph_options) with (n := sample_node) as [Hin Hout].
  - apply (bool_decide_eq_true_1 _). vm_compute. reflexivity.
  - vm_compute. reflexivity.
  - apply (bool_decide_eq_true_1 _). vm_compute. reflexivity.
  - apply (list_elem_of_lookup_2 _ 2). vm_compute. reflexivity.
  - split; [apply Hin | apply Hout]; vm_compute; discriminate.
Defined.
