(* ===== verification/FlowMasking.v ===== *)
(** * Presentation of the usage graph

    Masking of labels, highlighting, shares and colours. *)

From Stdlib Require Import ZArith.
From S2P Require Import Prelude JsString JsNumber JsNumberFacts JsCollections JsValue Flow FlowFacts FlowGraph FlowConservation.

(** ** Display colours do not depend on the labels *)

Lemma assign_map lc (f : DashboardFlowLink → DashboardFlowLink) ls :
  (∀ l, l_source (f l) = l_source l) → (∀ l, l_target (f l) = l_target l) →
  (∀ l, l_value (f l) = l_value l) → (∀ l, l_color (f l) = l_color l) →
  (∀ l c a h, f (set_link_colors l c a h) = set_link_colors (f l) c a h) →
  assignLinkDisplayColors lc (map f ls) = map f (assignLinkDisplayColors lc ls).
Proof.
  intros Hs Ht Hv Hc Hset. unfold assignLinkDisplayColors.
  pose (F (il : nat * DashboardFlowLink) := (fst il, f (snd il))).
  rewrite imap_pair_map. fold F. rewrite group_by_map.
  rewrite (group_by_key_ext _ (λ il, l_source (snd il))) by (intros; apply Hs).
  change (@nil (jsstr * list (nat * DashboardFlowLink))) with (mmap (map F) (@nil (jsstr * list (nat * DashboardFlowLink)))) at 1.
  rewrite (group_by_mmap _ (λ il o, default [] o ++ [il]) _ (map F));
    [|intros x [o|]; simpl; [by rewrite map_app | done]].
  unfold mvalues. unfold mmap at 1. rewrite map_map. cbn [snd]. rewrite <-(map_map snd (map F)).
  apply fold_left_commute. intros acc group. cbv zeta.
  rewrite (js_sort_map (λ a b, link_value_order lc (snd a) (snd b))), length_map, imap_pair_map.
  2:{ intros [i a] [j b]. unfold link_value_order, linkStableKey. simpl. by rewrite !Hv, !Hs, !Ht. }
  apply (fold_left_commute _ _ (map f)). intros acc' [index [i link]]. simpl. rewrite Hc.
  symmetry. apply (list_fmap_alter f). apply Forall_forall. intros l _. by rewrite Hset, Hc.
Qed.

(** ** The map of masked labels *)

Lemma masked_labels_spec ns k :
  NoDup (map n_id ns) →
  mget k (masked_labels ns)
  = maskFlowLabel ∘ n_label <$> List.find (λ n, masked_node n && bool_decide (n_id n = k)) ns.
Proof.
  unfold masked_labels.
  assert (∀ acc, NoDup (map n_id ns) →
    mget k (fold_left (λ acc n, if masked_node n then mset (n_id n) (maskFlowLabel (n_label n)) acc
                                else acc) ns acc)
    = match List.find (λ n, masked_node n && bool_decide (n_id n = k)) ns with
      | Some n => Some (maskFlowLabel (n_label n)) | None => mget k acc end) as H.
  { induction ns as [|n ns IH]; intros acc Hnd; [done|].
    cbn [map] in Hnd. apply NoDup_cons in Hnd as [Hn Hnd]. cbn [fold_left List.find].
    rewrite IH by done. destruct (masked_node n); simpl; [|done]. case_bool_decide as Hk; subst.
    - rewrite find_none_elem; [by rewrite mget_mset_eq|]. intros m Hm.
      rewrite bool_decide_eq_false_2; [by rewrite andb_false_r|]. intros Hid. apply Hn.
      rewrite <-Hid. by apply (list_elem_of_fmap_2 n_id).
    - case_match; [done|]. by rewrite mget_mset_ne. }
  intros Hnd. rewrite (H [] Hnd). by destruct (List.find _ ns).
Qed.

Lemma masked_labels_node ns n :
  NoDup (map n_id ns) → n ∈ ns → masked_node n = true →
  mget (n_id n) (masked_labels ns) = Some (maskFlowLabel (n_label n)).
Proof.
  intros Hnd Hn Hm. rewrite masked_labels_spec by done.
  destruct (List.find _ ns) as [n'|] eqn:E; simpl.
  - apply find_some in E as [Hn' E]. apply list_elem_of_In in Hn'. unbool.
    by rewrite (NoDup_map_inj n_id ns n' n).
  - apply (find_none _ _) with (x := n) in E; [|by apply list_elem_of_In].
    rewrite Hm, bool_decide_eq_true_2 in E; done.
Qed.

(** ** Masking *)

Definition unlabelled_node (n : DashboardFlowNode) : DashboardFlowNode := set_node_label n [].
Definition unlabelled_link (l : DashboardFlowLink) : DashboardFlowLink := set_link_labels l [] [].

Definition set_mask (b : bool) (o : FlowGraphOptions) : FlowGraphOptions :=
  {| g_topNodeLimit := g_topNodeLimit o; g_overflowMode := g_overflowMode o;
     g_otherNodeLabel := g_otherNodeLabel o; g_activeNode := g_activeNode o;
     g_activeLink := g_activeLink o; g_maskSensitive := Some b |}.

Section masking.
Context (lc : jsstr → jsstr → num) (colors : ColorScheme * list ColorScheme).
Context (rows : list FlowQuotaDataItem) (metric : FlowMetric) (r : FlowRole)
  (palette : option (list jsstr)) (visible : option (list FlowNodeKind))
  (ctx : FlowPathContext) (options : FlowGraphOptions).

(** The graph with and without masking. *)
Definition mask_graph (b : bool) : DashboardFlowGraph :=
  graph lc colors rows metric r palette visible ctx (set_mask b options).

Abbreviation cnodes := (counted_nodes lc colors rows metric r palette visible ctx (set_mask true options)).
Abbreviation fnode b := (final_node lc rows metric r visible ctx (set_mask b options)).
Abbreviation flink b := (final_link lc colors rows metric r palette visible ctx (set_mask b options)).

Lemma unlabelled_final_node n : unlabelled_node (fnode true n) = unlabelled_node (fnode false n).
Proof.
  unfold final_node, mask_node. cbn [set_mask g_maskSensitive default].
  change (graph_sets lc rows metric r visible ctx (set_mask false options))
    with (graph_sets lc rows metric r visible ctx (set_mask true options)).
  by destruct (masked_node n), (graph_sets _ _ _ _ _ _ _).
Qed.

Lemma unlabelled_final_link l : unlabelled_link (flink true l) = unlabelled_link (flink false l).
Proof.
  unfold final_link. cbn [set_mask g_maskSensitive default].
  change (graph_sets lc rows metric r visible ctx (set_mask false options))
    with (graph_sets lc rows metric r visible ctx (set_mask true options)).
  by destruct (graph_sets _ _ _ _ _ _ _).
Qed.

Abbreviation clinks := (counted_links lc colors rows metric r palette visible ctx (set_mask true options)).
Abbreviation total ls := (share_total lc rows metric r visible ctx (set_mask true options) ls).

Lemma share_total_unlabelled ls : total (map unlabelled_link ls) = total ls.
Proof.
  unfold share_total. generalize num_zero. induction ls as [|l ls IH]; intros a; [done|].
  cbn [map List.filter]. change (l_source (unlabelled_link l)) with (l_source l).
  case_bool_decide; simpl; apply IH.
Qed.

(** Without their labels the links of both graphs are those of one list. *)
Lemma unlabelled_links b :
  let ls := js_sort (link_order lc) (map (λ l, unlabelled_link (flink false l)) clinks) in
  map unlabelled_link (links (mask_graph b))
  = assignLinkDisplayColors lc (map (with_share (total ls)) ls).
Proof.
  cbv zeta. assert (js_sort (link_order lc) (map (λ l, unlabelled_link (flink false l)) clinks)
          = map unlabelled_link
              (sorted_links lc colors rows metric r palette visible ctx (set_mask b options))) as ->.
  { unfold sorted_links. rewrite <-(js_sort_map _ (link_order lc) unlabelled_link), map_map; [|done].
    f_equal. apply map_ext. intros l. destruct b; [|done]. by rewrite unlabelled_final_link. }
  rewrite share_total_unlabelled. unfold mask_graph. rewrite graph_eq. cbn [links].
  rewrite <-assign_map by done. by rewrite !map_map.
Qed.

Lemma cnodes_NoDup : NoDup (map n_id cnodes).
Proof. rewrite counted_node_ids. apply NoDup_group_by. constructor. Qed.

Lemma masked_final_node b n : masked_node (fnode b n) = masked_node n.
Proof.
  unfold masked_node.
  by destruct (final_node_core lc rows metric r visible ctx (set_mask b options) n) as (-> & -> & _).
Qed.

Lemma flag_node_label sets n : n_label (flag_node sets n) = n_label n.
Proof. by destruct sets. Qed.

Lemma final_label n :
  n_label (fnode true n) = (if masked_node n then maskFlowLabel (n_label n) else n_label n)
  ∧ n_label (fnode false n) = n_label n.
Proof.
  unfold final_node. cbn [set_mask g_maskSensitive default]. rewrite !flag_node_label.
  unfold mask_node. by destruct (masked_node n).
Qed.

Lemma mask_graph_node b n :
  n ∈ nodes (mask_graph b) ↔ ∃ n0, n0 ∈ cnodes ∧ n = fnode b n0.
Proof. exact (graph_node lc colors rows metric r palette visible ctx (set_mask b options) n). Qed.

Lemma mask_graph_link l :
  l ∈ links (mask_graph true) → ∃ l0 s c a h, l0 ∈ clinks
    ∧ l = set_link_colors (set_link_share (flink true l0) s) c a h.
Proof.
  unfold mask_graph. intros Hl. apply graph_link in Hl as (l0 & c & a & h & Hl & ->). eauto 10.
Qed.

(** The labels at both ends of a link are those of the masked nodes. *)
Lemma masked_link_labels l n :
  l ∈ links (mask_graph true) → n ∈ nodes (mask_graph true) → masked_node n = true →
  (l_source l = n_id n → l_sourceLabel l = n_label n)
  ∧ (l_target l = n_id n → l_targetLabel l = n_label n).
Proof.
  intros (l0 & s & c & a & h & Hl & ->)%mask_graph_link (n0 & Hn & ->)%mask_graph_node Hm.
  rewrite masked_final_node in Hm. destruct (final_label n0) as [-> _]. rewrite Hm.
  destruct (final_node_core lc rows metric r visible ctx (set_mask true options) n0) as (-> & _).
  destruct (final_link_core lc colors rows metric r palette visible ctx (set_mask true options) l0)
    as (Es & Et & _).
  pose proof (masked_labels_node _ n0 cnodes_NoDup Hn Hm) as Hget.
  cbn. rewrite Es, Et.
  split; intros Hid; rewrite <-Hid in Hget; unfold final_link; cbn [set_mask g_maskSensitive default];
    unfold flag_link; destruct (graph_sets _ _ _ _ _ _ _); cbn; by rewrite Hget.
Qed.

Lemma maskFlowLabel_spec s : maskFlowLabel s = [] ∨ maskFlowLabel s = FLOW_MASK_TEXT.
Proof. destruct s; auto. Qed.

(** C6: masking changes labels and nothing else.  Apart from labels the masked
    graph has the nodes and, in the same order, the links of the unmasked
    one, display colours and shares included; the label of every user, node,
    token, group or channel that is not the aggregate of its stage is the mask
    (or empty) on the node and at either end of each of its links; and the
    other nodes keep their label. *)
Theorem masking_hides_labels :
  map unlabelled_node (nodes (mask_graph true)) ≡ₚ map unlabelled_node (nodes (mask_graph false))
  ∧ map unlabelled_link (links (mask_graph true)) = map unlabelled_link (links (mask_graph false))
  ∧ (∀ n, n ∈ nodes (mask_graph true) →
       if bool_decide (n_kind n ≠ Model) && negb (bool_decide (n_id n ∈ OTHER_FLOW_NODE_ID_SET))
       then (n_label n = [] ∨ n_label n = FLOW_MASK_TEXT)
            ∧ ∀ l, l ∈ links (mask_graph true) →
                (l_source l = n_id n → l_sourceLabel l = n_label n)
                ∧ (l_target l = n_id n → l_targetLabel l = n_label n)
       else n ∈ nodes (mask_graph false)).
Proof.
  split_and!.
  - unfold mask_graph. rewrite !graph_eq. cbn [nodes].
    rewrite (js_sort_perm _ (map (fnode true) _)), (js_sort_perm _ (map (fnode false) _)), !map_map.
    apply reflexive_eq, map_ext, unlabelled_final_node.
  - by rewrite !unlabelled_links.
  - intros n Hn. assert (bool_decide (n_kind n ≠ Model)
      && negb (bool_decide (n_id n ∈ OTHER_FLOW_NODE_ID_SET)) = masked_node n) as ->.
    { unfold masked_node. f_equal. by destruct (n_kind n). }
    destruct (masked_node n) eqn:Hm.
    + split; [|intros l Hl; by apply masked_link_labels].
      apply mask_graph_node in Hn as (n0 & _ & ->). rewrite masked_final_node in Hm.
      destruct (final_label n0) as [-> _]. rewrite Hm. apply maskFlowLabel_spec.
    + apply mask_graph_node in Hn as (n0 & Hn & ->). apply mask_graph_node. exists n0. split; [done|].
      rewrite masked_final_node in Hm. unfold final_node, mask_node. by rewrite Hm.
Qed.
End masking.
