(* ===== verification/FlowHighlight.v ===== *)
(** * Stages, highlighting and shares of the usage graph *)

From Stdlib Require Import ZArith.
From S2P Require Import Prelude JsString JsNumber JsNumberFacts JsCollections JsValue Flow FlowFacts FlowGraph FlowConservation.

(** ** Visible stages *)

Lemma visible_length r visible : (2 ≤ length (resolveVisibleStages r visible))%nat.
Proof.
  unfold resolveVisibleStages. destruct visible as [vs|]; [|destruct r; simpl; lia].
  case_bool_decide; [done | destruct r; simpl; lia].
Qed.

(** Hiding stages never leaves fewer than the two columns a link needs:
    the visible stages are a duplicate-free sub-sequence of the role's stages,
    exactly the requested ones of the role when those are at least two, and all
    of the role's stages otherwise. *)
Theorem visible_stages (r : FlowRole) (visible : option (list FlowNodeKind)) :
  let stages := resolveVisibleStages r visible in
  let requested := List.filter (λ k, bool_decide (k ∈ default FLOW_NODE_KINDS visible)) (getFlowStages r) in
  (2 ≤ length stages)%nat ∧ NoDup stages ∧ stages `sublist_of` getFlowStages r
  ∧ stages = if (2 <=? length requested)%nat then requested else getFlowStages r.
Proof.
  cbv zeta. split; [apply visible_length | split; [apply NoDup_visible|]].
  unfold resolveVisibleStages. destruct visible as [vs|].
    + unfold MIN_FLOW_STAGES. simpl default. case_bool_decide as H.
      * split; [apply filterb_sublist|]. by rewrite (proj2 (Nat.leb_le _ _) H).
      * split; [done|]. by rewrite (proj2 (Nat.leb_gt _ _)) by lia.
    + split; [done|]. by destruct r.
Qed.

(** ** Highlighting *)

Lemma elem_of_set_add {A} `{!EqDecision A} (x y : A) s : x ∈ set_add y s ↔ x = y ∨ x ∈ s.
Proof. unfold set_add. case_decide; set_solver. Qed.

Lemma elem_of_fold_set_add {A B} `{!EqDecision A} (f : B → A) (ys : list B) s x :
  x ∈ fold_left (λ acc y, set_add (f y) acc) ys s ↔ x ∈ s ∨ ∃ y, y ∈ ys ∧ f y = x.
Proof.
  revert s; induction ys as [|y ys IH]; intros s; simpl; [set_solver|].
  rewrite IH, elem_of_set_add. set_solver.
Qed.

Lemma exists_elem_cons {A} (Q : A → Prop) x l :
  (∃ y, y ∈ x :: l ∧ Q y) ↔ Q x ∨ ∃ y, y ∈ l ∧ Q y.
Proof. setoid_rewrite elem_of_cons. naive_solver. Qed.

Lemma visits_node_spec k p : (∃ n, n ∈ path p ∧ p_id n = k) ↔ visits_node k p = true.
Proof. unfold visits_node. rewrite existsb_exists_elem. by setoid_rewrite bool_decide_eq_true. Qed.

Lemma visits_link_spec k p :
  (∃ st, st ∈ steps (path p) ∧ pathLinkKey (fst st) (snd st) = k) ↔ visits_link k p = true.
Proof. unfold visits_link. rewrite existsb_exists_elem. by setoid_rewrite bool_decide_eq_true. Qed.

Section highlight.
Context (lc : jsstr → jsstr → num) (colors : ColorScheme * list ColorScheme).
Context (rows : list FlowQuotaDataItem) (metric : FlowMetric) (r : FlowRole)
  (palette : option (list jsstr)) (visible : option (list FlowNodeKind))
  (ctx : FlowPathContext) (options : FlowGraphOptions).

Abbreviation g := (graph lc colors rows metric r palette visible ctx options).
Abbreviation ps := (graph_paths lc rows metric r visible ctx options).

(** The paths a selection is about. *)
Definition selected_path (p : PreparedFlowPath) : bool :=
  matchesPath (g_activeNode options) (g_activeLink options) (path p).

(** Whether there is a selection: a link, or a node of a visible stage. *)
Definition selection_active : bool :=
  match g_activeLink options with
  | Some _ => true
  | None => match g_activeNode options with
            | Some n => bool_decide (f_kind n ∈ resolveVisibleStages r visible)
            | None => false
            end
  end.

Lemma fold_sets init :
  let s := fold_left (λ s prepared,
    if negb (matchesPath (g_activeNode options) (g_activeLink options) (path prepared)) then s
    else {| h_nodes := fold_left (λ acc node, set_add (p_id node) acc) (path prepared) (h_nodes s);
            h_links := fold_left (λ acc st, set_add (pathLinkKey (fst st) (snd st)) acc)
                         (steps (path prepared)) (h_links s) |}) ps init in
  (∀ k, k ∈ h_nodes s ↔ k ∈ h_nodes init ∨ ∃ p, p ∈ ps ∧ selected_path p = true ∧ visits_node k p = true)
  ∧ (∀ k, k ∈ h_links s ↔ k ∈ h_links init ∨ ∃ p, p ∈ ps ∧ selected_path p = true ∧ visits_link k p = true).
Proof.
  cbv zeta. revert init. induction ps as [|p l IH]; intros init; [set_solver|]. cbn [fold_left].
  pose proof (λ i, proj1 (IH i)) as H1. pose proof (λ i, proj2 (IH i)) as H2.
  split; intros k; [rewrite H1 | rewrite H2]; clear H1 H2 IH;
    rewrite exists_elem_cons; unfold selected_path at 2;
    destruct (matchesPath _ _ (path p)) eqn:E; cbn [negb h_nodes h_links];
    rewrite ?elem_of_fold_set_add.
  - rewrite <-visits_node_spec. tauto.
  - intuition congruence.
  - rewrite <-visits_link_spec. tauto.
  - intuition congruence.
Qed.

Lemma graph_sets_spec :
  match graph_sets lc rows metric r visible ctx options with
  | None => selection_active && existsb selected_path ps = false
  | Some s =>
      selection_active && existsb selected_path ps = true
      ∧ (∀ k, bool_decide (k ∈ h_nodes s) = existsb (λ p, selected_path p && visits_node k p) ps)
      ∧ (∀ k, bool_decide (k ∈ h_links s) = existsb (λ p, selected_path p && visits_link k p) ps)
  end.
Proof.
  unfold graph_sets, buildFlowHighlightSets.
  assert (negb match g_activeNode options with
               | Some n => bool_decide (f_kind n ∈ resolveVisibleStages r visible)
               | None => false end
          && negb match g_activeLink options with Some _ => true | None => false end
          = negb selection_active) as ->.
  { unfold selection_active. by destruct (g_activeLink options); rewrite ?andb_true_r, ?andb_false_r. }
  destruct selection_active; cbn [negb andb]; [|done].
  destruct (fold_sets {| h_nodes := []; h_links := [] |}) as [Hn Hl]. cbn [h_nodes h_links] in Hn, Hl.
  destruct (h_nodes (fold_left _ ps _)) as [|k ks] eqn:E; cbv zeta in Hn, Hl.
  - apply not_true_is_false. rewrite existsb_exists_elem. intros (p & Hp & Hsel).
    pose proof (graph_paths_ok lc rows metric r visible ctx options) as Hok.
    rewrite Forall_forall in Hok. destruct (Hok p Hp) as [Hk _].
    pose proof (visible_length r visible) as Hlen. rewrite <-Hk in Hlen.
    destruct (path p) as [|x q] eqn:Eq; [simpl in Hlen; lia|].
    assert (p_id x ∈ ([] : list jsstr)) as H; [|set_solver]. apply Hn. right.
    exists p. split_and!; [done | done |]. unfold visits_node. rewrite Eq. simpl.
    by rewrite bool_decide_eq_true_2.
  - split_and!.
    + assert (k ∈ k :: ks) as Hk by constructor.
      apply Hn in Hk as [Hk | (p & Hp & Hsel & _)]; [set_solver|].
      apply existsb_exists_elem. eauto.
    + intros k'. apply eq_true_iff_eq. rewrite bool_decide_eq_true, existsb_exists_elem, E, Hn.
      setoid_rewrite andb_true_iff. set_solver.
    + intros k'. apply eq_true_iff_eq. rewrite bool_decide_eq_true, existsb_exists_elem, Hl.
      setoid_rewrite andb_true_iff. set_solver.
Qed.

(** C27: a selection that some path matches splits the graph in two: every node
    and every link is either highlighted or dimmed, and it is highlighted
    exactly when it lies on a matching path (one through the selected node,
    or one taking the selected link when a link is selected).  Without a
    selection, or when no path matches, nothing is flagged. *)
Theorem highlighting_partition :
  let on := selection_active && existsb selected_path ps in
  (∀ n, n ∈ nodes g →
     let h := existsb (λ p, selected_path p && visits_node (n_id n) p) ps in
     n_highlighted n = (if on then Some h else None)
     ∧ n_dimmed n = (if on then Some (negb h) else None))
  ∧ (∀ l, l ∈ links g →
     let h := existsb (λ p, selected_path p && visits_link (linkStableKey l) p) ps in
     l_highlighted l = (if on then Some h else None)
     ∧ l_dimmed l = (if on then Some (negb h) else None)).
Proof.
  cbv zeta. pose proof graph_sets_spec as Hs. split.
  - intros n (n0 & Hn & ->)%graph_node. apply counted_node in Hn.
    destruct (final_node_core lc rows metric r visible ctx options n0) as (-> & _).
    eapply raw_node_fresh in Hn as [Hh Hd]. unfold final_node, mask_node.
    destruct (graph_sets _ _ _ _ _ _ _) as [s|]; cbn [flag_node].
    + destruct Hs as (-> & Hs & _). rewrite <-Hs. by destruct (default _ _), (masked_node n0).
    + rewrite Hs. by destruct (default _ _), (masked_node n0).
  - intros l (l0 & c & a & h & Hl & ->)%graph_link. apply counted_link in Hl. cbn.
    unfold linkStableKey. cbn.
    destruct (final_link_core lc colors rows metric r palette visible ctx options l0) as (-> & -> & _).
    fold (linkStableKey l0). eapply raw_link_fresh in Hl as [Hh Hd]. unfold final_link.
    destruct (graph_sets _ _ _ _ _ _ _) as [s|]; cbn [flag_link].
    + destruct Hs as (-> & _ & Hs). rewrite <-Hs. by destruct (default _ _).
    + rewrite Hs. by destruct (default _ _).
Qed.
End highlight.
