(* ===== verification/FlowFilters.v ===== *)
(** * Row filters and filter options of the usage flow *)

From Stdlib Require Import ZArith.
From S2P Require Import Prelude JsString JsNumber JsNumberFacts JsCollections JsValue Flow FlowFacts FlowGraph FlowConservation.

(** ** Filtering rows *)

(** The ids selected for a kind. *)
Definition selected_ids (selected : option (list FlowNodeFilter)) (k : FlowNodeKind) : list jsstr :=
  map f_id (List.filter (λ f, bool_decide (f_kind f = k)) (default [] selected)).

(** A row agrees with the selection of a kind: nothing is selected there, or its
    own node is. *)
Definition agrees (selected : option (list FlowNodeFilter)) (ctx : FlowPathContext)
    (row : FlowQuotaDataItem) (k : FlowNodeKind) : bool :=
  match selected_ids selected k with
  | [] => true
  | ids => bool_decide (p_id (NODE_BUILDERS k row ctx) ∈ ids)
  end.

Lemma fold_set_add_kind (fs : list FlowNodeFilter) o :
  fold_left (λ o f, Some (set_add (f_id f) (default [] o))) fs o
  = match fs with [] => o | _ => Some (fold_left (λ s f, set_add (f_id f) s) fs (default [] o)) end.
Proof.
  revert o; induction fs as [|f fs IH]; intros o; [done|]. simpl. rewrite IH. simpl. by destruct fs.
Qed.

Lemma elem_of_fold_set_add' {A B} `{!EqDecision A} (f : B → A) (ys : list B) s x :
  x ∈ fold_left (λ s y, set_add (f y) s) ys s ↔ x ∈ s ∨ x ∈ map f ys.
Proof.
  revert s; induction ys as [|y ys IH]; intros s; simpl; [set_solver|].
  rewrite IH. unfold set_add. case_decide; set_solver.
Qed.

(** The normalised filters: an entry for each visible kind with a selection. *)
Lemma filters_lookup selected stages k :
  match mget k (normalizeSelectedNodeFilters selected stages) with
  | None => k ∉ stages ∨ selected_ids selected k = []
  | Some ids => k ∈ stages ∧ selected_ids selected k ≠ []
                ∧ ∀ x, x ∈ ids ↔ x ∈ selected_ids selected k
  end.
Proof.
  unfold normalizeSelectedNodeFilters, selected_ids. rewrite mget_group_by. simpl.
  set (sel := default [] selected). rewrite fold_set_add_kind.
  assert (List.filter (λ f, bool_decide (f_kind f = k))
            (List.filter (λ f, bool_decide (f_kind f ∈ stages)) sel)
          = if bool_decide (k ∈ stages) then List.filter (λ f, bool_decide (f_kind f = k)) sel else [])
    as ->.
  { induction sel as [|f sel IH]; simpl; [by case_bool_decide|].
    destruct (decide (f_kind f = k)) as [<-|Hk].
    - rewrite (bool_decide_eq_true_2 (f_kind f = f_kind f)) by done.
      case_bool_decide; simpl; [rewrite bool_decide_eq_true_2 by done; by rewrite IH | done].
    - rewrite (bool_decide_eq_false_2 (f_kind f = k)) by done.
      destruct (bool_decide (f_kind f ∈ stages)); simpl; [|done].
      by rewrite (bool_decide_eq_false_2 (f_kind f = k)). }
  case_bool_decide as Hk; [|by left]. simpl.
  set (l := List.filter (λ f, bool_decide (f_kind f = k)) sel).
  pose proof (elem_of_fold_set_add' f_id l []) as H.
  destruct l as [|f fs]; [by right|]. split_and!; [done | done |].
  intros x. rewrite H. set_solver.
Qed.

(** The ids of a path of one kind. *)
Lemma path_ids_lookup stages row ctx k :
  NoDup stages →
  match mget k (group_by p_kind (λ node old, set_add (p_id node) (default [] old))
                  (flowPathForStages row stages ctx) []) with
  | None => k ∉ stages
  | Some ids => k ∈ stages ∧ ids = [p_id (NODE_BUILDERS k row ctx)]
  end.
Proof.
  intros Hnd. rewrite mget_group_by. simpl. unfold flowPathForStages.
  assert (List.filter (λ n, bool_decide (p_kind n = k)) (map (λ s, NODE_BUILDERS s row ctx) stages)
          = if bool_decide (k ∈ stages) then [NODE_BUILDERS k row ctx] else []) as ->.
  { induction Hnd as [|s stages Hs Hnd IH]; [done|]. simpl.
    rewrite (proj2 (builder_wf s row ctx)), IH. destruct (decide (s = k)) as [->|Hk].
    - rewrite (bool_decide_eq_true_2 (k = k)), (bool_decide_eq_false_2 (k ∈ stages)),
        (bool_decide_eq_true_2 (k ∈ k :: stages)) by (done || constructor). done.
    - rewrite (bool_decide_eq_false_2 (s = k)) by done.
      repeat case_bool_decide; set_solver. }
  case_bool_decide; simpl; done.
Qed.

Lemma pathMatches_spec stages row ctx selected :
  NoDup stages →
  pathMatchesNodeFilters (flowPathForStages row stages ctx) (normalizeSelectedNodeFilters selected stages)
  = forallb (agrees selected ctx row) stages.
Proof.
  intros Hnd. set (fs := normalizeSelectedNodeFilters selected stages).
  assert (NoDup (mkeys fs)) as Hfs by (apply NoDup_group_by; constructor).
  pose proof (filters_lookup selected stages) as Hf. fold fs in Hf.
  assert (pathMatchesNodeFilters (flowPathForStages row stages ctx) fs
    = forallb (λ '(k, ids), match mget k (group_by p_kind
          (λ node old, set_add (p_id node) (default [] old)) (flowPathForStages row stages ctx) []) with
        | None => false | Some pathIds => existsb (λ id, bool_decide (id ∈ pathIds)) ids end) fs) as ->
    by (by destruct fs).
  apply eq_true_iff_eq. rewrite !forallb_forall_elem. split.
  - intros H k Hk. unfold agrees. specialize (Hf k). destruct (mget k fs) as [ids|] eqn:E.
    + destruct Hf as (_ & Hne & Hids). specialize (H (k, ids) (mget_elem_of _ _ _ E)). simpl in H.
      pose proof (path_ids_lookup stages row ctx k Hnd) as Hp.
      destruct (mget k (group_by _ _ _ _)) as [pids|]; [|done]. destruct Hp as [_ ->].
      apply existsb_exists_elem in H as (x & Hx & ->%bool_decide_eq_true%list_elem_of_singleton).
      destruct (selected_ids selected k); [done|]. by apply bool_decide_eq_true_2, Hids.
    + destruct Hf as [? | ->]; [done|done].
  - intros H [k ids] Hin. apply elem_of_mget in Hin; [|done]. specialize (Hf k). rewrite Hin in Hf.
    destruct Hf as (Hk & Hne & Hids). specialize (H k Hk). unfold agrees in H.
    pose proof (path_ids_lookup stages row ctx k Hnd) as Hp.
    destruct (mget k (group_by _ _ _ _)) as [pids|]; [|done]. destruct Hp as [_ ->].
    apply existsb_exists_elem. exists (p_id (NODE_BUILDERS k row ctx)).
    rewrite bool_decide_eq_true, list_elem_of_singleton. split; [|done]. apply Hids.
    destruct (selected_ids selected k); [done|]. by apply bool_decide_eq_true in H.
Qed.

Lemma no_filters selected stages row ctx :
  normalizeSelectedNodeFilters selected stages = [] → forallb (agrees selected ctx row) stages = true.
Proof.
  intros E. apply forallb_forall_elem. intros k Hk. pose proof (filters_lookup selected stages k) as H.
  rewrite E in H. simpl in H. unfold agrees. by destruct H as [? | ->].
Qed.

Lemma selected_ids_except selected k k' :
  selected_ids (selectedNodeFiltersExceptKind selected k) k'
  = if bool_decide (k' = k) then [] else selected_ids selected k'.
Proof.
  unfold selected_ids, selectedNodeFiltersExceptKind. set (sel := default [] selected).
  assert (∀ l : list FlowNodeFilter, default [] (match l with [] => None | _ => Some l end) = l) as Hl
    by (by intros []).
  cbv zeta. rewrite Hl. clear Hl.
  induction sel as [|f sel IH]; simpl; [by case_bool_decide|].
  destruct (decide (f_kind f = k)) as [Hf|Hf].
  - rewrite (bool_decide_eq_true_2 (f_kind f = k)) by done. simpl. rewrite IH.
    case_bool_decide; [done|]. rewrite bool_decide_eq_false_2; [done | congruence].
  - rewrite (bool_decide_eq_false_2 (f_kind f = k)) by done. simpl.
    destruct (decide (f_kind f = k')) as [<-|Hf'].
    + rewrite (bool_decide_eq_true_2 (f_kind f = f_kind f)) by done. simpl. rewrite IH.
      by rewrite bool_decide_eq_false_2.
    + rewrite (bool_decide_eq_false_2 (f_kind f = k')) by done. apply IH.
Qed.

Lemma filterRowsByNodes_eq rows selected stages ctx :
  NoDup stages →
  filterRowsByNodes rows selected stages ctx
  = List.filter (λ row, forallb (agrees selected ctx row) stages) rows.
Proof.
  intros Hnd. unfold filterRowsByNodes. destruct (normalizeSelectedNodeFilters selected stages) eqn:E.
  - induction rows as [|row rows' IH]; simpl; [done|]. by rewrite (no_filters _ _ _ _ E), <-IH.
  - rewrite <-E. apply List.filter_ext. intros row. by apply pathMatches_spec.
Qed.

Lemma filterRows_except rows selected stages ctx k :
  NoDup stages →
  filterRowsByNodes rows (selectedNodeFiltersExceptKind selected k) stages ctx
  = List.filter (λ row, forallb (agrees selected ctx row)
                          (List.filter (λ k', negb (bool_decide (k' = k))) stages)) rows.
Proof.
  intros Hnd. rewrite filterRowsByNodes_eq by done. apply List.filter_ext. intros row.
  assert (∀ k', agrees (selectedNodeFiltersExceptKind selected k) ctx row k'
                = bool_decide (k' = k) || agrees selected ctx row k') as Ha.
  { intros k'. unfold agrees. rewrite selected_ids_except. by case_bool_decide. }
  apply eq_true_iff_eq. rewrite !forallb_forall_elem. setoid_rewrite Ha.
  setoid_rewrite elem_of_filterb. setoid_rewrite orb_true_iff.
  setoid_rewrite negb_true_iff. setoid_rewrite bool_decide_eq_true.
  setoid_rewrite bool_decide_eq_false. split; [intros Hall k' [Hk' Hne]; naive_solver|].
  intros Hall k' Hk'. destruct (decide (k' = k)); [by left | right; by apply Hall].
Qed.

(** Filtering by nodes keeps, in order, the rows that agree with the
    selection in every visible stage: where at least one node of the stage's
    kind is selected, the row's own node of that kind is one of them.
    Selections for stages that are not visible have no effect, and without a
    selection for the stage a row is judged by the other stages alone. *)
Theorem node_filter_spec (rows : list FlowQuotaDataItem) (selected : option (list FlowNodeFilter))
    (r : FlowRole) (visible : option (list FlowNodeKind)) (ctx : FlowPathContext) :
  let stages := resolveVisibleStages r visible in
  filterRowsByNodes rows selected stages ctx
    = List.filter (λ row, forallb (agrees selected ctx row) stages) rows
  ∧ ∀ k, k ∈ stages →
    filterRowsByNodes rows (selectedNodeFiltersExceptKind selected k) stages ctx
    = List.filter (λ row, forallb (agrees selected ctx row)
                            (List.filter (λ k', negb (bool_decide (k' = k))) stages)) rows.
Proof.
  cbv zeta. pose proof (NoDup_visible r visible).
  split; [by apply filterRowsByNodes_eq | intros k _; by apply filterRows_except].
Qed.

(** Filtering by users keeps the rows whose user is selected, and every row when
    nothing is. *)
Lemma filterRows_eq (rows : list FlowQuotaDataItem) (users : option (list jsstr)) :
  filterRows rows users
  = List.filter (λ row, bool_decide (default [] users = [])
                        || bool_decide (p_id (userNode row) ∈ default [] users)) rows.
Proof.
  unfold filterRows. destruct (uniq (default [] users)) as [|u us] eqn:E.
  - apply uniq_nil_inv in E as ->. simpl. by induction rows as [|row rows IH]; simpl; f_equal.
  - apply List.filter_ext. intros row. rewrite (bool_decide_eq_false_2 (_ = []));
      [|intros H; by rewrite H in E].
    apply bool_decide_ext. by rewrite <-E, elem_of_uniq.
Qed.

(** ** Filter options *)

Lemma concat_NoDup {A B} (tag : B → A) (f : A → list B) (l : list A) :
  NoDup l → (∀ a, NoDup (f a)) → (∀ a b, b ∈ f a → tag b = a) → NoDup (concat (map f l)).
Proof.
  intros Hl Hf Ht. induction Hl as [|a l Ha Hl IH]; simpl; [constructor|].
  apply NoDup_app. split_and!; [done | | done]. intros b Hb Hin. apply Ha.
  apply list_elem_of_In, in_concat in Hin as (bs & Hbs & Hin).
  apply list_elem_of_In in Hbs, Hin. apply list_elem_of_fmap in Hbs as (a' & -> & Ha').
  by rewrite <-(Ht a b Hb), (Ht a' b Hin).
Qed.

Section options.
Context (lc : jsstr → jsstr → num) (fmt : num → jsstr) (colors : ColorScheme * list ColorScheme).
Context (rows : list FlowQuotaDataItem) (metric : FlowMetric) (r : FlowRole)
  (visible : option (list FlowNodeKind)) (palette : option (list jsstr)) (ctx : FlowPathContext)
  (selected : option (list FlowNodeFilter)).

(** The rows that count for the options of a stage: those that agree with the
    selections of the other stages. *)
Definition candidates (k : FlowNodeKind) : list FlowQuotaDataItem :=
  List.filter (λ row, forallb (agrees selected ctx row)
                        (List.filter (λ k', negb (bool_decide (k' = k)))
                           (resolveVisibleStages r visible))) rows.

Definition rank_add (k : FlowNodeKind) (row : FlowQuotaDataItem) (o : option FlowNodeRank) : FlowNodeRank :=
  let c := default {| r_node := NODE_BUILDERS k row ctx; r_value := num_zero |} o in
  {| r_node := r_node c; r_value := num_add (r_value c) (metricValue (rowMetrics row) metric) |}.

Definition rank_key (k : FlowNodeKind) (row : FlowQuotaDataItem) : jsstr :=
  kind_str k ++ 0%N :: p_id (NODE_BUILDERS k row ctx).

Lemma stage_totals_group rs k : stage_totals rs metric k ctx = group_by (rank_key k) (rank_add k) rs [].
Proof.
  apply fold_left_ext. intros m row. unfold group_step, rank_key, nodeFilterKey.
  cbn [f_kind f_id]. by rewrite (proj2 (builder_wf k row ctx)).
Qed.

(** The entries of a stage. *)
Lemma stage_rank k rank :
  rank ∈ mvalues (stage_totals (candidates k) metric k ctx) →
  p_kind (r_node rank) = k
  ∧ (∃ row, row ∈ candidates k ∧ r_node rank = NODE_BUILDERS k row ctx)
  ∧ r_value rank = js_sum (map (λ row, metricValue (rowMetrics row) metric)
      (List.filter (λ row, bool_decide (p_id (NODE_BUILDERS k row ctx) = p_id (r_node rank)))
         (candidates k))).
Proof.
  rewrite stage_totals_group. unfold mvalues. rewrite list_elem_of_fmap.
  intros ([key rank'] & -> & Hin). cbn [snd].
  apply group_entry in Hin as (row & rs & Hf & Himm & Hsum).
  assert (row ∈ candidates k ∧ rank_key k row = key) as [Hrow <-].
  { assert (row ∈ List.filter (λ x, bool_decide (rank_key k x = key)) (candidates k)) as H
      by (rewrite Hf; constructor). by apply elem_of_filterb in H as [? ?%bool_decide_eq_true]. }
  assert (r_node rank' = NODE_BUILDERS k row ctx) as Hnode by (by rewrite Himm).
  rewrite Hnode. split_and!; [apply builder_wf | eauto |].
  rewrite (Hsum r_value (λ row, metricValue (rowMetrics row) metric)) by done.
  do 2 f_equal. apply List.filter_ext. intros row'. apply bool_decide_ext. unfold rank_key.
  split; [intros H | by intros ->]. apply app_inv_head in H. congruence.
Qed.

Definition option_of (palette_color : jsstr → jsstr) (rank : FlowNodeRank) : FlowNodeFilterOption :=
  {| fo_kind := p_kind (r_node rank); fo_value := p_id (r_node rank);
     fo_label := p_label (r_node rank); fo_valueLabel := formatNumber fmt (r_value rank);
     fo_valueRaw := r_value rank; fo_color := palette_color (p_id (r_node rank)) |}.

Lemma options_perm :
  ∃ color, buildNodeFilterOptions lc fmt colors rows metric r visible palette ctx selected
    ≡ₚ concat (map (λ k, map (option_of color) (mvalues (stage_totals (candidates k) metric k ctx)))
                   (resolveVisibleStages r visible)).
Proof.
  unfold buildNodeFilterOptions. cbv zeta.
  exists (λ id, default (colorAt colors 0 palette) (mget id (stableColorMap colors
    (js_sort lc (uniq (concat (map (λ row, map p_id
       (flowPathForStages row (resolveVisibleStages r visible) ctx)) rows)))) palette))).
  rewrite js_sort_perm. apply reflexive_eq. f_equal.
  apply map_ext_in. intros k Hk%list_elem_of_In.
  by rewrite filterRows_except by apply NoDup_visible.
Qed.

Lemma stage_ids k :
  NoDup (map (λ rank, p_id (r_node rank)) (mvalues (stage_totals (candidates k) metric k ctx)))
  ∧ ∀ id, id ∈ map (λ rank, p_id (r_node rank)) (mvalues (stage_totals (candidates k) metric k ctx))
          ↔ ∃ row, row ∈ candidates k ∧ p_id (NODE_BUILDERS k row ctx) = id.
Proof.
  assert (map (λ rank, kind_str k ++ 0%N :: p_id (r_node rank))
            (mvalues (stage_totals (candidates k) metric k ctx))
          = mkeys (stage_totals (candidates k) metric k ctx)) as Hkeys.
  { rewrite stage_totals_group. unfold mvalues, mkeys. rewrite map_map. apply map_ext_in.
    intros [key rank] Hin. apply list_elem_of_In in Hin. cbn [fst snd].
    eapply (group_key_of (rank_key k) (rank_add k) (λ rank, kind_str k ++ 0%N :: p_id (r_node rank)));
      [|exact Hin]. by intros x [e|]. }
  assert (NoDup (mkeys (stage_totals (candidates k) metric k ctx))) as Hnd.
  { rewrite stage_totals_group. apply NoDup_group_by. constructor. }
  split.
  - rewrite <-Hkeys in Hnd. rewrite <-(map_map (λ rank, p_id (r_node rank)) (λ i, kind_str k ++ 0%N :: i)) in Hnd.
    by apply NoDup_fmap_1 in Hnd.
  - intros id. rewrite list_elem_of_fmap. split.
    + intros (rank & -> & Hr). apply stage_rank in Hr as (_ & (row & Hrow & ->) & _). eauto.
    + intros (row & Hrow & <-).
      assert (rank_key k row ∈ mkeys (stage_totals (candidates k) metric k ctx)) as Hin.
      { rewrite stage_totals_group. apply group_keys. eauto. }
      rewrite <-Hkeys in Hin. apply list_elem_of_fmap in Hin as (rank & Hid & Hr).
      exists rank. split; [|done]. unfold rank_key in Hid. apply app_inv_head in Hid. congruence.
Qed.

(** The node filter offers facets: for each visible stage there is exactly
    one option for each node that occurs in a row agreeing with the selections
    of the other stages, whatever is selected in the stage itself, and its
    value is the sum of the metric over those of them that pass through the
    node, shown through the number format. *)
Theorem node_options_spec :
  let opts := buildNodeFilterOptions lc fmt colors rows metric r visible palette ctx selected in
  NoDup (map (λ o, (fo_kind o, fo_value o)) opts)
  ∧ (∀ k id, (k, id) ∈ map (λ o, (fo_kind o, fo_value o)) opts
       ↔ k ∈ resolveVisibleStages r visible
         ∧ ∃ row, row ∈ candidates k ∧ p_id (NODE_BUILDERS k row ctx) = id)
  ∧ (∀ o, o ∈ opts →
       fo_valueRaw o = js_sum (map (λ row, metricValue (rowMetrics row) metric)
         (List.filter (λ row, bool_decide (p_id (NODE_BUILDERS (fo_kind o) row ctx) = fo_value o))
            (candidates (fo_kind o))))
       ∧ fo_valueLabel o = fmt (fo_valueRaw o)).
Proof.
  cbv zeta. destruct options_perm as [color Hperm].
  assert (∀ k o, o ∈ map (option_of color) (mvalues (stage_totals (candidates k) metric k ctx)) →
            fo_kind o = k) as Hkind.
  { intros k o. rewrite list_elem_of_fmap. intros (rank & -> & Hr). by apply stage_rank in Hr as [? _]. }
  split_and!.
  - rewrite Hperm. rewrite concat_map, map_map. apply (concat_NoDup fst); [apply NoDup_visible | |].
    + intros k. rewrite map_map. cbn [option_of fo_kind fo_value].
      apply (NoDup_fmap_1 snd). change (NoDup (map snd (map (λ rank, (p_kind (r_node rank), p_id (r_node rank)))
        (mvalues (stage_totals (candidates k) metric k ctx))))).
      rewrite map_map. apply stage_ids.
    + intros k b. rewrite list_elem_of_fmap. intros (o & -> & Ho). by apply Hkind.
  - intros k id. rewrite Hperm, concat_map, map_map, list_elem_of_In, in_concat.
    setoid_rewrite <-list_elem_of_In. split.
    + intros (l & Hl & Hin). apply list_elem_of_fmap in Hl as (k' & -> & Hk').
      apply list_elem_of_fmap in Hin as (o & Ho & Hin). pose proof (Hkind _ _ Hin) as <-.
      injection Ho as -> ->. split; [done|]. apply list_elem_of_fmap in Hin as (rank & -> & Hr).
      apply stage_ids. by apply (list_elem_of_fmap_2 (λ rank, p_id (r_node rank))).
    + intros [Hk Hid]. apply stage_ids, list_elem_of_fmap in Hid as (rank & -> & Hr).
      eexists. split; [by apply (list_elem_of_fmap_2 (λ k, map _ (map (option_of color)
        (mvalues (stage_totals (candidates k) metric k ctx))))), Hk|].
      apply list_elem_of_fmap. exists (option_of color rank). split.
      * simpl. f_equal. symmetry. by apply stage_rank.
      * by apply (list_elem_of_fmap_2 (option_of color)).
  - intros o Ho. rewrite Hperm in Ho. apply list_elem_of_In, in_concat in Ho as (l & Hl & Hin).
    apply list_elem_of_In in Hl, Hin. apply list_elem_of_fmap in Hl as (k & -> & Hk).
    pose proof (Hkind _ _ Hin) as Ek. rewrite Ek. clear Ek.
    apply list_elem_of_fmap in Hin as (rank & -> & Hr). by apply stage_rank in Hr as (_ & _ & ?).
Qed.
End options.
