(* ===== verification/FlowTop.v ===== *)
(** * Order and the top-node limit of the usage graph *)

From Stdlib Require Import ZArith.
From stdpp Require Import sorting.
From S2P Require Import Prelude JsString JsNumber JsNumberFacts JsCollections JsOrder JsValue Flow FlowFacts FlowGraph FlowConservation FlowFilters.

(** ** Order of the nodes *)

(** When the metric of the paths is a non-negative integer and their sum is
    below [2^53], the nodes are listed by descending value, for any lawful
    [localeCompare]. *)
Theorem nodes_sorted lc `{!LocaleCompare lc} colors rows metric r palette visible ctx options
    (Hint : Forall (integral metric) (graph_paths lc rows metric r visible ctx options))
    (Hbound : (sumZ (map (weight metric) (graph_paths lc rows metric r visible ctx options)) < 2 ^ 53)%Z) :
  StronglySorted (λ a b, num_leb (n_value b) (n_value a) = true)
    (nodes (graph lc colors rows metric r palette visible ctx options)).
Proof.
  rewrite graph_eq. cbn [nodes].
  apply (desc_sorted (λ n, counter (n_value n)) n_value (λ a b, lc (n_label a) (n_label b))); [done | |].
  - by apply (lawful_weaken (λ _, True)), (lawful_map n_label (λ _, True)), locale_lawful.
  - apply Forall_forall. intros n Hn. 
    assert (n ∈ nodes (graph lc colors rows metric r palette visible ctx options)) as Hg.
    { rewrite graph_eq. cbn [nodes]. by rewrite elem_of_js_sort. }
    apply graph_node_sums in Hg as [-> _].
    rewrite (sum_over_exact lc rows metric r visible ctx options) by done.
    eexists. split; [done|].
    pose proof (sumZ_filter_le (visits_node (n_id n)) (weight metric)
      (graph_paths lc rows metric r visible ctx options)) as Hle.
    destruct Hle as [? ?]; [|lia]. eapply Forall_impl; [exact Hint|]. by intros p [_ ?].
Qed.

(** ** Totals per stage *)

Definition stage_key (k : FlowNodeKind) (ctx : FlowPathContext) (row : FlowQuotaDataItem) : jsstr :=
  p_id (NODE_BUILDERS k row ctx).

(** The total of a node of a stage. *)
Definition node_total (rows : list FlowQuotaDataItem) (metric : FlowMetric) (ctx : FlowPathContext)
    (k : FlowNodeKind) (id : jsstr) : num :=
  js_sum (map (λ row, metricValue (rowMetrics row) metric)
            (List.filter (λ row, bool_decide (stage_key k ctx row = id)) rows)).

Section top.
Context (lc : jsstr → jsstr → num) (metric : FlowMetric) (ctx : FlowPathContext).

Abbreviation ranks k rows := (group_by (stage_key k ctx) (rank_add metric ctx k) rows []).

(** One row, one stage. *)
Definition count_node (value : num) (node : FlowPathNode) (totals : list (FlowNodeKind * list (jsstr * FlowNodeRank))) :=
  match mget (p_kind node) totals with
  | None => totals
  | Some stageTotals =>
      mset (p_kind node)
        (mupd (p_id node)
           (λ current,
              let c := default {| r_node := node; r_value := num_zero |} current in
              {| r_node := r_node c; r_value := num_add (r_value c) value |}) stageTotals) totals
  end.

Lemma mget_count_nodes value nodes totals k :
  NoDup (map p_kind nodes) →
  mget k (fold_left (λ t n, count_node value n t) nodes totals)
  = match List.find (λ n, bool_decide (p_kind n = k)) nodes with
    | None => mget k totals
    | Some n => mupd (p_id n)
           (λ current,
              let c := default {| r_node := n; r_value := num_zero |} current in
              {| r_node := r_node c; r_value := num_add (r_value c) value |}) <$> mget k totals
    end.
Proof.
  revert totals; induction nodes as [|n nodes IH]; intros totals Hnd; [done|].
  cbn [map] in Hnd. apply NoDup_cons in Hnd as [Hn Hnd]. cbn [fold_left List.find].
  rewrite IH by done. unfold count_node. case_bool_decide as Hk.
  - subst k. rewrite find_none_elem.
    + destruct (mget (p_kind n) totals) eqn:E; simpl; [by rewrite mget_mset_eq | done].
    + intros m Hm. apply bool_decide_eq_false_2. intros E. apply Hn. rewrite <-E.
      by apply (list_elem_of_fmap_2 p_kind).
  - assert (∀ t, mget k (mset (p_kind n) t totals) = mget k totals) as Hne
      by (intros; by apply mget_mset_ne).
    destruct (mget (p_kind n) totals); by rewrite ?Hne.
Qed.

Lemma find_stage k row stages :
  NoDup stages →
  List.find (λ n, bool_decide (p_kind n = k)) (flowPathForStages row stages ctx)
  = if bool_decide (k ∈ stages) then Some (NODE_BUILDERS k row ctx) else None.
Proof.
  unfold flowPathForStages. induction 1 as [|s stages Hs Hnd IH]; [done|]. simpl.
  rewrite (proj2 (builder_wf s row ctx)), IH. destruct (decide (s = k)) as [->|Hk].
  - rewrite (bool_decide_eq_true_2 (k = k)), (bool_decide_eq_true_2 (k ∈ k :: stages)) by (done || constructor).
    done.
  - rewrite (bool_decide_eq_false_2 (s = k)) by done. repeat case_bool_decide; set_solver.
Qed.

Lemma mget_totals rows stages k :
  NoDup stages → k ∈ stages →
  mget k (fold_left (λ totals row,
            fold_left (λ t n, count_node (metricValue (rowMetrics row) metric) n t)
              (flowPathForStages row stages ctx) totals)
            rows (fold_left (λ m stage, mset stage [] m) stages []))
  = Some (ranks k rows).
Proof.
  intros Hnd Hk.
  assert (∀ m, mget k (fold_left (λ m stage, mset stage ([] : list (jsstr * FlowNodeRank)) m) stages m) = Some [])
    as H0.
  { clear Hnd. induction stages as [|s stages IH]; intros m; [set_solver|]. simpl.
    destruct (decide (k ∈ stages)) as [?|Hn]; [by apply IH|].
    assert (k = s) as -> by set_solver.
    assert (∀ m : list (FlowNodeKind * list (jsstr * FlowNodeRank)),
      mget s m = Some [] → mget s (fold_left (λ m stage, mset stage [] m) stages m) = Some [])
      as Hkeep; [|apply Hkeep, mget_mset_eq].
    clear IH Hk. induction stages as [|t stages IH]; intros m' Hm; [done|]. simpl.
    apply IH; [set_solver|]. rewrite mget_mset_ne; [done|]. set_solver. }
  specialize (H0 []). revert H0. generalize (fold_left (λ m stage, mset stage ([] : list (jsstr * FlowNodeRank)) m) stages []).
  generalize ([] : list (jsstr * FlowNodeRank)). intros acc.
  revert acc. induction rows as [|row rows IH]; intros acc totals Ht; [done|]. cbn [fold_left].
  apply IH. rewrite mget_count_nodes.
  - rewrite find_stage, bool_decide_eq_true_2, Ht by done. done.
  - destruct (flowPath_ok row stages ctx) as [-> _]. done.
Qed.

Lemma mget_map_entries {K V W} `{!EqDecision K} (f : V → W) (k : K) (m : list (K * V)) acc :
  NoDup (mkeys m) →
  mget k (fold_left (λ t '(k, v), mset k (f v) t) m acc)
  = match mget k m with Some v => Some (f v) | None => mget k acc end.
Proof.
  revert acc; induction m as [|[k' v] m IH]; intros acc Hnd; [done|].
  cbn in Hnd. apply NoDup_cons in Hnd as [Hk' Hnd]. simpl. rewrite IH by done.
  case_decide as Hk; subst; [|by rewrite mget_mset_ne].
  by rewrite (proj2 (mget_None _ _) Hk'), mget_mset_eq.
Qed.

Lemma NoDup_count_node value n t : NoDup (mkeys t) → NoDup (mkeys (count_node value n t)).
Proof. intros Ht. unfold count_node. destruct (mget _ t); [by apply NoDup_mset | done]. Qed.

(** The ranked nodes of a stage, the largest first. *)
Definition ranking (rows : list FlowQuotaDataItem) (k : FlowNodeKind) : list FlowNodeRank :=
  js_sort (rank_order lc) (mvalues (ranks k rows)).

Lemma mget_top_sets rows stages limit k sets :
  NoDup stages → k ∈ stages → buildTopNodeSets lc rows metric stages (Some limit) ctx = Some sets →
  mget k sets = Some (uniq (map (λ rank, p_id (r_node rank)) (slice_to limit (ranking rows k)))).
Proof.
  intros Hnd Hk. unfold buildTopNodeSets. intros [= <-].
  rewrite (mget_map_entries (λ st, uniq (map (λ rank, p_id (r_node rank))
             (slice_to limit (js_sort (rank_order lc) (mvalues st)))))).
  - pose proof (mget_totals rows stages k Hnd Hk) as H. unfold count_node in H. by rewrite H.
  - apply (fold_left_inv (λ t, NoDup (mkeys t))).
    + apply (fold_left_inv (λ t, NoDup (mkeys t))); [constructor | intros; by apply NoDup_mset].
    + intros t row Ht. apply (fold_left_inv (λ t, NoDup (mkeys t))); [done|].
      intros t' n Ht'. by apply NoDup_count_node.
Qed.

Lemma ranking_entry rows k rank :
  rank ∈ ranking rows k →
  r_value rank = node_total rows metric ctx k (p_id (r_node rank))
  ∧ ∃ row, row ∈ rows ∧ stage_key k ctx row = p_id (r_node rank).
Proof.
  unfold ranking. rewrite elem_of_js_sort. unfold mvalues. rewrite list_elem_of_fmap.
  intros ([key rank'] & -> & Hin). cbn [snd].
  assert (p_id (r_node rank') = key) as Hid.
  { eapply (group_key_of (stage_key k ctx) (rank_add metric ctx k) (λ r, p_id (r_node r)));
      [|exact Hin]. by intros x [e|]. }
  rewrite Hid. split.
  - apply group_entry in Hin as (row & rs & _ & _ & Hsum). unfold node_total. by apply Hsum.
  - apply (list_elem_of_fmap_2 fst) in Hin. apply (group_keys (stage_key k ctx) (rank_add metric ctx k)) in Hin.
    done.
Qed.

Lemma ranking_ids rows k :
  NoDup (map (λ rank, p_id (r_node rank)) (ranking rows k))
  ∧ ∀ row, row ∈ rows → stage_key k ctx row ∈ map (λ rank, p_id (r_node rank)) (ranking rows k).
Proof.
  unfold ranking. setoid_rewrite js_sort_perm.
  assert (map (λ rank, p_id (r_node rank)) (mvalues (ranks k rows)) = mkeys (ranks k rows)) as ->.
  { unfold mvalues, mkeys. rewrite map_map. apply map_ext_in. intros [key rank] Hin.
    apply list_elem_of_In in Hin. cbn [fst snd].
    eapply (group_key_of (stage_key k ctx) (rank_add metric ctx k) (λ r, p_id (r_node r)));
      [|exact Hin]. by intros x [e|]. }
  split; [apply NoDup_group_by; constructor|]. intros row Hrow. apply group_keys. eauto.
Qed.

(** The metric of the rows is integral and its sum exact. *)
Definition row_weight (row : FlowQuotaDataItem) : Z :=
  default 0%Z (num_to_Z (metricValue (rowMetrics row) metric)).

Definition integral_row (row : FlowQuotaDataItem) : Prop :=
  metricValue (rowMetrics row) metric = num_of_Z (row_weight row) ∧ (0 ≤ row_weight row)%Z.

#[global] Instance integral_row_dec row : Decision (integral_row row).
Proof. unfold integral_row. apply _. Defined.

Lemma node_total_counter rows k id :
  Forall integral_row rows → (sumZ (map row_weight rows) < 2 ^ 53)%Z →
  counter (node_total rows metric ctx k id).
Proof.
  intros Hrows Hb. assert (Forall (λ row, 0 ≤ row_weight row)%Z rows) as Hw
    by (eapply Forall_impl; [exact Hrows|]; by intros row [_ ?]).
  pose proof (sumZ_filter_le (λ row, bool_decide (stage_key k ctx row = id)) row_weight rows Hw) as Hle.
  exists (sumZ (map row_weight (List.filter (λ row, bool_decide (stage_key k ctx row = id)) rows))).
  split; [|lia]. unfold node_total. rewrite <-js_sum_exact; [|apply Forall_map, Forall_forall | lia].
  - f_equal. rewrite map_map. apply map_ext_in. intros row Hr%list_elem_of_In.
    apply elem_of_filterb in Hr as [Hr _]. rewrite Forall_forall in Hrows. by apply Hrows.
  - intros row [Hr _]%elem_of_filterb. rewrite Forall_forall in Hw. by apply Hw.
Qed.
End top.

Lemma StronglySorted_take_drop {A} (R : A → A → Prop) n l x y :
  StronglySorted R l → x ∈ take n l → y ∈ drop n l → R x y.
Proof.
  intros Hs Hx Hy. rewrite <-(take_drop n l) in Hs.
  apply StronglySorted_app in Hs as (Hs & _ & _). by apply Hs.
Qed.

Lemma limit_positive limit n : normalizeTopNodeLimit limit = Some n → (0 < n)%Z.
Proof.
  unfold normalizeTopNodeLimit. destruct limit as [l|]; [|done].
  destruct (num_floor_Z l) as [z|]; [|done]. destruct (0 <? z)%Z eqn:Ez; [|done].
  intros [= <-]. by apply Z.ltb_lt.
Qed.

Lemma ranking_sorted lc `{!LocaleCompare lc} metric ctx rows k :
  Forall (integral_row metric) rows → (sumZ (map (row_weight metric) rows) < 2 ^ 53)%Z →
  StronglySorted (λ x y, num_leb (r_value y) (r_value x) = true) (ranking lc metric ctx rows k).
Proof.
  intros Hrows Hbound.
  apply (desc_sorted (λ rank, counter (r_value rank)) r_value
    (λ a b, num_or (lc (p_label (r_node a)) (p_label (r_node b))) (lc (p_id (r_node a)) (p_id (r_node b)))));
    [done | |].
  - apply lawful_or; apply (lawful_weaken (λ _, True)); try done.
    + apply (lawful_map (λ x, p_label (r_node x)) (λ _, True)), locale_lawful.
    + apply (lawful_map (λ x, p_id (r_node x)) (λ _, True)), locale_lawful.
  - apply Forall_forall. intros rank Hr.
    destruct (ranking_entry lc metric ctx rows k rank) as [-> _];
      [unfold ranking; by rewrite elem_of_js_sort | by apply node_total_counter].
Qed.

(** C32: The top-node limit keeps the largest nodes.  When the chosen metric of
    every row is a non-negative integer, their sum is below [2^53], the stages are
    distinct and the sign of [localeCompare] is a total preorder, then for every
    stage at most as many nodes are kept as the normalised limit says, each of them
    occurs in the rows, and a node that occurs is only left out when the limit is
    reached, in which case no kept node has a smaller total. *)
Theorem top_nodes lc `{!LocaleCompare lc} metric ctx (rows : list FlowQuotaDataItem)
    (stages : list FlowNodeKind) (limit : option num) (n : Z) sets (k : FlowNodeKind)
    (Hlimit : normalizeTopNodeLimit limit = Some n)
    (Hrows : Forall (integral_row metric) rows) (Hbound : (sumZ (map (row_weight metric) rows) < 2 ^ 53)%Z)
    (Hnd : NoDup stages) (Hk : k ∈ stages)
    (Hsets : buildTopNodeSets lc rows metric stages (normalizeTopNodeLimit limit) ctx = Some sets) :
  ∃ kept, mget k sets = Some kept ∧ NoDup kept ∧ (Z.of_nat (length kept) ≤ n)%Z
    ∧ (∀ id, id ∈ kept → ∃ row, row ∈ rows ∧ stage_key k ctx row = id)
    ∧ (∀ row, row ∈ rows → stage_key k ctx row ∉ kept →
         Z.of_nat (length kept) = n
         ∧ ∀ id, id ∈ kept → num_leb (node_total rows metric ctx k (stage_key k ctx row))
                                      (node_total rows metric ctx k id) = true).
Proof.
  rewrite Hlimit in Hsets. rewrite (mget_top_sets lc metric ctx rows stages n k sets Hnd Hk Hsets).
  pose proof (ranking_ids lc metric ctx rows k) as [Hids Hall].
  pose proof (ranking_entry lc metric ctx rows k) as Hent.
  pose proof (ranking_sorted lc metric ctx rows k Hrows Hbound) as Hsort.
  set (S := ranking lc metric ctx rows k) in *. unfold slice_to.
  set (m := Z.to_nat (Z.min n (Z.of_nat (length S)))).
  pose proof (limit_positive _ _ Hlimit) as Hn.
  assert (NoDup (map (λ rank, p_id (r_node rank)) (take m S))) as Hkept.
  { eapply sublist_NoDup; [exact Hids|]. apply (fmap_sublist (λ rank, p_id (r_node rank))), sublist_take. }
  rewrite uniq_id by done. eexists. split; [done|].
  rewrite length_map, length_take. split_and!; [done | unfold m; lia | |].
  - intros id (rank & -> & Hr)%list_elem_of_fmap. apply Hent. eapply elem_of_sublist; [exact Hr | apply sublist_take].
  - intros row Hrow Hout. specialize (Hall row Hrow).
    apply list_elem_of_fmap in Hall as (rank & Hid & Hr). rewrite Hid in *.
    assert (rank ∈ drop m S) as Hdrop.
    { rewrite <-(take_drop m S), elem_of_app in Hr. destruct Hr as [Hr|?]; [|done].
      destruct Hout. by apply (list_elem_of_fmap_2 (λ rank, p_id (r_node rank))). }
    split.
    + assert (m < length S)%nat; [|unfold m in *; lia].
      apply Nat.nle_gt. intros Hle. rewrite drop_ge in Hdrop by done. set_solver.
    + intros id (rank' & -> & Hr')%list_elem_of_fmap.
      rewrite <-(proj1 (Hent rank Hr)). rewrite <-(proj1 (Hent rank' ltac:(eapply elem_of_sublist; [exact Hr' | apply sublist_take]))).
      by apply (StronglySorted_take_drop (λ x y, num_leb (r_value y) (r_value x) = true) m S).
Qed.

Definition sample_sets : list (FlowNodeKind * list jsstr) :=
  default [] (buildTopNodeSets cmp_code_units sample_rows Quota (getFlowStages RoleAdmin) (Some 1%Z) None).

Lemma top_nodes_witness :
  ∃ kept, mget User sample_sets = Some kept ∧ NoDup kept ∧ (Z.of_nat (length kept) ≤ 1)%Z
    ∧ (∀ id, id ∈ kept → ∃ row, row ∈ sample_rows ∧ stage_key User None row = id)
    ∧ (∀ row, row ∈ sample_rows → stage_key User None row ∉ kept →
         Z.of_nat (length kept) = 1%Z
         ∧ ∀ id, id ∈ kept → num_leb (node_total sample_rows Quota None User (stage_key User None row))
                                      (node_total sample_rows Quota None User id) = true).
Proof.
  apply (top_nodes cmp_code_units Quota None sample_rows (getFlowStages RoleAdmin) (Some (num_of_Z 1))).
  - vm_compute. reflexivity.
  - apply (bool_decide_eq_true_1 _). vm_compute. reflexivity.
  - vm_compute. reflexivity.
  - apply NoDup_stages.
  - simpl. constructor.
  - vm_compute. reflexivity.
Defined.

Lemma nodes_sorted_witness :
  StronglySorted (λ a b, num_leb (n_value b) (n_value a) = true) (nodes sample_graph).
Proof.
  apply (nodes_sorted cmp_code_units).
  - apply (bool_decide_eq_true_1 _). vm_compute. reflexivity.
  - vm_compute. reflexivity.
Defined.

(** ** What the limit does to the paths *)

(** A node that is kept. *)
Definition kept_node (sets : list (FlowNodeKind * list jsstr)) (n : FlowPathNode) : bool :=
  match mget (p_kind n) sets with None => true | Some ids => bool_decide (p_id n ∈ ids) end.

Lemma isTop_kept sets n : isTopFlowNode n (Some sets) = kept_node sets n.
Proof. reflexivity. Qed.

Lemma map_kept {A} (p : A → bool) f (l : list A) :
  (∀ x, x ∈ l → p x = true) → l = map (λ x, if p x then x else f x) l.
Proof.
  induction l as [|x l IH]; intros H; [done|]. simpl. rewrite (H x) by constructor.
  f_equal. apply IH. intros y Hy. apply H. by constructor.
Qed.

Lemma apply_limit p sets mode labeler :
  applyTopNodeLimit p (Some sets) mode labeler
  = if forallb (kept_node sets) p then Some p
    else match mode with
         | Hide => None
         | Aggregate => Some (map (λ n, if kept_node sets n then n else otherFlowNode (p_kind n) labeler) p)
         end.
Proof.
  unfold applyTopNodeLimit.
  assert (existsb (λ n, negb (isTopFlowNode n (Some sets))) p = negb (forallb (kept_node sets) p)) as ->.
  { induction p as [|n p IH]; [done|]. cbn [existsb forallb]. rewrite IH, isTop_kept.
    by destruct (kept_node sets n). }
  by rewrite negb_involutive.
Qed.

Lemma prepare_all rows stages mode labeler ctx :
  preparePaths rows stages None mode labeler ctx
  = map (λ row, {| path := flowPathForStages row stages ctx; metrics := rowMetrics row |}) rows.
Proof. unfold preparePaths. induction rows as [|row rows IH]; csimpl; [done | by f_equal]. Qed.

Lemma prepare_aggregate rows stages sets labeler ctx :
  preparePaths rows stages (Some sets) Aggregate labeler ctx
  = map (λ row,
      {| path := map (λ n, if kept_node sets n then n else otherFlowNode (p_kind n) labeler)
                     (flowPathForStages row stages ctx);
         metrics := rowMetrics row |}) rows.
Proof.
  unfold preparePaths.
  induction rows as [|row rows IH]; [done|]. cbn [omap list_omap map]. rewrite apply_limit.
  destruct (forallb (kept_node sets) (flowPathForStages row stages ctx)) eqn:E; csimpl; f_equal;
    try exact IH. f_equal. apply map_kept. by rewrite forallb_forall_elem in E.
Qed.

Lemma prepare_hide rows stages sets labeler ctx :
  preparePaths rows stages (Some sets) Hide labeler ctx
  = map (λ row, {| path := flowPathForStages row stages ctx; metrics := rowMetrics row |})
      (List.filter (λ row, forallb (kept_node sets) (flowPathForStages row stages ctx)) rows).
Proof.
  unfold preparePaths.
  induction rows as [|row rows IH]; [done|]. cbn [omap list_omap List.filter]. rewrite apply_limit.
  destruct (forallb (kept_node sets) (flowPathForStages row stages ctx)); csimpl; [f_equal|]; exact IH.
Qed.

(** What overflows the limit.  In [aggregate] mode no row is lost: there is
    one path per row with the metrics of the row, in which exactly the nodes
    that are not kept are replaced by the aggregate node of their stage.  In
    [hide] mode the paths are those of the rows all of whose nodes are kept,
    unchanged.  Without a limit every row has its own path. *)
Theorem overflow_paths (rows : list FlowQuotaDataItem) (stages : list FlowNodeKind)
    (sets : list (FlowNodeKind * list jsstr)) (mode : FlowOverflowMode)
    (labeler : option (FlowNodeKind → jsstr)) (ctx : FlowPathContext) :
  let row_path row := {| path := flowPathForStages row stages ctx; metrics := rowMetrics row |} in
  preparePaths rows stages None mode labeler ctx = map row_path rows
  ∧ preparePaths rows stages (Some sets) Aggregate labeler ctx
    = map (λ row,
        {| path := map (λ n, if kept_node sets n then n else otherFlowNode (p_kind n) labeler)
                       (flowPathForStages row stages ctx);
           metrics := rowMetrics row |}) rows
  ∧ preparePaths rows stages (Some sets) Hide labeler ctx
    = map row_path (List.filter (λ row, forallb (kept_node sets) (flowPathForStages row stages ctx)) rows).
Proof.
  split_and!; [apply prepare_all | apply prepare_aggregate | apply prepare_hide].
Qed.
