(* ===== verification/FlowShares.v ===== *)
(** * Shares of the links *)

From Stdlib Require Import ZArith.
From S2P Require Import Prelude JsString JsNumber JsNumberFacts JsCollections JsValue Flow FlowFacts FlowGraph FlowConservation FlowHighlight FlowFilters.

Section shares.
Context (lc : jsstr → jsstr → num) (colors : ColorScheme * list ColorScheme).
Context (rows : list FlowQuotaDataItem) (metric : FlowMetric) (r : FlowRole)
  (palette : option (list jsstr)) (visible : option (list FlowNodeKind))
  (ctx : FlowPathContext) (options : FlowGraphOptions).

Abbreviation g := (graph lc colors rows metric r palette visible ctx options).
Abbreviation ps := (graph_paths lc rows metric r visible ctx options).
Abbreviation stages := (resolveVisibleStages r visible).

(** Whether an id is the root of a path. *)
Definition is_root (k : jsstr) : bool := bool_decide (k ∈ uniq (root_ids ps)).

Lemma path_cons p : p ∈ ps → ∃ x y q, path p = x :: y :: q ∧ node_wf x ∧ head stages = Some (p_kind x).
Proof.
  intros Hp. destruct (path_ok_of lc rows metric r visible ctx options p Hp) as [Hk Hw].
  pose proof (visible_length r visible) as Hlen. rewrite <-Hk in *.
  destruct (path p) as [|x [|y q]]; [simpl in Hlen; lia | simpl in Hlen; lia|].
  inversion Hw. by exists x, y, q.
Qed.

Lemma is_root_spec k : is_root k = true ↔ ∃ p x, p ∈ ps ∧ head (path p) = Some x ∧ p_id x = k.
Proof.
  unfold is_root. rewrite bool_decide_eq_true, elem_of_uniq. unfold root_ids.
  rewrite elem_of_filterb, list_elem_of_omap. setoid_rewrite fmap_Some. split.
  - intros [(p & Hp & x & Hx & ->) _]. eauto.
  - intros (p & x & Hp & Hx & <-). split; [eauto 10|].
    destruct (path_cons p Hp) as (x' & y & q & Eq & Hw & _). rewrite Eq in Hx. simplify_eq/=.
    unfold node_wf in Hw. apply truthy_str_true. by destruct (p_id x).
Qed.

(** A root is of the first stage. *)
Lemma is_root_kind p x : p ∈ ps → x ∈ path p → is_root (p_id x) = true → head stages = Some (p_kind x).
Proof.
  intros Hp Hx (p' & x' & Hp' & Hx' & Hid)%is_root_spec.
  destruct (path_cons p' Hp') as (x'' & y & q & Eq & Hw' & Hh). rewrite Eq in Hx'. simplify_eq/=.
  destruct (path_ok_of lc rows metric r visible ctx options p Hp) as [_ Hw].
  rewrite Forall_forall in Hw. specialize (Hw x Hx). rewrite Hh. f_equal. apply initial_inj.
  unfold node_wf in *. congruence.
Qed.

Lemma root_step_unique p st st' :
  p ∈ ps → st ∈ steps (path p) → st' ∈ steps (path p) →
  is_root (p_id (fst st)) = true → is_root (p_id (fst st')) = true → st = st'.
Proof.
  intros Hp Hst Hst' H H'. pose proof (elem_of_steps _ _ Hst) as [Hx _].
  pose proof (elem_of_steps _ _ Hst') as [Hx' _].
  pose proof (path_ok_of lc rows metric r visible ctx options p Hp) as Hok.
  apply (is_root_kind p) in H, H'; try done.
  assert (fst st = fst st') as E.
  { apply (NoDup_map_inj p_kind (path p)); [|done|done|congruence].
    destruct Hok as [-> _]. apply NoDup_visible. }
  apply (endpoint_unique lc rows metric r visible ctx options source_end (p_id (fst st)) p); auto;
    apply bool_decide_eq_true; simpl; congruence.
Qed.

Lemma root_step_exists p : p ∈ ps → existsb (λ st, is_root (p_id (fst st))) (steps (path p)) = true.
Proof.
  intros Hp. destruct (path_cons p Hp) as (x & y & q & Eq & _). rewrite Eq, steps_cons. simpl.
  apply orb_true_iff. left. apply is_root_spec. exists p, x. by rewrite Eq.
Qed.

Lemma share_of l :
  l ∈ links g →
  l_share l = (let total := js_sum (map l_value (List.filter (λ l, is_root (l_source l)) (links g))) in
               if positive total then num_div (l_value l) total else num_zero).
Proof.
  pose proof (graph_links lc colors rows metric r palette visible ctx options) as Hlinks.
  assert (share_total lc rows metric r visible ctx options
            (sorted_links lc colors rows metric r palette visible ctx options)
          = js_sum (map l_value (List.filter (λ l, is_root (l_source l)) (links g)))) as Htotal.
  { unfold share_total, js_sum. generalize num_zero.
    induction Hlinks as [|l0 l1 ls ls' (c & a & h & ->) _ IH]; intros z; [done|].
    cbn [List.filter]. unfold is_root at 1. simpl.
    case_bool_decide; simpl; rewrite IH; done. }
  intros [i Hi]%list_elem_of_lookup. destruct (Forall2_lookup_r _ _ _ _ _ Hlinks Hi) as (l0 & _ & c & a & h & ->).
  cbv zeta. rewrite <-Htotal. done.
Qed.

(** The share of a link is its part of the whole.  When the metric of every
    path is a non-negative integer, the sum over the paths is below [2^53] and
    no id contains the separator of the link keys, the total the shares are
    taken of is that sum, every path being counted once, and the share is the
    correctly rounded quotient (zero when the sum is zero). *)
Theorem shares_of_total
    (Hint : Forall (integral metric) ps) (Hbound : (sumZ (map (weight metric) ps) < 2 ^ 53)%Z)
    (Hsep : Forall separable ps) :
  ∀ l, l ∈ links g →
    let total := sumZ (map (weight metric) ps) in
    l_share l = if (0 <? total)%Z then num_div (l_value l) (num_of_Z total) else num_zero.
Proof.
  intros l Hl total. rewrite (share_of l Hl). cbv zeta.
  assert (js_sum (map l_value (List.filter (λ l, is_root (l_source l)) (links g))) = num_of_Z total) as ->.
  { etrans; [apply (endpoint_sum lc colors rows metric r palette visible ctx options Hint Hbound Hsep
                      source_end is_root); [auto | intros p st st'; apply root_step_unique]|].
    rewrite (sum_over_exact lc rows metric r visible ctx options Hint Hbound). f_equal. unfold total.
    do 2 f_equal. apply filterb_all. intros p Hp. by apply root_step_exists. }
  assert (0 ≤ total)%Z as Hpos.
  { apply sumZ_nonneg, Forall_map. eapply Forall_impl; [exact Hint|]. by intros p [_ ?]. }
  unfold positive. change num_zero with (num_of_Z 0) at 1.
  rewrite num_ltb_exact by (unfold safe; lia). done.
Qed.
End shares.

Lemma shares_of_total_witness :
  Forall (λ l, l_share l = num_div (l_value l) (num_of_Z 220)) (links sample_graph).
Proof.
  apply Forall_forall. intros l Hl.
  assert (sumZ (map (weight Quota)
            (graph_paths cmp_code_units sample_rows Quota RoleAdmin None None no_graph_options)) = 220%Z) as T
    by (vm_compute; reflexivity).
  refine (eq_trans (shares_of_total cmp_code_units no_schemes sample_rows Quota RoleAdmin None None None
           no_graph_options _ _ _ l Hl) _).
  - apply (bool_decide_eq_true_1 _). vm_compute. reflexivity.
  - rewrite T. reflexivity.
  - apply (bool_decide_eq_true_1 _). vm_compute. reflexivity.
  - cbv zeta. by rewrite T.
Defined.
