(* ===== verification/FlowColors.v ===== *)
(** * Colours and the dashboard as a whole

    The colour maps of the chart, and [buildDashboardFlowData]: the cards above
    the chart agree with the stages of the chart. *)

From Stdlib Require Import ZArith ZifyN.
From S2P Require Import Prelude JsString JsNumber JsNumberFacts JsCollections JsValue Json JsonFacts Flow FlowFacts FlowGraph FlowConservation FlowHighlight FlowFilters FlowTop.

Ltac Zify.zify_post_hook ::= Z.div_mod_to_equations.

(** ** Hexadecimal colours *)

(** A byte as two hexadecimal digits. *)
Definition hex2 (n : N) : jsstr := [hex_digit (n / 16); hex_digit (n mod 16)].

Lemma hex_digit_not_ws d : (d < 16)%N → is_ws (hex_digit d) = false.
Proof.
  intros Hd. unfold hex_digit. destruct (N.ltb_spec d 10); unfold is_ws;
    rewrite !orb_false_iff, !andb_false_iff, !N.leb_gt, !N.eqb_neq; lia.
Qed.

Lemma hex_digit_ok d : (d < 16)%N → is_hex_digit (hex_digit d) = true.
Proof. intros Hd. unfold is_hex_digit. by rewrite digit_of_hex_digit. Qed.

Lemma parse_hex_bytes r g b :
  (r < 256)%N → (g < 256)%N → (b < 256)%N →
  parse_hex (hex2 r ++ hex2 g ++ hex2 b) = Z.of_N (65536 * r + 256 * g + b).
Proof.
  intros Hr Hg Hb. unfold parse_hex, hex2. cbn [app parse_radix].
  rewrite !digit_of_hex_digit by lia. f_equal. lia.
Qed.

Lemma low_byte z : (0 ≤ z)%Z → Z.land z 255 = (z mod 256)%Z.
Proof. intros Hz. change 255%Z with (Z.ones 8). by rewrite Z.land_ones. Qed.

(** The hash is dropped, and a digit is not a hash. *)
Lemma drop_hash r rest hash :
  (r < 256)%N → hash ∈ [js "#"; []] →
  (if starts_with (hash ++ hex2 r ++ rest) (js "#") then drop 1 (hash ++ hex2 r ++ rest)
   else hash ++ hex2 r ++ rest) = hex2 r ++ rest.
Proof.
  intros Hr [-> | ->%list_elem_of_singleton]%elem_of_cons.
  - rewrite (proj2 (starts_with_spec _ _)) by (by eexists). reflexivity.
  - assert (starts_with ([] ++ hex2 r ++ rest) (js "#") = false) as ->; [|done].
    apply not_true_iff_false. rewrite starts_with_spec. intros [k Hk].
    assert (hex_digit (r / 16) = 35%N) as E by (by injection Hk). revert E.
    unfold hex_digit. destruct (N.ltb_spec (r / 16) 10); lia.
Qed.

(** A six-digit hexadecimal colour becomes the [rgba] colour of its three
    bytes with the alpha, printed with two decimals, folded in; with or without
    the hash.  Any other text is returned trimmed, with its alpha beside it. *)
Theorem alpha_color_spec (alpha : num) :
  (∀ r g b hash, (r < 256)%N ∧ (g < 256)%N ∧ (b < 256)%N ∧ hash ∈ [js "#"; []] →
     alphaColor (hash ++ hex2 r ++ hex2 g ++ hex2 b) alpha
     = (js "rgba(" ++ dec_of_N r ++ js ", " ++ dec_of_N g ++ js ", " ++ dec_of_N b ++ js ", "
          ++ num_to_fixed alpha 2 ++ js ")", num_of_Z 1))
  ∧ (∀ color, (∀ hash hex, trim color = hash ++ hex → hash ∈ [js "#"; []] →
                 ¬ (length hex = 6 ∧ Forall (λ c, is_hex_digit c = true) hex)) →
     alphaColor color alpha = (trim color, alpha)).
Proof.
  split.
  - intros r g b hash (Hr & Hg & Hb & Hh). unfold alphaColor.
    assert (trim (hash ++ hex2 r ++ hex2 g ++ hex2 b) = hash ++ hex2 r ++ hex2 g ++ hex2 b) as ->.
    { apply trim_no_ws. rewrite forallb_app. unfold hex2. cbn [app forallb].
      rewrite !hex_digit_not_ws by lia.
      apply elem_of_cons in Hh as [-> | ->%list_elem_of_singleton]; reflexivity. }
    rewrite drop_hash by done.
    assert (forallb is_hex_digit (hex2 r ++ hex2 g ++ hex2 b) = true) as ->.
    { unfold hex2. cbn [app forallb]. by rewrite !hex_digit_ok by lia. }
    change (Nat.eqb (length (hex2 r ++ hex2 g ++ hex2 b)) 6) with true. cbn [negb andb].
    rewrite parse_hex_bytes, !Z.shiftr_div_pow2, !low_byte by lia.
    assert (∀ z n, z = Z.of_N n → dec_of_Z z = dec_of_N n) as Hdec by (intros z n ->; by destruct n).
    rewrite (Hdec _ r), (Hdec _ g), (Hdec _ b) by lia. done.
  - intros color Hno. unfold alphaColor.
    destruct (Nat.eqb (length (if starts_with (trim color) (js "#") then drop 1 (trim color) else trim color)) 6
              && forallb is_hex_digit (if starts_with (trim color) (js "#") then drop 1 (trim color)
                                       else trim color)) eqn:E; [|done].
    exfalso. apply andb_true_iff in E as [Hl Hf]. apply Nat.eqb_eq in Hl.
    rewrite forallb_forall_elem, <-Forall_forall in Hf.
    destruct (starts_with (trim color) (js "#")) eqn:Es.
    + apply starts_with_spec in Es as [k Hk]. apply (Hno (js "#") k); [done | set_solver|].
      rewrite Hk in Hl, Hf. done.
    + apply (Hno [] (trim color)); [done | set_solver | done].
Qed.

(** ** Colour maps *)

Lemma fold_colors schemes colors (l : list jsstr) f acc :
  NoDup l →
  (∀ i k, l !! i = Some k →
     mget k (fold_left (λ m '(index, key), mset key (colorAt schemes (f index) (Some colors)) m)
               (imap pair l) acc) = Some (colorAt schemes (f i) (Some colors)))
  ∧ (∀ k, k ∉ l →
     mget k (fold_left (λ m '(index, key), mset key (colorAt schemes (f index) (Some colors)) m)
               (imap pair l) acc) = mget k acc).
Proof.
  revert f acc. induction l as [|x l IH]; intros f acc Hnd; [done|].
  apply NoDup_cons in Hnd as [Hx Hnd]. cbn [imap fold_left].
  destruct (IH (λ i, f (S i)) (mset x (colorAt schemes (f O) (Some colors)) acc) Hnd) as [IH1 IH2].
  assert (∀ acc', fold_left (λ m '(index, key), mset key (colorAt schemes (f index) (Some colors)) m)
                   (imap (λ i, pair (S i)) l) acc'
          = fold_left (λ m '(index, key), mset key (colorAt schemes (f (S index)) (Some colors)) m)
                   (imap pair l) acc') as Hshift.
  { intros acc'. rewrite (imap_shift l), fold_left_map. apply fold_left_ext. by intros a [i k]. }
  split.
  - intros [|i] k Hk; simplify_eq/=; rewrite Hshift; [|by apply IH1].
    rewrite IH2 by done. apply mget_mset_eq.
  - intros k [Hkx Hk]%not_elem_of_cons. rewrite Hshift, IH2 by done. by rewrite mget_mset_ne.
Qed.

(** A colour map is stable: the i-th distinct key gets the i-th colour of
    the palette, cyclically, and keys that were not given get none. *)
Theorem stable_color_map_spec (schemes : ColorScheme * list ColorScheme) (keys : list jsstr)
    (palette : option (list jsstr)) :
  let colors := colorPalette schemes (length (uniq keys)) palette in
  colors ≠ []
  ∧ (∀ i k, uniq keys !! i = Some k →
       ∃ c, mget k (stableColorMap schemes keys palette) = Some c
            ∧ colors !! (i mod length colors)%nat = Some c)
  ∧ (∀ k, mget k (stableColorMap schemes keys palette) = None ↔ k ∉ keys).
Proof.
  cbv zeta. unfold stableColorMap.
  set (colors := colorPalette schemes (length (uniq keys)) palette).
  assert (colors ≠ []) as Hne.
  { unfold colors, colorPalette. destruct palette as [[|c p]|]; [|done|];
      by destruct (getDashboardChartColors _ _). }
  pose proof (fold_colors schemes colors) as Hfold.
  destruct (Hfold (uniq keys) (λ i, i) [] (NoDup_uniq keys)) as [H1 H2]. cbv beta in H1, H2. split_and!; [done | |].
  - intros i k Hk. rewrite (H1 i k Hk). eexists. split; [done|].
    unfold colorAt. destruct colors as [|c cs] eqn:E; [done|].
    destruct (lookup_lt_is_Some_2 (c :: cs) (i mod length (c :: cs))%nat) as [c' Hc'].
    { apply Nat.mod_upper_bound. done. }
    by rewrite Hc'.
  - intros k. split.
    + intros Hk Hin. apply elem_of_uniq, list_elem_of_lookup in Hin as [i Hi].
      by rewrite (H1 i k Hi) in Hk.
    + intros Hk. rewrite H2; [done|]. by rewrite elem_of_uniq.
Qed.

(** ** The dashboard *)

Section dashboard.
Context (lc : jsstr → jsstr → num) (fmt : num → jsstr) (colors : ColorScheme * list ColorScheme).
Context (rows : list FlowQuotaDataItem) (metric : FlowMetric) (options : FlowBuildOptions).

Definition dashboard_role : FlowRole := default DEFAULT_FLOW_ROLE (role options).

(** The rows that pass both filters. *)
Definition dashboard_rows : list FlowQuotaDataItem :=
  List.filter (λ row, forallb (agrees (selectedNodes options) (o_deletedTokenLabel options) row)
                        (resolveVisibleStages dashboard_role (visibleStages options)))
    (List.filter (λ row, bool_decide (default [] (selectedUsers options) = [])
                         || bool_decide (p_id (userNode row) ∈ default [] (selectedUsers options))) rows).

Definition dashboard_graph_options : FlowGraphOptions :=
  {| g_topNodeLimit := topNodeLimit options; g_overflowMode := overflowMode options;
     g_otherNodeLabel := otherNodeLabel options; g_activeNode := activeNode options;
     g_activeLink := activeLink options; g_maskSensitive := maskSensitive options |}.

Lemma buildSummary_sums rs :
  buildSummary rs
  = {| sum_quota := js_sum (map (λ row, m_quota (rowMetrics row)) rs);
       sum_tokens := js_sum (map (λ row, m_tokens (rowMetrics row)) rs);
       sum_requests := js_sum (map (λ row, m_requests (rowMetrics row)) rs) |}.
Proof.
  unfold buildSummary, js_sum. generalize num_zero at 1 4 as a. generalize num_zero at 1 3 as b.
  generalize num_zero as c. induction rs as [|row rs IH]; intros c b a; [done|].
  cbn [fold_left map sum_quota sum_tokens sum_requests]. apply IH.
Qed.

(** Without a limit on the nodes of a stage, or where the others are put
    together, every row is in the graph. *)
Definition shows_all : Prop :=
  default Aggregate (overflowMode options) = Aggregate ∨ normalizeTopNodeLimit (topNodeLimit options) = None.

(** The paths of the graph carry the metrics of some of the rows. *)
Lemma graph_rows :
  ∃ shown, map metrics (graph_paths lc dashboard_rows metric dashboard_role (visibleStages options)
                          (o_deletedTokenLabel options) dashboard_graph_options)
           = map rowMetrics (List.filter shown dashboard_rows)
    ∧ (shows_all → List.filter shown dashboard_rows = dashboard_rows).
Proof.
  unfold graph_paths, shows_all. cbn [g_topNodeLimit g_overflowMode dashboard_graph_options].
  assert (∀ l : list FlowQuotaDataItem, List.filter (λ _, true) l = l) as Hall by (intros l; by apply filterb_all).
  destruct (buildTopNodeSets _ _ _ _ _ _) as [sets|] eqn:Es.
  - destruct (overflowMode options) as [[]|] eqn:Em; cbn [default from_option id]; unfold DEFAULT_FLOW_OVERFLOW_MODE.
    + exists (λ _, true). by rewrite prepare_aggregate, map_map, Hall.
    + eexists. rewrite prepare_hide, map_map. split; [reflexivity|]. intros [?|En]; [done|]. by rewrite En in Es.
    + exists (λ _, true). by rewrite prepare_aggregate, map_map, Hall.
  - exists (λ _, true). by rewrite prepare_all, map_map, Hall.
Qed.

(** The card of the chosen metric. *)
Definition card (s : FlowSummary) : num :=
  match metric with Requests => sum_requests s | Tokens => sum_tokens s | Quota => sum_quota s end.

(** The values of the nodes of a stage, added up. *)
Definition stage_total (g : DashboardFlowGraph) (k : FlowNodeKind) : num :=
  js_sum (map n_value (List.filter (λ n, bool_decide (n_kind n = k)) (nodes g))).

Lemma card_sum rs : card (buildSummary rs) = js_sum (map (λ row, metricValue (rowMetrics row) metric) rs).
Proof. rewrite buildSummary_sums. unfold card. by destruct metric. Qed.

(** C36: the cards of the dashboard and the chart below them agree.  When the
    chosen metric of the rows that pass the user filter and the node filter is
    a non-negative integer and their sum is below [2^53], the values of the
    nodes of a stage add up to the same total for every visible stage; it is
    at most the card of that metric, and equal to it unless a limit on the nodes
    of a stage is set and the rows beyond it are hidden. *)
Theorem cards_and_stages :
  Forall (integral_row metric) dashboard_rows → (sumZ (map (row_weight metric) dashboard_rows) < 2 ^ 53)%Z →
  let data := buildDashboardFlowData lc fmt colors rows metric options in
  ∃ total : Z,
    (∀ k, k ∈ resolveVisibleStages dashboard_role (visibleStages options) →
       stage_total (flow data) k = num_of_Z total)
    ∧ num_leb (num_of_Z total) (card (summary data)) = true
    ∧ (shows_all → card (summary data) = num_of_Z total).
Proof.
  intros Hint Hbound data. subst data. unfold buildDashboardFlowData. cbn [summary flow].
  rewrite filterRows_eq, filterRowsByNodes_eq by apply NoDup_visible.
  fold dashboard_role. fold dashboard_rows. rewrite card_sum.
  assert (Forall (λ row, 0 ≤ row_weight metric row)%Z dashboard_rows) as Hw
    by (eapply Forall_impl; [exact Hint|]; by intros row [_ ?]).
  assert (js_sum (map (λ row, metricValue (rowMetrics row) metric) dashboard_rows)
          = num_of_Z (sumZ (map (row_weight metric) dashboard_rows))) as ->.
  { rewrite <-js_sum_exact by (done || by apply Forall_map). f_equal. rewrite map_map.
    apply map_ext_in. intros row Hr%list_elem_of_In. rewrite Forall_forall in Hint. by apply Hint. }
  destruct graph_rows as (shown & Hshown & Hall). set (ps := graph_paths _ _ _ _ _ _ _) in *.
  pose proof (sumZ_filter_le shown (row_weight metric) dashboard_rows Hw) as Hle.
  pose (of_metrics m := default 0%Z (num_to_Z (metricValue m metric))).
  assert (sumZ (map (weight metric) ps) = sumZ (map (row_weight metric) (List.filter shown dashboard_rows))) as Hs.
  { change (weight metric) with (λ p, of_metrics (metrics p)).
    change (row_weight metric) with (λ row, of_metrics (rowMetrics row)).
    by rewrite <-(map_map metrics of_metrics), <-(map_map rowMetrics of_metrics), Hshown. }
  assert (Forall (integral metric) ps) as Hps.
  { apply Forall_forall. intros p Hp. assert (metrics p ∈ map metrics ps) as Hm by by apply (list_elem_of_fmap_2 metrics).
    rewrite Hshown in Hm. apply list_elem_of_fmap in Hm as (row & E & [Hr _]%elem_of_filterb).
    rewrite Forall_forall in Hint. destruct (Hint row Hr) as [H1 H2]. unfold integral, weight. by rewrite E. }
  exists (sumZ (map (weight metric) ps)). split_and!.
  - intros k Hk. apply (stage_sum lc colors dashboard_rows metric dashboard_role (o_colorPalette options)
      (visibleStages options) (o_deletedTokenLabel options) dashboard_graph_options); [done | | done].
    change (sumZ (map (weight metric) ps) < 2 ^ 53)%Z. lia.
  - rewrite num_leb_exact by (unfold safe; lia). apply Z.leb_le. lia.
  - intros H. by rewrite Hs, Hall.
Qed.
End dashboard.

(** ** Concrete data *)

(** The three rows of [FlowConservation], by quota, at most one node of a stage
    being shown and the others put together. *)
Definition sample_options : FlowBuildOptions :=
  {| role := None; selectedUsers := None; selectedNodes := None; activeNode := None; activeLink := None;
     o_colorPalette := None; visibleStages := None; topNodeLimit := Some (num_of_Z 1); overflowMode := None;
     maskSensitive := None; o_deletedTokenLabel := None; otherNodeLabel := None |}.

Lemma cards_and_stages_witness :
  let data := buildDashboardFlowData cmp_code_units num_to_string no_schemes sample_rows Quota sample_options in
  sum_quota (summary data) = num_of_Z 220
  ∧ ∃ total : Z,
    (∀ k, k ∈ resolveVisibleStages (dashboard_role sample_options) (visibleStages sample_options) →
       stage_total (flow data) k = num_of_Z total)
    ∧ num_leb (num_of_Z total) (card Quota (summary data)) = true
    ∧ (shows_all sample_options → card Quota (summary data) = num_of_Z total).
Proof.
  split; [vm_compute; reflexivity|].
  apply (cards_and_stages cmp_code_units num_to_string no_schemes sample_rows Quota sample_options);
    apply (bool_decide_eq_true_1 _); vm_compute; reflexivity.
Defined.
