(* ===== verification/FlowSankey.v ===== *)
(** * Chart data of the usage graph and its selection (flow.ts, flow-selection.ts)

    The data the Sankey chart is given, and the way back from a datum the chart
    reports on a click to a node filter.  A reported datum is an arbitrary
    JavaScript value.  The styling part of the specification is not modelled. *)

From Stdlib Require Import ZArith.
From stdpp Require Import sorting.
From S2P Require Import Prelude JsString JsNumber JsNumberFacts JsCollections JsOrder JsValue Flow.

(** ** Data given to the chart *)

(** [Number(flag)] of an optional flag. *)
Definition flag_number (b : option bool) : num :=
  match b with None => num_nan | Some true => num_of_Z 1 | Some false => num_zero end.

(** [undefined] or a boolean. *)
Definition flag_val (b : option bool) : val := match b with None => VUndef | Some b => VBool b end.

Definition node_datum (n : DashboardFlowNode) : val :=
  VObj [(js "key", VStr (n_id n)); (js "name", VStr (n_label n)); (js "rawLabel", VStr (n_label n));
        (js "kind", VStr (kind_str (n_kind n))); (js "value", VNum (n_value n));
        (js "requests", VNum (n_requests n)); (js "quota", VNum (n_quota n));
        (js "tokens", VNum (n_tokens n)); (js "color", VStr (n_color n));
        (js "colorKey", VStr (n_colorKey n)); (js "highlighted", flag_val (n_highlighted n));
        (js "dimmed", flag_val (n_dimmed n))].

Definition z_index (index : nat) (l : DashboardFlowLink) : num :=
  if default false (l_highlighted l) then num_of_Z (1000000 + Z.of_nat index)
  else if default false (l_dimmed l) then num_of_Z (Z.of_nat index)
  else num_of_Z (100000 + Z.of_nat index).

Definition link_datum (index : nat) (l : DashboardFlowLink) : val :=
  VObj [(js "source", VStr (l_source l)); (js "target", VStr (l_target l));
        (js "linkKey", VStr (linkStableKey l)); (js "sourceLabel", VStr (l_sourceLabel l));
        (js "targetLabel", VStr (l_targetLabel l)); (js "value", VNum (l_value l));
        (js "requests", VNum (l_requests l)); (js "quota", VNum (l_quota l));
        (js "tokens", VNum (l_tokens l)); (js "color", VStr (l_color l));
        (js "linkColor", VStr (l_linkColor l)); (js "linkAlpha", VNum (l_linkAlpha l));
        (js "hoverColor", VStr (l_hoverColor l)); (js "colorKey", VStr (l_colorKey l));
        (js "share", VNum (l_share l)); (js "highlighted", flag_val (l_highlighted l));
        (js "dimmed", flag_val (l_dimmed l)); (js "zIndex", VNum (z_index index l))].

Section chart.
Variable locale_compare : jsstr → jsstr → num.

Definition byLinkDrawPriority (a b : DashboardFlowLink) : num :=
  num_or (num_sub (flag_number (l_dimmed a)) (flag_number (l_dimmed b)))
    (num_or (num_sub (flag_number (l_highlighted b)) (flag_number (l_highlighted a)))
       (link_value_order locale_compare a b)).

(** The links that are drawn, in drawing order. *)
Definition drawn_links (links : list DashboardFlowLink) : list DashboardFlowLink :=
  js_sort byLinkDrawPriority (List.filter (λ link, num_ltb num_zero (l_value link)) links).

(** [data[0].values[0]] of the specification: the nodes and the links. *)
Definition buildFlowSankeySpec (flow : DashboardFlowGraph) : list val * list val :=
  (map node_datum (nodes flow), imap link_datum (drawn_links (links flow))).
End chart.

(** ** Data reported by the chart *)

Definition recordValue (value : val) : option val :=
  match value with VObj _ | VArr _ => Some value | _ => None end.

(** [l[depth]]. *)
Definition element_at (l : list val) (depth : num) : val :=
  match num_to_Z depth with
  | Some z => if ((0 <=? z) && (z <? Z.of_nat (length l)))%Z
              then default VUndef (l !! Z.to_nat z) else VUndef
  | None => VUndef
  end.

Definition sankeyDatumSource (datum : val) : res val :=
  nested ← get_prop datum (js "datum");
  match nested with
  | VArr l =>
      depth0 ← get_prop datum (js "depth");
      depth ← numberValue depth0;
      match recordValue (element_at l depth) with
      | Some v => Ok v
      | None => Ok (default datum (recordValue (element_at l num_zero)))
      end
  | _ => Ok (default datum (recordValue nested))
  end.

Definition sankeyDatumValue (datum : val) (key : jsstr) : res val :=
  v ← get_prop datum key;
  match v with
  | VUndef => source ← sankeyDatumSource datum; get_prop source key
  | _ => Ok v
  end.

Definition sankeyDatumFlag (datum : val) (key : jsstr) : res bool :=
  v ← sankeyDatumValue datum key;
  Ok (match v with VBool true => true | _ => false end).

Definition flowSankeyDatumValue (datum : val) (key : jsstr) : res val :=
  match recordValue datum with Some record => sankeyDatumValue record key | None => Ok VUndef end.

(** The second operand is evaluated only when the first holds. *)
Definition isSankeyLinkDatum (datum : val) : res bool :=
  source ← sankeyDatumValue datum (js "source");
  match source with
  | VUndef => Ok false
  | _ => target ← sankeyDatumValue datum (js "target");
         Ok (match target with VUndef => false | _ => true end)
  end.

Definition flowNodeFilterFromSankeyDatum (datum : val) : res (option FlowNodeFilter) :=
  match recordValue datum with
  | None => Ok None
  | Some record =>
      is_link ← isSankeyLinkDatum record;
      if (is_link : bool) then Ok None
      else
        id ← flowSankeyDatumValue record (js "key");
        kind ← flowSankeyDatumValue record (js "kind");
        match id with
        | VStr _ | VNum _ =>
            match isFlowNodeKind kind with
            | Some k => s ← to_string id; Ok (Some {| f_kind := k; f_id := s |})
            | None => Ok None
            end
        | _ => Ok None
        end
  end.

(** ** Selection state (flow-selection.ts) *)

Inductive FlowDisplayState := Loading | Error | Empty | Chart.

Record FlowResponse := {
  success : bool; data : option (list FlowQuotaDataItem); response_message : option jsstr
}.

(** The rows, or the message of the error thrown. *)
Definition requireSuccessfulFlowRows (response : FlowResponse) (fallbackMessage : jsstr)
    : jsstr + list FlowQuotaDataItem :=
  if negb (success response) then inl (opt_or (response_message response) fallbackMessage)
  else inr (default [] (data response)).

Definition flowDisplayState (isLoading isError : bool) (linkCount : num) (themeReady : bool)
    : FlowDisplayState :=
  if isLoading then Loading
  else if isError then Error
  else if num_eqb linkCount num_zero then Empty
  else if negb themeReady then Loading
  else Chart.

Definition compactFlowSelectionLabel (count : num) : jsstr :=
  if num_ltb num_zero count then num_to_string count else js "*".

Definition visibleFlowUsers (users : list FlowUserFilterOption) (selectedUsers : list jsstr)
    : list FlowUserFilterOption :=
  match selectedUsers with
  | [] => users
  | _ => List.filter (λ user, bool_decide (u_value user ∈ uniq selectedUsers)) users
  end.

(** ** The way back from a click *)

Lemma kind_str_back k : isFlowNodeKind (VStr (kind_str k)) = Some k.
Proof. destruct k; vm_compute; reflexivity. Qed.

Lemma get_node_datum n :
  get_prop (node_datum n) (js "source") = Ok VUndef ∧ get_prop (node_datum n) (js "datum") = Ok VUndef
  ∧ get_prop (node_datum n) (js "key") = Ok (VStr (n_id n))
  ∧ get_prop (node_datum n) (js "kind") = Ok (VStr (kind_str (n_kind n))).
Proof.
  unfold node_datum. generalize (kind_str (n_kind n)). intros k.
  split_and!; vm_compute; reflexivity.
Qed.

Lemma get_link_datum i l :
  get_prop (link_datum i l) (js "source") = Ok (VStr (l_source l))
  ∧ get_prop (link_datum i l) (js "target") = Ok (VStr (l_target l)).
Proof.
  unfold link_datum. generalize (z_index i l) (linkStableKey l). intros z k.
  split_and!; vm_compute; reflexivity.
Qed.

Lemma get_link_datum_datum i l : get_prop (link_datum i l) (js "datum") = Ok VUndef.
Proof.
  unfold link_datum. generalize (z_index i l) (linkStableKey l). intros z k. vm_compute. reflexivity.
Qed.

(** The datum itself or a wrapper around it, as the chart reports them. *)
Inductive reports (d : val) : val → Prop :=
  | reports_plain : reports d d
  | reports_datum : reports d (VObj [(js "datum", d)])
  | reports_path (l : list val) (depth : Z) :
      (0 ≤ depth < 2 ^ 53)%Z → l !! Z.to_nat depth = Some d →
      reports d (VObj [(js "datum", VArr l); (js "depth", VNum (num_of_Z depth))]).

Lemma get_prop_absent ps key : key ∉ map fst ps → get_prop (VObj ps) key = Ok VUndef.
Proof. intros Hk. cbn [get_prop]. by rewrite (proj2 (mget_None key ps) Hk). Qed.

Lemma reports_value ps v key :
  reports (VObj ps) v → key ∉ [js "datum"; js "depth"] →
  get_prop (VObj ps) (js "datum") = Ok VUndef →
  sankeyDatumValue v key = get_prop (VObj ps) key ∧ recordValue v = Some v.
Proof.
  intros Hv Hk Hdatum. unfold sankeyDatumValue, sankeyDatumSource. destruct Hv as [| |l depth Hdepth Hl].
  - split; [|done]. destruct (get_prop (VObj ps) key) as [x|e] eqn:E; run_res; [|done].
    destruct x; try done. rewrite Hdatum. run_res. cbn [recordValue default from_option id]. by rewrite E.
  - split; [|done]. rewrite (get_prop_absent [(js "datum", VObj ps)] key) by (cbn [map fst]; set_solver).
    run_res.
    assert (get_prop (VObj [(js "datum", VObj ps)]) (js "datum") = Ok (VObj ps)) as -> by reflexivity.
    by run_res.
  - split; [|done].
    rewrite (get_prop_absent [(js "datum", VArr l); (js "depth", VNum (num_of_Z depth))] key)
      by done.
    run_res.
    assert (get_prop (VObj [(js "datum", VArr l); (js "depth", VNum (num_of_Z depth))]) (js "datum")
            = Ok (VArr l)) as -> by reflexivity.
    assert (get_prop (VObj [(js "datum", VArr l); (js "depth", VNum (num_of_Z depth))]) (js "depth")
            = Ok (VNum (num_of_Z depth))) as -> by reflexivity.
    run_res. unfold numberValue. cbn [to_number]. run_res.
    assert (safe depth) as Hsafe by (unfold safe; lia).
    rewrite num_of_Z_finite by done. unfold element_at. rewrite num_to_Z_safe by done.
    pose proof (lookup_lt_Some _ _ _ Hl).
    rewrite (proj2 (Z.leb_le _ _)), (proj2 (Z.ltb_lt _ _)) by lia. cbn [andb]. by rewrite Hl.
Qed.

(** A click finds its node.  Whether the chart reports the datum of a node
    itself, wrapped in another datum, or as the element of a path at its depth,
    the node filter made from it has the kind and the id of the node; from the
    datum of a link no filter is made, and reading its ends gives the ends of
    the link. *)
Theorem click_round_trip (n : DashboardFlowNode) (i : nat) (l : DashboardFlowLink) (v w : val)
    (Hv : reports (node_datum n) v) (Hw : reports (link_datum i l) w) :
  flowNodeFilterFromSankeyDatum v = Ok (Some {| f_kind := n_kind n; f_id := n_id n |})
  ∧ flowNodeFilterFromSankeyDatum w = Ok None
  ∧ flowSankeyDatumValue w (js "source") = Ok (VStr (l_source l))
  ∧ flowSankeyDatumValue w (js "target") = Ok (VStr (l_target l)).
Proof.
  destruct (get_node_datum n) as (Esource & Edatum & Ekey & Ekind).
  assert (∀ key, key ∉ [js "datum"; js "depth"] →
            sankeyDatumValue v key = get_prop (node_datum n) key ∧ recordValue v = Some v) as Hnode
    by (intros key Hk; by apply reports_value).
  assert (∀ key, key ∉ [js "datum"; js "depth"] →
            sankeyDatumValue w key = get_prop (link_datum i l) key ∧ recordValue w = Some w) as Hlink
    by (intros key Hk; apply reports_value; [done | done | apply get_link_datum_datum]).
  destruct (get_link_datum i l) as [Es Et].
  assert ((js "source" ∉ [js "datum"; js "depth"]) ∧ (js "target" ∉ [js "datum"; js "depth"])
          ∧ (js "key" ∉ [js "datum"; js "depth"]) ∧ (js "kind" ∉ [js "datum"; js "depth"]))
    as (K1 & K2 & K3 & K4) by (split_and!; apply (bool_decide_eq_true_1 _); vm_compute; reflexivity).
  destruct (Hnode _ K1) as [N1 Rv], (Hnode _ K3) as [N3 _], (Hnode _ K4) as [N4 _].
  destruct (Hlink _ K1) as [L1 Rw], (Hlink _ K2) as [L2 _].
  unfold flowNodeFilterFromSankeyDatum, isSankeyLinkDatum, flowSankeyDatumValue.
  rewrite Rv, Rw, N1, Rv, N3, N4, L1, L2, Esource, Ekey, Ekind, Es, Et. run_res.
  by rewrite kind_str_back.
Qed.

Lemma click_round_trip_witness :
  let n := new_node {| p_id := js "user:7"; p_label := js "alice"; p_kind := User |} [] [] in
  let l := new_link {| p_id := js "user:7"; p_label := []; p_kind := User |}
                    {| p_id := js "group:vip"; p_label := []; p_kind := Group |} [] [] in
  let v := VObj [(js "datum", VArr [VNull; node_datum n]); (js "depth", VNum (num_of_Z 1))] in
  flowNodeFilterFromSankeyDatum v = Ok (Some {| f_kind := User; f_id := js "user:7" |})
  ∧ flowNodeFilterFromSankeyDatum (link_datum 0 l) = Ok None
  ∧ flowSankeyDatumValue (link_datum 0 l) (js "source") = Ok (VStr (js "user:7"))
  ∧ flowSankeyDatumValue (link_datum 0 l) (js "target") = Ok (VStr (js "group:vip")).
Proof.
  intros n l v. apply (click_round_trip n 0 l v (link_datum 0 l)).
  - by apply reports_path; [lia|].
  - constructor.
Defined.

(** ** Drawing order *)

(** The flags a graph gives its links: none, or highlighted or else dimmed. *)
Definition flagged (on : bool) (l : DashboardFlowLink) : Prop :=
  if on then ∃ h, l_highlighted l = Some h ∧ l_dimmed l = Some (negb h)
  else l_highlighted l = None ∧ l_dimmed l = None.

Lemma flag_counter b : counter (flag_number (Some b)).
Proof. destruct b; [exists 1%Z | exists 0%Z]; split; (done || lia). Qed.

Lemma lawful_asc : lawful counter (λ a b, num_sub a b).
Proof.
  split.
  - intros x y Hx Hy. apply (law_anti _ _ lawful_desc y x Hy Hx).
  - intros x y z Hx Hy Hz H1 H2. destruct Hx as (a & -> & Ha), Hy as (b & -> & Hb), Hz as (c & -> & Hc).
    rewrite !sign_sub_exact, !Z.compare_gt_iff in * by done. lia.
Qed.

Lemma lawful_const {A} (P : A → Prop) c : (∀ x y, P x → P y → sign (c x y) = Eq) → lawful P c.
Proof. intros Hc. split; intros; rewrite ?Hc; done. Qed.

Lemma link_value_lawful lc `{!LocaleCompare lc} :
  lawful (λ l, counter (l_value l)) (link_value_order lc).
Proof.
  apply (lawful_desc_then (λ l, counter (l_value l)) l_value
           (λ a b, lc (linkStableKey a) (linkStableKey b))); [done|].
  apply (lawful_weaken (λ _, True)); [done|]. apply (lawful_map linkStableKey (λ _, True)), locale_lawful.
Qed.

Lemma draw_priority_lawful lc `{!LocaleCompare lc} on :
  lawful (λ l, flagged on l ∧ counter (l_value l)) (byLinkDrawPriority lc).
Proof.
  unfold byLinkDrawPriority. apply lawful_or; [|apply lawful_or].
  - destruct on.
    + apply (lawful_weaken (λ l, counter (flag_number (l_dimmed l)))).
      * intros l [(h & _ & ->) _]. apply flag_counter.
      * apply (lawful_map (λ l, flag_number (l_dimmed l)) counter _ lawful_asc).
    + apply lawful_const. intros x y [[_ Hx] _] [[_ Hy] _]. by rewrite Hx, Hy.
  - destruct on.
    + apply (lawful_weaken (λ l, counter (flag_number (l_highlighted l)))).
      * intros l [(h & -> & _) _]. apply flag_counter.
      * apply (lawful_map (λ l, flag_number (l_highlighted l)) counter _ lawful_desc).
    + apply lawful_const. intros x y [[Hx _] _] [[Hy _] _]. by rewrite Hx, Hy.
  - eapply lawful_weaken; [|by apply link_value_lawful]. by intros l [_ ?].
Qed.

Lemma StronglySorted_lookup {A} (R : A → A → Prop) l i j x y :
  StronglySorted R l → (i < j)%nat → l !! i = Some x → l !! j = Some y → R x y.
Proof.
  intros Hs; revert i j. induction Hs as [|z l Hs IH Hz]; intros [|i] [|j] Hij Hx Hy; simplify_eq/=; try lia.
  - rewrite Forall_forall in Hz. apply Hz. by eapply list_elem_of_lookup_2.
  - apply (IH i j); [lia | done | done].
Qed.

(** What the comparator says of two drawn links. *)
Lemma draw_priority_cases lc on a b :
  flagged on a → flagged on b → counter (l_value a) → counter (l_value b) →
  sign (byLinkDrawPriority lc a b) ≠ Gt →
  if bool_decide (l_highlighted a = l_highlighted b)
  then num_leb (l_value b) (l_value a) = true
  else l_highlighted a = Some true ∧ l_highlighted b = Some false.
Proof.
  intros Ha Hb (va & Eva & Hva) (vb & Evb & Hvb). unfold byLinkDrawPriority, link_value_order, desc_then.
  rewrite !sign_or, Eva, Evb, (sign_sub_exact va vb) by done.
  unfold num_leb, SFleb. rewrite num_compare_exact by (unfold safe; lia).
  destruct on.
  - destruct Ha as (ha & -> & ->), Hb as (hb & -> & ->).
    destruct ha, hb; vm_compute sign; try done; by destruct (vb ?= va)%Z.
  - destruct Ha as [-> ->], Hb as [-> ->]. vm_compute sign. by destruct (vb ?= va)%Z.
Qed.

(** What is drawn over what.  When the links carry the flags of one
    selection (or none) and exact counters, and there are fewer than 100000,
    exactly the links of positive value are drawn; of two links with the same
    flag the one of larger value comes first and lies below, and a highlighted
    link comes before a dimmed one and lies above it. *)
Theorem drawing_order lc `{!LocaleCompare lc} (on : bool) (ls : list DashboardFlowLink)
    (Hflags : Forall (flagged on) ls) (Hvalues : Forall (λ l, counter (l_value l)) ls)
    (Hlen : (Z.of_nat (length ls) < 100000)%Z) :
  let drawn := drawn_links lc ls in
  drawn ≡ₚ List.filter (λ l, num_ltb num_zero (l_value l)) ls
  ∧ ∀ i j a b, drawn !! i = Some a ∧ drawn !! j = Some b ∧ (i < j)%nat →
      if bool_decide (l_highlighted a = l_highlighted b)
      then num_leb (l_value b) (l_value a) = true ∧ num_ltb (z_index i a) (z_index j b) = true
      else l_highlighted a = Some true ∧ num_ltb (z_index j b) (z_index i a) = true.
Proof.
  cbv zeta. set (pos := List.filter (λ l, num_ltb num_zero (l_value l)) ls).
  assert (drawn_links lc ls ≡ₚ pos) as Hperm by apply js_sort_perm. split; [done|].
  assert (Forall (λ l, flagged on l ∧ counter (l_value l)) pos) as Hpos.
  { apply Forall_forall. intros l [Hl _]%elem_of_filterb. rewrite Forall_forall in Hflags, Hvalues. auto. }
  intros i j a b (Ha & Hb & Hij).
  assert (Forall (λ l, flagged on l ∧ counter (l_value l)) (drawn_links lc ls)) as Hd by (by rewrite Hperm).
  rewrite Forall_forall in Hd.
  destruct (Hd a ltac:(by eapply list_elem_of_lookup_2)) as [Fa Ca].
  destruct (Hd b ltac:(by eapply list_elem_of_lookup_2)) as [Fb Cb].
  assert (sign (byLinkDrawPriority lc a b) ≠ Gt) as Hle.
  { rewrite <-cmp_gt_sign. apply not_true_iff_false.
    apply (StronglySorted_lookup (in_order (byLinkDrawPriority lc)) (drawn_links lc ls) i j); try done.
    apply (js_sort_sorted _ (λ l, flagged on l ∧ counter (l_value l))); [|done].
    by apply lawful_consistent, draw_priority_lawful. }
  pose proof (draw_priority_cases lc on a b Fa Fb Ca Cb Hle) as Hcases.
  assert (Z.of_nat j < 100000)%Z as Hj.
  { apply lookup_lt_Some in Hb. rewrite Hperm in Hb. unfold pos in Hb.
    pose proof (List.filter_length_le (λ l, num_ltb num_zero (l_value l)) ls). lia. }
  case_bool_decide as Hh.
  - split; [done|]. unfold z_index. rewrite <-Hh.
    assert (l_dimmed a = l_dimmed b) as <-.
    { destruct on; simpl in Fa, Fb; [|by destruct Fa as [_ ->], Fb as [_ ->]].
      destruct Fa as (ha & Ea & ->), Fb as (hb & Eb & ->). congruence. }
    destruct (default false (l_highlighted a)), (default false (l_dimmed a));
      rewrite num_ltb_exact by (unfold safe; lia); apply Z.ltb_lt; lia.
  - destruct Hcases as [Ea Eb]. split; [done|]. unfold z_index. rewrite Ea, Eb.
    destruct on; simpl in Fb; [|destruct Fb; congruence]. destruct Fb as (hb & Eb' & ->).
    assert (hb = false) as -> by congruence.
    change (num_ltb (num_of_Z (Z.of_nat j)) (num_of_Z (1000000 + Z.of_nat i)) = true).
    rewrite num_ltb_exact by (unfold safe; lia). apply Z.ltb_lt. lia.
Qed.

Definition weighed_link (source target : String.string) (value : Z) (highlighted : bool)
    : DashboardFlowLink :=
  set_link_flags
    (bump_link (new_link {| p_id := js source; p_label := []; p_kind := User |}
                         {| p_id := js target; p_label := []; p_kind := Group |} [] [])
       {| m_quota := num_of_Z value; m_tokens := num_zero; m_requests := num_zero |} Quota)
    highlighted (negb highlighted).
Arguments weighed_link (source target)%_string value%_Z highlighted.

Lemma drawing_order_witness :
  let ls := [weighed_link "user:1" "group:vip" 5 false; weighed_link "user:2" "group:vip" 3 true] in
  drawn_links cmp_code_units ls ≡ₚ List.filter (λ l, num_ltb num_zero (l_value l)) ls
  ∧ ∀ i j a b, drawn_links cmp_code_units ls !! i = Some a ∧ drawn_links cmp_code_units ls !! j = Some b
               ∧ (i < j)%nat →
      if bool_decide (l_highlighted a = l_highlighted b)
      then num_leb (l_value b) (l_value a) = true ∧ num_ltb (z_index i a) (z_index j b) = true
      else l_highlighted a = Some true ∧ num_ltb (z_index j b) (z_index i a) = true.
Proof.
  intros ls. apply (drawing_order cmp_code_units true).
  - repeat constructor; eexists; split; reflexivity.
  - repeat constructor; [exists 5%Z | exists 3%Z]; (split; [vm_compute; reflexivity | lia]).
  - vm_compute. reflexivity.
Defined.
