(* ===== verification/ChannelUtils.v ===== *)
(** * Channels: lists, keys and tag rows (channels/lib/channel-utils.ts)

    The helpers of the channel table: texts that hold lists, key masking and
    deduplication, badges and ratings by number, the reasons a channel needs
    attention, and the aggregation of the channels of a tag into one row.
    Currency, date and relative-time formatting, which is done by [Intl], is
    not modelled. *)

From Stdlib Require Import ZArith.
From S2P Require Import Prelude JsString JsNumber JsNumberFacts JsCollections JsOrder JsValue Json.

(** ** Channels *)

Record ChannelInfo := {
  is_multi_key : bool;
  multi_key_size : num;
  multi_key_status_list : option (list (jsstr * num));
  multi_key_disabled_reason : option (list (jsstr * jsstr));
  multi_key_disabled_time : option (list (jsstr * num));
  multi_key_polling_index : num;
  multi_key_mode : jsstr
}.

(** A nullish number is a [val]: [null] and [undefined] differ under [===]. *)
Record Channel := {
  id : num;
  type : num;
  key : jsstr;
  openai_organization : option jsstr;
  test_model : option jsstr;
  status : num;
  name : jsstr;
  weight : val;
  created_time : num;
  test_time : num;
  response_time : num;
  base_url : option jsstr;
  other : jsstr;
  balance : num;
  balance_updated_time : num;
  models : jsstr;
  group : jsstr;
  used_quota : num;
  model_mapping : option jsstr;
  status_code_mapping : option jsstr;
  priority : val;
  auto_ban : val;
  other_info : jsstr;
  tag : option jsstr;
  setting : option jsstr;
  param_override : option jsstr;
  header_override : option jsstr;
  remark : jsstr;
  max_input_tokens : num;
  channel_info : ChannelInfo;
  settings : jsstr
}.

(** ** Tables keyed by number *)

(** [table[n]]: the property named [String(n)]. *)
Definition by_number {A} (table : list (Z * A)) (n : num) : option A :=
  mget (num_to_string n) (map (λ kv, (dec_of_Z (fst kv), snd kv)) table).

Definition CHANNEL_TYPES : list (Z * jsstr) :=
  [(0, js "Unknown"); (1, js "OpenAI"); (2, js "MjProxy"); (3, js "Azure"); (4, js "Ollama");
   (5, js "MjProxyPlus"); (7, js "OhMyGPT"); (8, js "Custom"); (14, js "Anthropic");
   (15, js "Baidu"); (16, js "Zhipu"); (17, js "Ali"); (18, js "Xunfei"); (19, js "360");
   (20, js "OpenRouter"); (22, js "FastGPT"); (23, js "Tencent"); (24, js "Gemini");
   (25, js "Moonshot"); (26, js "Zhipu V4"); (27, js "Perplexity"); (31, js "LingYiWanWu");
   (33, js "AWS"); (34, js "Cohere"); (35, js "MiniMax"); (36, js "SunoAPI"); (37, js "Dify");
   (38, js "Jina"); (39, js "Cloudflare"); (40, js "SiliconFlow"); (41, js "Vertex AI");
   (42, js "Mistral"); (43, js "DeepSeek"); (44, js "MokaAI"); (45, js "VolcEngine");
   (46, js "Baidu V2"); (47, js "Xinference"); (48, js "xAI"); (49, js "Coze"); (50, js "Kling");
   (51, js "Jimeng"); (52, js "Vidu"); (53, js "Submodel"); (54, js "DoubaoVideo");
   (55, js "Sora"); (56, js "Replicate"); (57, js "ChatGPT Subscription (Codex)");
   (58, js "Advanced Custom")]%Z.

Definition CHANNEL_TYPE_DISPLAY_ORDER : list Z :=
  [1; 14; 33; 24; 43; 3; 41; 48; 58; 42; 34; 20; 4; 40; 27; 25; 17; 26; 15; 46;
   23; 18; 45; 31; 35; 49; 19; 47; 37; 38; 39; 11; 8; 57; 22; 21; 44; 2; 5; 36;
   50; 51; 52; 53; 54; 55; 56]%Z.

(** Value and label of an option: the listed types in display order, then the
    others in the order of [Object.entries]. *)
Definition CHANNEL_TYPE_OPTIONS : list (Z * jsstr) :=
  let label id := by_number CHANNEL_TYPES (num_of_Z id) in
  let ordered := omap (λ id, match label id with
                             | Some l => if truthy_str l then Some (id, l) else None
                             | None => None
                             end) CHANNEL_TYPE_DISPLAY_ORDER in
  let seen := uniq (map fst ordered) in
  ordered ++ List.filter (λ kv, negb (bool_decide (fst kv = 0%Z))
                                && negb (bool_decide (fst kv ∈ seen))) CHANNEL_TYPES.

Definition getChannelTypeLabel (type : num) : jsstr :=
  match by_number CHANNEL_TYPES type with
  | Some l => str_or l (js "Unknown")
  | None => js "Unknown"
  end.

Definition TYPE_TO_ICON : list (Z * jsstr) :=
  [(1, js "OpenAI"); (6, js "OpenAI"); (7, js "OpenAI"); (8, js "OpenAI"); (58, js "NewAPI");
   (3, js "Azure"); (14, js "Claude"); (24, js "Gemini"); (11, js "Google"); (41, js "Gemini");
   (33, js "Aws"); (39, js "Cloudflare");
   (15, js "Baidu"); (46, js "Baidu"); (16, js "Zhipu"); (26, js "Zhipu"); (17, js "Qwen");
   (18, js "Spark"); (23, js "Hunyuan"); (19, js "Ai360"); (25, js "Moonshot"); (31, js "Yi");
   (35, js "Minimax"); (45, js "Volcengine");
   (4, js "Ollama"); (27, js "Perplexity"); (34, js "Cohere"); (42, js "Mistral");
   (43, js "DeepSeek"); (48, js "XAI"); (49, js "Coze"); (40, js "SiliconCloud");
   (44, js "OpenAI"); (20, js "OpenRouter");
   (2, js "Midjourney"); (5, js "Midjourney"); (50, js "Kling"); (51, js "Jimeng");
   (52, js "Vidu"); (36, js "Suno"); (55, js "OpenAI"); (54, js "Doubao"); (56, js "Replicate");
   (37, js "Dify"); (38, js "Jina"); (22, js "FastGPT"); (47, js "Xinference"); (53, js "OpenAI");
   (10, js "OpenAI"); (21, js "OpenAI"); (12, js "OpenAI"); (13, js "OpenAI"); (9, js "OpenAI")]%Z.

Definition getChannelTypeIcon (type : num) : jsstr :=
  match by_number TYPE_TO_ICON type with
  | Some i => str_or i (js "OpenAI")
  | None => js "OpenAI"
  end.

Record Badge := { badge_variant : jsstr; badge_label : jsstr }.

Definition CHANNEL_STATUS_CONFIG : list (Z * Badge) :=
  [(0, {| badge_variant := js "neutral"; badge_label := js "Unknown" |});
   (1, {| badge_variant := js "success"; badge_label := js "Enabled" |});
   (2, {| badge_variant := js "danger"; badge_label := js "Disabled" |});
   (3, {| badge_variant := js "warning"; badge_label := js "Auto Disabled" |})]%Z.

Definition MULTI_KEY_STATUS_CONFIG : list (Z * Badge) :=
  [(1, {| badge_variant := js "success"; badge_label := js "Enabled" |});
   (2, {| badge_variant := js "neutral"; badge_label := js "Manual Disabled" |});
   (3, {| badge_variant := js "danger"; badge_label := js "Auto Disabled" |})]%Z.

Definition getChannelStatusBadge (status : num) : option Badge :=
  match by_number CHANNEL_STATUS_CONFIG status with
  | Some b => Some b
  | None => by_number CHANNEL_STATUS_CONFIG num_zero
  end.

Definition getMultiKeyStatusBadge (status : num) : option Badge :=
  match by_number MULTI_KEY_STATUS_CONFIG status with
  | Some b => Some b
  | None => by_number MULTI_KEY_STATUS_CONFIG (num_of_Z 1)
  end.

Definition TYPE_TO_KEY_PROMPT : list (Z * jsstr) :=
  [(15, js "Format: APIKey|SecretKey");
   (18, js "Format: APPID|APISecret|APIKey");
   (22, js "Format: APIKey-AppId, e.g., fastgpt-0sp2gtvfdgyi4k30jwlgwf1i-64f335d84283f05518e9e041");
   (23, js "Format: AppId|SecretId|SecretKey");
   (33, js "Format: Ak|Sk|Region");
   (50, js "Format: AccessKey|SecretKey (or just ApiKey if upstream is New API)");
   (51, js "Format: Access Key ID|Secret Access Key");
   (57, js "Paste Codex OAuth JSON credential (access_token / refresh_token / account_id)")]%Z.

Definition getKeyPromptForType (type : num) : jsstr :=
  match by_number TYPE_TO_KEY_PROMPT type with
  | Some p => str_or p (js "Enter API key for this channel")
  | None => js "Enter API key for this channel"
  end.

Definition isChannelEnabled (channel : Channel) : bool := num_eqb (status channel) (num_of_Z 1).

Definition isMultiKeyChannel (channel : Channel) : bool := is_multi_key (channel_info channel).

(** ** Keys *)

Definition newline : N := 10.

(** [key.split('\n').filter((k) => k.trim())]. *)
Definition key_lines (key : jsstr) : list jsstr :=
  List.filter (λ k, truthy_str (trim k)) (split_on newline key).

(** [s.slice(0, n)], [s.slice(-n)]. *)
Definition slice_first (n : nat) (s : jsstr) : jsstr := take n s.
Definition slice_last (n : nat) (s : jsstr) : jsstr := drop (length s - n) s.

Definition formatChannelKey (key : jsstr) (isMultiKey : bool) : jsstr :=
  if negb (truthy_str key) then []
  else if isMultiKey then dec_of_N (N.of_nat (length (key_lines key))) ++ js " keys"
  else if (length key <=? 16)%nat then slice_first 4 key ++ js "..." ++ slice_last 4 key
  else slice_first 8 key ++ js "..." ++ slice_last 8 key.

Definition formatKeyPreview (key : jsstr) (maxLength : nat) : jsstr :=
  if negb (truthy_str key) then []
  else if (length key <=? maxLength)%nat then key
  else slice_first maxLength key ++ js "...".

Definition countKeys (key : jsstr) : nat :=
  if negb (truthy_str key) then 0%nat else length (key_lines key).

Record Deduplicated := {
  deduplicatedText : jsstr;
  beforeCount : nat;
  afterCount : nat;
  removedCount : Z
}.

(** One line: kept when it is not blank and not yet in the set. *)
Definition dedupe_line (deduplicatedKeys : list jsstr) (line : jsstr) : list jsstr :=
  let trimmedLine := trim line in
  if truthy_str trimmedLine && negb (bool_decide (trimmedLine ∈ deduplicatedKeys))
  then deduplicatedKeys ++ [trimmedLine] else deduplicatedKeys.

Definition deduplicateKeys (keysText : jsstr) : Deduplicated :=
  if negb (truthy_str keysText) || bool_decide (trim keysText = [])
  then {| deduplicatedText := []; beforeCount := 0; afterCount := 0; removedCount := 0 |}
  else
    let keyLines := split_on newline keysText in
    let deduplicatedKeys := fold_left dedupe_line keyLines [] in
    {| deduplicatedText := join [newline] deduplicatedKeys;
       beforeCount := length keyLines;
       afterCount := length deduplicatedKeys;
       removedCount := (Z.of_nat (length keyLines) - Z.of_nat (length deduplicatedKeys))%Z |}.

(** ** Lists and settings in texts *)

(** [s.split(',').map(trim).filter(nonempty)]. *)
Definition comma_items (s : jsstr) : list jsstr :=
  List.filter truthy_str (map trim (split_on comma s)).

Definition parseModelsList (models : jsstr) : list jsstr :=
  if truthy_str models then comma_items models else [].

Section groups.
Variable localeCompare : jsstr → jsstr → num.

Definition group_order (a b : jsstr) : num :=
  if decide (a = js "default") then num_of_Z (-1)
  else if decide (b = js "default") then num_of_Z 1
  else localeCompare a b.

Definition parseGroupsList (groups : jsstr) : list jsstr :=
  if truthy_str groups then js_sort group_order (comma_items groups) else [].

Definition validateGroups (groups : jsstr) : bool :=
  (0 <? length (parseGroupsList groups))%nat.
End groups.

Definition formatModelsString (models : list jsstr) : jsstr := join [comma] models.
Definition formatGroupsString (groups : list jsstr) : jsstr := join [comma] groups.

Definition validateChannelName (name : jsstr) : bool := (0 <? length (trim name))%nat.
Definition validateApiKey (key : jsstr) : bool := (0 <? length (trim key))%nat.
Definition validateModels (models : jsstr) : bool := (0 <? length (parseModelsList models))%nat.

Definition parseChannelSettings (settingStr : option jsstr) : val :=
  match settingStr with
  | Some s => if truthy_str s then try_catch (json_parse s) (VObj []) else VObj []
  | None => VObj []
  end.

Definition parseChannelOtherSettings (settingsStr : option jsstr) : val :=
  match settingsStr with
  | Some s => if negb (truthy_str s) || bool_decide (s = js "{}") then VObj []
              else try_catch (json_parse s) (VObj [])
  | None => VObj []
  end.

Definition validateChannelSettings (settings : jsstr) : bool :=
  if negb (truthy_str settings) || bool_decide (trim settings = []) then true
  else match json_parse settings with Ok _ => true | Throw _ => false end.

(** ** Ratings and displays *)

Inductive Variant := success | warning | danger | neutral.

Definition getBalanceVariant (balance : num) : Variant :=
  if num_eqb balance num_zero then neutral
  else if num_ltb balance (num_of_Z 1) then danger
  else if num_ltb balance (num_of_Z 10) then warning
  else success.

Record RatingConfig := { variant : Variant; label : jsstr }.

Definition EXCELLENT : RatingConfig := {| variant := success; label := js "Excellent" |}.
Definition GOOD : RatingConfig := {| variant := success; label := js "Good" |}.
Definition FAIR : RatingConfig := {| variant := warning; label := js "Fair" |}.
Definition POOR : RatingConfig := {| variant := danger; label := js "Poor" |}.
Definition UNKNOWN : RatingConfig := {| variant := neutral; label := js "Not tested" |}.

Definition getResponseTimeConfig (timeMs : num) : RatingConfig :=
  if num_eqb timeMs num_zero then UNKNOWN
  else if num_leb timeMs (num_of_Z 500) then EXCELLENT
  else if num_leb timeMs (num_of_Z 1000) then GOOD
  else if num_leb timeMs (num_of_Z 2000) then FAIR
  else if num_leb timeMs (num_of_Z 5000) then POOR
  else POOR.

(** The translation function, when given, gets the key and the value. *)
Definition formatResponseTime (timeMs : num) (t : option (jsstr → option val → jsstr)) : jsstr :=
  if num_eqb timeMs num_zero then
    match t with Some t => t (js "Not tested") None | None => js "Not tested" end
  else if num_ltb timeMs (num_of_Z 1000) then
    match t with
    | Some t => t (js "{{value}}ms") (Some (VNum timeMs))
    | None => num_to_string timeMs ++ js "ms"
    end
  else
    let seconds := num_to_fixed (num_div timeMs (num_of_Z 1000)) 2 in
    match t with
    | Some t => t (js "{{value}}s") (Some (VStr seconds))
    | None => seconds ++ js "s"
    end.

(** [String(n)] of a nullish number, ["0"] for none. *)
Definition nullish_display (n : option num) : jsstr :=
  match n with Some n => num_to_string n | None => js "0" end.

Definition getPriorityDisplay (priority : option num) : jsstr := nullish_display priority.
Definition getWeightDisplay (weight : option num) : jsstr := nullish_display weight.

(** ** Attention *)

(** Every key of a multi-key channel has an entry in the status list. *)
Definition all_keys_disabled (channel : Channel) : bool :=
  let info := channel_info channel in
  is_multi_key info
  && match multi_key_status_list info with
     | Some l => num_leb (multi_key_size info) (num_of_Z (Z.of_nat (length l)))
     | None => false
     end.

Definition low_balance (channel : Channel) : bool :=
  num_ltb num_zero (balance channel) && num_ltb (balance channel) (num_of_Z 1).

Definition channelNeedsAttention (channel : Channel) : bool :=
  if num_eqb (status channel) (num_of_Z 3) then true
  else if low_balance channel then true
  else if all_keys_disabled channel then true
  else false.

Definition getAttentionReason (channel : Channel) : option jsstr :=
  if num_eqb (status channel) (num_of_Z 3) then Some (js "Auto-disabled")
  else if low_balance channel then Some (js "Low balance")
  else if all_keys_disabled channel then Some (js "All keys disabled")
  else None.

(** ** Tag rows *)

(** A row is a copy of the first channel of its tag, [base], with the fields
    below in place of the channel's; its [id], [key], [tag] and [name] are all
    the tag, and [type], [balance], the times and [models] are 0 and [''].
    [row_status] is [None] while it is [undefined]. *)
Record TagRow := {
  base : Channel;
  row_tag : jsstr;
  row_status : option num;
  row_group : jsstr;
  row_used_quota : num;
  row_response_time : num;
  row_priority : val;
  row_weight : val;
  children : list Channel
}.

Definition tag_of (channel : Channel) : jsstr :=
  match tag channel with Some t => t | None => [] end.

Definition new_row (channel : Channel) : TagRow :=
  {| base := channel; row_tag := tag_of channel; row_status := None; row_group := [];
     row_used_quota := num_zero; row_response_time := num_zero;
     row_priority := VNum (num_of_Z (-1)); row_weight := VNum (num_of_Z (-1));
     children := [] |}.

(** The common value, or [null]; -1 stands for "none seen". *)
Definition merge_common (current channel : val) : val :=
  if strict_eqb current (VNum (num_of_Z (-1))) then channel
  else if negb (strict_eqb current channel) then VNull else current.

Definition nonempty_parts (s : jsstr) : list jsstr := List.filter truthy_str (split_on comma s).

Definition merge_groups (current channel : jsstr) : jsstr :=
  if bool_decide (current = []) then channel
  else
    let existingGroups := nonempty_parts current in
    fold_left (λ acc g, if negb (bool_decide (g ∈ existingGroups)) then acc ++ comma :: g else acc)
      (nonempty_parts channel) current.

Definition merge_status (current : option num) (channel : num) : option num :=
  if num_eqb channel (num_of_Z 1) then Some (num_of_Z 1)
  else match current with None => Some channel | Some s => Some s end.

Definition add_child (tagRow : TagRow) (channel : Channel) : TagRow :=
  let children' := children tagRow ++ [channel] in
  let childCount := Z.of_nat (length children') in
  {| base := base tagRow;
     row_tag := row_tag tagRow;
     row_status := merge_status (row_status tagRow) (status channel);
     row_group := merge_groups (row_group tagRow) (group channel);
     row_used_quota := num_add (row_used_quota tagRow) (used_quota channel);
     row_response_time :=
       num_div (num_add (num_mul (row_response_time tagRow) (num_of_Z (childCount - 1)))
                        (response_time channel))
               (num_of_Z childCount);
     row_priority := merge_common (row_priority tagRow) (priority channel);
     row_weight := merge_common (row_weight tagRow) (weight channel);
     children := children' |}.

(** The row object of a tag is in [result] and in [tagMap]: the result is what
    the map holds at the end, in the order of insertion. *)
Definition aggregateChannelsByTag (channels : list Channel) : list TagRow :=
  mvalues (group_by tag_of
             (λ channel row, add_child (default (new_row channel) row) channel) channels []).
