(* ===== verification/ChannelUtilsSpec.v ===== *)
(** * Properties of the channel helpers

    Deduplicated key texts, group lists with the default group first, and what
    a tag row says of its channels. *)

From Stdlib Require Import ZArith.
From stdpp Require Import sorting.
From S2P Require Import Prelude JsString JsNumber JsNumberFacts JsCollections JsOrder JsValue ChannelUtils.

(** ** Deduplicated keys *)

(** The keys of a text: its lines, trimmed, blank ones dropped. *)
Definition keys_of (s : jsstr) : list jsstr :=
  List.filter truthy_str (map trim (split_on newline s)).

Lemma dedupe_lines_uniq lines acc :
  fold_left dedupe_line lines acc = acc ++ uniq_from acc (List.filter truthy_str (map trim lines)).
Proof.
  revert acc; induction lines as [|l lines IH]; intros acc; simpl; [by rewrite app_nil_r|].
  rewrite IH. unfold dedupe_line. destruct (truthy_str (trim l)) eqn:E; simpl; [|done].
  case_bool_decide as Hin; simpl.
  - by rewrite decide_True.
  - rewrite decide_False by done. rewrite <-app_assoc. simpl. do 2 f_equal.
    apply uniq_from_ext. set_solver.
Qed.

Lemma trim_all_ws s : (∀ c, c ∈ s → is_ws c = true) → trim s = [].
Proof.
  intros H. unfold trim, trim_start. rewrite drop_while_all; [done|]. by apply forallb_forall_elem.
Qed.

Lemma keys_of_blank s : trim s = [] → keys_of s = [].
Proof.
  intros H. unfold keys_of.
  assert (Forall (λ l, trim l = []) (split_on newline s)) as Hl.
  { apply Forall_forall. intros l Hl. apply trim_all_ws. intros c Hc.
    apply (trim_nil_all_ws s); [done|]. by eapply elem_of_split_on. }
  induction Hl as [|l ls Hl _ IH]; simpl; [done|]. by rewrite Hl.
Qed.

Lemma elem_of_keys_of s k : k ∈ keys_of s → k ≠ [] ∧ trimmed k ∧ newline ∉ k.
Proof.
  unfold keys_of. rewrite elem_of_filterb, truthy_str_true. intros [Hk Hne].
  apply list_elem_of_fmap in Hk as (l & -> & Hl). split; [done|]. split; [apply trim_trimmed|].
  intros Hc%elem_of_trim. pose proof (split_on_pieces newline s) as Hp.
  rewrite Forall_forall in Hp. by apply (Hp l).
Qed.

(** A list of keys is read back from its lines. *)
Lemma keys_of_join K :
  Forall (λ k, k ≠ [] ∧ trimmed k ∧ newline ∉ k) K → keys_of (join [newline] K) = K.
Proof.
  intros HK. destruct (decide (K = [])) as [->|Hne]; [done|].
  unfold keys_of. rewrite split_on_join; [|done|].
  - clear Hne. induction HK as [|k K (Hk & Ht & _) _ IH]; simpl; [done|].
    rewrite trim_id by done. by rewrite (proj2 (truthy_str_true k) Hk), IH.
  - eapply Forall_impl; [exact HK|]. by intros k (_ & _ & ?).
Qed.

Lemma deduplicate_keys s :
  deduplicatedText (deduplicateKeys s) = join [newline] (uniq (keys_of s)) ∧
  afterCount (deduplicateKeys s) = length (uniq (keys_of s)) ∧
  removedCount (deduplicateKeys s)
  = (Z.of_nat (beforeCount (deduplicateKeys s)) - Z.of_nat (afterCount (deduplicateKeys s)))%Z.
Proof.
  unfold deduplicateKeys.
  destruct (negb (truthy_str s) || bool_decide (trim s = [])) eqn:E; simpl.
  - assert (trim s = []) as Hb.
    { apply orb_true_iff in E as [E|E]; [|by apply bool_decide_eq_true in E].
      apply negb_true_iff, truthy_str_false in E as ->. done. }
    by rewrite (keys_of_blank s Hb).
  - by rewrite dedupe_lines_uniq.
Qed.

Lemma length_key_lines s : length (key_lines s) = length (keys_of s).
Proof.
  unfold key_lines, keys_of. induction (split_on newline s) as [|l ls IH]; simpl; [done|].
  destruct (truthy_str (trim l)) eqn:E; simpl; [by rewrite IH | done].
Qed.

Lemma countKeys_keys s : countKeys s = length (keys_of s).
Proof.
  unfold countKeys. destruct (truthy_str s) eqn:E; simpl; [apply length_key_lines|].
  by apply truthy_str_false in E as ->.
Qed.

Lemma uniq_keys s : Forall (λ k, k ≠ [] ∧ trimmed k ∧ newline ∉ k) (uniq (keys_of s)).
Proof. apply Forall_forall. intros k Hk%uniq_elem_of. by apply elem_of_keys_of in Hk. Qed.

(** Deduplicating a text of keys leaves each of its keys once, one per line,
    in order of first appearance and trimmed; the counts add up and nothing is
    counted as removed that was not there; the key count of the result is the
    one reported, and deduplicating again changes and removes nothing. *)
Theorem deduplicate_spec (s : jsstr) :
  let d := deduplicateKeys s in
  keys_of (deduplicatedText d) = uniq (keys_of s) ∧
  countKeys (deduplicatedText d) = afterCount d ∧
  (removedCount d = Z.of_nat (beforeCount d) - Z.of_nat (afterCount d))%Z ∧
  (0 ≤ removedCount d)%Z ∧
  deduplicatedText (deduplicateKeys (deduplicatedText d)) = deduplicatedText d ∧
  afterCount (deduplicateKeys (deduplicatedText d)) = afterCount d.
Proof.
  cbv zeta. destruct (deduplicate_keys s) as (Ht & Ha & Hr).
  assert (keys_of (deduplicatedText (deduplicateKeys s)) = uniq (keys_of s)) as Hk.
  { rewrite Ht. apply keys_of_join, uniq_keys. }
  split; [done|]. split; [by rewrite countKeys_keys, Hk|]. split; [done|]. split.
  - unfold deduplicateKeys. case_match; simpl; [done|]. rewrite dedupe_lines_uniq. simpl.
    pose proof (uniq_from_filter_length [] (List.filter truthy_str (map trim (split_on newline s)))).
    assert (length (List.filter truthy_str (map trim (split_on newline s)))
            ≤ length (split_on newline s)).
    { rewrite <-(length_map trim (split_on newline s)). apply List.filter_length_le. }
    lia.
  - destruct (deduplicate_keys (deduplicatedText (deduplicateKeys s))) as (Ht' & Ha' & _).
    rewrite Ht', Ha', Hk, uniq_idemp. split; [by rewrite Ht | by rewrite Ha].
Qed.

(** ** Tag rows *)

(** The row the loop has built after the channels [cs] of its tag. *)
Definition row_after (cs : list Channel) : option TagRow :=
  fold_left (λ row channel, Some (add_child (default (new_row channel) row) channel)) cs None.

Lemma mget_rows channels t :
  mget t (group_by tag_of (λ channel row, add_child (default (new_row channel) row) channel) channels [])
  = row_after (List.filter (λ c, bool_decide (tag_of c = t)) channels).
Proof. by rewrite mget_group_by. Qed.

(** The common value of the channels after the first, [null] when one differs. *)
Definition common (first : val) (rest : list val) : val :=
  if forallb (strict_eqb first) rest then first else VNull.

Definition no_value : val := VNum (num_of_Z (-1)).

Lemma merge_common_null l : fold_left merge_common l VNull = VNull.
Proof.
  induction l as [|v l IH]; simpl; [done|]. unfold merge_common at 2. simpl.
  by destruct v.
Qed.

Lemma merge_common_fold p l :
  strict_eqb p no_value = false → fold_left merge_common l p = common p l.
Proof.
  intros Hp. unfold common. induction l as [|v l IH]; simpl; [done|].
  unfold merge_common at 2. fold no_value. rewrite Hp.
  destruct (strict_eqb p v); simpl; [apply IH | apply merge_common_null].
Qed.

Lemma row_after_spec c cs :
  ∃ r, row_after (c :: cs) = Some r ∧
    base r = c ∧ row_tag r = tag_of c ∧ children r = c :: cs ∧
    row_used_quota r = fold_left num_add (map used_quota (c :: cs)) num_zero ∧
    row_status r = Some (if existsb isChannelEnabled (c :: cs) then num_of_Z 1 else status c) ∧
    row_priority r = fold_left merge_common (map priority cs) (priority c) ∧
    row_weight r = fold_left merge_common (map weight cs) (weight c).
Proof.
  induction cs as [|c' cs IH] using rev_ind.
  - eexists. split; [reflexivity|]. simpl. unfold merge_status, isChannelEnabled.
    repeat split; try done; [by destruct (num_eqb _ _)|..]; unfold merge_common;
      by rewrite (eq_refl : strict_eqb (VNum (num_of_Z (-1))) (VNum (num_of_Z (-1))) = true).
  - destruct IH as (r & Hr & Hb & Ht & Hc & Hq & Hs & Hp & Hw).
    unfold row_after in *. rewrite app_comm_cons, fold_left_app, Hr. cbn [fold_left]. eexists.
    split; [reflexivity|]. cbn [from_option]. unfold add_child, Datatypes.id.
    cbn [base row_tag children row_used_quota row_status row_priority row_weight].
    rewrite Hb, Ht, Hc, Hq, Hs, Hp, Hw.
    rewrite !map_app, !fold_left_app, existsb_app. cbn [map fold_left existsb].
    repeat split. unfold merge_status. rewrite orb_false_r. fold (isChannelEnabled c').
    change (num_eqb (status c') (num_of_Z 1)) with (isChannelEnabled c').
    destruct (isChannelEnabled c'); [by rewrite orb_true_r | by rewrite orb_false_r].
Qed.

(** The tag rows: their tags, and what each row holds of its channels. *)
Record row_ok (channels : list Channel) (r : TagRow) : Prop := {
  ok_children : children r = List.filter (λ c, bool_decide (tag_of c = row_tag r)) channels;
  ok_base : head (children r) = Some (base r);
  ok_quota : row_used_quota r = fold_left num_add (map used_quota (children r)) num_zero;
  ok_status : row_status r = Some (if existsb isChannelEnabled (children r)
                                   then num_of_Z 1 else status (base r));
  ok_priority : strict_eqb (priority (base r)) no_value = false →
    row_priority r = common (priority (base r)) (map priority (tail (children r)));
  ok_weight : strict_eqb (weight (base r)) no_value = false →
    row_weight r = common (weight (base r)) (map weight (tail (children r)))
}.

Lemma mkeys_rows channels :
  mkeys (group_by tag_of (λ channel row, add_child (default (new_row channel) row) channel) channels [])
  = uniq (map tag_of channels).
Proof. by rewrite mkeys_group_by. Qed.

Lemma rows_ok channels t r :
  (t, r) ∈ group_by tag_of (λ channel row, add_child (default (new_row channel) row) channel) channels [] →
  row_tag r = t ∧ row_ok channels r.
Proof.
  intros Hin%elem_of_mget; [|apply NoDup_group_by; constructor]. rewrite mget_rows in Hin.
  destruct (List.filter (λ c, bool_decide (tag_of c = t)) channels) as [|c cs] eqn:E; [done|].
  destruct (row_after_spec c cs) as (r' & Hr & Hb & Ht & Hc & Hq & Hs & Hp & Hw).
  assert (r' = r) as -> by congruence.
  assert (tag_of c = t) as Hct.
  { assert (c ∈ List.filter (λ c, bool_decide (tag_of c = t)) channels) as Hc' by (rewrite E; constructor).
    apply elem_of_filterb in Hc' as [_ H]. by apply bool_decide_eq_true in H. }
  split; [by rewrite Ht|]. split; rewrite ?Hc, ?Hb, ?Ht, ?Hct; try done.
  - intros H. rewrite Hp. by apply merge_common_fold.
  - intros H. rewrite Hw. by apply merge_common_fold.
Qed.

(** Tag mode shows one row per tag, in order of first appearance.  A row's
    children are exactly the channels of its tag, in order; its quota is their
    sum, it is enabled when one of them is and otherwise has the status of the
    first, and its priority and weight are the common value of the children
    or null, provided the first child's is not the sentinel -1. *)
Theorem tag_rows_spec (channels : list Channel) :
  map row_tag (aggregateChannelsByTag channels) = uniq (map tag_of channels) ∧
  Forall (row_ok channels) (aggregateChannelsByTag channels).
Proof.
  unfold aggregateChannelsByTag. rewrite <-mkeys_rows.
  pose proof (rows_ok channels) as H.
  generalize dependent (group_by tag_of
    (λ channel row, add_child (default (new_row channel) row) channel) channels []).
  intros m H. split.
  - unfold mvalues, mkeys. rewrite map_map. apply map_ext_in. intros [t r] Hin. simpl.
    by apply H, list_elem_of_In.
  - apply Forall_forall. intros r Hr. apply list_elem_of_fmap in Hr as ([t r'] & -> & Hin). by apply (H t).
Qed.

(** The sentinel is also a value a channel may have: a channel of priority -1
    followed by one of priority 5 is shown with the common priority 5. *)
Lemma sentinel_priority_lost :
  fold_left merge_common [VNum (num_of_Z (-1)); VNum (num_of_Z 5)] no_value = VNum (num_of_Z 5) ∧
  common (VNum (num_of_Z (-1))) [VNum (num_of_Z 5)] = VNull.
Proof. split; vm_compute; reflexivity. Qed.

(** A group listed twice by a channel that joins a row is listed twice by the
    row. *)
Lemma groups_not_deduplicated :
  merge_groups (js "vip") (js "default,default") = js "vip,default,default".
Proof. vm_compute. reflexivity. Qed.

(** A short key is shown whole when its two ends meet. *)
Lemma short_key_shown key :
  key ≠ [] → length key ≤ 8 →
  ∃ a b, formatChannelKey key false = a ++ js "..." ++ b ∧ ∀ c, c ∈ key → c ∈ a ∨ c ∈ b.
Proof.
  intros Hne Hlen. unfold formatChannelKey. rewrite (proj2 (truthy_str_true key) Hne). cbn [negb].
  rewrite (proj2 (Nat.leb_le (length key) 16)) by lia. eexists _, _. split; [done|]. intros c Hc.
  unfold slice_first, slice_last. apply list_elem_of_lookup in Hc as [i Hi].
  pose proof (lookup_lt_Some _ _ _ Hi). destruct (decide (i < 4)).
  - left. apply (list_elem_of_lookup_2 _ i). by rewrite lookup_take, decide_True.
  - right. apply (list_elem_of_lookup_2 _ (i - (length key - 4))). rewrite lookup_drop.
    by replace (length key - 4 + (i - (length key - 4))) with i by lia.
Qed.
