(* ===== verification/NavModules.v ===== *)
(** * Access to the console's modules (lib/nav-modules.ts)

    The administrator configures which header and sidebar modules are shown
    and which need a login.  The configuration arrives as part of the server
    status, in whatever form the setting was stored, and the last status is
    kept in the browser's local storage.

    Module and section names are assumed not to be members of
    [Object.prototype], except [__proto__], whose assignment is modelled. *)

From Stdlib Require Import ZArith.
From S2P Require Import Prelude JsString JsNumber JsNumberFacts JsCollections JsValue Json JsonFacts.

(** ** Data *)

Record ModuleAccess := { enabled : bool; requireAuth : bool }.

#[export] Instance ModuleAccess_eq_dec : EqDecision ModuleAccess.
Proof. solve_decision. Defined.

Inductive HeaderNavModule := rankings_module | pricing_module.

(** [flags] holds [home], [console], [docs], [about] and any other flag of the
    configuration; its order relative to the two access objects is not
    represented. *)
Record HeaderNavModules := {
  pricing : ModuleAccess;
  rankings : ModuleAccess;
  flags : list (jsstr * bool)
}.

Definition DEFAULT_HEADER_NAV_MODULES : HeaderNavModules :=
  {| pricing := {| enabled := true; requireAuth := false |};
     rankings := {| enabled := true; requireAuth := false |};
     flags := [(js "home", true); (js "console", true); (js "docs", true); (js "about", true)] |}.

Definition module_of (modules : HeaderNavModules) (module : HeaderNavModule) : ModuleAccess :=
  match module with
  | rankings_module => rankings modules
  | pricing_module => pricing modules
  end.

Definition cloneHeaderNavDefaults : HeaderNavModules := DEFAULT_HEADER_NAV_MODULES.

(** ** Parsing *)

(** Only a comparison with ["true"] and ["false"] sees the lowered text: no
    unit outside ASCII lowers to one of their letters. *)
Definition parseHeaderNavBoolean (raw : val) (fallback : bool) : bool :=
  match raw with
  | VBool b => b
  | VNum n =>
      if num_eqb n (num_of_Z 1) then true
      else if num_eqb n num_zero then false else fallback
  | VStr s =>
      let normalized := lower_ascii (trim s) in
      if bool_decide (normalized = js "true") || bool_decide (normalized = js "1") then true
      else if bool_decide (normalized = js "false") || bool_decide (normalized = js "0") then false
      else fallback
  | _ => fallback
  end.

(** [typeof raw] is ['boolean'], ['number'] or ['string']. *)
Definition is_flag_value (raw : val) : bool :=
  match raw with VBool _ | VNum _ | VStr _ => true | _ => false end.

(** The own property [k] of an object; arrays have none of the names used. *)
Definition prop_of (raw : val) (k : jsstr) : val :=
  match raw with VObj ps => default VUndef (mget k ps) | _ => VUndef end.

Definition parseAccess (raw : val) (fallback : ModuleAccess) : ModuleAccess :=
  if is_flag_value raw then
    {| enabled := parseHeaderNavBoolean raw (enabled fallback);
       requireAuth := requireAuth fallback |}
  else if truthy raw then
    {| enabled := parseHeaderNavBoolean (prop_of raw (js "enabled")) (enabled fallback);
       requireAuth := parseHeaderNavBoolean (prop_of raw (js "requireAuth"))
                        (requireAuth fallback) |}
  else fallback.

(** [String(raw)] is outside the [try]. *)
Definition parseHeaderNavRecord (raw : val) : res val :=
  if negb (truthy raw) then Ok VNull else
  text ← to_string raw;
  if bool_decide (trim text = []) then Ok VNull
  else match raw with
       | VArr _ | VObj _ => Ok raw
       | _ => Ok (try_catch (json_parse text) VNull)
       end.

(** [result[key] = b], without effect on the prototype. *)
Definition set_flag (key : jsstr) (b : bool) (result : HeaderNavModules) : HeaderNavModules :=
  if decide (key = js "__proto__") then result
  else {| pricing := pricing result; rankings := rankings result;
          flags := obj_set key b (flags result) |}.

Definition nav_entry (result : HeaderNavModules) (entry : jsstr * val) : HeaderNavModules :=
  let '(key, value) := entry in
  if decide (key = js "pricing") then
    {| pricing := parseAccess value (pricing result);
       rankings := rankings result; flags := flags result |}
  else if decide (key = js "rankings") then
    {| pricing := pricing result;
       rankings := parseAccess value (rankings result); flags := flags result |}
  else
    match mget key (flags result) with
    | Some fallback => set_flag key (parseHeaderNavBoolean value fallback) result
    | None =>
        if is_flag_value value then set_flag key (parseHeaderNavBoolean value true) result
        else result
    end.

Definition parseHeaderNavModules (raw : val) : res HeaderNavModules :=
  parsed ← parseHeaderNavRecord raw;
  if negb (truthy parsed) then Ok cloneHeaderNavDefaults
  else Ok (fold_left nav_entry (own_entries parsed) cloneHeaderNavDefaults).

(** [status?.k]. *)
Definition status_prop (status : val) (k : jsstr) : res val :=
  if nullish status then Ok VUndef else get_prop status k.

Definition parseHeaderNavModulesFromStatus (status : val) : res HeaderNavModules :=
  raw ← status_prop status (js "HeaderNavModules"); parseHeaderNavModules raw.

Definition getModuleAccessFromStatus (status : val) (module : HeaderNavModule)
    : res ModuleAccess :=
  modules ← parseHeaderNavModulesFromStatus status; Ok (module_of modules module).

(** ** The cached status *)

(** The browser: outside one there is no [window]; storage may refuse access
    or refuse to write. *)
Inductive Storage :=
  | NoWindow
  | Denied
  | Items (writable : bool) (items : list (jsstr * jsstr)).

Definition getItem (storage : Storage) (k : jsstr) : res (option jsstr) :=
  match storage with
  | Items _ items => Ok (mget k items)
  | _ => Throw (ErrorMsg (js "SecurityError"))
  end.

Definition getCachedStatus (storage : Storage) : val :=
  match storage with
  | NoWindow => VNull
  | _ =>
      try_catch
        (raw ← getItem storage (js "status");
         match raw with
         | Some text => if truthy_str text then json_parse text else Ok VNull
         | None => Ok VNull
         end) VNull
  end.

(** [setItem] with [JSON.stringify(status)], which is a text for every truthy
    status; a refused write is swallowed. *)
Definition cacheStatus (storage : Storage) (status : val) : Storage :=
  match storage with
  | Items true items =>
      if truthy status then
        match json_stringify [] status with
        | Some text => Items true (mset (js "status") text items)
        | None => storage
        end
      else storage
  | _ => storage
  end.

Definition getModuleAccess (storage : Storage) (module : HeaderNavModule) : res ModuleAccess :=
  getModuleAccessFromStatus (getCachedStatus storage) module.

(** The outcome of [await getStatus()] is an argument.  The result is the new
    content of the storage and the access granted. *)
Definition getFreshModuleAccess (getStatus : res val) (storage : Storage)
    (module : HeaderNavModule) : Storage * ModuleAccess :=
  match getStatus with
  | Throw _ => (storage, {| enabled := false; requireAuth := true |})
  | Ok status =>
      (cacheStatus storage status,
       try_catch (getModuleAccessFromStatus status module)
         {| enabled := false; requireAuth := true |})
  end.

(** ** The sidebar *)

(** [v[k]] on a value that may be an array or a string. *)
Definition get_index (v : val) (k : jsstr) : res val :=
  if nullish v then Throw TypeError else Ok (default VUndef (mget k (own_entries v))).

(** [v === false]. *)
Definition is_false (v : val) : bool := match v with VBool false => true | _ => false end.

Definition isSidebarModuleEnabled (storage : Storage) (section module : jsstr) : res bool :=
  let status := getCachedStatus storage in
  if negb (truthy status) then Ok true else
  raw ← get_prop status (js "SidebarModulesAdmin");
  if negb (truthy raw) then Ok true else
  text ← to_string raw;
  if bool_decide (trim text = []) then Ok true else
  Ok (try_catch
        (parsed ← json_parse text;
         sectionConfig ← get_index parsed section;
         if negb (truthy sectionConfig) then Ok true else
         sectionEnabled ← get_index sectionConfig (js "enabled");
         if is_false sectionEnabled then Ok false else
         moduleEnabled ← get_index sectionConfig module;
         if is_false moduleEnabled then Ok false else Ok true) true).

(** ** What a configuration means *)

(** The access to a module under a configuration object. *)
Definition configured_access (ps : list (jsstr * val)) (k : jsstr) (fallback : ModuleAccess)
    : ModuleAccess :=
  match mget k ps with Some v => parseAccess v fallback | None => fallback end.

(** The flag [k]: a known one falls back to its default, an unknown one is
    kept when its value is a boolean, a number or a string. *)
Definition configured_flag (ps : list (jsstr * val)) (defaults : list (jsstr * bool)) (k : jsstr)
    : option bool :=
  match mget k ps, mget k defaults with
  | Some v, Some d => Some (parseHeaderNavBoolean v d)
  | Some v, None => if is_flag_value v then Some (parseHeaderNavBoolean v true) else None
  | None, o => o
  end.

Definition flag_name (k : jsstr) : Prop :=
  k ≠ js "pricing" ∧ k ≠ js "rankings" ∧ k ≠ js "__proto__".

Lemma set_flag_other key b result :
  pricing (set_flag key b result) = pricing result ∧
  rankings (set_flag key b result) = rankings result.
Proof. unfold set_flag. by case_decide. Qed.

Lemma mget_set_flag key b result k :
  key ≠ js "__proto__" →
  mget k (flags (set_flag key b result)) = if decide (key = k) then Some b else mget k (flags result).
Proof. intros H. unfold set_flag. rewrite decide_False by done. apply mget_obj_set. Qed.

(** One entry of the configuration. *)
Lemma nav_entry_access result k v :
  pricing (nav_entry result (k, v))
  = (if decide (k = js "pricing") then parseAccess v (pricing result) else pricing result) ∧
  rankings (nav_entry result (k, v))
  = (if decide (k = js "rankings") then parseAccess v (rankings result) else rankings result).
Proof.
  unfold nav_entry. destruct (decide (k = js "pricing")) as [->|]; [done|].
  destruct (decide (k = js "rankings")) as [->|]; [done|].
  case_match; [apply set_flag_other|]. case_match; [apply set_flag_other | done].
Qed.

Lemma nav_entry_flag result k v j :
  flag_name j →
  mget j (flags (nav_entry result (k, v)))
  = if decide (k = j) then configured_flag [(k, v)] (flags result) j else mget j (flags result).
Proof.
  intros (Hp & Hr & Hproto). unfold nav_entry.
  destruct (decide (k = js "pricing")) as [->|]; [by rewrite decide_False|].
  destruct (decide (k = js "rankings")) as [->|]; [by rewrite decide_False|].
  unfold configured_flag. simpl. destruct (decide (k = js "__proto__")) as [->|Hk].
  { rewrite decide_False by done. unfold set_flag. rewrite decide_True by done.
    by repeat case_match. }
  destruct (decide (k = j)) as [->|Hkj].
  - rewrite decide_True by done. destruct (mget j (flags result)) eqn:E.
    + rewrite mget_set_flag by done. by rewrite decide_True.
    + destruct (is_flag_value v); [|done]. rewrite mget_set_flag by done. by rewrite decide_True.
  - destruct (mget k (flags result)); [|destruct (is_flag_value v); [|done]];
      rewrite mget_set_flag by done; by rewrite decide_False.
Qed.

Lemma configured_access_cons k v ps j fallback :
  k ∉ mkeys ps →
  configured_access ((k, v) :: ps) j fallback
  = configured_access ps j (if decide (k = j) then parseAccess v fallback else fallback).
Proof.
  intros Hk. unfold configured_access. simpl.
  destruct (decide (j = k)) as [->|]; [|by rewrite decide_False].
  rewrite decide_True by done. apply mget_None in Hk. by rewrite Hk.
Qed.

(** The loop over the entries of a configuration without repeated names. *)
Lemma nav_entries_access ps result :
  NoDup (mkeys ps) →
  pricing (fold_left nav_entry ps result) = configured_access ps (js "pricing") (pricing result) ∧
  rankings (fold_left nav_entry ps result) = configured_access ps (js "rankings") (rankings result).
Proof.
  revert result; induction ps as [|[k v] ps IH]; intros result; [done|].
  intros [Hk Hnd]%NoDup_cons. cbn [fold_left].
  destruct (IH (nav_entry result (k, v)) Hnd) as [-> ->].
  destruct (nav_entry_access result k v) as [-> ->].
  by rewrite !configured_access_cons.
Qed.

Lemma nav_entries_flag ps result j :
  NoDup (mkeys ps) → flag_name j →
  mget j (flags (fold_left nav_entry ps result)) = configured_flag ps (flags result) j.
Proof.
  revert result; induction ps as [|[k v] ps IH]; intros result; [done|].
  intros [Hk Hnd]%NoDup_cons Hj. cbn [fold_left]. rewrite IH by done.
  unfold configured_flag at 1 2. rewrite (nav_entry_flag _ _ _ _ Hj). simpl.
  destruct (decide (k = j)) as [->|Hkj].
  - rewrite decide_True by done. simpl in Hk. apply mget_None in Hk. rewrite Hk.
    unfold configured_flag. simpl. by rewrite decide_True.
  - by rewrite decide_False.
Qed.

Lemma parse_object_setting ps :
  mget (js "toString") ps = None →
  parseHeaderNavModules (VObj ps) = Ok (fold_left nav_entry ps cloneHeaderNavDefaults).
Proof.
  intros Hts. unfold parseHeaderNavModules, parseHeaderNavRecord. cbn [truthy negb].
  cbn [to_string]. rewrite Hts. done.
Qed.

Lemma parse_text_setting text ps :
  json_parse text = Ok (VObj ps) → trim text ≠ [] →
  parseHeaderNavModules (VStr text) = Ok (fold_left nav_entry ps cloneHeaderNavDefaults).
Proof.
  intros Hp Ht. unfold parseHeaderNavModules, parseHeaderNavRecord. cbn [truthy to_string].
  assert (truthy_str text = true) as ->.
  { apply truthy_str_true. intros ->. done. }
  cbn [negb mbind res_bind]. rewrite bool_decide_eq_false_2 by done. by rewrite Hp.
Qed.

(** Whether the setting is stored as an object or as the text of one, it
    gives each header module exactly its own entry, read over the default,
    and each flag its own entry, where an unreadable value of a known flag
    means the default and an unknown flag is kept when it is readable. *)
Theorem header_setting_spec (ps : list (jsstr * val)) (text : jsstr)
    (Hps : NoDup (mkeys ps)) (Hts : mget (js "toString") ps = None)
    (Htext : json_parse text = Ok (VObj ps)) (Hblank : trim text ≠ []) :
  parseHeaderNavModules (VStr text) = parseHeaderNavModules (VObj ps) ∧
  ∃ M, parseHeaderNavModules (VObj ps) = Ok M ∧
    pricing M = configured_access ps (js "pricing") (pricing DEFAULT_HEADER_NAV_MODULES) ∧
    rankings M = configured_access ps (js "rankings") (rankings DEFAULT_HEADER_NAV_MODULES) ∧
    ∀ k, flag_name k →
      mget k (flags M) = configured_flag ps (flags DEFAULT_HEADER_NAV_MODULES) k.
Proof.
  rewrite (parse_text_setting text ps), (parse_object_setting ps) by done. split; [done|].
  eexists. split; [done|]. destruct (nav_entries_access ps cloneHeaderNavDefaults Hps) as [Hp Hr].
  split; [done|]. split; [done|]. intros k Hk. by apply nav_entries_flag.
Qed.

Definition sample_setting : list (jsstr * val) :=
  [(js "home", VStr (js " FALSE ")); (js "pricing", VObj [(js "requireAuth", VBool true)]);
   (js "beta", VNum (num_of_Z 1)); (js "docs", VNull)].

Definition sample_setting_text : jsstr :=
  jq "{`home`:` FALSE `,`pricing`:{`requireAuth`:true},`beta`:1,`docs`:null}".

Lemma header_setting_spec_witness :
  ∃ M, parseHeaderNavModules (VStr sample_setting_text) = Ok M ∧
    pricing M = {| enabled := true; requireAuth := true |} ∧
    mget (js "home") (flags M) = Some false ∧ mget (js "docs") (flags M) = Some true.
Proof.
  destruct (header_setting_spec sample_setting sample_setting_text) as [Ht (M & HM & Hp & _ & Hf)].
  - apply (bool_decide_eq_true_1 _). vm_compute. reflexivity.
  - vm_compute. reflexivity.
  - vm_compute. reflexivity.
  - apply (bool_decide_eq_true_1 _). vm_compute. reflexivity.
  - exists M. rewrite Ht, HM, Hp. split; [reflexivity|]. split; [vm_compute; reflexivity|].
    split; rewrite Hf; try (vm_compute; reflexivity); (split; [|split]; discriminate).
Defined.

(** ** The fresh and the cached status *)

(** A fresh check caches a status that is truthy and that JSON can express, if
    the storage can be written, and grants what a cached check grants from then
    on; where reading the setting throws, or the status cannot be fetched, access
    is denied, and a failed fetch leaves the cache alone. *)
Theorem fresh_access_cached (status : val) (items : list (jsstr * jsstr)) (m : HeaderNavModule)
    (Hok : json_ok status) (Htruthy : truthy status = true) :
  let storage := Items true items in
  let denied := {| enabled := false; requireAuth := true |} in
  let '(storage', access) := getFreshModuleAccess (Ok status) storage m in
  getCachedStatus storage' = status ∧
  access = try_catch (getModuleAccess storage' m) denied ∧
  ∀ e, getFreshModuleAccess (Throw e) storage' m = (storage', denied).
Proof.
  cbv zeta. unfold getFreshModuleAccess.
  destruct (json_parse_stringify [] ltac:(constructor) status Hok) as (text & Hs & Hp).
  assert (getCachedStatus (cacheStatus (Items true items) status) = status) as Hc.
  { unfold cacheStatus, getCachedStatus, getItem. rewrite Htruthy, Hs, mget_mset_eq. cbn [mbind res_bind].
    rewrite Hp. destruct (truthy_str text) eqn:E; [done|].
    apply truthy_str_false in E as ->. vm_compute in Hp. discriminate Hp. }
  split; [exact Hc|]. split; [|done]. unfold getModuleAccess. by rewrite Hc.
Qed.

Lemma fresh_access_cached_witness :
  snd (getFreshModuleAccess
         (Ok (VObj [(js "HeaderNavModules", VObj [(js "rankings", VBool false)])]))
         (Items true []) rankings_module)
  = {| enabled := false; requireAuth := false |} ∧
  getCachedStatus (fst (getFreshModuleAccess
         (Ok (VObj [(js "HeaderNavModules", VObj [(js "rankings", VBool false)])]))
         (Items true []) rankings_module))
  = VObj [(js "HeaderNavModules", VObj [(js "rankings", VBool false)])].
Proof.
  split; [vm_compute; reflexivity|].
  refine (proj1 (fresh_access_cached
    (VObj [(js "HeaderNavModules", VObj [(js "rankings", VBool false)])]) [] rankings_module _ _)).
  - repeat constructor; apply (bool_decide_eq_true_1 _); vm_compute; reflexivity.
  - vm_compute. reflexivity.
Defined.

(** ** The sidebar *)

(** The section is switched off, or the module within it. *)
Definition hidden (config : val) (section module : jsstr) : bool :=
  let sectionConfig := own_entries (default VUndef (mget section (own_entries config))) in
  is_false (default VUndef (mget (js "enabled") sectionConfig))
  || is_false (default VUndef (mget module sectionConfig)).

Lemma falsy_no_entries v : truthy v = false → own_entries v = [].
Proof.
  destruct v as [| | | |s| |]; try done. simpl. intros ->%truthy_str_false. done.
Qed.

Lemma get_index_truthy v k :
  truthy v = true → get_index v k = Ok (default VUndef (mget k (own_entries v))).
Proof. unfold get_index. by destruct v. Qed.

(** A sidebar module is hidden exactly when the cached status has a
    configuration that parses and that switches the module, or its section,
    off with the boolean false; without a readable status or configuration
    every module is shown. *)
Theorem sidebar_spec (storage : Storage) (section module : jsstr) :
  match getCachedStatus storage with
  | VObj status =>
      match default VUndef (mget (js "SidebarModulesAdmin") status) with
      | VStr text =>
          isSidebarModuleEnabled storage section module
          = Ok match json_parse text with
               | Ok config => negb (hidden config section module)
               | Throw _ => true
               end
      | VUndef | VNull => isSidebarModuleEnabled storage section module = Ok true
      | _ => True
      end
  | _ => isSidebarModuleEnabled storage section module = Ok true
  end.
Proof.
  unfold isSidebarModuleEnabled.
  destruct (getCachedStatus storage) as [| |b|n|s|l|status];
    try (by repeat (case_match; try done)).
  cbn [truthy negb get_prop mbind res_bind].
  destruct (default VUndef (mget (js "SidebarModulesAdmin") status)) as [| |b|n|text|l|ps]; try done.
  cbn [truthy to_string mbind res_bind].
  destruct (truthy_str text) eqn:Et; cbn [negb].
  2:{ apply truthy_str_false in Et as ->. by vm_compute. }
  case_bool_decide as Hb.
  { assert (json_parse text = Throw SyntaxError) as ->; [|done]. by apply json_parse_blank. }
  destruct (json_parse text) as [config|e]; [|done]. cbn [mbind res_bind]. f_equal.
  unfold hidden. destruct (nullish config) eqn:Ec.
  { unfold get_index. rewrite Ec. by destruct config. }
  assert (get_index config section = Ok (default VUndef (mget section (own_entries config)))) as ->.
  { unfold get_index. by rewrite Ec. }
  cbn [mbind res_bind]. set (sec := default VUndef (mget section (own_entries config))).
  destruct (truthy sec) eqn:Es; cbn [negb]; [|by rewrite (falsy_no_entries sec Es)].
  rewrite !get_index_truthy by done. cbn [mbind res_bind].
  destruct (is_false _); [done|]. cbn [mbind res_bind]. by destruct (is_false _).
Qed.
