(* ===== verification/RatioSync.v ===== *)
(** * Upstream price synchronisation (system-settings/models/upstream-ratio-sync-helpers.ts)

    The administrator compares the prices of the models with those of several
    upstream sources and picks, per model and price field, the values to take
    over.  The picks are kept in a resolutions map: model name to field to
    value.  This file models the helpers that order and align the fields, that
    decide what a pick means, and that update the map.

    Objects used as maps are lists of properties in the order [Object.keys]
    lists them; model, source and field names are assumed not to be members of
    [Object.prototype].  [null] and [undefined] cells are both [None]: every
    use in the program treats them alike. *)

From Stdlib Require Import ZArith.
From S2P Require Import Prelude JsString JsNumber JsNumberFacts JsCollections JsValue.

(** ** Data *)

(** Members of the union [RatioType]; a table may hold other names too. *)
Abbreviation RatioType := jsstr.

Inductive Value := Num (n : num) | Str (s : jsstr).

#[export] Instance Value_eq_dec : EqDecision Value.
Proof. solve_decision. Defined.

Abbreviation Cell := (option Value).

Record RatioDifferenceEntry := {
  current : Cell;
  upstreams : list (jsstr * Cell);
  confidence : list (jsstr * bool)
}.

Abbreviation RatioTypes := (list (RatioType * RatioDifferenceEntry)).
Abbreviation Differences := (list (jsstr * RatioTypes)).
Abbreviation Resolution := (list (RatioType * Value)).
Abbreviation ResolutionsMap := (list (jsstr * Resolution)).

Record ResolutionSelection := {
  model : jsstr;
  ratioType : RatioType;
  value : Value;
  sourceName : jsstr
}.

Record ResolutionRemoval := {
  removal_model : jsstr;
  removal_ratioType : RatioType
}.

Abbreviation ResolutionRemovalPlan := (list (jsstr * list RatioType)).

Definition model_price : RatioType := js "model_price".
Definition billing_mode : RatioType := js "billing_mode".
Definition billing_expr : RatioType := js "billing_expr".

Definition RATIO_SYNC_FIELDS : list RatioType :=
  [js "model_ratio"; js "completion_ratio"; js "cache_ratio"; js "create_cache_ratio";
   js "image_ratio"; js "audio_ratio"; js "audio_completion_ratio"].

Definition SYNC_FIELD_ORDER : list RatioType :=
  RATIO_SYNC_FIELDS ++ [model_price; billing_mode; billing_expr].

Definition NUMERIC_SYNC_FIELDS : list jsstr := uniq (RATIO_SYNC_FIELDS ++ [model_price]).

(** Label and value of an option. *)
Definition RATIO_TYPE_OPTIONS : list (jsstr * jsstr) :=
  [(js "Model ratio", js "model_ratio");
   (js "Completion ratio", js "completion_ratio");
   (js "Cache ratio", js "cache_ratio");
   (js "Create cache ratio", js "create_cache_ratio");
   (js "Image ratio", js "image_ratio");
   (js "Audio ratio", js "audio_ratio");
   (js "Audio completion ratio", js "audio_completion_ratio");
   (js "Fixed price", js "model_price");
   (js "Expression billing", js "billing_expr")].

Definition OFFICIAL_CHANNEL_ID : num := num_of_Z (-100).
Definition OFFICIAL_CHANNEL_NAME : jsstr := js "官方倍率预设".
Definition MODELS_DEV_PRESET_ID : num := num_of_Z (-101).
Definition MODELS_DEV_PRESET_NAME : jsstr := js "models.dev 价格预设".

Definition getSyncFieldLabel (ratioType : jsstr) (t : jsstr → jsstr) : jsstr :=
  match List.find (λ o, bool_decide (snd o = ratioType)) RATIO_TYPE_OPTIONS with
  | Some opt => t (fst opt)
  | None => ratioType
  end.

(** ** Fields of a model and the sources that offer them *)

Definition getOrderedRatioTypes (ratioTypes : RatioTypes) (filter : option jsstr)
    : list RatioType :=
  let keys := mkeys ratioTypes in
  let ordered :=
    List.filter (λ f, bool_decide (f ∈ keys)) SYNC_FIELD_ORDER
    ++ List.filter (λ f, negb (bool_decide (f ∈ SYNC_FIELD_ORDER))) keys in
  match filter with
  | None => ordered
  | Some f =>
      if negb (truthy_str f) || bool_decide (f = js "__all__") then ordered
      else List.filter (λ t, bool_decide (t = f)) ordered
  end.

(** [ratioTypes[t]?.upstreams?.[sourceName]]. *)
Definition upstream_cell (ratioTypes : RatioTypes) (t : RatioType) (sourceName : jsstr) : Cell :=
  mget t ratioTypes ≫= λ e, mjoin (mget sourceName (upstreams e)).

(** The value of a cell that is neither absent nor ['same']. *)
Definition selectable (c : Cell) : option Value :=
  match c with
  | Some (Str s) => if decide (s = js "same") then None else Some (Str s)
  | c => c
  end.

Definition isSelectableUpstreamValue (c : Cell) : bool :=
  match selectable c with Some _ => true | None => false end.

Definition getPreferredSyncField (ratioTypes : RatioTypes) (ratioType : RatioType)
    (sourceName : jsstr) : RatioType :=
  let exprValue := upstream_cell ratioTypes billing_expr sourceName in
  if negb (bool_decide (ratioType = billing_expr)) && isSelectableUpstreamValue exprValue
  then billing_expr else ratioType.

Definition getVisibleRatioTypesForSource (ratioTypes : RatioTypes) (sourceName : jsstr)
    (filter : option jsstr) : list RatioType :=
  List.filter
    (λ ratioType, bool_decide (getPreferredSyncField ratioTypes ratioType sourceName = ratioType))
    (getOrderedRatioTypes ratioTypes filter).

Definition getAlignedRatioTypes (ratioTypes : RatioTypes) (sourceNames : list jsstr)
    (filter : option jsstr) : list RatioType :=
  let ordered := getOrderedRatioTypes ratioTypes filter in
  match sourceNames with
  | [] => ordered
  | _ =>
      let visible := uniq (flat_map (λ sourceName,
        getVisibleRatioTypesForSource ratioTypes sourceName filter) sourceNames) in
      List.filter (λ ratioType, bool_decide (ratioType ∈ visible)) ordered
  end.

Inductive BillingCategory := price | ratio | tiered.

#[export] Instance BillingCategory_eq_dec : EqDecision BillingCategory.
Proof. solve_decision. Defined.

Definition getBillingCategory (ratioType : jsstr) : BillingCategory :=
  if decide (ratioType = model_price) then price
  else if bool_decide (ratioType = billing_mode) || bool_decide (ratioType = billing_expr)
  then tiered else ratio.

Definition synthesizedPresets : list (jsstr * num) :=
  [(OFFICIAL_CHANNEL_NAME, OFFICIAL_CHANNEL_ID); (MODELS_DEV_PRESET_NAME, MODELS_DEV_PRESET_ID)].

Definition getUpstreamDisplayName (sourceName : jsstr) : jsstr :=
  match List.find (λ preset, bool_decide (sourceName
          = fst preset ++ js "(" ++ num_to_string (snd preset) ++ js ")")) synthesizedPresets with
  | Some preset => fst preset
  | None => sourceName
  end.

(** ** Reading the map *)

Definition value_number (v : Value) : num :=
  match v with Num n => n | Str s => num_of_string s end.

(** [a === b]. *)
Definition value_eqb (a b : Value) : bool :=
  match a, b with
  | Num x, Num y => num_eqb x y
  | Str x, Str y => bool_decide (x = y)
  | _, _ => false
  end.

Definition isSelectedResolutionValue (resolutions : ResolutionsMap) (model : jsstr)
    (ratioType : RatioType) (upstreamValue : Cell) : bool :=
  match selectable upstreamValue, mget model resolutions ≫= mget ratioType with
  | Some upstreamValue, Some selectedValue =>
      if bool_decide (ratioType ∈ NUMERIC_SYNC_FIELDS) then
        let selectedNumber := value_number selectedValue in
        let upstreamNumber := value_number upstreamValue in
        num_is_finite selectedNumber && num_is_finite upstreamNumber
        && num_eqb selectedNumber upstreamNumber
      else value_eqb selectedValue upstreamValue
  | _, _ => false
  end.

(** ** Picking values *)

Definition resolveResolutionSelection (differences : Differences) (selection : ResolutionSelection)
    : ResolutionSelection :=
  let modelDiffs := mget (model selection) differences in
  let preferredType := getPreferredSyncField (default [] modelDiffs) (ratioType selection)
                         (sourceName selection) in
  let preferredValue :=
    if decide (preferredType = ratioType selection) then value selection
    else default (value selection)
           (upstream_cell (default [] modelDiffs) preferredType (sourceName selection)) in
  {| model := model selection; ratioType := preferredType;
     value := preferredValue; sourceName := sourceName selection |}.

(** The fields a pick of a price or a ratio throws out. *)
Definition displaced (category : BillingCategory) (rt : RatioType) : bool :=
  negb (bool_decide (category = tiered))
  && negb (bool_decide (getBillingCategory rt = tiered))
  && negb (bool_decide (getBillingCategory rt = category)).

(** The assignments of a tiered pick: the mode and the expression of the same
    source come along. *)
Definition set_tiered_fields (modelDiffs : RatioTypes) (finalType : RatioType)
    (sourceName : jsstr) (newModelRes : Resolution) : Resolution :=
  let modeVal := upstream_cell modelDiffs billing_mode sourceName in
  let exprVal := upstream_cell modelDiffs billing_expr sourceName in
  let newModelRes :=
    match selectable modeVal with
    | Some modeVal => obj_set billing_mode modeVal newModelRes
    | None => if decide (finalType = billing_expr)
              then obj_set billing_mode (Str (js "tiered_expr")) newModelRes
              else newModelRes
    end in
  match selectable exprVal with
  | Some exprVal => obj_set billing_expr exprVal newModelRes
  | None => newModelRes
  end.

(** The draft of the picked model after the pick. *)
Definition select_into (differences : Differences) (selection : ResolutionSelection)
    (newModelRes : Resolution) : Resolution :=
  let modelDiffs := mget (model selection) differences in
  let preferredType := getPreferredSyncField (default [] modelDiffs) (ratioType selection)
                         (sourceName selection) in
  let finalValue :=
    if decide (preferredType = ratioType selection) then value selection
    else default (value selection)
           (upstream_cell (default [] modelDiffs) preferredType (sourceName selection)) in
  let finalType := preferredType in
  let category := getBillingCategory finalType in
  let newModelRes := List.filter (λ kv, negb (displaced category (fst kv))) newModelRes in
  let newModelRes := obj_set finalType finalValue newModelRes in
  match category, modelDiffs with
  | tiered, Some modelDiffs =>
      set_tiered_fields modelDiffs finalType (sourceName selection) newModelRes
  | _, _ => newModelRes
  end.

Definition getDraftModelResolution (resolutions : ResolutionsMap) (model : jsstr)
    (existingDraft : option Resolution) : Resolution :=
  match existingDraft with
  | Some draft => draft
  | None => default [] (mget model resolutions)
  end.

(** The draft is an object of [drafts]: the assignments to it are seen there. *)
Definition applyResolutionSelectionToDraft (resolutions : ResolutionsMap)
    (differences : Differences) (drafts : list (jsstr * Resolution))
    (selection : ResolutionSelection) : list (jsstr * Resolution) :=
  mupd (model selection)
    (λ existing, select_into differences selection
                   (getDraftModelResolution resolutions (model selection) existing)) drafts.

(** A model whose draft is empty leaves the map. *)
Definition write_draft (next : ResolutionsMap) (model : jsstr) (draft : Resolution)
    : ResolutionsMap :=
  match draft with
  | [] => obj_del model next
  | _ => obj_set model draft next
  end.

Definition applyResolutionSelections (resolutions : ResolutionsMap) (differences : Differences)
    (selections : list ResolutionSelection) : ResolutionsMap :=
  match selections with
  | [] => resolutions
  | _ =>
      let drafts :=
        fold_left (applyResolutionSelectionToDraft resolutions differences) selections [] in
      fold_left (λ next kv, write_draft next (fst kv) (snd kv)) drafts resolutions
  end.

Definition applyResolutionSelection (resolutions : ResolutionsMap) (differences : Differences)
    (selection : ResolutionSelection) : ResolutionsMap :=
  applyResolutionSelections resolutions differences [selection].

Definition selection_key (s : ResolutionSelection) : jsstr := model s ++ 0%N :: ratioType s.

(** A selection already listed that a price or ratio of the same model throws
    out. *)
Definition conflicts (category : BillingCategory) (resolved existing : ResolutionSelection) : bool :=
  bool_decide (model existing = model resolved)
  && displaced category (ratioType existing).

Definition add_effective (differences : Differences)
    (effectiveByKey : list (jsstr * ResolutionSelection)) (selection : ResolutionSelection)
    : list (jsstr * ResolutionSelection) :=
  let resolved := resolveResolutionSelection differences selection in
  let category := getBillingCategory (ratioType resolved) in
  mset (selection_key resolved) resolved
    (List.filter (λ kv, negb (conflicts category resolved (snd kv))) effectiveByKey).

Definition getEffectiveResolutionSelections (differences : Differences)
    (selections : list ResolutionSelection) : list ResolutionSelection :=
  mvalues (fold_left (add_effective differences) selections []).

(** ** Withdrawing picks *)

(** The mode and the expression are withdrawn together. *)
Definition delete_field (draft : Resolution) (ratioType : RatioType) : Resolution :=
  let draft := obj_del ratioType draft in
  let draft := if decide (ratioType = billing_expr) then obj_del billing_mode draft else draft in
  if decide (ratioType = billing_mode) then obj_del billing_expr draft else draft.

Definition applyResolutionRemovalPlan (resolutions : ResolutionsMap)
    (plan : ResolutionRemovalPlan) : ResolutionsMap :=
  match plan with
  | [] => resolutions
  | _ =>
      fold_left (λ next kv,
        match mget (fst kv) resolutions with
        | None => next
        | Some current => write_draft next (fst kv) (fold_left delete_field (snd kv) current)
        end) plan resolutions
  end.

(** [ratioTypes.add(ratioType)] on the set of the plan, or a new set. *)
Definition plan_add (removal : ResolutionRemoval) (ratioTypes : option (list RatioType))
    : list RatioType :=
  match ratioTypes with
  | Some ts => if decide (removal_ratioType removal ∈ ts) then ts
               else ts ++ [removal_ratioType removal]
  | None => [removal_ratioType removal]
  end.

Definition applyResolutionRemovals (resolutions : ResolutionsMap)
    (removals : list ResolutionRemoval) : ResolutionsMap :=
  match removals with
  | [] => resolutions
  | _ => applyResolutionRemovalPlan resolutions (group_by removal_model plan_add removals [])
  end.

Definition deleteResolutionField (resolutions : ResolutionsMap) (model : jsstr)
    (ratioType : RatioType) : ResolutionsMap :=
  applyResolutionRemovals resolutions
    [{| removal_model := model; removal_ratioType := ratioType |}].
