(* ===== verification/RatioSyncSpec.v ===== *)
(** * Properties of upstream price synchronisation

    What [RatioSync] promises the table that uses it: the aligned fields are
    those a pick stays on, a bulk pick is a sequence of single picks, whatever
    the administrator does leaves the map coherent, picking a whole column
    makes every effective pick read as selected, and withdrawing is exactly
    the deletion of the named fields. *)

From Stdlib Require Import ZArith.
From stdpp Require Import relations.
From S2P Require Import Prelude JsString JsNumber JsNumberFacts JsCollections JsValue RatioSync.

(** ** Loops that write one key of a map per step *)

Lemma mget_fold_by_key {V W} (upd : list (jsstr * V) → jsstr * W → list (jsstr * V))
    (f : jsstr → W → option V → option V) entries next j :
  (∀ n k w, mget j (upd n (k, w)) = if decide (k = j) then f k w (mget j n) else mget j n) →
  NoDup (mkeys entries) →
  mget j (fold_left upd entries next)
  = match mget j entries with Some w => f j w (mget j next) | None => mget j next end.
Proof.
  intros Hupd. revert next.
  induction entries as [|[k w] entries IH]; intros next Hnd; simpl; [done|].
  simpl in Hnd. apply NoDup_cons in Hnd as [Hk Hnd]. rewrite IH by done.
  destruct (decide (j = k)) as [->|Hne].
  - apply mget_None in Hk. rewrite Hk, Hupd. by rewrite decide_True.
  - rewrite Hupd. by rewrite !(decide_False (P := k = j)).
Qed.

(** A record, unless it is empty. *)
Definition nonempty (d : Resolution) : option Resolution :=
  match d with [] => None | _ => Some d end.

Lemma mget_write_draft next m (draft : Resolution) j :
  mget j (write_draft next m draft)
  = if decide (m = j) then nonempty draft else mget j next.
Proof. destruct draft; simpl; [apply mget_obj_del | apply mget_obj_set]. Qed.

Lemma NoDup_write_draft next m (draft : Resolution) :
  NoDup (mkeys next) → NoDup (mkeys (write_draft next m draft)).
Proof. destruct draft; simpl; [apply NoDup_obj_del | apply NoDup_obj_set]. Qed.

Lemma fold_left_keeps {A B} (P : A → Prop) (f : A → B → A) l a :
  P a → (∀ a b, b ∈ l → P a → P (f a b)) → P (fold_left f l a).
Proof.
  revert a; induction l as [|b l IH]; intros a Ha Hf; simpl; [done|].
  apply IH; [apply Hf; [constructor | done]|]. intros. apply Hf; [by constructor | done].
Qed.

(** ** One pick *)

Lemma obj_set_not_nil {V} k (v : V) ps : obj_set k v ps ≠ [].
Proof. intros E. pose proof (mget_obj_set k v ps k) as H. by rewrite E, decide_True in H. Qed.

Lemma set_tiered_not_nil rts t src r : r ≠ [] → set_tiered_fields rts t src r ≠ [].
Proof.
  intros Hr. unfold set_tiered_fields.
  repeat case_match; try done; apply obj_set_not_nil.
Qed.

Lemma select_into_not_nil D s r : select_into D s r ≠ [].
Proof.
  unfold select_into. repeat case_match; first [apply obj_set_not_nil | apply set_tiered_not_nil, obj_set_not_nil].
Qed.

(** What the code writes for a pick, in terms of the resolved selection. *)
Lemma select_into_resolved D s r :
  let sel := resolveResolutionSelection D s in
  let category := getBillingCategory (ratioType sel) in
  select_into D s r
  = (let r' := obj_set (ratioType sel) (value sel)
                 (List.filter (λ kv, negb (displaced category (fst kv))) r) in
     match category, mget (model s) D with
     | tiered, Some d => set_tiered_fields d (ratioType sel) (sourceName s) r'
     | _, _ => r'
     end).
Proof. done. Qed.

(** ** A bulk pick is a sequence of single picks *)

Definition picks_of (m : jsstr) (ss : list ResolutionSelection) : list ResolutionSelection :=
  List.filter (λ s, bool_decide (model s = m)) ss.

(** What picks make of the record of their model. *)
Definition picked (D : Differences) (ss : list ResolutionSelection) (o : option Resolution)
    : option Resolution :=
  fold_left (λ o s, Some (select_into D s (default [] o))) ss o.

Lemma drafts_group R D ss :
  fold_left (applyResolutionSelectionToDraft R D) ss []
  = group_by model (λ s o, select_into D s (getDraftModelResolution R (model s) o)) ss [].
Proof. done. Qed.

Lemma mget_selections R D ss m :
  mget m (applyResolutionSelections R D ss) = picked D (picks_of m ss) (mget m R).
Proof.
  unfold applyResolutionSelections. destruct ss as [|s0 ss0]; [done|].
  set (ss := s0 :: ss0). rewrite drafts_group.
  rewrite (mget_fold_by_key _ (λ _ d _, nonempty d)).
  - rewrite mget_group_by. simpl (mget m []). fold (picks_of m ss).
    assert (Forall (λ s, model s = m) (picks_of m ss)) as Hm.
    { apply Forall_forall. intros s [_ H%bool_decide_eq_true]%elem_of_filterb. done. }
    generalize dependent (picks_of m ss). intros l Hm. destruct Hm as [|s l Hs Hl]; [done|].
    simpl. rewrite Hs.
    generalize (select_into D s (default [] (mget m R))) (select_into_not_nil D s (default [] (mget m R))).
    induction Hl as [|s' l Hs' _ IH]; intros d Hd; simpl; [by destruct d|].
    apply IH, select_into_not_nil.
  - intros n k d. by rewrite mget_write_draft.
  - apply NoDup_group_by. constructor.
Qed.

Lemma picked_app D ss ss' o : picked D (ss ++ ss') o = picked D ss' (picked D ss o).
Proof. apply fold_left_app. Qed.

Lemma picks_of_app m ss ss' : picks_of m (ss ++ ss') = picks_of m ss ++ picks_of m ss'.
Proof. apply List.filter_app. Qed.

(** C31: Picking several values at once is picking them one after the other:
    the draft objects the bulk operation shares between the picks of a model,
    and writes back at the end, are not observable.  A model that no pick
    names keeps its record, and one that is named never ends up empty. *)
Theorem selections_in_sequence (R : ResolutionsMap) (D : Differences)
    (ss : list ResolutionSelection) (m : jsstr) :
  mget m (applyResolutionSelections R D ss)
  = mget m (fold_left (λ R s, applyResolutionSelection R D s) ss R) ∧
  match picks_of m ss with
  | [] => mget m (applyResolutionSelections R D ss) = mget m R
  | _ => ∃ r, mget m (applyResolutionSelections R D ss) = Some r ∧ r ≠ []
  end.
Proof.
  split; rewrite mget_selections.
  - revert R; induction ss as [|s ss IH]; intros R; simpl; [done|].
    rewrite <-IH. unfold applyResolutionSelection. rewrite (mget_selections _ D [s]).
    rewrite <-picked_app, <-picks_of_app. done.
  - destruct (picks_of m ss) as [|s l] using rev_ind; [done|]. rewrite picked_app.
    destruct l; simpl; (eexists; split; [reflexivity | apply select_into_not_nil]).
Qed.

(** ** Coherence of the map *)

(** Prices and ratios are never mixed, and a billing expression comes with its
    mode. *)
Record sound (r : Resolution) : Prop := {
  sound_keys : NoDup (mkeys r);
  sound_exclusive : ∀ t1 t2, t1 ∈ mkeys r → t2 ∈ mkeys r →
    getBillingCategory t1 ≠ tiered → getBillingCategory t2 ≠ tiered →
    getBillingCategory t1 = getBillingCategory t2;
  sound_expr : billing_expr ∈ mkeys r → billing_mode ∈ mkeys r
}.

Definition coherent (R : ResolutionsMap) : Prop :=
  NoDup (mkeys R) ∧ ∀ m r, mget m R = Some r → r ≠ [] ∧ sound r.

Lemma sound_nil : sound [].
Proof. split; [constructor | set_solver | set_solver]. Qed.

Lemma elem_of_mkeys_obj_set {V} k (v : V) ps j : j ∈ mkeys (obj_set k v ps) ↔ j = k ∨ j ∈ mkeys ps.
Proof.
  rewrite <-!mget_is_Some, mget_obj_set. case_decide; subst; [naive_solver|]. naive_solver.
Qed.

Lemma elem_of_mkeys_filter {V} (p : jsstr → bool) (ps : list (jsstr * V)) j :
  j ∈ mkeys (List.filter (λ kv, p (fst kv)) ps) ↔ p j = true ∧ j ∈ mkeys ps.
Proof.
  rewrite <-!mget_is_Some, mget_filter_keys. destruct (p j); [naive_solver|].
  split; [by intros [? ?] | by intros [? ?]].
Qed.

Lemma category_tiered t : getBillingCategory t = tiered ↔ t = billing_mode ∨ t = billing_expr.
Proof.
  unfold getBillingCategory. case_decide as Hp.
  - split; [done|]. intros [-> | ->]; discriminate.
  - destruct (bool_decide_reflect (t = billing_mode)), (bool_decide_reflect (t = billing_expr));
      naive_solver.
Qed.

Lemma displaced_true c t :
  displaced c t = true ↔
  c ≠ tiered ∧ getBillingCategory t ≠ tiered ∧ getBillingCategory t ≠ c.
Proof.
  unfold displaced. rewrite !andb_true_iff, !negb_true_iff, !bool_decide_eq_false. tauto.
Qed.

Lemma displaced_false c t :
  displaced c t = false ↔
  c = tiered ∨ getBillingCategory t = tiered ∨ getBillingCategory t = c.
Proof.
  unfold displaced. rewrite !andb_false_iff, !negb_false_iff, !bool_decide_eq_true. tauto.
Qed.

Lemma sound_filter (p : jsstr → bool) r :
  (p billing_expr = true → p billing_mode = true) →
  sound r → sound (List.filter (λ kv, p (fst kv)) r).
Proof.
  intros Hp [Hk He Hx]. split; [by apply NoDup_mkeys_filter | |].
  - intros t1 t2 [_ H1]%elem_of_mkeys_filter [_ H2]%elem_of_mkeys_filter. by apply He.
  - intros [H1 H2]%elem_of_mkeys_filter. apply elem_of_mkeys_filter. auto.
Qed.

(** Adding a tiered field cannot mix categories. *)
Lemma exclusive_obj_set t v (r : Resolution) :
  (∀ t', t' ∈ mkeys r → getBillingCategory t ≠ tiered →
     getBillingCategory t' = tiered ∨ getBillingCategory t' = getBillingCategory t) →
  (∀ t1 t2, t1 ∈ mkeys r → t2 ∈ mkeys r →
    getBillingCategory t1 ≠ tiered → getBillingCategory t2 ≠ tiered →
    getBillingCategory t1 = getBillingCategory t2) →
  (∀ t1 t2, t1 ∈ mkeys (obj_set t v r) → t2 ∈ mkeys (obj_set t v r) →
    getBillingCategory t1 ≠ tiered → getBillingCategory t2 ≠ tiered →
    getBillingCategory t1 = getBillingCategory t2).
Proof.
  intros Ht He t1 t2 H1%elem_of_mkeys_obj_set H2%elem_of_mkeys_obj_set C1 C2.
  destruct H1 as [-> | H1], H2 as [-> | H2]; [done | | | by apply He].
  - destruct (Ht t2 H2 C1) as [|]; congruence.
  - destruct (Ht t1 H1 C2) as [|]; congruence.
Qed.

Lemma elem_of_set_tiered rts t src r j :
  j ∈ mkeys (set_tiered_fields rts t src r) → j ∈ mkeys r ∨ getBillingCategory j = tiered.
Proof.
  rewrite category_tiered. unfold set_tiered_fields. repeat case_match; intros Hj;
    rewrite ?elem_of_mkeys_obj_set in Hj; tauto.
Qed.

Lemma set_tiered_keeps rts t src r j :
  j ∈ mkeys r → j ∈ mkeys (set_tiered_fields rts t src r).
Proof.
  intros Hj. unfold set_tiered_fields. repeat case_match; rewrite ?elem_of_mkeys_obj_set; tauto.
Qed.

Lemma set_tiered_mode rts t src r :
  t = billing_expr → billing_mode ∈ mkeys (set_tiered_fields rts t src r).
Proof.
  intros ->. unfold set_tiered_fields. rewrite decide_True by done.
  repeat case_match; rewrite ?elem_of_mkeys_obj_set; tauto.
Qed.

Lemma NoDup_set_tiered rts t src r : NoDup (mkeys r) → NoDup (mkeys (set_tiered_fields rts t src r)).
Proof. intros H. unfold set_tiered_fields. repeat case_match; by repeat apply NoDup_obj_set. Qed.

(** Picking a value of a listed model keeps a record sound. *)
Lemma select_into_sound D s r d :
  mget (model s) D = Some d → sound r → sound (select_into D s r).
Proof.
  intros Hd Hr. rewrite select_into_resolved. cbv zeta. rewrite Hd.
  set (sel := resolveResolutionSelection D s). set (c := getBillingCategory (ratioType sel)).
  assert (sound (List.filter (λ kv, negb (displaced c (fst kv))) r)) as [Hk He Hx].
  { apply (sound_filter (λ t, negb (displaced c t))); [|done].
    intros _. apply negb_true_iff, displaced_false. by right; left. }
  assert (∀ t', t' ∈ mkeys (List.filter (λ kv, negb (displaced c (fst kv))) r) →
    c ≠ tiered → getBillingCategory t' = tiered ∨ getBillingCategory t' = c) as Hc.
  { intros t' [Ht' _]%(elem_of_mkeys_filter (λ t, negb (displaced c t))) Hc.
    apply negb_true_iff, displaced_false in Ht' as [?|]; done. }
  pose proof (exclusive_obj_set (ratioType sel) (value sel) _ Hc He) as He'.
  pose proof (NoDup_obj_set (ratioType sel) (value sel) _ Hk) as Hk'.
  assert (c ≠ tiered → sound (obj_set (ratioType sel) (value sel)
    (List.filter (λ kv, negb (displaced c (fst kv))) r))) as Hplain.
  { intros Hnt. split; [done | done|]. rewrite !elem_of_mkeys_obj_set. intros [E|?]; [|auto].
    destruct Hnt. apply category_tiered. by right. }
  destruct c eqn:Ec; [by apply Hplain | by apply Hplain |].
  split; [by apply NoDup_set_tiered | |].
  - intros t1 t2 [H1|?]%elem_of_set_tiered [H2|?]%elem_of_set_tiered C1 C2; try done. by apply He'.
  - intros _. apply category_tiered in Ec as [Em|Ee]; [|by apply set_tiered_mode].
    apply set_tiered_keeps, elem_of_mkeys_obj_set. by left.
Qed.

(** ** Withdrawals *)

(** The fields that go when those of [ts] are withdrawn. *)
Definition withdrawn (ts : list RatioType) (t : RatioType) : bool :=
  bool_decide (t ∈ ts)
  || bool_decide (t = billing_mode) && bool_decide (billing_expr ∈ ts)
  || bool_decide (t = billing_expr) && bool_decide (billing_mode ∈ ts).

Definition fields_of (m : jsstr) (rs : list ResolutionRemoval) : list RatioType :=
  map removal_ratioType (List.filter (λ r, bool_decide (removal_model r = m)) rs).

Lemma filter_filterb {A} (p q : A → bool) l :
  List.filter p (List.filter q l) = List.filter (λ x, q x && p x) l.
Proof. induction l as [|x l IH]; simpl; [done|]. destruct (q x); simpl; [by rewrite IH | done]. Qed.

Lemma delete_field_filter d t :
  delete_field d t = List.filter (λ kv, negb (withdrawn [t] (fst kv))) d.
Proof.
  unfold delete_field, obj_del.
  assert (billing_mode ≠ billing_expr) as Hne by discriminate.
  repeat case_decide; rewrite ?filter_filterb; apply filter_ext; intros [k v]; unfold withdrawn;
    apply eq_bool_prop_intro; simpl fst;
    rewrite ?andb_True, !negb_True, !orb_True, !andb_True, !bool_decide_spec, !list_elem_of_singleton;
    subst; intuition congruence.
Qed.

Lemma withdrawn_cons t ts k : withdrawn (t :: ts) k = withdrawn [t] k || withdrawn ts k.
Proof.
  apply eq_bool_prop_intro. unfold withdrawn.
  rewrite !orb_True, !andb_True, !bool_decide_spec, !elem_of_cons, !elem_of_nil. tauto.
Qed.

Lemma delete_fields_filter ts d :
  fold_left delete_field ts d = List.filter (λ kv, negb (withdrawn ts (fst kv))) d.
Proof.
  revert d; induction ts as [|t ts IH]; intros d; simpl.
  - symmetry. apply filterb_all. intros [k v] _. unfold withdrawn. simpl.
    by rewrite !andb_false_r.
  - rewrite IH, delete_field_filter, filter_filterb. apply filter_ext. intros [k v]. simpl.
    by rewrite (withdrawn_cons t ts), negb_orb.
Qed.

Lemma withdrawn_ext ts ts' t : (∀ x, x ∈ ts ↔ x ∈ ts') → withdrawn ts t = withdrawn ts' t.
Proof. intros H. unfold withdrawn. by rewrite !(bool_decide_ext _ _ (H _)). Qed.

Lemma withdrawn_paired ts : withdrawn ts billing_expr = withdrawn ts billing_mode.
Proof.
  apply eq_bool_prop_intro. unfold withdrawn. rewrite !orb_True, !andb_True, !bool_decide_spec. tauto.
Qed.

Lemma mget_removal_plan R plan m :
  NoDup (mkeys plan) →
  mget m (applyResolutionRemovalPlan R plan)
  = match mget m plan, mget m R with
    | Some ts, Some r =>
        nonempty (List.filter (λ kv, negb (withdrawn ts (fst kv))) r)
    | _, o => o
    end.
Proof.
  intros Hnd. unfold applyResolutionRemovalPlan. destruct plan as [|e plan']; [done|].
  generalize dependent (e :: plan'). intros plan Hnd.
  rewrite (mget_fold_by_key _ (λ k ts o, match mget k R with
    | None => o
    | Some r => nonempty (fold_left delete_field ts r) end)); [| |done].
  - destruct (mget m plan) as [ts|]; [|done]. destruct (mget m R) as [r|]; [|done].
    by rewrite delete_fields_filter.
  - intros n k ts. simpl. destruct (mget k R) as [r|] eqn:E; [apply mget_write_draft|].
    by case_decide.
Qed.

Lemma NoDup_removal_plan R plan :
  NoDup (mkeys R) → NoDup (mkeys (applyResolutionRemovalPlan R plan)).
Proof.
  intros H. unfold applyResolutionRemovalPlan. destruct plan as [|e plan]; [done|].
  apply fold_left_keeps; [done|]. intros n [k ts] _ Hn. simpl.
  destruct (mget k R); [by apply NoDup_write_draft | done].
Qed.

(** The fields the plan of a list of removals holds for a model. *)
Lemma plan_of_removals m rs :
  match mget m (group_by removal_model plan_add rs []) with
  | Some ts => fields_of m rs ≠ [] ∧ ∀ t, t ∈ ts ↔ t ∈ fields_of m rs
  | None => fields_of m rs = []
  end.
Proof.
  rewrite mget_group_by. simpl (mget m []). unfold fields_of.
  generalize (List.filter (λ r, bool_decide (removal_model r = m)) rs). intros l.
  induction l as [|r l IH] using rev_ind; simpl; [done|].
  rewrite fold_left_app. simpl. rewrite map_app. simpl.
  split; [by destruct (map removal_ratioType l)|]. intros t. rewrite elem_of_app, list_elem_of_singleton.
  destruct (fold_left _ l None) as [ts|]; simpl.
  - destruct IH as [_ IH]. case_decide as Hin; [|rewrite elem_of_app, list_elem_of_singleton];
      rewrite IH; [|done]. apply IH in Hin. naive_solver.
  - rewrite IH, list_elem_of_singleton. set_solver.
Qed.

Lemma mget_removals R rs m :
  mget m (applyResolutionRemovals R rs)
  = match fields_of m rs, mget m R with
    | [], o => o
    | _, None => None
    | ts, Some r =>
        nonempty (List.filter (λ kv, negb (withdrawn ts (fst kv))) r)
    end.
Proof.
  unfold applyResolutionRemovals. destruct rs as [|r0 rs0]; [done|].
  generalize (r0 :: rs0). intros rs.
  rewrite mget_removal_plan by (apply NoDup_group_by; constructor).
  pose proof (plan_of_removals m rs) as H.
  destruct (mget m (group_by removal_model plan_add rs [])) as [ts|].
  - destruct H as [Hne H]. destruct (fields_of m rs) as [|t0 ts0] eqn:E; [done|].
    destruct (mget m R) as [r|]; [|done].
    assert (List.filter (λ kv, negb (withdrawn ts (fst kv))) r
            = List.filter (λ kv, negb (withdrawn (t0 :: ts0) (fst kv))) r) as ->; [|done].
    apply filter_ext. intros [k v]. f_equal. by apply withdrawn_ext.
  - by rewrite H.
Qed.

(** Withdrawing a list of fields deletes, from each model it names, exactly
    those fields, the billing mode and the billing expression always going
    together; a model left without fields leaves the map, every other record
    is as it was, and no withdrawn field reads as selected any more. *)
Theorem removals_spec (R : ResolutionsMap) (rs : list ResolutionRemoval) (m : jsstr) :
  mget m (applyResolutionRemovals R rs)
  = match fields_of m rs, mget m R with
    | [], o => o
    | _, None => None
    | ts, Some r =>
        nonempty (List.filter (λ kv, negb (withdrawn ts (fst kv))) r)
    end ∧
  Forall (λ r, ∀ c, isSelectedResolutionValue (applyResolutionRemovals R rs)
                      (removal_model r) (removal_ratioType r) c = false) rs.
Proof.
  split; [apply mget_removals|]. apply Forall_forall. intros r Hr c.
  unfold isSelectedResolutionValue. destruct (selectable c); [|done].
  assert (mget (removal_model r) (applyResolutionRemovals R rs) ≫= mget (removal_ratioType r) = None)
    as ->; [|done].
  rewrite mget_removals.
  assert (removal_ratioType r ∈ fields_of (removal_model r) rs) as Hin.
  { apply (list_elem_of_fmap_2 removal_ratioType), elem_of_filterb. by rewrite bool_decide_eq_true. }
  destruct (fields_of (removal_model r) rs) as [|t ts] eqn:E; [by apply elem_of_nil in Hin|].
  destruct (mget (removal_model r) R) as [d|]; [|done].
  pose proof (mget_filter_keys (λ k, negb (withdrawn (t :: ts) k)) d (removal_ratioType r)) as Hg.
  assert (withdrawn (t :: ts) (removal_ratioType r) = true) as Hw.
  { unfold withdrawn. by rewrite (bool_decide_eq_true_2 _ Hin). }
  cbv beta in Hg. rewrite Hw in Hg. simpl in Hg. by destruct (List.filter _ d).
Qed.

(** ** Reachable maps *)

(** What the administrator can do: the map starts empty. *)
Inductive sync_step (D : Differences) : ResolutionsMap → ResolutionsMap → Prop :=
  | step_select R ss :
      Forall (λ s, is_Some (mget (model s) D)) ss →
      sync_step D R (applyResolutionSelections R D ss)
  | step_select_one R s :
      is_Some (mget (model s) D) → sync_step D R (applyResolutionSelection R D s)
  | step_unselect R m t : sync_step D R (deleteResolutionField R m t)
  | step_unselect_plan R plan :
      NoDup (mkeys plan) → sync_step D R (applyResolutionRemovalPlan R plan).

Lemma NoDup_selections R D ss :
  NoDup (mkeys R) → NoDup (mkeys (applyResolutionSelections R D ss)).
Proof.
  intros H. unfold applyResolutionSelections. destruct ss as [|s ss]; [done|].
  apply fold_left_keeps; [done|]. intros n kv _ Hn. by apply NoDup_write_draft.
Qed.

Lemma sound_default R m : coherent R → sound (default [] (mget m R)).
Proof.
  intros [_ H]. destruct (mget m R) as [r|] eqn:E; simpl; [by apply (H m) | apply sound_nil].
Qed.

Lemma coherent_selections R D ss :
  Forall (λ s, is_Some (mget (model s) D)) ss →
  coherent R → coherent (applyResolutionSelections R D ss).
Proof.
  intros Hss HR. split; [by apply NoDup_selections, HR|]. intros m r. rewrite mget_selections.
  assert (Forall (λ s, is_Some (mget (model s) D)) (picks_of m ss)) as Hp.
  { rewrite Forall_forall in *. intros s [Hs _]%elem_of_filterb. by apply Hss. }
  pose proof (sound_default R m HR) as Hd. destruct HR as [_ HR]. specialize (HR m).
  revert HR Hd. generalize (mget m R). induction Hp as [|s l [d Hs] _ IH]; intros o HR Hd; simpl.
  - apply HR.
  - apply IH.
    + intros r' [= <-]. split; [apply select_into_not_nil|]. by eapply select_into_sound.
    + simpl. by eapply select_into_sound.
Qed.

Lemma coherent_removal_plan R plan :
  NoDup (mkeys plan) → coherent R → coherent (applyResolutionRemovalPlan R plan).
Proof.
  intros Hp [HR HR']. split; [by apply NoDup_removal_plan|]. intros m r.
  rewrite mget_removal_plan by done. destruct (mget m plan) as [ts|]; [|apply HR'].
  destruct (mget m R) as [r0|] eqn:E; [|done]. unfold nonempty. destruct (List.filter _ r0) eqn:Ef; [done|].
  intros [= <-]. split; [done|]. rewrite <-Ef.
  apply (sound_filter (λ t, negb (withdrawn ts t))); [|by eapply HR'].
  cbv beta. by rewrite withdrawn_paired.
Qed.

Lemma coherent_step D R R' : sync_step D R R' → coherent R → coherent R'.
Proof.
  intros [R0 ss Hss | R0 s Hs | R0 m t | R0 plan Hp] HR.
  - by apply coherent_selections.
  - apply coherent_selections; [by constructor | done].
  - unfold deleteResolutionField, applyResolutionRemovals.
    apply coherent_removal_plan; [apply NoDup_group_by; constructor | done].
  - by apply coherent_removal_plan.
Qed.

(** C3: Whatever sequence of picks and withdrawals the administrator makes from
    the empty map, each model of the map has a non-empty record without
    repeated fields, which never mixes a fixed price with ratios and never has
    a billing expression without its billing mode. *)
Theorem reachable_coherent (D : Differences) (R : ResolutionsMap)
    (HR : rtc (sync_step D) [] R) :
  NoDup (mkeys R) ∧
  ∀ m r, mget m R = Some r →
    r ≠ [] ∧ NoDup (mkeys r) ∧
    (model_price ∈ mkeys r → ∀ f, f ∈ RATIO_SYNC_FIELDS → f ∉ mkeys r) ∧
    (billing_expr ∈ mkeys r → billing_mode ∈ mkeys r).
Proof.
  assert (coherent R) as [Hnd Hc].
  { assert (coherent []) as H0 by (split; [constructor | done]). revert H0.
    induction HR as [|R1 R2 R3 Hs _ IH]; [done|]. intros H0. by eapply IH, coherent_step. }
  split; [done|]. intros m r Hm. destruct (Hc m r Hm) as [Hne [Hk He Hx]].
  split; [done|]. split; [done|]. split; [|done]. intros Hp f Hf Hin.
  assert (getBillingCategory f = ratio) as Hr.
  { revert f Hf Hin. apply (Forall_forall (λ f, f ∈ mkeys r → getBillingCategory f = ratio)).
    repeat constructor; intros _; vm_compute; reflexivity. }
  specialize (He model_price f Hp Hin). rewrite Hr in He. discriminate He; done.
Qed.

(** A table of two sources, used by the concrete instances below: [gpt-x] is
    priced by ratios at the first source and by an expression at the second. *)
Definition entry (cells : list (jsstr * Cell)) : RatioDifferenceEntry :=
  {| current := None; upstreams := cells; confidence := [] |}.

Definition sample_differences : Differences :=
  [(js "gpt-x", [(js "model_ratio", entry [(js "a", Some (Num (num_of_Z 2))); (js "b", Some (Num (num_of_Z 3)))]);
                 (js "model_price", entry [(js "a", Some (Num (num_of_Z 7)))]);
                 (billing_mode, entry [(js "b", Some (Str (js "tiered_expr")))]);
                 (billing_expr, entry [(js "b", Some (Str (js "p * 2")))])])].

Definition pick_price : ResolutionSelection :=
  {| model := js "gpt-x"; ratioType := model_price; value := Num (num_of_Z 7); sourceName := js "a" |}.
Definition pick_ratio : ResolutionSelection :=
  {| model := js "gpt-x"; ratioType := js "model_ratio"; value := Num (num_of_Z 2);
     sourceName := js "a" |}.

Lemma reachable_coherent_witness :
  let R := applyResolutionSelections [] sample_differences [pick_price; pick_ratio] in
  mget (js "gpt-x") R = Some [(js "model_ratio", Num (num_of_Z 2))] ∧ NoDup (mkeys R).
Proof.
  intros R. split; [vm_compute; reflexivity|].
  refine (proj1 (reachable_coherent sample_differences R _)).
  apply rtc_once, (step_select sample_differences [] [pick_price; pick_ratio]).
  apply (bool_decide_eq_true_1 _). vm_compute. reflexivity.
Defined.

(** ** Picking a whole column *)

Section column.
Context (D : Differences) (src : jsstr).

Definition column_cell (m : jsstr) (t : RatioType) : Cell :=
  upstream_cell (default [] (mget m D)) t src.

(** A pick the column offers: the value of a selectable cell. *)
Definition offered (s : ResolutionSelection) : Prop :=
  sourceName s = src ∧ is_Some (mget (model s) D) ∧
  selectable (column_cell (model s) (ratioType s)) = Some (value s).

#[export] Instance offered_dec s : Decision (offered s).
Proof. unfold offered. apply _. Defined.

(** One that the preference for expressions leaves alone. *)
Definition settled (s : ResolutionSelection) : Prop :=
  offered s ∧
  getPreferredSyncField (default [] (mget (model s) D)) (ratioType s) src = ratioType s.

Lemma selectable_Some c v : selectable c = Some v → c = Some v.
Proof. destruct c as [[n|s]|]; simpl; [by intros [= <-] | | done]. by case_decide; intros [= <-]. Qed.

Lemma selectable_idemp c v : selectable c = Some v → selectable (Some v) = Some v.
Proof. intros H. pose proof (selectable_Some c v H) as ->. done. Qed.

Lemma resolve_settled s : offered s → settled (resolveResolutionSelection D s).
Proof.
  intros (Hs & Hd & Hv). unfold resolveResolutionSelection. rewrite !Hs.
  set (rts := default [] (mget (model s) D)).
  assert (column_cell (model s) billing_expr = upstream_cell rts billing_expr src) as He by done.
  unfold getPreferredSyncField. destruct (bool_decide_reflect (ratioType s = billing_expr)) as [E|E]; simpl.
  - rewrite decide_True by done. split; [done|]. unfold getPreferredSyncField. simpl.
    by rewrite (bool_decide_eq_true_2 _ E).
  - destruct (isSelectableUpstreamValue _) eqn:Esel.
    + rewrite decide_False by congruence. unfold isSelectableUpstreamValue in Esel.
      destruct (selectable (upstream_cell rts billing_expr src)) as [v|] eqn:Ev; [|done].
      split; [|done]. split; [done|]. split; [done|]. cbn [model ratioType value].
      rewrite He, Ev. by rewrite (selectable_Some _ _ Ev).
    + rewrite decide_True by done. split; [done|]. unfold getPreferredSyncField. cbn [model ratioType].
      rewrite (bool_decide_eq_false_2 _ E). fold rts. by rewrite Esel.
Qed.

Lemma resolve_id s : settled s → resolveResolutionSelection D s = s.
Proof.
  intros [(Hs & _ & _) Hp]. unfold resolveResolutionSelection. rewrite Hs, Hp.
  rewrite decide_True by done. rewrite <-Hs. by destruct s.
Qed.

Lemma set_tiered_value d t0 r t v :
  mget t r = Some v → selectable (upstream_cell d t src) = Some v →
  mget t (set_tiered_fields d t0 src r) = Some v.
Proof.
  intros Hr Hv. unfold set_tiered_fields.
  assert (∀ r', mget t r' = Some v →
    mget t (match selectable (upstream_cell d billing_expr src) with
            | Some e => obj_set billing_expr e r' | None => r' end) = Some v) as He.
  { intros r' Hr'. destruct (selectable (upstream_cell d billing_expr src)) eqn:E; [|done].
    rewrite mget_obj_set.
    case_decide; subst; congruence. }
  apply He. destruct (selectable (upstream_cell d billing_mode src)) eqn:E; [|case_decide; [|done]];
    rewrite mget_obj_set; case_decide; subst; congruence.
Qed.

(** A pick of the column makes its own value stand and leaves standing those
    it does not displace. *)
Lemma select_into_value e e' r :
  settled e → settled e' → model e = model e' →
  ratioType e = ratioType e' ∨
  (mget (ratioType e) r = Some (value e) ∧
   displaced (getBillingCategory (ratioType e')) (ratioType e) = false) →
  mget (ratioType e) (select_into D e' r) = Some (value e).
Proof.
  intros [(Hs & Hd & Hv) _] He' Hm Hr. rewrite select_into_resolved. cbv zeta.
  rewrite (resolve_id e' He'). destruct He' as [(Hs' & Hd' & Hv') _].
  set (c := getBillingCategory (ratioType e')).
  assert (mget (ratioType e) (obj_set (ratioType e') (value e')
            (List.filter (λ kv, negb (displaced c (fst kv))) r)) = Some (value e)) as Hset.
  { rewrite mget_obj_set. case_decide as Ht.
    - rewrite Hm, <-Ht in Hv. congruence.
    - destruct Hr as [?|[Hr Hnd]]; [congruence|].
      rewrite (mget_filter_keys (λ k, negb (displaced c k))). cbv beta.
      fold c in Hnd. by rewrite Hnd. }
  destruct Hd' as [d Hd']. rewrite Hd'.
  destruct c; [done | done|]. rewrite Hs'. apply set_tiered_value; [done|].
  unfold column_cell in Hv. by rewrite Hm, Hd' in Hv.
Qed.

(** The selections listed do not displace one another. *)
Definition compatible (l : list ResolutionSelection) : Prop :=
  ∀ e1 e2, e1 ∈ l → e2 ∈ l → model e1 = model e2 →
    displaced (getBillingCategory (ratioType e1)) (ratioType e2) = false.

Lemma elem_of_mvalues_mset {V} k (v w : V) m :
  w ∈ mvalues (mset (K := jsstr) k v m) → w = v ∨ w ∈ mvalues m.
Proof.
  induction m as [|[k' v'] m IH]; simpl; [set_solver|].
  case_decide; simpl; rewrite !elem_of_cons; naive_solver.
Qed.

Lemma effective_inv ss :
  Forall offered ss →
  Forall settled (getEffectiveResolutionSelections D ss) ∧
  compatible (getEffectiveResolutionSelections D ss).
Proof.
  unfold getEffectiveResolutionSelections. induction ss as [|s ss IH] using rev_ind; simpl.
  - intros _. split; [constructor|]. intros ? ? ?%elem_of_nil. done.
  - rewrite fold_left_app. intros [Hss Hs]%Forall_app. inversion Hs as [|? ? Hs' _]; subst.
    destruct (IH Hss) as [Hset Hc]. clear IH. simpl. generalize dependent (fold_left (add_effective D) ss []).
    intros m Hset Hc. unfold add_effective. set (sel := resolveResolutionSelection D s).
    assert (∀ e, e ∈ mvalues (mset (selection_key sel) sel
              (List.filter (λ kv, negb (conflicts (getBillingCategory (ratioType sel)) sel (snd kv))) m)) →
            e = sel ∨ e ∈ mvalues m ∧ (model e = model sel →
              displaced (getBillingCategory (ratioType sel)) (ratioType e) = false)) as Hin.
    { intros e [->|He]%elem_of_mvalues_mset; [by left | right].
      apply list_elem_of_fmap in He as ([k e'] & -> & [Hin Hn]%elem_of_filterb). simpl in *.
      split; [by apply (list_elem_of_fmap_2 snd) in Hin|]. intros Hm. unfold conflicts in Hn.
      rewrite (bool_decide_eq_true_2 _ Hm) in Hn. by apply negb_true_iff in Hn. }
    split.
    + apply Forall_forall. intros e [->|[He _]]%Hin; [by apply resolve_settled|].
      by apply (proj1 (Forall_forall _ _) Hset).
    + intros e1 e2 [->|[H1 C1]]%Hin [->|[H2 C2]]%Hin Hm; [| by apply C2 | | by apply Hc].
      * apply displaced_false. by right; right.
      * specialize (C1 Hm). apply displaced_false in C1. apply displaced_false.
        destruct C1 as [|[|]]; auto.
Qed.

(** After a compatible list of settled picks every one of them stands. *)
Lemma picked_values l o e :
  Forall settled l → compatible l → Forall (λ s, model s = model e) l → e ∈ l →
  picked D l o ≫= mget (ratioType e) = Some (value e).
Proof.
  induction l as [|s l IH] using rev_ind; [by intros _ _ _ ?%elem_of_nil|].
  intros [Hl Hs]%Forall_app Hc [Hml Hms]%Forall_app He.
  inversion Hs as [|? ? Hs' _]; inversion Hms as [|? ? Hms' _]; subst.
  rewrite picked_app. simpl. apply elem_of_app in He as [He | ->%list_elem_of_singleton].
  - apply select_into_value; [by apply (proj1 (Forall_forall _ _) Hl) | done | done|]. right.
    split.
    + assert (picked D l o ≫= mget (ratioType e) = Some (value e)) as Hv.
      { apply IH; [done | | done | done]. intros e1 e2 H1 H2. apply Hc; apply elem_of_app; by left. }
      by destruct (picked D l o).
    + apply Hc; [apply elem_of_app; right; constructor | apply elem_of_app; by left | done].
  - apply select_into_value; [done | done | done|]. by left.
Qed.
End column.

Lemma num_eqb_refl x : num_is_finite x = true → num_eqb x x = true.
Proof.
  unfold num_eqb, SFeqb, SFcompare. destruct x as [[]|[]| |[] m e]; try done;
    intros _; by rewrite Z.compare_refl, Pos.compare_refl.
Qed.

(** The value compares equal to itself when read back from the map. *)
Definition comparable (e : ResolutionSelection) : bool :=
  if bool_decide (ratioType e ∈ NUMERIC_SYNC_FIELDS) then num_is_finite (value_number (value e))
  else value_eqb (value e) (value e).

(** Picking a whole column at once, that is applying the effective picks of
    the cells one source offers, leaves every effective pick reading as
    selected, whatever was picked before; the last cell picked is among the
    effective picks as the preference for billing expressions resolves it. *)
Theorem column_selected (R : ResolutionsMap) (D : Differences) (src : jsstr)
    (ss : list ResolutionSelection)
    (Hoffered : Forall (offered D src) ss)
    (Hcomparable : Forall comparable (getEffectiveResolutionSelections D ss)) :
  let effective := getEffectiveResolutionSelections D ss in
  Forall (λ e, isSelectedResolutionValue (applyResolutionSelections R D effective)
                 (model e) (ratioType e) (Some (value e)) = true) effective ∧
  match last ss with
  | Some s => resolveResolutionSelection D s ∈ effective
  | None => effective = []
  end.
Proof.
  intros E. destruct (effective_inv D src ss Hoffered) as [Hset Hc]. fold E in Hset, Hc. split.
  - rewrite Forall_forall in *. intros e He. unfold isSelectedResolutionValue.
    destruct (Hset e He) as [(_ & _ & Hv) _]. rewrite (selectable_idemp _ _ Hv), mget_selections.
    rewrite (picked_values D src).
    + specialize (Hcomparable e He). unfold comparable in Hcomparable.
      destruct (bool_decide _); [|by apply Is_true_true].
      apply Is_true_true in Hcomparable. by rewrite Hcomparable, num_eqb_refl.
    + apply Forall_forall. intros s [Hs _]%elem_of_filterb. by apply Hset.
    + intros e1 e2 [H1 _]%elem_of_filterb [H2 _]%elem_of_filterb. by apply Hc.
    + apply Forall_forall. by intros s [_ H%bool_decide_eq_true]%elem_of_filterb.
    + apply elem_of_filterb. by rewrite bool_decide_eq_true.
  - destruct ss as [|s ss _] using rev_ind; [done|]. rewrite last_snoc. subst E.
    unfold getEffectiveResolutionSelections. rewrite fold_left_app. simpl. unfold add_effective at 1.
    apply (list_elem_of_fmap_2 snd _ (selection_key (resolveResolutionSelection D s),
                                      resolveResolutionSelection D s)).
    apply mget_elem_of, mget_mset_eq.
Qed.

Lemma column_selected_witness :
  let R := applyResolutionSelections [] sample_differences
             (getEffectiveResolutionSelections sample_differences [pick_price; pick_ratio]) in
  isSelectedResolutionValue R (js "gpt-x") (js "model_ratio") (Some (Num (num_of_Z 2))) = true.
Proof.
  assert (getEffectiveResolutionSelections sample_differences [pick_price; pick_ratio]
          = [pick_ratio]) as E by (vm_compute; reflexivity).
  assert (Forall (offered sample_differences (js "a")) [pick_price; pick_ratio]) as Ho
    by (apply (bool_decide_eq_true_1 _); vm_compute; reflexivity).
  assert (Forall comparable (getEffectiveResolutionSelections sample_differences
            [pick_price; pick_ratio])) as Hc.
  { rewrite E. repeat constructor. }
  pose proof (proj1 (column_selected [] sample_differences (js "a") _ Ho Hc)) as H.
  cbv zeta in H. rewrite E in H. cbv zeta. rewrite E. by inversion H.
Defined.

(** ** Alignment of the fields *)

(** What the field filter of the table lets through. *)
Definition passes (filter : option jsstr) (t : RatioType) : Prop :=
  match filter with
  | Some f => f = [] ∨ f = js "__all__" ∨ t = f
  | None => True
  end.

Lemma elem_of_ordered rts filter t :
  t ∈ getOrderedRatioTypes rts filter ↔ t ∈ mkeys rts ∧ passes filter t.
Proof.
  unfold getOrderedRatioTypes.
  assert (t ∈ List.filter (λ f, bool_decide (f ∈ mkeys rts)) SYNC_FIELD_ORDER
            ++ List.filter (λ f, negb (bool_decide (f ∈ SYNC_FIELD_ORDER))) (mkeys rts)
          ↔ t ∈ mkeys rts) as Ho.
  { rewrite elem_of_app, !elem_of_filterb, negb_true_iff, bool_decide_eq_true, bool_decide_eq_false.
    destruct (decide (t ∈ SYNC_FIELD_ORDER)); tauto. }
  destruct filter as [f|]; simpl passes; [|tauto].
  destruct (negb (truthy_str f) || bool_decide (f = js "__all__")) eqn:E.
  - apply orb_true_iff in E as [E|E]; [|apply bool_decide_eq_true in E; tauto].
    apply negb_true_iff, truthy_str_false in E. tauto.
  - unbool. apply truthy_str_true in H. rewrite elem_of_filterb, Ho, bool_decide_eq_true. tauto.
Qed.

Lemma preferred_self rts t src :
  getPreferredSyncField rts t src = t ↔
  t = billing_expr ∨ selectable (upstream_cell rts billing_expr src) = None.
Proof.
  unfold getPreferredSyncField, isSelectableUpstreamValue.
  destruct (bool_decide_reflect (t = billing_expr)); simpl; [naive_solver|].
  destruct (selectable _); naive_solver.
Qed.

Lemma elem_of_visible rts src filter t :
  t ∈ getVisibleRatioTypesForSource rts src filter ↔
  t ∈ getOrderedRatioTypes rts filter ∧ getPreferredSyncField rts t src = t.
Proof. unfold getVisibleRatioTypesForSource. by rewrite elem_of_filterb, bool_decide_eq_true. Qed.

Lemma elem_of_flat_map {A B} (f : A → list B) l y :
  y ∈ flat_map f l ↔ ∃ x, x ∈ l ∧ y ∈ f x.
Proof. rewrite list_elem_of_In, in_flat_map. by setoid_rewrite list_elem_of_In. Qed.

(** The table lists every field of a model once, the known fields first
    and in the fixed order.  Aligned over the sources shown, it keeps exactly
    the fields that pass the filter and that some source does not replace by
    its billing expression, in the same order. *)
Theorem aligned_fields (rts : RatioTypes) (sources : list jsstr) (filter : option jsstr)
    (Hrts : NoDup (mkeys rts)) :
  getOrderedRatioTypes rts None ≡ₚ mkeys rts ∧
  getAlignedRatioTypes rts sources filter `sublist_of` getOrderedRatioTypes rts filter ∧
  ∀ t, t ∈ getAlignedRatioTypes rts sources filter ↔
    t ∈ mkeys rts ∧ passes filter t ∧
    (sources = [] ∨ t = billing_expr ∨
     ∃ src, src ∈ sources ∧ selectable (upstream_cell rts billing_expr src) = None).
Proof.
  split; [|split].
  - apply NoDup_Permutation; [|done|].
    + unfold getOrderedRatioTypes. apply NoDup_app. split; [|split].
      * apply NoDup_filterb. apply (bool_decide_eq_true_1 _). vm_compute. reflexivity.
      * intros t [Ht _]%elem_of_filterb [_ Hn]%elem_of_filterb. unbool. done.
      * by apply NoDup_filterb.
    + intros t. rewrite elem_of_ordered. simpl. tauto.
  - unfold getAlignedRatioTypes. destruct sources; [done | apply filterb_sublist].
  - intros t. unfold getAlignedRatioTypes. destruct sources as [|s sources].
    { rewrite elem_of_ordered. tauto. }
    rewrite elem_of_filterb, bool_decide_eq_true, elem_of_uniq, elem_of_flat_map.
    setoid_rewrite elem_of_visible.
    setoid_rewrite elem_of_ordered. setoid_rewrite preferred_self.
    split; [naive_solver|]. intros (Hk & Hp & [?|[Ht|(src & Hsrc & Hc)]]); [done | |].
    + split; [done|]. exists s. split; [constructor | tauto].
    + split; [done|]. exists src. tauto.
Qed.

Lemma aligned_fields_witness :
  getAlignedRatioTypes (default [] (mget (js "gpt-x") sample_differences)) [js "b"] None
  = [billing_expr] ∧
  billing_expr ∈ getAlignedRatioTypes (default [] (mget (js "gpt-x") sample_differences)) [js "b"] None.
Proof.
  split; [vm_compute; reflexivity|].
  refine (proj2 (proj2 (proj2 (aligned_fields _ [js "b"] None _)) _) _).
  - apply (bool_decide_eq_true_1 _). vm_compute. reflexivity.
  - split; [apply (bool_decide_eq_true_1 _); vm_compute; reflexivity|].
    split; [exact I | right; left; reflexivity].
Defined.
