(* ===== verification/ExprSplit.v ===== *)
(** * Cutting billing expressions at top-level operators

    [time-range.ts] and [billing-expr.ts] take expressions apart without a
    parser: they count parentheses, cut at an operator where the depth is
    zero, and strip parentheses that enclose the whole text.  The first part
    models these loops; the second states when a text is passed over without
    a cut ([opaque]), when parentheses around it do not end early
    ([balanced]), and that joined parts are found again. *)

From Stdlib Require Import ZArith.
From S2P Require Import Prelude JsString Json.

(** ** The loops *)

(** The nesting depth after a unit. *)
Definition depth_step (depth : Z) (c : N) : Z :=
  if (c =? 40)%N then (depth + 1)%Z else if (c =? 41)%N then (depth - 1)%Z else depth.

(** The loop of [hasFullOuterParens]: the depth returns to zero at the last
    unit and not before. *)
Fixpoint closes_at_end (depth : Z) (s : jsstr) : bool :=
  match s with
  | [] => (depth =? 0)%Z
  | c :: s' =>
      let depth := depth_step depth c in
      if (depth =? 0)%Z && negb (bool_decide (s' = [])) then false else closes_at_end depth s'
  end.

Definition hasFullOuterParens (expr : jsstr) : bool :=
  if negb (starts_with expr (js "(")) || negb (ends_with expr (js ")")) then false
  else closes_at_end 0 expr.

(** [s.slice(1, -1)]. *)
Definition slice_inner (s : jsstr) : jsstr := removelast (tail s).

(** Every turn of the loop removes two units. *)
Fixpoint unwrap (fuel : nat) (current : jsstr) : jsstr :=
  match fuel with
  | O => current
  | S f => if hasFullOuterParens current then unwrap f (trim (slice_inner current)) else current
  end.

Definition unwrapOuterParens (expr : jsstr) : jsstr := unwrap (length expr) (trim expr).

(** The loop of [splitTopLevel] from a position: [part] is the text since the
    last cut, [skip] the number of units the index has jumped ahead. *)
Fixpoint split_from (op : jsstr) (skip : nat) (depth : Z) (part s : jsstr) : list jsstr :=
  match s with
  | [] => [trim part]
  | c :: s' =>
      match skip with
      | S k => split_from op k depth part s'
      | O =>
          let depth := depth_step depth c in
          if (depth =? 0)%Z && starts_with s op
          then trim part :: split_from op (pred (length op)) depth [] s'
          else split_from op 0 depth (part ++ [c]) s'
      end
  end.

Definition splitTopLevel (op expr : jsstr) : list jsstr :=
  List.filter truthy_str (split_from op 0 0 [] expr).

Definition op_and : jsstr := [38; 38]%N.
Definition op_or : jsstr := [124; 124]%N.

Definition splitTopLevelAnd (expr : jsstr) : list jsstr := splitTopLevel op_and expr.

(** ** Nesting *)

(** Reading [w] at a positive depth returns to that depth without reaching
    zero. *)
Fixpoint nested (depth : Z) (w : jsstr) : Z :=
  match w with [] => depth | c :: w' => nested (depth_step depth c) w' end.

Definition balanced (w : jsstr) : Prop :=
  ∀ d, (0 < d)%Z → nested d w = d ∧ ∀ k, k < length w → (0 < nested d (take (S k) w))%Z.

Definition no_paren (c : N) : bool := negb (c =? 40)%N && negb (c =? 41)%N.

Lemma nested_app d w w' : nested d (w ++ w') = nested (nested d w) w'.
Proof. revert d; induction w as [|c w IH]; intros d; simpl; [done | apply IH]. Qed.

Lemma depth_step_plain d c : no_paren c = true → depth_step d c = d.
Proof.
  unfold no_paren, depth_step. intros [H1 H2]%andb_true_iff.
  apply negb_true_iff in H1 as ->. by apply negb_true_iff in H2 as ->.
Qed.

Lemma nested_plain d w : forallb no_paren w = true → nested d w = d.
Proof.
  revert d; induction w as [|c w IH]; intros d; simpl; [done|].
  intros [Hc Hw]%andb_true_iff. rewrite depth_step_plain by done. by apply IH.
Qed.

Lemma balanced_plain w : forallb no_paren w = true → balanced w.
Proof.
  intros H d Hd. split; [by apply nested_plain|]. intros k _. rewrite nested_plain; [done|].
  rewrite forallb_forall_elem in H |- *. intros c Hc. apply H.
  rewrite <-(take_drop (S k) w). apply elem_of_app. by left.
Qed.

Lemma balanced_app w w' : balanced w → balanced w' → balanced (w ++ w').
Proof.
  intros Hw Hw' d Hd. destruct (Hw d Hd) as [E H], (Hw' d Hd) as [E' H']. split.
  { by rewrite nested_app, E. }
  intros k Hk. rewrite length_app in Hk. rewrite take_app, nested_app.
  destruct (decide (S k ≤ length w)) as [Hle|Hgt].
  - replace (S k - length w) with 0 by lia. simpl. apply H. lia.
  - rewrite take_ge by lia. rewrite E. replace (S k - length w) with (S (k - length w)) by lia.
    apply H'. lia.
Qed.

Lemma balanced_group w : balanced w → balanced (40%N :: w ++ [41%N]).
Proof.
  intros Hw d Hd. change (40%N :: w ++ [41%N]) with ([40%N] ++ w ++ [41%N]).
  destruct (Hw (d + 1)%Z ltac:(lia)) as [E H]. split.
  { rewrite !nested_app. change (nested d [40%N]) with (d + 1)%Z. rewrite E.
    change (nested (d + 1) [41%N]) with (d + 1 - 1)%Z. lia. }
  intros k Hk. cbn [app take nested]. change (depth_step d 40) with (d + 1)%Z.
  rewrite take_app, nested_app. destruct k as [|k]; [simpl; lia|].
  destruct (decide (S k ≤ length w)) as [Hle|Hgt].
  - replace (S k - length w) with 0 by lia. simpl. apply H. lia.
  - rewrite take_ge by lia. rewrite E. rewrite length_app in Hk. simpl in Hk.
    rewrite length_app in Hk. simpl in Hk. replace (S k - length w) with 1 by lia.
    change (nested (d + 1) (take 1 [41%N])) with (d + 1 - 1)%Z. lia.
Qed.

(** A check of balance by one pass. *)
Fixpoint closes (d : Z) (w : jsstr) : bool :=
  match w with
  | [] => (d =? 0)%Z
  | c :: w' => (0 <=? depth_step d c)%Z && closes (depth_step d c) w'
  end.

Lemma depth_step_shift d k c : depth_step (d + k) c = (depth_step d c + k)%Z.
Proof. unfold depth_step. destruct (c =? 40)%N, (c =? 41)%N; lia. Qed.

Lemma closes_balanced w : closes 0 w = true → balanced w.
Proof.
  assert (∀ w d, closes d w = true → ∀ k, (0 < k)%Z →
            nested (d + k) w = k ∧ ∀ i, i < length w → (0 < nested (d + k) (take (S i) w))%Z) as H.
  { clear w. induction w as [|c w IH]; intros d Hd k Hk; cbn [closes] in Hd.
    - apply Z.eqb_eq in Hd as ->. split; [done|]. simpl. lia.
    - apply andb_true_iff in Hd as [H0%Z.leb_le Hd]. destruct (IH _ Hd k Hk) as [E Hi].
      cbn [nested take]. rewrite depth_step_shift. split; [done|]. intros [|i] Hlt; [simpl; lia|].
      apply Hi. simpl in Hlt. lia. }
  intros Hw d Hd. apply (H w 0%Z Hw d Hd).
Qed.

(** *** Splitting *)

(** At depth zero [w] is passed over without a cut. *)
Definition opaque (op w : jsstr) : Prop :=
  ∀ part s, split_from op 0 0 part (w ++ s) = split_from op 0 0 (part ++ w) s.

Lemma opaque_app op w w' : opaque op w → opaque op w' → opaque op (w ++ w').
Proof. intros H H' part s. by rewrite <-app_assoc, H, H', app_assoc. Qed.

Lemma split_step op d part c s :
  depth_step d c ≠ 0%Z ∨ head op ≠ Some c → op ≠ [] →
  split_from op 0 d part (c :: s) = split_from op 0 (depth_step d c) (part ++ [c]) s.
Proof.
  intros H Hop. cbn [split_from].
  assert ((depth_step d c =? 0)%Z && starts_with (c :: s) op = false) as ->; [|done].
  apply andb_false_iff. destruct H as [H|H]; [left; by apply Z.eqb_neq|right].
  apply bool_decide_eq_false. intros [k Hk]. destruct op as [|o op]; [done|]. apply H.
  by injection Hk as -> _.
Qed.

(** Units that are neither parentheses nor the start of the operator. *)
Definition plain (o c : N) : bool := no_paren c && negb (c =? o)%N.

Lemma opaque_plain o op w : forallb (plain o) w = true → opaque (o :: op) w.
Proof.
  intros Hw part s. revert part; induction w as [|c w IH]; intros part; [by rewrite app_nil_r|].
  simpl in Hw. apply andb_true_iff in Hw as [Hc Hw]. apply andb_true_iff in Hc as [Hp Ho].
  apply negb_true_iff, N.eqb_neq in Ho. change ((c :: w) ++ s) with (c :: w ++ s).
  rewrite split_step; [|right; simpl; congruence | done].
  rewrite depth_step_plain, IH by done. by rewrite <-app_assoc.
Qed.

Lemma split_nested op d part w s :
  op ≠ [] → (0 < d)%Z → (∀ k, k < length w → (0 < nested d (take (S k) w))%Z) →
  split_from op 0 d part (w ++ s) = split_from op 0 (nested d w) (part ++ w) s.
Proof.
  intros Hop. revert d part; induction w as [|c w IH]; intros d part Hd Hk; [by rewrite app_nil_r|].
  pose proof (Hk 0 ltac:(simpl; lia)) as H0. simpl in H0.
  change ((c :: w) ++ s) with (c :: w ++ s). rewrite split_step; [|left; lia | done].
  rewrite IH; [by rewrite <-app_assoc | done |]. intros k Hlt. apply (Hk (S k)). simpl. lia.
Qed.

Lemma opaque_group o op w : no_paren o = true → balanced w → opaque (o :: op) (40%N :: w ++ [41%N]).
Proof.
  intros Ho Hw part s. change ((40%N :: w ++ [41%N]) ++ s) with (40%N :: (w ++ [41%N]) ++ s).
  assert (∀ c, no_paren c = false → head (o :: op) ≠ Some c) as Hhead by (simpl; congruence).
  rewrite split_step by (try right; auto; done). change (depth_step 0 40) with 1%Z.
  destruct (Hw 1%Z ltac:(lia)) as [E H].
  rewrite <-app_assoc, split_nested by (first [done | lia]). rewrite E.
  change ([41%N] ++ s) with (41%N :: s).
  rewrite split_step by (try right; auto; done). change (depth_step 1 41) with 0%Z.
  by rewrite <-!app_assoc.
Qed.

(** Blanks around a trimmed text. *)
Lemma drop_while_app_all {A} (p : A → bool) l l' :
  forallb p l = true → drop_while p (l ++ l') = drop_while p l'.
Proof. induction l as [|x l IH]; simpl; [done|]. intros [-> H]%andb_true_iff. by apply IH. Qed.

Lemma trim_padded a p b :
  forallb is_ws a = true → forallb is_ws b = true → trimmed p → p ≠ [] → trim (a ++ p ++ b) = p.
Proof.
  intros Ha Hb [Hh Hl] Hp. unfold trim, trim_start, trim_end. rewrite drop_while_app_all by done.
  rewrite (drop_while_id _ (p ++ b)).
  - rewrite reverse_app, drop_while_app_all.
    + rewrite drop_while_id; [apply reverse_involutive|]. intros c. rewrite head_reverse. apply Hl.
    + rewrite forallb_forall_elem in Hb |- *. intros c. rewrite elem_of_reverse. apply Hb.
  - intros c Hc. apply Hh. by destruct p.
Qed.

Lemma split_skip op d part w s :
  split_from op (length w) d part (w ++ s) = split_from op 0 d part s.
Proof. induction w as [|c w IH]; [done | exact IH]. Qed.

Lemma split_hit o op part s :
  no_paren o = true →
  split_from (o :: op) 0 0 part ((o :: op) ++ s) = trim part :: split_from (o :: op) 0 0 [] s.
Proof.
  intros Ho. cbn [app split_from]. rewrite depth_step_plain by done. cbn [Z.eqb andb].
  rewrite (proj2 (starts_with_spec (o :: op ++ s) (o :: op))) by (by exists s).
  cbn [length pred]. by rewrite split_skip.
Qed.

(** Parts joined by the operator, which blanks may surround. *)
Section joined.
Context (o : N) (op pad : jsstr).
Context (Ho : no_paren o = true) (Hws : forallb is_ws pad = true) (Hpad : forallb (plain o) pad = true).

Definition part_ok (w : jsstr) : Prop := opaque (o :: op) w ∧ trimmed w ∧ w ≠ [].

Lemma split_joined parts pre :
  forallb is_ws pre = true → Forall part_ok parts → parts ≠ [] →
  split_from (o :: op) 0 0 pre (join (pad ++ (o :: op) ++ pad) parts) = parts.
Proof.
  intros Hpre Hps. revert pre Hpre. induction Hps as [|p ps (Hop & Ht & Hne) Hps IH]; [done|].
  intros pre Hpre _. destruct ps as [|p' ps].
  - cbn [join]. pose proof (Hop pre []) as E. rewrite app_nil_r in E. rewrite E. cbn [split_from].
    f_equal. rewrite <-(app_nil_r (pre ++ p)), <-app_assoc. by apply trim_padded.
  - change (join ?sep (p :: p' :: ps)) with (p ++ sep ++ join sep (p' :: ps)).
    rewrite Hop, <-!app_assoc, (opaque_plain o op pad Hpad).
    rewrite split_hit, (opaque_plain o op pad Hpad) by done.
    rewrite app_nil_l, IH by done. f_equal. rewrite <-app_assoc. by apply trim_padded.
Qed.

Lemma filter_truthy parts : Forall part_ok parts → List.filter truthy_str parts = parts.
Proof.
  intros H. apply filterb_all. intros w Hw. rewrite Forall_forall in H.
  apply truthy_str_true. by apply H.
Qed.

Lemma splitTopLevel_joined parts :
  Forall part_ok parts → parts ≠ [] →
  splitTopLevel (o :: op) (join (pad ++ (o :: op) ++ pad) parts) = parts.
Proof. intros H Hne. unfold splitTopLevel. rewrite split_joined by done. by apply filter_truthy. Qed.
End joined.

Lemma split_or parts :
  Forall (part_ok 124 [124%N]) parts → parts ≠ [] → splitTopLevel op_or (join (js " || ") parts) = parts.
Proof. exact (splitTopLevel_joined 124 [124%N] [32%N] eq_refl eq_refl eq_refl parts). Qed.

Lemma split_and parts :
  Forall (part_ok 38 [38%N]) parts → parts ≠ [] → splitTopLevelAnd (join (js " && ") parts) = parts.
Proof. exact (splitTopLevel_joined 38 [38%N] [32%N] eq_refl eq_refl eq_refl parts). Qed.

(** *** Outer parentheses *)

Lemma closes_nested d w s :
  (0 < d)%Z → (∀ k, k < length w → (0 < nested d (take (S k) w))%Z) →
  closes_at_end d (w ++ s) = closes_at_end (nested d w) s.
Proof.
  revert d; induction w as [|c w IH]; intros d Hd Hk; [done|].
  pose proof (Hk 0 ltac:(simpl; lia)) as H0. simpl in H0.
  cbn [app closes_at_end nested]. rewrite (proj2 (Z.eqb_neq _ 0%Z)) by lia. cbn [andb].
  apply IH; [done|]. intros k Hlt. apply (Hk (S k)). simpl. lia.
Qed.

Lemma closes_group w s :
  balanced w → closes_at_end 0 (40%N :: w ++ 41%N :: s) = bool_decide (s = []).
Proof.
  intros Hw. cbn [closes_at_end]. change (depth_step 0 40) with 1%Z. cbn [Z.eqb andb].
  destruct (Hw 1%Z ltac:(lia)) as [E H]. rewrite closes_nested by (first [done | lia]). rewrite E.
  cbn [closes_at_end]. change (depth_step 1 41) with 0%Z. cbn [Z.eqb andb].
  case_bool_decide; subst; done.
Qed.

Lemma full_group w : balanced w → hasFullOuterParens (40%N :: w ++ [41%N]) = true.
Proof.
  intros Hw. unfold hasFullOuterParens. rewrite closes_group by done.
  assert (starts_with (40%N :: w ++ [41%N]) (js "(") = true) as ->.
  { apply starts_with_spec. by exists (w ++ [41%N]). }
  assert (ends_with (40%N :: w ++ [41%N]) (js ")") = true) as ->; [|done].
  apply bool_decide_eq_true. by exists (40%N :: w).
Qed.

Lemma not_full_head c w : c ≠ 40%N → hasFullOuterParens (c :: w) = false.
Proof.
  intros Hc. unfold hasFullOuterParens.
  assert (starts_with (c :: w) (js "(") = false) as ->; [|done].
  apply bool_decide_eq_false. intros [k Hk]. injection Hk as ->. done.
Qed.

Lemma not_full_groups w s : balanced w → s ≠ [] → hasFullOuterParens (40%N :: w ++ 41%N :: s) = false.
Proof.
  intros Hw Hs. unfold hasFullOuterParens. rewrite closes_group by done.
  rewrite bool_decide_eq_false_2 by done. by destruct (_ || _).
Qed.

Lemma trim_group w : trim (40%N :: w ++ [41%N]) = 40%N :: w ++ [41%N].
Proof.
  apply trim_id. split.
  - intros c [= <-]. done.
  - intros c. rewrite app_comm_cons, last_snoc. intros [= <-]. done.
Qed.

Lemma group_trimmed w : trimmed (40%N :: w ++ [41%N]).
Proof. pose proof (trim_trimmed (40%N :: w ++ [41%N])) as H. by rewrite trim_group in H. Qed.

(** One turn of the loop. *)
Lemma unwrap_group w :
  balanced w → trimmed w → hasFullOuterParens w = false →
  unwrapOuterParens (40%N :: w ++ [41%N]) = w.
Proof.
  intros Hb Ht Hf. unfold unwrapOuterParens. rewrite trim_group. cbn [length unwrap].
  rewrite full_group by done. unfold slice_inner. cbn [tail]. rewrite removelast_last, trim_id by done.
  destruct (length (w ++ [41%N])); simpl; [done | by rewrite Hf].
Qed.

Lemma unwrap_plain w : trimmed w → hasFullOuterParens w = false → unwrapOuterParens w = w.
Proof.
  intros Ht Hf. unfold unwrapOuterParens. rewrite trim_id by done.
  destruct (length w); simpl; [done | by rewrite Hf].
Qed.

(** *** The loop that strips parentheses ends *)

Lemma trim_length s : length (trim s) ≤ length s.
Proof.
  unfold trim, trim_end, trim_start. rewrite length_reverse.
  pose proof (suffix_length _ _ (drop_while_suffix is_ws (reverse (drop_while is_ws s)))) as H1.
  pose proof (suffix_length _ _ (drop_while_suffix is_ws s)) as H2.
  rewrite length_reverse in H1. lia.
Qed.

(** A turn of the loop shortens the text. *)
Lemma strip_shorter s : hasFullOuterParens s = true → length (trim (slice_inner s)) < length s.
Proof.
  destruct s as [|c s]; [done|]. intros _. pose proof (trim_length (slice_inner (c :: s))) as H.
  enough (length (slice_inner (c :: s)) ≤ length s) by (simpl; lia).
  unfold slice_inner. cbn [tail]. clear H. induction s as [|d s IH]; [done|]. cbn [removelast length].
  destruct s; [simpl; lia|]. cbn [length] in *. lia.
Qed.

Lemma unwrap_enough fuel s :
  length s ≤ fuel → trimmed s →
  unwrap fuel s = unwrap (length s) s ∧ hasFullOuterParens (unwrap fuel s) = false ∧ trimmed (unwrap fuel s).
Proof.
  revert s. induction fuel as [fuel IH] using lt_wf_ind. intros s Hl Ht.
  destruct (hasFullOuterParens s) eqn:E.
  - pose proof (strip_shorter s E) as Hs. destruct s as [|c s]; [done|]. destruct fuel as [|fuel]; [simpl in Hl; lia|].
    cbn [length unwrap]. rewrite E. simpl in Hl, Hs.
    destruct (IH fuel ltac:(lia) (trim (slice_inner (c :: s))) ltac:(lia) (trim_trimmed _)) as (E1 & F & T).
    destruct (decide (fuel = length s)) as [->|Hne]; [done|].
    destruct (IH (length s) ltac:(lia) (trim (slice_inner (c :: s))) ltac:(lia) (trim_trimmed _)) as (E2 & _).
    split; [|done]. by rewrite E1, E2.
  - assert (∀ k, unwrap k s = s) as Hk by (intros [|k]; simpl; [done | by rewrite E]).
    by rewrite !Hk.
Qed.

(** C40: Stripping enclosing parentheses always ends.  The loop has left no
    parentheses that enclose the whole text (and no surrounding white space)
    after at most as many turns as the text has units: any greater bound on
    the turns gives the same result. *)
Theorem unwrap_terminates (expr : jsstr) :
  hasFullOuterParens (unwrapOuterParens expr) = false ∧ trimmed (unwrapOuterParens expr) ∧
  ∀ turns, length expr ≤ turns → unwrap turns (trim expr) = unwrapOuterParens expr.
Proof.
  pose proof (trim_length expr) as Hl. unfold unwrapOuterParens.
  destruct (unwrap_enough (length expr) (trim expr) Hl (trim_trimmed _)) as (E & F & T).
  split; [done|]. split; [done|]. intros turns Hturns.
  destruct (unwrap_enough turns (trim expr) ltac:(lia) (trim_trimmed _)) as (E' & _). by rewrite E', E.
Qed.
