(* ===== verification/TimeRange.v ===== *)
(** * Time windows in billing expressions (pricing/lib/time-range.ts)

    A tier of a billing expression may be limited to daily time windows in a
    time zone.  The editor writes them as a condition on the minute of the day
    and reads such conditions back.  The regular expressions of the reader
    consist of literals, digit runs and runs of non-quotes, each followed by a
    unit that cannot continue it, so reading the longest run is exact. *)

From Stdlib Require Import ZArith.
From S2P Require Import Prelude JsString JsNumber JsNumberFacts JsCollections JsValue Json ExprSplit.

(** Both ends as [HH:MM]. *)
Record TimeRange := { start : jsstr; end_ : jsstr }.

Record TimeRangeCondition := { timezone : jsstr; ranges : list TimeRange }.

#[export] Instance TimeRange_eq_dec : EqDecision TimeRange.
Proof. solve_decision. Defined.

#[export] Instance TimeRangeCondition_eq_dec : EqDecision TimeRangeCondition.
Proof. solve_decision. Defined.

(** ** Times of the day *)

Definition timeToMinuteOfDay (value : jsstr) : option N :=
  match trim value with
  | [h1; h2; sep; m1; m2] =>
      if forallb is_digit [h1; h2; m1; m2] && (sep =? 58)%N then
        let hour := dec_value [h1; h2] in
        let minute := dec_value [m1; m2] in
        if (23 <? hour)%N || (59 <? minute)%N then None else Some (hour * 60 + minute)%N
      else None
  | _ => None
  end.

(** [s.padStart(2, '0')]. *)
Definition pad2 (s : jsstr) : jsstr := replicate (2 - length s) 48%N ++ s.

(** The argument is [Number(value)]. *)
Definition minuteOfDayToTime (minutes : num) : option jsstr :=
  match num_to_Z minutes with
  | Some z =>
      if (z <? 0)%Z || (1439 <? z)%Z then None
      else
        let hour := Z.to_N (z / 60) in
        let minute := Z.to_N (z mod 60) in
        Some (pad2 (dec_of_N hour) ++ js ":" ++ pad2 (dec_of_N minute))
  | None => None
  end.

(** ** Writing *)

(** The minute of the day in the zone, as the expression computes it. *)
Definition minute_of_day (timezone : jsstr) : jsstr :=
  let timezoneLiteral := quote_json timezone in
  js "hour(" ++ timezoneLiteral ++ js ") * 60 + minute(" ++ timezoneLiteral ++ js ")".

Definition range_segment (timezone : jsstr) (range : TimeRange) : list jsstr :=
  match timeToMinuteOfDay (start range), timeToMinuteOfDay (end_ range) with
  | Some s, Some e =>
      let joiner := if (s <=? e)%N then js "&&" else js "||" in
      [js "(" ++ minute_of_day timezone ++ js " >= " ++ dec_of_N s ++ js " " ++ joiner ++ js " "
       ++ minute_of_day timezone ++ js " <= " ++ dec_of_N e ++ js ")"]
  | _, _ => []
  end.

Definition buildTimeRangeConditionExpr (condition : TimeRangeCondition) : option jsstr :=
  let tz := trim (timezone condition) in
  if negb (truthy_str tz) || bool_decide (ranges condition = []) then None
  else
    let segments := flat_map (range_segment tz) (ranges condition) in
    if negb (bool_decide (length segments = length (ranges condition))) then None
    else match segments with
         | [segment] => Some segment
         | _ => Some (js "(" ++ join (js " || ") segments ++ js ")")
         end.

(** ** Reading *)

(** The longest run of units other than the double quote, and the rest. *)
Fixpoint span_unquoted (s : jsstr) : jsstr * jsstr :=
  match s with
  | c :: s' =>
      if (c =? 34)%N then ([], s) else let '(w, r) := span_unquoted s' in (c :: w, r)
  | [] => ([], [])
  end.

Definition read_unquoted (s : jsstr) : option (jsstr * jsstr) :=
  match span_unquoted s with ([], _) => None | wr => Some wr end.

(** [\d+]. *)
Definition read_digits (s : jsstr) : option (jsstr * jsstr) :=
  match span_digits s with ([], _) => None | dr => Some dr end.

(** A minute of the day: the zones of its two calls and what follows. *)
Definition read_minute_of_day (s : jsstr) : option (jsstr * jsstr * jsstr) :=
  s ← strip_prefix (jq "hour(`") s;
  '(a, s) ← read_unquoted s;
  s ← strip_prefix (jq "`) * 60 + minute(`") s;
  '(b, s) ← read_unquoted s;
  s ← strip_prefix (jq "`)") s;
  Some (a, b, s).

Inductive CompareOp := GreaterEq | LessEq.

#[export] Instance CompareOp_eq_dec : EqDecision CompareOp.
Proof. solve_decision. Defined.

Record Comparison := { c_timezone : jsstr; operator : CompareOp; c_value : jsstr }.

(** [ >= ] or [ <= ]. *)
Definition read_compare_op (s : jsstr) : option (CompareOp * jsstr) :=
  match strip_prefix (js " >= ") s with
  | Some r => Some (GreaterEq, r)
  | None => match strip_prefix (js " <= ") s with Some r => Some (LessEq, r) | None => None end
  end.

Definition parseComparison (value : jsstr) : option Comparison :=
  '(a, b, s) ← read_minute_of_day (unwrapOuterParens value);
  '(op, s) ← read_compare_op s;
  '(digits, rest) ← read_digits s;
  if bool_decide (rest = []) && bool_decide (a = b)
  then Some {| c_timezone := a; operator := op; c_value := digits |} else None.

(** A window: the four zones of the match, the digits and the joiner. *)
Record Window := {
  w_zones : list jsstr;
  w_start : jsstr;
  w_and : bool;
  w_end : jsstr
}.

Definition read_joiner (s : jsstr) : option (bool * jsstr) :=
  match strip_prefix (js " && ") s with
  | Some r => Some (true, r)
  | None => match strip_prefix (js " || ") s with Some r => Some (false, r) | None => None end
  end.

Definition match_window (s : jsstr) : option Window :=
  '(a, b, s) ← read_minute_of_day s;
  s ← strip_prefix (js " >= ") s;
  '(d1, s) ← read_digits s;
  '(j, s) ← read_joiner s;
  '(c, d, s) ← read_minute_of_day s;
  s ← strip_prefix (js " <= ") s;
  '(d2, s) ← read_digits s;
  if bool_decide (s = [])
  then Some {| w_zones := [a; b; c; d]; w_start := d1; w_and := j; w_end := d2 |} else None.

(** A segment as a window of the zone read so far. *)
Definition read_segment (timezone segment : jsstr) : option (jsstr * TimeRange) :=
  w ← match_window (unwrapOuterParens segment);
  match w_zones w with
  | z :: zones =>
      if negb (forallb (λ z', bool_decide (z' = z)) zones) then None
      else if truthy_str timezone && negb (bool_decide (timezone = z)) then None
      else
        start ← minuteOfDayToTime (num_of_string (w_start w));
        end_ ← minuteOfDayToTime (num_of_string (w_end w));
        if w_and w && str_ltb end_ start then None
        else if negb (w_and w) && negb (str_ltb end_ start) then None
        else Some (z, {| start := start; end_ := end_ |})
  | [] => None
  end.

Fixpoint read_segments (timezone : jsstr) (ranges : list TimeRange) (segments : list jsstr)
    : option TimeRangeCondition :=
  match segments with
  | [] =>
      if negb (truthy_str timezone) || bool_decide (ranges = []) then None
      else Some {| timezone := timezone; ranges := ranges |}
  | segment :: segments' =>
      '(z, range) ← read_segment timezone segment;
      read_segments z (ranges ++ [range]) segments'
  end.

(** A window across midnight: the cut at the top-level [||] separates its two
    comparisons. *)
Definition across_midnight (segments : list jsstr) : option TimeRangeCondition :=
  match segments with
  | [s1; s2] =>
      start_c ← parseComparison s1;
      end_c ← parseComparison s2;
      if bool_decide (operator start_c = GreaterEq) && bool_decide (operator end_c = LessEq)
         && bool_decide (c_timezone start_c = c_timezone end_c)
      then
        startTime ← minuteOfDayToTime (num_of_string (c_value start_c));
        endTime ← minuteOfDayToTime (num_of_string (c_value end_c));
        if str_ltb endTime startTime
        then Some {| timezone := c_timezone start_c;
                     ranges := [{| start := startTime; end_ := endTime |}] |}
        else None
      else None
  | _ => None
  end.

Definition parseTimeRangeCondition (clause : jsstr) : option TimeRangeCondition :=
  let segments := splitTopLevel op_or (unwrapOuterParens clause) in
  match across_midnight segments with
  | Some condition => Some condition
  | None => read_segments [] [] segments
  end.

(** The source of the expression that recognises such conditions. *)
Definition timeRangeConditionPattern : jsstr :=
  let minuteOfDay := jq "hour\(`[^`]+`\)\s*\*\s*60\s*\+\s*minute\(`[^`]+`\)" in
  let segment := js "\(" ++ minuteOfDay ++ js "\s*>=\s*\d+\s*(?:&&|\|\|)\s*" ++ minuteOfDay
                 ++ js "\s*<=\s*\d+\)" in
  js "(?:" ++ segment ++ js "|\(" ++ segment ++ js "(?:\s*\|\|\s*" ++ segment ++ js ")+\))".
