(* ===== verification/TimeRangeSpec.v ===== *)
(** * Time windows: reading what was written

    Times of the day correspond to the minutes 0..1439, and the condition the
    editor writes for a list of windows reads back as those windows. *)

From Stdlib Require Import ZArith.
From S2P Require Import Prelude JsString JsNumber JsNumberFacts JsCollections JsValue Json JsonFacts ExprSplit TimeRange.

(** ** Times and minutes *)

(** The time of a minute. *)
Definition time_of (m : N) : jsstr :=
  pad2 (dec_of_N (m / 60)) ++ js ":" ++ pad2 (dec_of_N (m mod 60)).

Definition minutes : list N := map N.of_nat (seq 0 1440).

Lemma elem_of_minutes m : m ∈ minutes ↔ (m < 1440)%N.
Proof.
  unfold minutes. rewrite list_elem_of_fmap. setoid_rewrite elem_of_seq. split.
  - intros (k & -> & _ & ?). lia.
  - intros H. exists (N.to_nat m). lia.
Qed.

(** A fact of all minutes, by evaluation. *)
Lemma all_minutes (P : N → bool) :
  forallb P minutes = true → ∀ m, (m < 1440)%N → P m = true.
Proof. intros H m Hm. rewrite forallb_forall_elem in H. by apply H, elem_of_minutes. Qed.

Lemma minuteOfDayToTime_minute z :
  (0 ≤ z < 1440)%Z → minuteOfDayToTime (num_of_Z z) = Some (time_of (Z.to_N z)).
Proof.
  intros Hz. unfold minuteOfDayToTime. rewrite num_to_Z_safe by (unfold safe; lia).
  destruct (Z.ltb_spec z 0); [lia|]. destruct (Z.ltb_spec 1439 z); [lia|]. simpl.
  unfold time_of. by rewrite Z2N.inj_div, Z2N.inj_mod by lia.
Qed.

Lemma timeToMinute_time m : (m < 1440)%N → timeToMinuteOfDay (time_of m) = Some m.
Proof.
  intros Hm. apply (bool_decide_eq_true_1 (timeToMinuteOfDay (time_of m) = Some m)).
  revert m Hm. apply all_minutes. vm_compute. reflexivity.
Qed.

Definition digits : list N := [48; 49; 50; 51; 52; 53; 54; 55; 56; 57]%N.

Lemma elem_of_digits c : is_digit c = true → c ∈ digits.
Proof.
  unfold is_digit. intros [H1%N.leb_le H2%N.leb_le]%andb_true_iff. unfold digits.
  rewrite !elem_of_cons. lia.
Qed.

Definition four_digits_ok (h1 h2 m1 m2 : N) : bool :=
  match timeToMinuteOfDay [h1; h2; 58; m1; m2]%N with
  | Some m => (m <? 1440)%N && bool_decide (time_of m = [h1; h2; 58; m1; m2]%N)
  | None => true
  end.

Lemma four_digits h1 h2 m1 m2 :
  is_digit h1 = true → is_digit h2 = true → is_digit m1 = true → is_digit m2 = true →
  four_digits_ok h1 h2 m1 m2 = true.
Proof.
  intros H1%elem_of_digits H2%elem_of_digits H3%elem_of_digits H4%elem_of_digits.
  assert (forallb (λ h1, forallb (λ h2, forallb (λ m1, forallb (λ m2,
            four_digits_ok h1 h2 m1 m2) digits) digits) digits) digits = true) as H
    by (vm_compute; reflexivity).
  rewrite forallb_forall_elem in H. specialize (H h1 H1). rewrite forallb_forall_elem in H.
  specialize (H h2 H2). rewrite forallb_forall_elem in H. specialize (H m1 H3).
  rewrite forallb_forall_elem in H. exact (H m2 H4).
Qed.

Lemma timeToMinute_Some v m :
  timeToMinuteOfDay v = Some m → (m < 1440)%N ∧ trim v = time_of m.
Proof.
  intros H. assert (timeToMinuteOfDay (trim v) = Some m) as Hm.
  { revert H. unfold timeToMinuteOfDay. by rewrite trim_idemp. }
  unfold timeToMinuteOfDay in H. destruct (trim v) as [|h1 [|h2 [|sep [|m1 [|m2 [|]]]]]]; try done.
  destruct (forallb is_digit [h1; h2; m1; m2] && (sep =? 58)%N) eqn:E; [|done].
  apply andb_true_iff in E as [Hd ->%N.eqb_eq]. simpl in Hd.
  rewrite !andb_true_iff in Hd. destruct Hd as (D1 & D2 & D3 & D4 & _).
  pose proof (four_digits h1 h2 m1 m2 D1 D2 D3 D4) as Hf. unfold four_digits_ok in Hf.
  rewrite Hm in Hf. apply andb_true_iff in Hf as [Hlt%N.ltb_lt He%bool_decide_eq_true].
  split; [done | by rewrite He].
Qed.

Lemma minuteOfDayToTime_Some n t :
  minuteOfDayToTime n = Some t → ∃ m, (m < 1440)%N ∧ t = time_of m ∧ num_to_Z n = Some (Z.of_N m).
Proof.
  unfold minuteOfDayToTime. destruct (num_to_Z n) as [z|]; [|done].
  destruct (Z.ltb_spec z 0); [done|]. destruct (Z.ltb_spec 1439 z); [done|]. simpl.
  intros [= <-]. exists (Z.to_N z). split; [lia|]. split; [|f_equal; lia].
  unfold time_of. by rewrite Z2N.inj_div, Z2N.inj_mod by lia.
Qed.

(** Times of the day and minutes 0..1439 correspond one to one.  A text
    that reads as a time gives a minute in range, whose time is the text
    without surrounding white space; a number is turned into a time only if
    it is an integer in range, and that time reads back as the number. *)
Theorem time_minute_bijection (v : jsstr) (n : num) :
  match timeToMinuteOfDay v with
  | Some m => (m < 1440)%N ∧ minuteOfDayToTime (num_of_Z (Z.of_N m)) = Some (trim v)
  | None => ∀ m, (m < 1440)%N → trim v ≠ time_of m
  end ∧
  match minuteOfDayToTime n with
  | Some t => ∃ m, timeToMinuteOfDay t = Some m ∧ num_to_Z n = Some (Z.of_N m)
  | None => ∀ z, num_to_Z n = Some z → ¬ (0 ≤ z < 1440)%Z
  end.
Proof.
  split.
  - destruct (timeToMinuteOfDay v) as [m|] eqn:E.
    + apply timeToMinute_Some in E as [Hm ->]. split; [done|].
      rewrite minuteOfDayToTime_minute by lia. by rewrite N2Z.id.
    + intros m Hm Ht. pose proof (timeToMinute_time m Hm) as Hr. rewrite <-Ht in Hr.
      revert E Hr. unfold timeToMinuteOfDay. rewrite trim_idemp. congruence.
  - destruct (minuteOfDayToTime n) as [t|] eqn:E.
    + apply minuteOfDayToTime_Some in E as (m & Hm & -> & Hn). exists m.
      split; [by apply timeToMinute_time | done].
    + intros z Hz Hr. unfold minuteOfDayToTime in E. rewrite Hz in E.
      destruct (Z.ltb_spec z 0); [lia|]. by destruct (Z.ltb_spec 1439 z); [lia|].
Qed.

(** Later minutes have later texts. *)
Lemma time_order m m' : (m < 1440)%N → (m' < 1440)%N → str_ltb (time_of m) (time_of m') = (m <? m')%N.
Proof.
  assert (∀ k, (S k < 1440)%nat → str_ltb (time_of (N.of_nat k)) (time_of (N.of_nat (S k))) = true) as Hs.
  { intros k Hk.
    assert (forallb (λ k, (1439 <=? k)%N || str_ltb (time_of k) (time_of (k + 1))) minutes = true) as H
      by (vm_compute; reflexivity).
    pose proof (all_minutes _ H (N.of_nat k) ltac:(lia)) as Hk'. apply orb_true_iff in Hk' as [Hk'|Hk'].
    - apply N.leb_le in Hk'. lia.
    - by replace (N.of_nat (S k)) with (N.of_nat k + 1)%N by lia. }
  assert (∀ d k, (k + S d < 1440)%nat →
    str_ltb (time_of (N.of_nat k)) (time_of (N.of_nat (k + S d))) = true) as Hlt.
  { induction d as [|d IH]; intros k Hk.
    - replace (k + 1) with (S k) by lia. apply Hs. lia.
    - apply (str_ltb_trans _ (time_of (N.of_nat (k + S d)))); [apply IH; lia|].
      replace (k + S (S d)) with (S (k + S d)) by lia. apply Hs. lia. }
  assert (∀ a b, (a < b)%N → (b < 1440)%N → str_ltb (time_of a) (time_of b) = true) as Hlt'.
  { intros a b Hab Hb. specialize (Hlt (N.to_nat b - N.to_nat a - 1) (N.to_nat a) ltac:(lia)).
    rewrite N2Nat.id in Hlt.
    by replace (N.of_nat (N.to_nat a + S (N.to_nat b - N.to_nat a - 1))) with b in Hlt by lia. }
  intros Hm Hm'. destruct (N.ltb_spec m m') as [H|H]; [by apply Hlt'|].
  destruct (decide (m = m')) as [->|Hne]; [apply str_ltb_irrefl|].
  destruct (str_ltb (time_of m) (time_of m')) eqn:E; [|done].
  pose proof (str_ltb_trans _ _ _ E (Hlt' m' m ltac:(lia) Hm)) as C. by rewrite str_ltb_irrefl in C.
Qed.

(** ** The texts the editor writes *)

(** Units that the quoted zone shows as they are and that are not parentheses. *)
Definition zone_unit (c : N) : bool :=
  (32 <=? c)%N && negb (c =? 34)%N && negb (c =? 92)%N && no_paren c
  && negb (is_high_surrogate c) && negb (is_low_surrogate c).

Definition zone_ok (tz : jsstr) : Prop := tz ≠ [] ∧ trimmed tz ∧ forallb zone_unit tz = true.

#[export] Instance zone_ok_dec tz : Decision (zone_ok tz).
Proof. unfold zone_ok. apply _. Defined.

Lemma quote_unit_zone c : zone_unit c = true → quote_unit c = [c].
Proof.
  unfold zone_unit, quote_unit. rewrite !andb_true_iff, !negb_true_iff.
  intros [[[[[Hc Hq] Hb] Hp] Hh] Hl]. apply N.leb_le in Hc.
  rewrite Hh, Hl, Hq, Hb, !(proj2 (N.eqb_neq c _)), (proj2 (N.ltb_ge c 32)) by lia. done.
Qed.

Lemma quote_zone tz : forallb zone_unit tz = true → quote_json tz = 34%N :: tz ++ [34%N].
Proof.
  intros H. unfold quote_json. f_equal. f_equal. induction tz as [|c tz IH]; [done|].
  simpl in H. apply andb_true_iff in H as [Hc Ht]. specialize (IH Ht). cbn [quote_units].
  assert (is_high_surrogate c = false) as ->.
  { unfold zone_unit in Hc. rewrite !andb_true_iff, !negb_true_iff in Hc. tauto. }
  destruct tz as [|d tz]; cbn [andb]; rewrite quote_unit_zone by done; [done|].
  by rewrite IH.
Qed.

Lemma span_zone l s : forallb zone_unit l = true → span_unquoted (l ++ 34%N :: s) = (l, 34%N :: s).
Proof.
  induction l as [|c l IH]; [done|]. simpl. intros [Hc Hl]%andb_true_iff. rewrite IH by done.
  assert ((c =? 34)%N = false) as ->; [|done].
  unfold zone_unit in Hc. rewrite !andb_true_iff, !negb_true_iff in Hc. tauto.
Qed.

Lemma read_zone l s : zone_ok l → read_unquoted (l ++ 34%N :: s) = Some (l, 34%N :: s).
Proof.
  intros (Hne & _ & Hu). unfold read_unquoted. rewrite span_zone by done. by destruct l.
Qed.

Section zone.
Context (tz : jsstr) (Htz : zone_ok tz).

Lemma zone_no_paren : forallb no_paren (quote_json tz) = true.
Proof.
  destruct Htz as (_ & _ & Hu). rewrite quote_zone by done.
  change (forallb no_paren (tz ++ [34%N]) = true).
  rewrite forallb_app. apply andb_true_iff. split; [|done].
  rewrite forallb_forall_elem in Hu |- *. intros c Hc. specialize (Hu c Hc).
  unfold zone_unit in Hu. rewrite !andb_true_iff in Hu. tauto.
Qed.

Lemma minute_groups :
  minute_of_day tz = js "hour" ++ (40%N :: quote_json tz ++ [41%N]) ++ js " * 60 + minute"
                     ++ (40%N :: quote_json tz ++ [41%N]).
Proof. unfold minute_of_day. cbn [app js]. by rewrite <-!app_assoc. Qed.

Lemma minute_opaque : opaque op_or (minute_of_day tz).
Proof.
  rewrite minute_groups. repeat apply opaque_app; try (apply opaque_plain; reflexivity);
    apply opaque_group; try done; apply balanced_plain, zone_no_paren.
Qed.

Lemma minute_balanced : balanced (minute_of_day tz).
Proof.
  rewrite minute_groups. repeat apply balanced_app; try (apply balanced_plain; reflexivity);
    apply balanced_group, balanced_plain, zone_no_paren.
Qed.

(** The literals of the reader against those of the writer. *)
Lemma minute_literals s :
  minute_of_day tz ++ s
  = jq "hour(`" ++ tz ++ jq "`) * 60 + minute(`" ++ tz ++ jq "`)" ++ s.
Proof.
  unfold minute_of_day. destruct Htz as (_ & _ & Hu). rewrite quote_zone by done.
  assert (jq "hour(`" = js "hour(" ++ [34%N]) as -> by reflexivity.
  assert (jq "`) * 60 + minute(`" = 34%N :: js ") * 60 + minute(" ++ [34%N]) as -> by reflexivity.
  assert (jq "`)" = 34%N :: js ")") as -> by reflexivity.
  generalize (js "hour(") (js ") * 60 + minute(") (js ")"). intros a b c.
  by repeat (rewrite <-app_assoc; simpl).
Qed.

Lemma read_minute s : read_minute_of_day (minute_of_day tz ++ s) = Some (tz, tz, s).
Proof.
  rewrite minute_literals. unfold read_minute_of_day.
  rewrite (strip_prefix_app (jq "hour(`")). cbn [mbind option_bind].
  assert (∀ r, jq "`) * 60 + minute(`" ++ r = 34%N :: (js ") * 60 + minute(" ++ [34%N]) ++ r) as Hm by reflexivity.
  assert (∀ r, jq "`)" ++ r = 34%N :: js ")" ++ r) as Hc by reflexivity.
  rewrite Hm, read_zone by done. cbn [mbind option_bind]. rewrite <-Hm.
  rewrite (strip_prefix_app (jq "`) * 60 + minute(`")). cbn [mbind option_bind].
  rewrite Hc, read_zone by done. cbn [mbind option_bind]. rewrite <-Hc.
  by rewrite (strip_prefix_app (jq "`)")).
Qed.

(** The two comparisons of a window, and the window. *)
Definition from_text (s : N) : jsstr := minute_of_day tz ++ js " >= " ++ dec_of_N s.
Definition until_text (e : N) : jsstr := minute_of_day tz ++ js " <= " ++ dec_of_N e.
Definition joiner (s e : N) : jsstr := if (s <=? e)%N then js " && " else js " || ".
Definition window_text (s e : N) : jsstr := from_text s ++ joiner s e ++ until_text e.

Lemma digits_plain o n : (o < 48)%N ∨ (57 < o)%N → forallb (plain o) (dec_of_N n) = true.
Proof.
  intros Hop. pose proof (dec_of_N_digits n) as H. rewrite forallb_forall_elem in H |- *.
  intros c Hc. specialize (H c Hc). unfold is_digit in H. apply andb_true_iff in H as [H1%N.leb_le H2%N.leb_le].
  unfold plain, no_paren. rewrite !(proj2 (N.eqb_neq _ _)) by lia. done.
Qed.

Lemma comparison_opaque sep n :
  forallb (plain 124) sep = true →
  opaque op_or (minute_of_day tz ++ sep ++ dec_of_N n).
Proof.
  intros H. apply opaque_app; [apply minute_opaque|]. apply opaque_app; [by apply opaque_plain|].
  apply opaque_plain, digits_plain. right. done.
Qed.

Lemma comparison_balanced sep n :
  forallb no_paren sep = true → balanced (minute_of_day tz ++ sep ++ dec_of_N n).
Proof.
  intros H. apply balanced_app; [apply minute_balanced|]. apply balanced_app; [by apply balanced_plain|].
  apply balanced_plain. pose proof (digits_plain 124 n (or_intror eq_refl)) as Hd.
  rewrite forallb_forall_elem in Hd |- *. intros c Hc. by apply Hd, andb_true_iff in Hc as [? _].
Qed.

(** A text from [hour] to a digit is trimmed. *)
Lemma hour_digit_trimmed w n : trimmed (minute_of_day tz ++ w ++ dec_of_N n).
Proof.
  split.
  - intros c [= <-]. done.
  - intros c. rewrite app_assoc.
    destruct (dec_of_N n) as [|d ds] eqn:E using rev_ind; [by destruct (dec_of_N_nonempty n)|].
    rewrite app_assoc, last_snoc. intros [= <-]. apply digit_not_ws.
    pose proof (dec_of_N_digits n) as H. rewrite E, forallb_app in H. simpl in H.
    apply andb_true_iff in H as [_ H]. by rewrite andb_true_r in H.
Qed.

Lemma window_trimmed s e : trimmed (window_text s e).
Proof.
  assert (window_text s e
          = minute_of_day tz
            ++ (js " >= " ++ dec_of_N s ++ joiner s e ++ minute_of_day tz ++ js " <= ")
            ++ dec_of_N e) as ->; [|apply hour_digit_trimmed].
  unfold window_text, from_text, until_text. generalize (js " >= ") (js " <= ") (minute_of_day tz).
  intros a b c. by rewrite <-!app_assoc.
Qed.

Lemma window_balanced s e : balanced (window_text s e).
Proof.
  unfold window_text. apply balanced_app; [by apply comparison_balanced|].
  apply balanced_app; [|by apply comparison_balanced].
  apply balanced_plain. unfold joiner. by destruct (s <=? e)%N.
Qed.

Lemma starts_hour w : ∃ w', minute_of_day tz ++ w = 104%N :: w'.
Proof. by eexists. Qed.

Lemma window_not_full s e : hasFullOuterParens (window_text s e) = false.
Proof.
  unfold window_text, from_text. rewrite <-!app_assoc.
  destruct (starts_hour (js " >= " ++ dec_of_N s ++ joiner s e ++ until_text e)) as [w ->].
  by apply not_full_head.
Qed.

Lemma unwrap_window s e :
  unwrapOuterParens (window_text s e) = window_text s e ∧
  unwrapOuterParens (40%N :: window_text s e ++ [41%N]) = window_text s e.
Proof.
  split.
  - apply unwrap_plain; [apply window_trimmed | apply window_not_full].
  - apply unwrap_group; [apply window_balanced | apply window_trimmed | apply window_not_full].
Qed.
(** *** Reading them *)

Lemma read_dec n r :
  (∀ c, head r = Some c → is_digit c = false) → read_digits (dec_of_N n ++ r) = Some (dec_of_N n, r).
Proof.
  intros Hr. unfold read_digits. rewrite span_digits_app by (done || apply dec_of_N_digits).
  by destruct (dec_of_N n) eqn:E; [destruct (dec_of_N_nonempty n)|].
Qed.

Lemma read_dec_end n : read_digits (dec_of_N n) = Some (dec_of_N n, []).
Proof. rewrite <-(app_nil_r (dec_of_N n)) at 1. by apply read_dec. Qed.

Lemma joiner_head s e r c : head (joiner s e ++ r) = Some c → is_digit c = false.
Proof. unfold joiner. destruct (s <=? e)%N; by intros [= <-]. Qed.

Lemma match_window_text s e :
  match_window (window_text s e)
  = Some {| w_zones := [tz; tz; tz; tz]; w_start := dec_of_N s; w_and := (s <=? e)%N;
            w_end := dec_of_N e |}.
Proof.
  unfold window_text, from_text, until_text, match_window. rewrite <-!app_assoc.
  rewrite read_minute. cbn [mbind option_bind]. rewrite (strip_prefix_app (js " >= ")).
  cbn [mbind option_bind]. rewrite read_dec by apply joiner_head. cbn [mbind option_bind].
  assert (∀ r, read_joiner (joiner s e ++ r) = Some ((s <=? e)%N, r)) as ->.
  { intros r. unfold joiner, read_joiner. by destruct (s <=? e)%N. }
  cbn [mbind option_bind]. rewrite read_minute. cbn [mbind option_bind].
  rewrite (strip_prefix_app (js " <= ")). cbn [mbind option_bind]. rewrite read_dec_end.
  cbn [mbind option_bind]. by rewrite bool_decide_eq_true_2.
Qed.

Lemma from_not_full s : hasFullOuterParens (from_text s) = false.
Proof. unfold from_text. destruct (starts_hour (js " >= " ++ dec_of_N s)) as [w ->]. by apply not_full_head. Qed.

Lemma until_not_full e : hasFullOuterParens (until_text e) = false.
Proof. unfold until_text. destruct (starts_hour (js " <= " ++ dec_of_N e)) as [w ->]. by apply not_full_head. Qed.

Lemma parse_from s :
  parseComparison (from_text s) = Some {| c_timezone := tz; operator := GreaterEq; c_value := dec_of_N s |}.
Proof.
  unfold parseComparison. rewrite unwrap_plain; [|apply hour_digit_trimmed | apply from_not_full].
  unfold from_text. rewrite read_minute. cbn [mbind option_bind]. unfold read_compare_op.
  rewrite (strip_prefix_app (js " >= ")). cbn [mbind option_bind]. rewrite read_dec_end.
  cbn [mbind option_bind]. by rewrite !bool_decide_eq_true_2.
Qed.

Lemma parse_until e :
  parseComparison (until_text e) = Some {| c_timezone := tz; operator := LessEq; c_value := dec_of_N e |}.
Proof.
  unfold parseComparison. rewrite unwrap_plain; [|apply hour_digit_trimmed | apply until_not_full].
  unfold until_text. rewrite read_minute. cbn [mbind option_bind]. unfold read_compare_op.
  assert (strip_prefix (js " >= ") (js " <= " ++ dec_of_N e) = None) as -> by reflexivity.
  rewrite (strip_prefix_app (js " <= ")). cbn [mbind option_bind]. rewrite read_dec_end.
  cbn [mbind option_bind]. by rewrite !bool_decide_eq_true_2.
Qed.

(** A whole window is not one comparison. *)
Lemma parse_window_none s e : parseComparison (40%N :: window_text s e ++ [41%N]) = None.
Proof.
  unfold parseComparison. rewrite (proj2 (unwrap_window s e)).
  unfold window_text, from_text. rewrite <-!app_assoc, read_minute. cbn [mbind option_bind].
  unfold read_compare_op. rewrite (strip_prefix_app (js " >= ")). cbn [mbind option_bind].
  rewrite read_dec by apply joiner_head. cbn [mbind option_bind].
  rewrite bool_decide_eq_false_2; [done|]. unfold joiner. by destruct (s <=? e)%N.
Qed.

(** The window as the editor has it. *)
Definition window (s e : N) : TimeRange := {| start := time_of s; end_ := time_of e |}.

Lemma minute_back m :
  (m < 1440)%N → minuteOfDayToTime (num_of_string (dec_of_N m)) = Some (time_of m).
Proof.
  intros Hm. rewrite num_of_string_dec by (unfold safe; lia).
  rewrite minuteOfDayToTime_minute by lia. by rewrite N2Z.id.
Qed.

Lemma read_segment_window z seg s e :
  unwrapOuterParens seg = window_text s e → z = [] ∨ z = tz →
  (s < 1440)%N → (e < 1440)%N → read_segment z seg = Some (tz, window s e).
Proof.
  intros Hseg Hz Hs He. unfold read_segment. rewrite Hseg, match_window_text. cbn [mbind option_bind].
  cbn [w_zones w_start w_and w_end forallb]. rewrite !bool_decide_eq_true_2 by done. cbn [andb negb].
  assert (truthy_str z && negb (bool_decide (z = tz)) = false) as ->.
  { destruct Hz as [-> | ->]; [done|]. by rewrite (bool_decide_eq_true_2 (tz = tz)), andb_false_r. }
  rewrite !minute_back by done. cbn [mbind option_bind].
  rewrite time_order by done. destruct (N.leb_spec s e), (N.ltb_spec e s); try lia; done.
Qed.

Lemma read_segments_windows z acc segs ws :
  Forall2 (λ seg w, unwrapOuterParens seg = window_text (fst w) (snd w)) segs ws →
  Forall (λ w, (fst w < 1440)%N ∧ (snd w < 1440)%N) ws →
  (z = [] ∧ acc = [] ∧ ws ≠ []) ∨ (z = tz ∧ acc ≠ []) →
  read_segments z acc segs
  = Some {| timezone := tz; ranges := acc ++ map (λ w, window (fst w) (snd w)) ws |}.
Proof.
  intros Hsegs. revert z acc. induction Hsegs as [|seg w segs ws Hseg _ IH]; intros z acc Hws Hz.
  - destruct Hz as [(_ & _ & ?)|[-> Hacc]]; [done|]. cbn [read_segments map].
    rewrite (proj2 (truthy_str_true tz)) by apply Htz. rewrite bool_decide_eq_false_2 by done.
    by rewrite app_nil_r.
  - inversion Hws as [|? ? [Hs He] Hws']; subst. cbn [read_segments].
    rewrite (read_segment_window z seg (fst w) (snd w)); [|done| |done|done].
    + cbn [mbind option_bind]. rewrite IH; [|done|].
      * by rewrite <-app_assoc.
      * right. split; [done|]. by destruct acc.
    + destruct Hz as [[-> _]|[-> _]]; [by left | by right].
Qed.

(** *** One window, several windows *)

Definition segment_text (s e : N) : jsstr := 40%N :: window_text s e ++ [41%N].

Lemma segment_part_ok s e : part_ok 124 [124%N] (segment_text s e).
Proof.
  split; [|split; [|done]].
  - apply opaque_group; [done | apply window_balanced].
  - apply group_trimmed.
Qed.

Lemma segment_balanced s e : balanced (segment_text s e).
Proof. apply balanced_group, window_balanced. Qed.

Lemma comparison_part_ok sep n :
  forallb (plain 124) sep = true →
  part_ok 124 [124%N] (minute_of_day tz ++ sep ++ dec_of_N n).
Proof. intros H. split; [by apply comparison_opaque|]. split; [apply hour_digit_trimmed | done]. Qed.

Lemma split_window s e :
  splitTopLevel op_or (window_text s e)
  = if (s <=? e)%N then [window_text s e] else [from_text s; until_text e].
Proof.
  destruct (s <=? e)%N eqn:E.
  - change (window_text s e) with (join (js " || ") [window_text s e]) at 1.
    apply split_or; [|done]. constructor; [|constructor].
    split; [|split; [apply window_trimmed | done]].
    unfold window_text, joiner. rewrite E. apply opaque_app; [by apply comparison_opaque|].
    apply opaque_app; [by apply opaque_plain | by apply comparison_opaque].
  - assert (window_text s e = join (js " || ") [from_text s; until_text e]) as ->.
    { unfold window_text, joiner. by rewrite E. }
    apply split_or; [|done].
    repeat constructor; by apply comparison_part_ok.
Qed.

Lemma parse_one s e :
  (s < 1440)%N → (e < 1440)%N →
  parseTimeRangeCondition (segment_text s e) = Some {| timezone := tz; ranges := [window s e] |}.
Proof.
  intros Hs He. unfold parseTimeRangeCondition, segment_text.
  rewrite (proj2 (unwrap_window s e)), split_window. destruct (N.leb_spec s e).
  - cbn [across_midnight]. rewrite (read_segments_windows [] [] [window_text s e] [(s, e)]).
    + done.
    + repeat constructor. apply unwrap_window.
    + by repeat constructor.
    + by left.
  - cbn [across_midnight]. rewrite parse_from, parse_until. cbn [mbind option_bind operator c_timezone c_value].
    rewrite !bool_decide_eq_true_2 by done. cbn [andb]. rewrite !minute_back by done.
    cbn [mbind option_bind]. rewrite time_order by done.
    by rewrite (proj2 (N.ltb_lt e s)).
Qed.

Lemma join_balanced segs :
  Forall balanced segs → balanced (join (js " || ") segs).
Proof.
  induction 1 as [|seg segs Hs _ IH]; [by apply balanced_plain|].
  destruct segs as [|seg' segs]; [done|].
  change (join (js " || ") (seg :: seg' :: segs)) with (seg ++ js " || " ++ join (js " || ") (seg' :: segs)).
  apply balanced_app; [done|]. apply balanced_app; [by apply balanced_plain | done].
Qed.

Lemma join_group_shape ws :
  ws ≠ [] →
  ∃ x, join (js " || ") (map (λ w, segment_text (fst w) (snd w)) ws) = 40%N :: x ++ [41%N].
Proof.
  induction ws as [|w ws IH]; [done|]. intros _. destruct ws as [|w' ws]; [by eexists|].
  destruct IH as [x Hx]; [done|]. cbn [map] in *.
  exists (window_text (fst w) (snd w) ++ 41%N :: js " || " ++ 40%N :: x).
  change (join (js " || ") (segment_text (fst w) (snd w) :: ?l)) with
    (segment_text (fst w) (snd w) ++ js " || " ++ join (js " || ") l).
  rewrite Hx. unfold segment_text. simpl. by repeat (rewrite <-app_assoc; simpl).
Qed.

Lemma parse_many ws :
  2 ≤ length ws → Forall (λ w, (fst w < 1440)%N ∧ (snd w < 1440)%N) ws →
  parseTimeRangeCondition
    (js "(" ++ join (js " || ") (map (λ w, segment_text (fst w) (snd w)) ws) ++ js ")")
  = Some {| timezone := tz; ranges := map (λ w, window (fst w) (snd w)) ws |}.
Proof.
  intros Hlen Hws. set (segs := map (λ w, segment_text (fst w) (snd w)) ws).
  assert (Forall (part_ok 124 [124%N]) segs) as Hparts.
  { apply Forall_forall. intros p Hp. apply list_elem_of_fmap in Hp as (w & -> & _). apply segment_part_ok. }
  assert (segs ≠ []) as Hne by (destruct ws; [simpl in Hlen; lia | done]).
  assert (unwrapOuterParens (js "(" ++ join (js " || ") segs ++ js ")") = join (js " || ") segs) as Hu.
  { apply unwrap_group.
    - apply join_balanced, Forall_forall. intros p Hp.
      apply list_elem_of_fmap in Hp as (w & -> & _). apply segment_balanced.
    - destruct (join_group_shape ws) as [x Hx]; [by destruct ws|]. unfold segs. rewrite Hx.
      apply group_trimmed.
    - destruct ws as [|w [|w' ws']]; [simpl in Hlen; lia.. |]. unfold segs. cbn [map].
      set (rest := segment_text (fst w') (snd w') :: map (λ w, segment_text (fst w) (snd w)) ws').
      assert (join (js " || ") (segment_text (fst w) (snd w) :: rest)
              = 40%N :: window_text (fst w) (snd w) ++ 41%N :: js " || " ++ join (js " || ") rest) as ->.
      { unfold segment_text. subst rest. cbn [join]. simpl. by rewrite <-app_assoc. }
      apply not_full_groups; [apply window_balanced | done]. }
  unfold parseTimeRangeCondition. rewrite Hu, split_or by done.
  assert (across_midnight segs = None) as ->.
  { unfold segs. destruct ws as [|w [|w' [|]]]; try done. cbn [map across_midnight].
    unfold segment_text. by rewrite !parse_window_none. }
  rewrite (read_segments_windows [] [] segs ws); [done | | done |].
  - unfold segs. apply Forall2_fmap_l, Forall_Forall2_diag, Forall_forall. intros w _. apply unwrap_window.
  - left. split; [done|]. split; [done|]. by destruct ws.
Qed.
End zone.

(** ** The round trip *)

(** Both ends of a range without surrounding white space. *)
Definition trim_range (r : TimeRange) : TimeRange :=
  {| start := trim (start r); end_ := trim (end_ r) |}.

(** Both ends read as times. *)
Definition range_valid (r : TimeRange) : Prop :=
  timeToMinuteOfDay (start r) ≠ None ∧ timeToMinuteOfDay (end_ r) ≠ None.

#[export] Instance range_valid_dec r : Decision (range_valid r).
Proof. unfold range_valid. apply _. Defined.

Lemma range_segment_text tz r :
  (range_valid r ∧ ∃ w, (fst w < 1440)%N ∧ (snd w < 1440)%N ∧ trim_range r = window (fst w) (snd w)
     ∧ range_segment tz r = [segment_text tz (fst w) (snd w)])
  ∨ (¬ range_valid r ∧ range_segment tz r = []).
Proof.
  unfold range_segment, range_valid, trim_range.
  destruct (timeToMinuteOfDay (start r)) as [s|] eqn:Es; [|right; split; [intros [? ?]|]; done].
  destruct (timeToMinuteOfDay (end_ r)) as [e|] eqn:Ee; [|right; split; [intros [? ?]|]; done].
  apply timeToMinute_Some in Es as [Hs ->]. apply timeToMinute_Some in Ee as [He ->].
  left. split; [done|]. exists (s, e). do 3 (split; [done|]). f_equal.
  unfold segment_text, window_text, from_text, until_text, joiner. simpl fst. simpl snd.
  destruct (s <=? e)%N; simpl; repeat (rewrite <-app_assoc; simpl); done.
Qed.

Lemma range_segments_length tz rs :
  length (flat_map (range_segment tz) rs) ≤ length rs
  ∧ (length (flat_map (range_segment tz) rs) = length rs ↔ Forall range_valid rs).
Proof.
  induction rs as [|r rs [Hle Hiff]]; [by simpl|]. simpl. rewrite length_app, Forall_cons.
  destruct (range_segment_text tz r) as [(Hv & w & _ & _ & _ & ->) | [Hv ->]]; simpl.
  - split; [lia|]. rewrite <-Hiff. split; [intros; split; [done | lia] | intros [_ ?]; lia].
  - split; [lia|]. split; [lia | intros [? _]; done].
Qed.

Lemma range_segments_windows tz rs :
  Forall range_valid rs →
  ∃ ws, length ws = length rs ∧ Forall (λ w, (fst w < 1440)%N ∧ (snd w < 1440)%N) ws
    ∧ map trim_range rs = map (λ w, window (fst w) (snd w)) ws
    ∧ flat_map (range_segment tz) rs = map (λ w, segment_text tz (fst w) (snd w)) ws.
Proof.
  induction 1 as [|r rs Hr _ (ws & Hlen & Hws & Hm & Hs)]; [by exists []|].
  destruct (range_segment_text tz r) as [(_ & w & Hf & He & Ht & Hg) | [? _]]; [|done].
  exists (w :: ws). simpl. rewrite Hlen, Ht, Hm, Hg, Hs. by repeat constructor.
Qed.

(** The condition for a list of windows. *)
Definition windows_text (tz : jsstr) (ws : list (N * N)) : jsstr :=
  match map (λ w, segment_text tz (fst w) (snd w)) ws with
  | [segment] => segment
  | segments => js "(" ++ join (js " || ") segments ++ js ")"
  end.

Definition windows_ok (ws : list (N * N)) : Prop :=
  ws ≠ [] ∧ Forall (λ w, (fst w < 1440)%N ∧ (snd w < 1440)%N) ws.

Lemma build_windows c :
  match buildTimeRangeConditionExpr c with
  | Some e =>
      trim (timezone c) ≠ [] ∧ Forall range_valid (ranges c) ∧
      ∃ ws, windows_ok ws ∧ map trim_range (ranges c) = map (λ w, window (fst w) (snd w)) ws
        ∧ e = windows_text (trim (timezone c)) ws
  | None => trim (timezone c) = [] ∨ ranges c = [] ∨ Exists (λ r, ¬ range_valid r) (ranges c)
  end.
Proof.
  unfold buildTimeRangeConditionExpr. set (tz := trim (timezone c)) in *.
  destruct (decide (tz = [])) as [Htz|Htz]; [rewrite Htz; by left|].
  rewrite (proj2 (truthy_str_true tz) Htz). cbn [negb orb].
  case_bool_decide as Hne; [right; by left|].
  destruct (range_segments_length tz (ranges c)) as [_ Hlen].
  destruct (decide (Forall range_valid (ranges c))) as [Hv|Hv].
  - rewrite (bool_decide_eq_true_2 _ (proj2 Hlen Hv)). cbn [negb].
    destruct (range_segments_windows tz (ranges c) Hv) as (ws & Hl & Hws & Hm & ->).
    assert (ws ≠ []) by (intros ->; by destruct (ranges c)).
    destruct ws as [|w [|w' ws]]; [done|..]; (split; [done|]; split; [done|]; by eexists).
  - rewrite bool_decide_eq_false_2 by (rewrite Hlen; done). cbn [negb]. right. right.
    by apply not_Forall_Exists; [apply _|].
Qed.

Lemma parse_windows tz ws :
  zone_ok tz → windows_ok ws →
  parseTimeRangeCondition (windows_text tz ws)
  = Some {| timezone := tz; ranges := map (λ w, window (fst w) (snd w)) ws |}.
Proof.
  intros Htz [Hne Hws]. destruct ws as [|w [|w' ws]]; [done|..].
  - inversion Hws as [|? ? [? ?] _]; subst. by apply parse_one.
  - apply (parse_many tz Htz (w :: w' :: ws)); [simpl; lia | done].
Qed.

(** C7: Reading what was written gives it back.  For a zone that, once trimmed,
    has no character below U+0020, double quote, backslash, parenthesis or surrogate
    ([zone_unit]), the condition written for a list of time windows reads as the
    same zone and windows without surrounding white space, whichever of the
    windows cross midnight; the editor writes nothing only when the zone is
    blank, there is no window or some end is not a time of the day. *)
Theorem window_round_trip (c : TimeRangeCondition)
    (Hzone : forallb zone_unit (trim (timezone c)) = true) :
  match buildTimeRangeConditionExpr c with
  | Some e =>
      Forall range_valid (ranges c)
      ∧ parseTimeRangeCondition e
        = Some {| timezone := trim (timezone c); ranges := map trim_range (ranges c) |}
  | None => trim (timezone c) = [] ∨ ranges c = [] ∨ Exists (λ r, ¬ range_valid r) (ranges c)
  end.
Proof.
  pose proof (build_windows c) as H. destruct (buildTimeRangeConditionExpr c); [|done].
  destruct H as (Htz & Hv & ws & Hws & -> & ->). split; [done|]. apply parse_windows; [|done].
  split; [done|]. split; [apply trim_trimmed | done].
Qed.

Definition night_and_noon : TimeRangeCondition :=
  {| timezone := js " Asia/Shanghai";
     ranges := [{| start := js "22:00"; end_ := js "06:30" |};
                {| start := js "12:00 "; end_ := js "13:05" |}] |}.

Lemma window_round_trip_witness :
  forallb zone_unit (trim (timezone night_and_noon)) = true ∧
  buildTimeRangeConditionExpr night_and_noon ≠ None ∧
  match buildTimeRangeConditionExpr night_and_noon with
  | Some e =>
      Forall range_valid (ranges night_and_noon)
      ∧ parseTimeRangeCondition e
        = Some {| timezone := trim (timezone night_and_noon);
                  ranges := map trim_range (ranges night_and_noon) |}
  | None => trim (timezone night_and_noon) = [] ∨ ranges night_and_noon = []
            ∨ Exists (λ r, ¬ range_valid r) (ranges night_and_noon)
  end.
Proof.
  split; [reflexivity|]. split; [by vm_compute | exact (window_round_trip night_and_noon eq_refl)].
Defined.
