(* ===== verification/RequestRules.v ===== *)
(** * Request rules of billing expressions (pricing/lib/billing-expr.ts)

    A billing expression may be multiplied by factors
    [(condition ? multiplier : 1)] whose conditions look at the request (a
    body parameter, a header) or at the time.  The editor writes the factors
    from groups of conditions, reads them back, and separates them from the
    price they multiply.

    Fields of conditions are strings, as the declared types say; a field
    missing from a partial condition is [None].  The regular expressions of
    the reader consist of literals, runs of a class each followed by a unit
    outside the class, and back references, so reading the longest run is
    exact. *)

From Stdlib Require Import ZArith.
From S2P Require Import Prelude JsString JsNumber JsCollections JsValue Json ExprSplit TimeRange.

(** ** Constants *)

Definition MATCH_EQ : jsstr := js "eq".
Definition MATCH_CONTAINS : jsstr := js "contains".
Definition MATCH_GT : jsstr := js "gt".
Definition MATCH_GTE : jsstr := js "gte".
Definition MATCH_LT : jsstr := js "lt".
Definition MATCH_LTE : jsstr := js "lte".
Definition MATCH_EXISTS : jsstr := js "exists".
Definition MATCH_RANGE : jsstr := js "range".

Definition TIME_FUNCS : list jsstr := [js "hour"; js "minute"; js "weekday"; js "month"; js "day"].

(** ** Conditions *)

Inductive RuleSource := Param | Header.

Record ParamHeaderCondition := {
  ph_source : RuleSource;
  ph_path : jsstr;
  ph_mode : jsstr;
  ph_value : jsstr
}.

Record TimeCondition := {
  t_timeFunc : jsstr;
  t_timezone : jsstr;
  t_mode : jsstr;
  t_value : jsstr;
  t_rangeStart : jsstr;
  t_rangeEnd : jsstr
}.

Inductive RequestCondition :=
  | Time (c : TimeCondition)
  | ParamHeader (c : ParamHeaderCondition).

Record RequestRuleGroup := {
  conditions : list RequestCondition;
  multiplier : jsstr
}.

#[export] Instance RuleSource_eq_dec : EqDecision RuleSource.
Proof. solve_decision. Defined.

#[export] Instance ParamHeaderCondition_eq_dec : EqDecision ParamHeaderCondition.
Proof. solve_decision. Defined.

#[export] Instance TimeCondition_eq_dec : EqDecision TimeCondition.
Proof. solve_decision. Defined.

#[export] Instance RequestCondition_eq_dec : EqDecision RequestCondition.
Proof. solve_decision. Defined.

#[export] Instance RequestRuleGroup_eq_dec : EqDecision RequestRuleGroup.
Proof. solve_decision. Defined.

(** [Partial<RequestCondition>]: the fields of both kinds, any of them
    absent. *)
Record PartialCondition := {
  p_source : option jsstr;
  p_timeFunc : option jsstr;
  p_timezone : option jsstr;
  p_path : option jsstr;
  p_mode : option jsstr;
  p_value : option jsstr;
  p_rangeStart : option jsstr;
  p_rangeEnd : option jsstr
}.

Definition empty_partial : PartialCondition :=
  {| p_source := None; p_timeFunc := None; p_timezone := None; p_path := None;
     p_mode := None; p_value := None; p_rangeStart := None; p_rangeEnd := None |}.

Definition source_name (s : RuleSource) : jsstr :=
  match s with Param => js "param" | Header => js "header" end.

(** A condition as a partial one. *)
Definition to_partial (c : RequestCondition) : PartialCondition :=
  match c with
  | Time t =>
      {| p_source := Some (js "time"); p_timeFunc := Some (t_timeFunc t);
         p_timezone := Some (t_timezone t); p_path := None; p_mode := Some (t_mode t);
         p_value := Some (t_value t); p_rangeStart := Some (t_rangeStart t);
         p_rangeEnd := Some (t_rangeEnd t) |}
  | ParamHeader c =>
      {| p_source := Some (source_name (ph_source c)); p_timeFunc := None; p_timezone := None;
         p_path := Some (ph_path c); p_mode := Some (ph_mode c); p_value := Some (ph_value c);
         p_rangeStart := None; p_rangeEnd := None |}
  end.

(** ** Empty constructors *)

Definition createEmptyCondition : ParamHeaderCondition :=
  {| ph_source := Param; ph_path := []; ph_mode := MATCH_EQ; ph_value := [] |}.

Definition createEmptyTimeCondition : TimeCondition :=
  {| t_timeFunc := js "hour"; t_timezone := js "Asia/Shanghai"; t_mode := MATCH_GTE;
     t_value := []; t_rangeStart := []; t_rangeEnd := [] |}.

Definition createEmptyRuleGroup : RequestRuleGroup :=
  {| conditions := [ParamHeader createEmptyCondition]; multiplier := [] |}.

Definition createEmptyTimeRuleGroup : RequestRuleGroup :=
  {| conditions := [Time createEmptyTimeCondition]; multiplier := [] |}.

(** ** Normalising a condition *)

(** The value and the label of each option. *)
Definition getRequestRuleMatchOptions (source : jsstr) : list (jsstr * jsstr) :=
  if bool_decide (source = js "time") then
    [(MATCH_EQ, js "Equals"); (MATCH_GTE, js "Greater than or equal"); (MATCH_LT, js "Less than");
     (MATCH_RANGE, js "Overnight range")]
  else
    let base := [(MATCH_EQ, js "Equals"); (MATCH_CONTAINS, js "Contains"); (MATCH_EXISTS, js "Exists")] in
    if bool_decide (source = js "header") then base
    else base ++ [(MATCH_GT, js "Greater than"); (MATCH_GTE, js "Greater than or equal");
                  (MATCH_LT, js "Less than"); (MATCH_LTE, js "Less than or equal")].

Definition isTimeFunc (value : option jsstr) : option jsstr :=
  match value with
  | Some f => if bool_decide (f ∈ TIME_FUNCS) then Some f else None
  | None => None
  end.

(** The mode if the options list it. *)
Definition listed_mode (source : jsstr) (mode : option jsstr) (fallback : jsstr) : jsstr :=
  match mode with
  | Some m => if existsb (λ item, bool_decide (fst item = m)) (getRequestRuleMatchOptions source)
              then m else fallback
  | None => fallback
  end.

Definition normalizeCondition (cond : option PartialCondition) : RequestCondition :=
  let c := default empty_partial cond in
  if bool_decide (p_source c = Some (js "time")) then
    Time {| t_timeFunc := default (js "hour") (isTimeFunc (p_timeFunc c));
            t_timezone := str_or (default [] (p_timezone c)) (js "Asia/Shanghai");
            t_mode := listed_mode (js "time") (p_mode c) MATCH_GTE;
            t_value := default [] (p_value c);
            t_rangeStart := default [] (p_rangeStart c);
            t_rangeEnd := default [] (p_rangeEnd c) |}
  else
    let source := if bool_decide (p_source c = Some (js "header")) then Header else Param in
    ParamHeader {| ph_source := source;
                   ph_path := default [] (p_path c);
                   ph_mode := listed_mode (source_name source) (p_mode c) MATCH_EQ;
                   ph_value := default [] (p_value c) |}.

(** ** Literals *)

(** The optional exponent up to the end of NUMERIC_LITERAL_REGEX. *)
Definition exponent_at_end (s : jsstr) : bool :=
  match s with
  | [] => true
  | c :: r =>
      if (c =? 101)%N || (c =? 69)%N then
        let digits := match r with
                      | d :: r' => if (d =? 43)%N || (d =? 45)%N then r' else r
                      | [] => r
                      end in
        truthy_str digits && forallb is_digit digits
      else false
  end.

(** [NUMERIC_LITERAL_REGEX.test(s)]. *)
Definition numeric_literal (s : jsstr) : bool :=
  let s := match s with c :: r => if (c =? 45)%N then r else s | [] => s end in
  match span_digits s with
  | (_ :: _, r) =>
      match r with
      | c :: r' => if (c =? 46)%N then exponent_at_end (snd (span_digits r')) else exponent_at_end r
      | [] => true
      end
  | ([], c :: r) =>
      if (c =? 46)%N then
        match span_digits r with
        | (_ :: _, r') => exponent_at_end r'
        | ([], _) => false
        end
      else false
  | ([], []) => false
  end.

Definition buildExprLiteral (mode value : jsstr) : jsstr :=
  let text := trim value in
  if bool_decide (mode = MATCH_CONTAINS) then quote_json text
  else if bool_decide (text = js "true") || bool_decide (text = js "false") then text
  else if numeric_literal text then text
  else quote_json text.

(** [null] when the text is no literal; [JSON.parse] may give any value. *)
Definition parseExprLiteral (raw : jsstr) : val :=
  let text := trim raw in
  if bool_decide (text = js "true") || bool_decide (text = js "false") then VStr text
  else if numeric_literal text then VStr text
  else try_catch (json_parse text) VNull.

(** ** Writing *)

Definition time_op (mode : jsstr) : jsstr :=
  if bool_decide (mode = MATCH_EQ) then js "=="
  else if bool_decide (mode = MATCH_GTE) then js ">="
  else if bool_decide (mode = MATCH_LT) then js "<"
  else js "==".

Definition buildTimeConditionExpr (cond : TimeCondition) : jsstr :=
  match normalizeCondition (Some (to_partial (Time cond))) with
  | Time n =>
      let fn := t_timeFunc n ++ js "(" ++ quote_json (t_timezone n) ++ js ")" in
      if bool_decide (t_mode n = MATCH_RANGE) then
        let s := trim (t_rangeStart n) in
        let e := trim (t_rangeEnd n) in
        if negb (numeric_literal s) || negb (numeric_literal e) then []
        else fn ++ js " >= " ++ s ++ js " || " ++ fn ++ js " < " ++ e
      else
        let v := trim (t_value n) in
        if negb (numeric_literal v) then []
        else fn ++ js " " ++ time_op (t_mode n) ++ js " " ++ v
  | ParamHeader _ => []
  end.

(** The operator of a numeric comparison. *)
Definition compare_op (mode : jsstr) : option jsstr :=
  if bool_decide (mode = MATCH_GT) then Some (js ">")
  else if bool_decide (mode = MATCH_GTE) then Some (js ">=")
  else if bool_decide (mode = MATCH_LT) then Some (js "<")
  else if bool_decide (mode = MATCH_LTE) then Some (js "<=")
  else None.

Definition build_param_header (n : ParamHeaderCondition) : jsstr :=
  let path := trim (ph_path n) in
  if negb (truthy_str path) then []
  else
    let sourceExpr := source_name (ph_source n) ++ js "(" ++ quote_json path ++ js ")" in
    let present := sourceExpr ++ js " != nil" in
    let literal := buildExprLiteral (ph_mode n) (ph_value n) in
    if bool_decide (ph_mode n = MATCH_EXISTS) then
      match ph_source n with Header => sourceExpr ++ jq " != ``" | Param => present end
    else if bool_decide (ph_mode n = MATCH_CONTAINS) then
      let has := js "has(" ++ sourceExpr ++ js ", " ++ literal ++ js ")" in
      match ph_source n with Header => has | Param => present ++ js " && " ++ has end
    else
      match compare_op (ph_mode n) with
      | Some op =>
          let numText := trim (ph_value n) in
          if negb (numeric_literal numText) then []
          else present ++ js " && " ++ sourceExpr ++ js " " ++ op ++ js " " ++ numText
      | None => sourceExpr ++ js " == " ++ literal
      end.

Definition buildRequestConditionExpr (cond : RequestCondition) : jsstr :=
  match cond with
  | Time t => buildTimeConditionExpr t
  | ParamHeader _ =>
      match normalizeCondition (Some (to_partial cond)) with
      | ParamHeader n => build_param_header n
      | Time _ => []
      end
  end.

Definition parenthesize (e : jsstr) : jsstr :=
  if includes e (js " || ") then js "(" ++ e ++ js ")" else e.

Definition buildRuleGroupFactor (group : RequestRuleGroup) : jsstr :=
  let m := trim (multiplier group) in
  if negb (numeric_literal m) then []
  else
    let condExprs := List.filter truthy_str (map buildRequestConditionExpr (conditions group)) in
    match condExprs with
    | [] => []
    | _ =>
        let combined := match condExprs with
                        | [e] => e
                        | _ => join (js " && ") (map parenthesize condExprs)
                        end in
        js "(" ++ combined ++ js " ? " ++ m ++ js " : 1)"
    end.

Definition buildRequestRuleExpr (groups : list RequestRuleGroup) : jsstr :=
  join (js " * ") (List.filter truthy_str (map buildRuleGroupFactor groups)).

(** ** Reading *)

Definition op_times : jsstr := js " * ".

Definition splitTopLevelMultiply (expr : jsstr) : list jsstr := splitTopLevel op_times expr.

(** The class [\d.eE+-]. *)
Definition num_unit (c : N) : bool :=
  is_digit c || (c =? 46)%N || (c =? 101)%N || (c =? 69)%N || (c =? 43)%N || (c =? 45)%N.

(** The longest run of a class, and the rest. *)
Fixpoint span (p : N → bool) (s : jsstr) : jsstr * jsstr :=
  match s with
  | c :: s' => if p c then let '(w, r) := span p s' in (c :: w, r) else ([], s)
  | [] => ([], [])
  end.

Definition read_number (s : jsstr) : option (jsstr * jsstr) :=
  match span num_unit s with ([], _) => None | dr => Some dr end.

(** The call of a time function: its name, its zone and the rest. *)
Fixpoint read_time_call (funcs : list jsstr) (s : jsstr) : option (jsstr * jsstr * jsstr) :=
  match funcs with
  | [] => None
  | f :: funcs' =>
      match strip_prefix (f ++ jq "(`") s with
      | Some s => '(tz, s) ← read_unquoted s; s ← strip_prefix (jq "`)") s; Some (f, tz, s)
      | None => read_time_call funcs' s
      end
  end.

(** A range up to the text [close]. *)
Definition match_time_range (close s : jsstr) : option RequestCondition :=
  '(f, tz, s) ← read_time_call TIME_FUNCS s;
  s ← strip_prefix (js " >= ") s;
  '(d1, s) ← read_number s;
  s ← strip_prefix (js " || " ++ f ++ jq "(`" ++ tz ++ jq "`) < ") s;
  '(d2, s) ← read_number s;
  if bool_decide (s = close)
  then Some (Time {| t_timeFunc := f; t_timezone := tz; t_mode := MATCH_RANGE; t_value := [];
                     t_rangeStart := d1; t_rangeEnd := d2 |})
  else None.

(** The mode of an operator and the rest after it. *)
Definition read_time_op (s : jsstr) : option (jsstr * jsstr) :=
  match strip_prefix (js " == ") s with
  | Some r => Some (MATCH_EQ, r)
  | None =>
      match strip_prefix (js " >= ") s with
      | Some r => Some (MATCH_GTE, r)
      | None => match strip_prefix (js " < ") s with Some r => Some (MATCH_LT, r) | None => None end
      end
  end.

Definition match_time_comparison (s : jsstr) : option RequestCondition :=
  '(f, tz, s) ← read_time_call TIME_FUNCS s;
  '(mode, s) ← read_time_op s;
  '(v, s) ← read_number s;
  if bool_decide (s = [])
  then Some (Time {| t_timeFunc := f; t_timezone := tz; t_mode := mode; t_value := v;
                     t_rangeStart := []; t_rangeEnd := [] |})
  else None.

Definition tryParseTimeCondition (expr : jsstr) : option RequestCondition :=
  match match_time_range [] expr with
  | Some c => Some c
  | None =>
      match (s ← strip_prefix (js "(") expr; match_time_range (js ")") s) with
      | Some c => Some c
      | None => match_time_comparison expr
      end
  end.

(** Units that [.] does not match. *)
Definition line_terminator (c : N) : bool :=
  ((c =? 10) || (c =? 13) || (c =? 0x2028) || (c =? 0x2029))%N.

(** The rest of a quoted text, up to and with the closing quote. *)
Fixpoint read_quoted_tail (s : jsstr) : option (jsstr * jsstr) :=
  match s with
  | [] => None
  | c :: s' =>
      if (c =? 34)%N then Some ([c], s')
      else if (c =? 92)%N then
        match s' with
        | d :: s'' =>
            if line_terminator d then None
            else '(w, r) ← read_quoted_tail s''; Some (c :: d :: w, r)
        | [] => None
        end
      else '(w, r) ← read_quoted_tail s'; Some (c :: w, r)
  end.

(** A quoted text, with its quotes. *)
Definition read_quoted (s : jsstr) : option (jsstr * jsstr) :=
  match s with
  | c :: s' => if (c =? 34)%N then '(w, r) ← read_quoted_tail s'; Some (c :: w, r) else None
  | [] => None
  end.

(** [JSON.parse] of a quoted text, which can only give a string. *)
Definition json_parse_quoted (s : jsstr) : res jsstr :=
  v ← json_parse s;
  match v with VStr w => Ok w | _ => Throw SyntaxError end.

Definition rule_condition (source : RuleSource) (path mode value : jsstr) : RequestCondition :=
  ParamHeader {| ph_source := source; ph_path := path; ph_mode := mode; ph_value := value |}.

(** A quoted name between two texts. *)
Definition read_between (a b s : jsstr) : option (jsstr * jsstr) :=
  s ← strip_prefix a s; '(w, s) ← read_unquoted s; s ← strip_prefix b s; Some (w, s).

(** The path, when only [close] follows. *)
Definition match_exists (a b s : jsstr) : option jsstr :=
  '(path, s) ← read_between a b s; if bool_decide (s = []) then Some path else None.

Definition match_has_header (s : jsstr) : option (jsstr * jsstr) :=
  '(path, s) ← read_between (jq "has(header(`") (jq "`), ") s;
  '(lit, s) ← read_quoted s;
  if bool_decide (s = js ")") then Some (path, lit) else None.

Definition match_has_param (s : jsstr) : option (jsstr * jsstr) :=
  '(path, s) ← read_between (jq "param(`") (jq "`) != nil && has(param(`") s;
  '(path', s) ← read_unquoted s;
  s ← strip_prefix (jq "`), ") s;
  '(lit, s) ← read_quoted s;
  if bool_decide (s = js ")") && bool_decide (path = path') then Some (path, lit) else None.

Definition read_compare (s : jsstr) : option (jsstr * jsstr) :=
  match strip_prefix (js " > ") s with
  | Some r => Some (MATCH_GT, r)
  | None =>
      match strip_prefix (js " >= ") s with
      | Some r => Some (MATCH_GTE, r)
      | None =>
          match strip_prefix (js " < ") s with
          | Some r => Some (MATCH_LT, r)
          | None => match strip_prefix (js " <= ") s with Some r => Some (MATCH_LTE, r) | None => None end
          end
      end
  end.

Definition match_param_comparison (s : jsstr) : option (jsstr * jsstr * jsstr) :=
  '(path, s) ← read_between (jq "param(`") (jq "`) != nil && param(`") s;
  '(path', s) ← read_unquoted s;
  s ← strip_prefix (jq "`)") s;
  '(mode, s) ← read_compare s;
  '(v, s) ← read_number s;
  if bool_decide (s = []) && bool_decide (path = path') then Some (path, mode, v) else None.

(** The source, the path and the literal of an equation. *)
Definition match_equation (s : jsstr) : option (RuleSource * jsstr * jsstr) :=
  '(source, (path, s)) ←
    (match read_between (jq "param(`") (jq "`) == ") s with
     | Some r => Some (Param, r)
     | None => r ← read_between (jq "header(`") (jq "`) == ") s; Some (Header, r)
     end);
  if truthy_str s && forallb (λ c, negb (line_terminator c)) s then Some (source, path, s) else None.

Definition tryParseRequestCondition (expr : jsstr) : res (option RequestCondition) :=
  match tryParseTimeCondition expr with
  | Some tc => Ok (Some tc)
  | None =>
  match match_exists (jq "header(`") (jq "`) != ``") expr with
  | Some path => Ok (Some (rule_condition Header path MATCH_EXISTS []))
  | None =>
  match match_exists (jq "param(`") (jq "`) != nil") expr with
  | Some path => Ok (Some (rule_condition Param path MATCH_EXISTS []))
  | None =>
  match match_has_header expr with
  | Some (path, lit) =>
      v ← json_parse_quoted lit; Ok (Some (rule_condition Header path MATCH_CONTAINS v))
  | None =>
  match match_has_param expr with
  | Some (path, lit) =>
      v ← json_parse_quoted lit; Ok (Some (rule_condition Param path MATCH_CONTAINS v))
  | None =>
  match match_param_comparison expr with
  | Some (path, mode, v) => Ok (Some (rule_condition Param path mode v))
  | None =>
  match match_equation expr with
  | Some (source, path, lit) =>
      match parseExprLiteral lit with
      | VNull => Ok None
      | parsedValue => v ← to_string parsedValue; Ok (Some (rule_condition source path MATCH_EQ v))
      end
  | None => Ok None
  end end end end end end end.

Definition strip_suffix (p s : jsstr) : option jsstr :=
  s ← strip_prefix (reverse p) (reverse s); Some (reverse s).

(** The condition and the multiplier of a factor. *)
Definition match_factor (part : jsstr) : option (jsstr * jsstr) :=
  s ← strip_prefix (js "(") part;
  s ← strip_suffix (js " : 1)") s;
  let '(m, r) := span num_unit (reverse s) in
  if negb (truthy_str m) then None
  else
    cond ← strip_suffix (js " ? ") (reverse r);
    if truthy_str cond then Some (cond, reverse m) else None.

(** The loop over the parts of a conjunction. *)
Fixpoint parse_conditions (andParts : list jsstr) : res (option (list RequestCondition)) :=
  match andParts with
  | [] => Ok (Some [])
  | ap :: andParts' =>
      cond ← tryParseRequestCondition (trim ap);
      match cond with
      | None => Ok None
      | Some c =>
          rest ← parse_conditions andParts';
          Ok (cs ← rest; Some (c :: cs))
      end
  end.

Definition tryParseRuleGroupFactor (part : jsstr) : res (option RequestRuleGroup) :=
  match match_factor part with
  | None => Ok None
  | Some (conditionStr, m) =>
      cs ← parse_conditions (splitTopLevelAnd conditionStr);
      Ok (match cs with
          | None | Some [] => None
          | Some cs => Some {| conditions := cs; multiplier := m |}
          end)
  end.

(** The loop over the factors. *)
Fixpoint parse_factors (parts : list jsstr) : res (option (list RequestRuleGroup)) :=
  match parts with
  | [] => Ok (Some [])
  | part :: parts' =>
      group ← tryParseRuleGroupFactor part;
      match group with
      | None => Ok None
      | Some g =>
          rest ← parse_factors parts';
          Ok (gs ← rest; Some (g :: gs))
      end
  end.

Definition tryParseRequestRuleExpr (expr : jsstr) : res (option (list RequestRuleGroup)) :=
  let trimmed := trim expr in
  if negb (truthy_str trimmed) then Ok (Some [])
  else parse_factors (splitTopLevelMultiply trimmed).

(** ** Price and rules *)

Record SplitExpr := { billingExpr : jsstr; requestRuleExpr : jsstr }.

(** The loop over the parts: rules and other parts, in order. *)
Fixpoint sort_parts (parts : list jsstr) : res (list jsstr * list jsstr) :=
  match parts with
  | [] => Ok ([], [])
  | part :: parts' =>
      parsed ← tryParseRequestRuleExpr part;
      '(rules, bases) ← sort_parts parts';
      Ok (match parsed with
          | Some (_ :: _) => (part :: rules, bases)
          | _ => (rules, part :: bases)
          end)
  end.

Definition splitBillingExprAndRequestRules (expr : jsstr) : res SplitExpr :=
  let trimmed := trim expr in
  if negb (truthy_str trimmed) then Ok {| billingExpr := []; requestRuleExpr := [] |}
  else
    let whole := {| billingExpr := trimmed; requestRuleExpr := [] |} in
    let parts := splitTopLevelMultiply trimmed in
    if (length parts <=? 1)%nat then Ok whole
    else
      '(ruleParts, baseParts) ← sort_parts parts;
      Ok (match ruleParts, baseParts with
          | _ :: _, [base] =>
              {| billingExpr := unwrapOuterParens base;
                 requestRuleExpr := join op_times ruleParts |}
          | _, _ => whole
          end).

Definition combineBillingExpr (baseExpr requestRuleExpr : jsstr) : jsstr :=
  let base := trim baseExpr in
  let rules := trim requestRuleExpr in
  if negb (truthy_str base) then []
  else if negb (truthy_str rules) then base
  else js "(" ++ base ++ js ") * " ++ rules.
