(* ===== verification/RequestRulesSpec.v ===== *)
(** * Request rules: reading what was written

    Rules the editor writes read back as the canonical form of the groups,
    and are separated from the price they multiply - except for the
    comparisons of a body parameter, whose text holds a conjunction the reader
    cuts in two. *)

From Stdlib Require Import ZArith.
From S2P Require Import Prelude JsString JsNumber JsNumberFacts JsCollections JsValue Json JsonFacts ExprSplit TimeRange TimeRangeSpec RequestRules.
Ltac Zify.zify_post_hook ::= Z.div_mod_to_equations.

(** ** Quoted texts *)

(** The units that follow a backslash, and hexadecimal digits. *)
Definition escape_letter (c : N) : bool :=
  bool_decide (c ∈ [34; 92; 98; 102; 110; 114; 116; 117]%N).
Definition hex_unit (c : N) : bool := is_digit c || ((97 <=? c) && (c <=? 102))%N.

(** What one unit, or one surrogate pair, of a text is quoted to. *)
Inductive chunk (s : jsstr) : jsstr → Prop :=
  | chunk_unit c : c ∈ s → c ≠ 34%N → c ≠ 92%N → chunk s [c]
  | chunk_escape d r :
      escape_letter d = true → forallb hex_unit r = true → chunk s (92%N :: d :: r).

Lemma chunk_weaken s s' w : (∀ c, c ∈ s → c ∈ s') → chunk s w → chunk s' w.
Proof. intros H Hw. destruct Hw; constructor; auto. Qed.

Lemma hex_digit_unit d : (d < 16)%N → hex_unit (hex_digit d) = true.
Proof.
  intros Hd. unfold hex_unit, hex_digit, is_digit. destruct (N.ltb_spec d 10).
  - by rewrite (proj2 (N.leb_le 48 _)), (proj2 (N.leb_le _ 57)) by lia.
  - by rewrite (proj2 (N.leb_le 97 _)), (proj2 (N.leb_le _ 102)), orb_true_r by lia.
Qed.

Lemma quote_unit_chunk c s : c ∈ s → chunk s (quote_unit c).
Proof.
  intros Hc. unfold quote_unit.
  repeat match goal with
  | |- context [if (c =? ?k)%N then _ else _] =>
      destruct (N.eqb_spec c k) as [->|]; [by apply chunk_escape|]
  end.
  destruct (_ || _).
  - apply chunk_escape; [done|]. simpl. by rewrite !hex_digit_unit by lia.
  - by apply chunk_unit.
Qed.

Lemma quote_units_chunks s : ∃ cs, quote_units s = concat cs ∧ Forall (chunk s) cs.
Proof.
  induction s as [s IH] using (induction_ltof1 _ (@length N)). unfold ltof in IH.
  assert (∀ s0, length s0 < length s → (∀ c, c ∈ s0 → c ∈ s) →
            ∃ cs, quote_units s0 = concat cs ∧ Forall (chunk s) cs) as Hsub.
  { intros s0 Hl Hin. destruct (IH s0 Hl) as (cs & E & H). exists cs. split; [done|].
    eapply Forall_impl; [exact H|]. intros w. by apply chunk_weaken. }
  destruct s as [|c s]; [by exists []|]. destruct s as [|d s].
  { exists [quote_unit c]. split; [simpl; by rewrite app_nil_r|].
    repeat constructor. apply quote_unit_chunk. constructor. }
  cbn [quote_units]. destruct (is_high_surrogate c && is_low_surrogate d) eqn:E.
  - apply andb_true_iff in E as [Hc Hd].
    destruct (surrogate_plain c) as (C1 & C2 & _); [by left|].
    destruct (surrogate_plain d) as (D1 & D2 & _); [by right|].
    destruct (Hsub s) as (cs & -> & H); [simpl; lia | set_solver|].
    exists ([c] :: [d] :: cs). split; [done|].
    apply N.eqb_neq in C1, C2, D1, D2. repeat (constructor; try done); set_solver.
  - change (match s with [] => quote_unit d | d' :: s'' =>
      if is_high_surrogate d && is_low_surrogate d' then d :: d' :: quote_units s''
      else quote_unit d ++ quote_units s end) with (quote_units (d :: s)).
    destruct (Hsub (d :: s)) as (cs & -> & H); [simpl; lia | set_solver|].
    exists (quote_unit c :: cs). split; [done|]. constructor; [|done].
    apply quote_unit_chunk. constructor.
Qed.

(** The quoted text is read as a whole. *)
Lemma read_quoted_tail_plain w r :
  forallb (λ c, negb (c =? 34)%N && negb (c =? 92)%N) w = true →
  read_quoted_tail (w ++ r) = '(v, r) ← read_quoted_tail r; Some (w ++ v, r).
Proof.
  induction w as [|c w IH]; simpl; [by destruct (read_quoted_tail r) as [[]|]|].
  intros [[-> %negb_true_iff ->%negb_true_iff]%andb_true_iff Hw]%andb_true_iff. rewrite IH by done.
  by destruct (read_quoted_tail r) as [[]|].
Qed.

Lemma read_quoted_json s r : read_quoted (quote_json s ++ r) = Some (quote_json s, r).
Proof.
  unfold quote_json, read_quoted. cbn [app]. cbn [N.eqb Pos.eqb].
  destruct (quote_units_chunks s) as (cs & -> & Hcs). rewrite <-app_assoc.
  assert (read_quoted_tail (concat cs ++ [34%N] ++ r) = Some (concat cs ++ [34%N], r)) as ->; [|done].
  induction Hcs as [|w cs Hw Hcs IH]; [done|]. cbn [concat]. rewrite <-!app_assoc.
  destruct Hw as [c Hc H1 H2|d u Hd Hu].
  - rewrite read_quoted_tail_plain, IH; [done|]. simpl.
    by rewrite (proj2 (N.eqb_neq c 34)), (proj2 (N.eqb_neq c 92)).
  - cbn [app read_quoted_tail N.eqb Pos.eqb].
    assert (line_terminator d = false) as ->.
    { unfold escape_letter in Hd. apply bool_decide_eq_true in Hd.
      rewrite !elem_of_cons, elem_of_nil in Hd. unfold line_terminator. naive_solver. }
    change (34%N :: r) with ([34%N] ++ r). rewrite read_quoted_tail_plain, IH; [done|].
    rewrite forallb_forall_elem in Hu |- *. intros c Hc. specialize (Hu c Hc).
    unfold hex_unit, is_digit in Hu. rewrite orb_true_iff, !andb_true_iff, !N.leb_le in Hu.
    by rewrite !(proj2 (N.eqb_neq c _)) by lia.
Qed.

(** A property of units that quoting preserves. *)
Lemma quote_json_all (P : N → bool) s :
  forallb P ([34; 92; 98; 102; 110; 114; 116; 117]%N ++ map hex_digit (map N.of_nat (seq 0 16))) = true →
  forallb P s = true → forallb P (quote_json s) = true.
Proof.
  rewrite forallb_app. intros [Hl Hh]%andb_true_iff Hs. rewrite forallb_forall_elem in Hl, Hh, Hs.
  assert (∀ c, hex_unit c = true → P c = true) as Hhex.
  { intros c Hc. apply Hh. unfold hex_unit, is_digit in Hc.
    rewrite orb_true_iff, !andb_true_iff, !N.leb_le in Hc. simpl.
    rewrite !elem_of_cons. unfold hex_digit. simpl. lia. }
  destruct (quote_units_chunks s) as (cs & E & Hcs). unfold quote_json. rewrite E.
  simpl. rewrite (Hl 34%N) by set_solver. cbn [andb]. rewrite forallb_app. simpl.
  rewrite (Hl 34%N), andb_true_r by set_solver. clear E.
  induction Hcs as [|w cs Hw Hcs IH]; [done|]. cbn [concat]. rewrite forallb_app, IH, andb_true_r.
  destruct Hw as [c Hc H1 H2|d u Hd Hu]; simpl; [by rewrite (Hs c Hc)|].
  rewrite (Hl 92%N) by set_solver. unfold escape_letter in Hd. apply bool_decide_eq_true in Hd.
  rewrite (Hl d Hd). cbn [andb]. rewrite forallb_forall_elem in Hu |- *. auto.
Qed.

Lemma json_parse_quote s : Forall code_unit s → json_parse (quote_json s) = Ok (VStr s).
Proof.
  intros Hs. destruct (json_parse_stringify [] (List.Forall_nil _) (VStr s)) as (w & [= <-] & H); [by constructor | done].
Qed.

(** ** Numbers *)

Lemma span_digits_split s : s = fst (span_digits s) ++ snd (span_digits s) ∧ forallb is_digit (fst (span_digits s)) = true.
Proof.
  induction s as [|c s [IH1 IH2]]; [done|]. simpl. destruct (is_digit c) eqn:E; [|done].
  destruct (span_digits s) as [w r]. simpl in *. by rewrite E, IH2, <-IH1.
Qed.

Lemma digit_num_unit s : forallb is_digit s = true → forallb num_unit s = true.
Proof.
  rewrite !forallb_forall_elem. intros H c Hc. unfold num_unit. by rewrite (H c Hc).
Qed.

Lemma exponent_units s : exponent_at_end s = true → forallb num_unit s = true.
Proof.
  destruct s as [|c r]; [done|]. cbn [exponent_at_end forallb].
  destruct ((c =? 101)%N || (c =? 69)%N) eqn:E; [|done].
  assert (num_unit c = true) as ->.
  { unfold num_unit. apply orb_true_iff in E as [->%N.eqb_eq| ->%N.eqb_eq]; reflexivity. }
  cbn [andb]. destruct r as [|d r']; [done|].
  destruct ((d =? 43)%N || (d =? 45)%N) eqn:Ed; intros [_ H%digit_num_unit]%andb_true_iff; [|done].
  cbn [forallb]. rewrite H, andb_true_r. unfold num_unit.
  apply orb_true_iff in Ed as [->%N.eqb_eq| ->%N.eqb_eq]; reflexivity.
Qed.

(** A numeric literal consists of units of the class the reader uses. *)
Lemma numeric_literal_units s : numeric_literal s = true → forallb num_unit s = true ∧ s ≠ [].
Proof.
  destruct s as [|c s]; [done|]. intros H. split; [|done]. revert H. unfold numeric_literal.
  assert (∀ s, match span_digits s with
    | (_ :: _, r) =>
        match r with
        | c :: r' => if (c =? 46)%N then exponent_at_end (snd (span_digits r')) else exponent_at_end r
        | [] => true
        end
    | ([], c :: r) =>
        if (c =? 46)%N then
          match span_digits r with (_ :: _, r') => exponent_at_end r' | ([], _) => false end
        else false
    | ([], []) => false
    end = true → forallb num_unit s = true) as Hrest.
  { clear. intros s. destruct (span_digits_split s) as [E Hd%digit_num_unit].
    destruct (span_digits s) as [w r]. simpl in E, Hd. subst s.
    rewrite forallb_app, Hd. cbn [andb]. clear Hd.
    assert (∀ c r, (c =? 46)%N = true → exponent_at_end (snd (span_digits r)) = true →
              forallb num_unit (c :: r) = true) as Hfrac.
    { clear. intros c r ->%N.eqb_eq H%exponent_units. destruct (span_digits_split r) as [E Hd%digit_num_unit].
      rewrite E. cbn [forallb]. by rewrite forallb_app, Hd, H. }
    destruct w as [|d w].
    - destruct r as [|c r]; [done|]. destruct (c =? 46)%N eqn:Ec; [|done].
      intros H. apply Hfrac; [done|]. by destruct (span_digits r) as [[|] ?].
    - destruct r as [|c r]; [done|]. destruct (c =? 46)%N eqn:Ec; intros H; [by apply Hfrac|].
      by apply exponent_units. }
  destruct (c =? 45)%N eqn:Ec; intros H; [|by apply Hrest].
  apply N.eqb_eq in Ec as ->. cbn [forallb]. by rewrite Hrest.
Qed.

Lemma span_app p w r :
  forallb p w = true → (∀ c, head r = Some c → p c = false) → span p (w ++ r) = (w, r).
Proof.
  intros Hw Hr. induction w as [|c w IH]; simpl in *.
  - destruct r as [|c r]; [done|]. simpl. by rewrite Hr.
  - apply andb_true_iff in Hw as [-> Hw]. by rewrite IH.
Qed.

Lemma read_number_app v r :
  numeric_literal v = true → (∀ c, head r = Some c → num_unit c = false) →
  read_number (v ++ r) = Some (v, r).
Proof.
  intros [Hv Hne]%numeric_literal_units Hr. unfold read_number. rewrite span_app by done.
  by destruct v.
Qed.

Lemma read_number_end v : numeric_literal v = true → read_number v = Some (v, []).
Proof. intros Hv. rewrite <-(app_nil_r v) at 1. by apply read_number_app. Qed.

Lemma num_unit_not_ws c : num_unit c = true → is_ws c = false.
Proof.
  unfold num_unit. rewrite !orb_true_iff, !N.eqb_eq.
  intros [[[[[H| ->]| ->]| ->]| ->]| ->]; try reflexivity. by apply digit_not_ws.
Qed.

Lemma num_unit_plain o c : (o = 38 ∨ o = 124 ∨ o = 32)%N → num_unit c = true → plain o c = true.
Proof.
  intros Ho. unfold num_unit, is_digit, plain, no_paren.
  rewrite !orb_true_iff, andb_true_iff, !N.leb_le, !N.eqb_eq. intros Hc.
  by rewrite !(proj2 (N.eqb_neq c _)) by lia.
Qed.

(** ** The clauses the reader can take *)

(** Units of a zone or a path: quoted as they are, and never read as an
    operator or a parenthesis. *)
Definition name_unit (c : N) : bool := zone_unit c && negb (c =? 38)%N && negb (c =? 124)%N.

Definition name (a : jsstr) : Prop := a ≠ [] ∧ forallb name_unit a = true.

#[export] Instance name_dec a : Decision (name a).
Proof. unfold name. apply _. Defined.

(** Units outside operators, parentheses and line ends. *)
Definition text_unit (c : N) : bool :=
  plain 38 c && negb (c =? 124)%N && negb (line_terminator c).

(** Units of the value a field is compared with. *)
Definition value_unit (c : N) : bool := text_unit c && (c <? 65536)%N.

Definition call (f a : jsstr) : jsstr := f ++ 40%N :: quote_json a ++ [41%N].

Definition absent_text (source : RuleSource) : jsstr :=
  match source with Header => jq " != ``" | Param => js " != nil" end.

(** A condition in the form the editor writes, with its canonical record. *)
Inductive clause : jsstr → RequestCondition → Prop :=
  | clause_range f tz a b :
      f ∈ TIME_FUNCS → name tz → numeric_literal a = true → numeric_literal b = true →
      clause (call f tz ++ js " >= " ++ a ++ js " || " ++ call f tz ++ js " < " ++ b)
        (Time {| t_timeFunc := f; t_timezone := tz; t_mode := MATCH_RANGE; t_value := [];
                 t_rangeStart := a; t_rangeEnd := b |})
  | clause_time f tz mode v :
      f ∈ TIME_FUNCS → name tz → mode ∈ [MATCH_EQ; MATCH_GTE; MATCH_LT] → numeric_literal v = true →
      clause (call f tz ++ js " " ++ time_op mode ++ js " " ++ v)
        (Time {| t_timeFunc := f; t_timezone := tz; t_mode := mode; t_value := v;
                 t_rangeStart := []; t_rangeEnd := [] |})
  | clause_exists source path :
      name path →
      clause (call (source_name source) path ++ absent_text source)
        (rule_condition source path MATCH_EXISTS [])
  | clause_has path v :
      name path → forallb value_unit v = true →
      clause (js "has(" ++ call (js "header") path ++ js ", " ++ quote_json v ++ js ")")
        (rule_condition Header path MATCH_CONTAINS v)
  | clause_equation source path v :
      name path → trimmed v → forallb value_unit v = true →
      clause (call (source_name source) path ++ js " == " ++ buildExprLiteral MATCH_EQ v)
        (rule_condition source path MATCH_EQ v).

(** *** Reading a clause *)

Lemma name_zone a : name a → forallb zone_unit a = true.
Proof.
  intros [_ H]. rewrite forallb_forall_elem in H |- *. intros c Hc. specialize (H c Hc).
  unfold name_unit in H. rewrite !andb_true_iff in H. tauto.
Qed.

Lemma call_text f a r : name a → call f a ++ r = (f ++ jq "(`") ++ a ++ jq "`)" ++ r.
Proof.
  intros Ha. unfold call. rewrite quote_zone by (by apply name_zone).
  change (jq "(`") with [40; 34]%N. change (jq "`)") with [34; 41]%N.
  by repeat (rewrite <-app_assoc; cbn [app]).
Qed.

Lemma read_name a r : name a → read_unquoted (a ++ 34%N :: r) = Some (a, 34%N :: r).
Proof.
  intros Ha. unfold read_unquoted. rewrite span_zone by (by apply name_zone). destruct Ha. by destruct a.
Qed.

Lemma read_time_call_text f a r :
  f ∈ TIME_FUNCS → name a → read_time_call TIME_FUNCS (call f a ++ r) = Some (f, a, r).
Proof.
  intros Hf Ha. rewrite call_text by done.
  assert (∀ t : jsstr, ('(tz, s) ← read_unquoted (a ++ jq "`)" ++ r);
                        s ← strip_prefix (jq "`)") s; Some (t, tz, s)) = Some (t, a, r)) as Hread.
  { intros t. change (jq "`)" ++ r) with (34%N :: 41%N :: r). by rewrite read_name. }
  unfold TIME_FUNCS in Hf |- *. cbn [read_time_call].
  repeat (apply elem_of_cons in Hf as [->|Hf]; [
    repeat match goal with
    | |- context [strip_prefix (?f ++ ?q) ((?f ++ ?q) ++ ?t)] => rewrite (strip_prefix_app (f ++ q)); apply Hread
    | |- context [strip_prefix (?f ++ ?q) ?t] =>
        assert (strip_prefix (f ++ q) t = None) as -> by reflexivity
    end |]).
  by apply elem_of_nil in Hf.
Qed.

(** *** Literals *)

Lemma value_text v : forallb value_unit v = true → forallb text_unit v = true ∧ Forall code_unit v.
Proof.
  rewrite !forallb_forall_elem, Forall_forall. intros H.
  split; intros c Hc; specialize (H c Hc); unfold value_unit in H; apply andb_true_iff in H as [? H];
    [done | by apply N.ltb_lt].
Qed.

Lemma num_unit_text c : num_unit c = true → text_unit c = true.
Proof.
  unfold num_unit, is_digit, text_unit, plain, no_paren, line_terminator.
  rewrite !orb_true_iff, andb_true_iff, !N.leb_le, !N.eqb_eq. intros Hc.
  by rewrite !(proj2 (N.eqb_neq c _)) by lia.
Qed.

Lemma num_units_text v : numeric_literal v = true → forallb text_unit v = true.
Proof.
  intros [H _]%numeric_literal_units. rewrite forallb_forall_elem in H |- *.
  intros c Hc. by apply num_unit_text, H.
Qed.

Lemma numeric_trimmed v : numeric_literal v = true → trimmed v.
Proof.
  intros [H _]%numeric_literal_units. rewrite forallb_forall_elem in H.
  split; intros c Hc; apply num_unit_not_ws, H; [by destruct v; simplify_eq/=; left|].
  apply last_Some in Hc as [w ->]. apply elem_of_app. right. by left.
Qed.

Lemma quote_text v : forallb text_unit v = true → forallb text_unit (quote_json v) = true.
Proof. apply quote_json_all. by vm_compute. Qed.

Lemma quote_trimmed v : trimmed (quote_json v).
Proof.
  unfold quote_json. split; [by intros c [= <-]|]. intros c.
  rewrite app_comm_cons, last_snoc. by intros [= <-].
Qed.

Lemma quote_not_numeric v : numeric_literal (quote_json v) = false.
Proof. reflexivity. Qed.

Lemma literal_back v :
  trimmed v → forallb value_unit v = true →
  let l := buildExprLiteral MATCH_EQ v in
  parseExprLiteral l = VStr v ∧ forallb text_unit l = true ∧ trimmed l ∧ l ≠ [].
Proof.
  intros Ht [Hv Hc]%value_text. unfold buildExprLiteral, parseExprLiteral. rewrite (trim_id v) by done.
  rewrite (bool_decide_eq_false_2 (MATCH_EQ = MATCH_CONTAINS)) by done. cbv zeta.
  destruct (bool_decide (v = js "true") || bool_decide (v = js "false")) eqn:Eb.
  - rewrite trim_id, Eb by done. do 3 (split; [done|]). by intros ->.
  - destruct (numeric_literal v) eqn:En.
    + rewrite trim_id, Eb, En by done. do 3 (split; [done|]). by intros ->.
    + rewrite trim_id by apply quote_trimmed. rewrite quote_not_numeric.
      rewrite !bool_decide_eq_false_2 by done. cbn [orb]. rewrite json_parse_quote by done.
      split; [done|]. split; [by apply quote_text|]. by split; [apply quote_trimmed|].
Qed.

(** *** Each form is read back *)

Lemma read_between_call f path b r :
  name path →
  read_between (f ++ jq "(`") b (call f path ++ r) = (s ← strip_prefix b (jq "`)" ++ r); Some (path, s)).
Proof.
  intros Hp. unfold read_between. rewrite call_text, strip_prefix_app by done. cbn [mbind option_bind].
  change (jq "`)" ++ r) with (34%N :: 41%N :: r). by rewrite read_name.
Qed.

Lemma match_range_text f tz a b close :
  f ∈ TIME_FUNCS → name tz → numeric_literal a = true → numeric_literal b = true →
  (∀ c, head close = Some c → num_unit c = false) →
  match_time_range close (call f tz ++ js " >= " ++ a ++ js " || " ++ call f tz ++ js " < " ++ b ++ close)
  = Some (Time {| t_timeFunc := f; t_timezone := tz; t_mode := MATCH_RANGE; t_value := [];
                  t_rangeStart := a; t_rangeEnd := b |}).
Proof.
  intros Hf Htz Ha Hb Hclose. unfold match_time_range.
  rewrite read_time_call_text by done. cbn [mbind option_bind].
  rewrite (strip_prefix_app (js " >= ")). cbn [mbind option_bind].
  rewrite read_number_app; [|done | by intros c [= <-]]. cbn [mbind option_bind].
  assert (js " || " ++ call f tz ++ js " < " ++ b ++ close
          = (js " || " ++ f ++ jq "(`" ++ tz ++ jq "`) < ") ++ b ++ close) as ->.
  { rewrite call_text by done. change (jq "`) < ") with (jq "`)" ++ js " < ").
    generalize (js " || ") (jq "(`") (jq "`)") (js " < "). intros u v w x. by rewrite <-!app_assoc. }
  rewrite strip_prefix_app. cbn [mbind option_bind].
  rewrite read_number_app by done. cbn [mbind option_bind]. by rewrite bool_decide_eq_true_2.
Qed.

Lemma time_comparison_text f tz mode v :
  f ∈ TIME_FUNCS → name tz → mode ∈ [MATCH_EQ; MATCH_GTE; MATCH_LT] → numeric_literal v = true →
  tryParseTimeCondition (call f tz ++ js " " ++ time_op mode ++ js " " ++ v)
  = Some (Time {| t_timeFunc := f; t_timezone := tz; t_mode := mode; t_value := v;
                  t_rangeStart := []; t_rangeEnd := [] |}).
Proof.
  intros Hf Htz Hm Hv. unfold tryParseTimeCondition.
  assert (read_time_op (js " " ++ time_op mode ++ js " " ++ v) = Some (mode, v)) as Hop.
  { rewrite !elem_of_cons, elem_of_nil in Hm. by destruct Hm as [->|[->|[->|[]]]]. }
  assert (match_time_range [] (call f tz ++ js " " ++ time_op mode ++ js " " ++ v) = None) as ->.
  { unfold match_time_range. rewrite read_time_call_text by done. cbn [mbind option_bind].
    rewrite !elem_of_cons, elem_of_nil in Hm. destruct Hm as [->|[->|[->|[]]]]; try reflexivity.
    change (js " " ++ time_op MATCH_GTE ++ js " " ++ v) with (js " >= " ++ v).
    rewrite (strip_prefix_app (js " >= ")). cbn [mbind option_bind].
    rewrite read_number_end by done. reflexivity. }
  assert (strip_prefix (js "(") (call f tz ++ js " " ++ time_op mode ++ js " " ++ v) = None) as ->.
  { unfold TIME_FUNCS in Hf. rewrite !elem_of_cons, elem_of_nil in Hf.
    destruct Hf as [->|[->|[->|[->|[->|[]]]]]]; reflexivity. }
  cbn [mbind option_bind]. unfold match_time_comparison. rewrite read_time_call_text by done.
  cbn [mbind option_bind]. rewrite Hop. cbn [mbind option_bind]. rewrite read_number_end by done.
  cbn [mbind option_bind]. by rewrite bool_decide_eq_true_2.
Qed.

Lemma source_not_time source path r : tryParseTimeCondition (call (source_name source) path ++ r) = None.
Proof. by destruct source. Qed.

Lemma read_exists source path :
  name path →
  tryParseRequestCondition (call (source_name source) path ++ absent_text source)
  = Ok (Some (rule_condition source path MATCH_EXISTS [])).
Proof.
  intros Hp. unfold tryParseRequestCondition. rewrite source_not_time. destruct source; unfold match_exists.
  - change (read_between (jq "header(`") _ _) with (@None (jsstr * jsstr)). cbn [mbind option_bind].
    change (jq "param(`") with (source_name Param ++ jq "(`"). by rewrite read_between_call.
  - change (jq "header(`") with (source_name Header ++ jq "(`"). by rewrite read_between_call.
Qed.

Lemma read_has path v :
  name path → forallb value_unit v = true →
  tryParseRequestCondition (js "has(" ++ call (js "header") path ++ js ", " ++ quote_json v ++ js ")")
  = Ok (Some (rule_condition Header path MATCH_CONTAINS v)).
Proof.
  intros Hp [_ Hc]%value_text. unfold tryParseRequestCondition.
  change (js "has(" ++ call (js "header") path ++ js ", " ++ quote_json v ++ js ")")
    with (call (js "has(header") path ++ js ", " ++ quote_json v ++ js ")").
  change (tryParseTimeCondition _) with (@None RequestCondition).
  change (match_exists (jq "header(`") _ _) with (@None jsstr).
  change (match_exists (jq "param(`") _ _) with (@None jsstr). cbv iota.
  unfold match_has_header. change (jq "has(header(`") with (js "has(header" ++ jq "(`").
  rewrite read_between_call by done.
  change (strip_prefix (jq "`), ") (jq "`)" ++ js ", " ++ quote_json v ++ js ")"))
    with (Some (quote_json v ++ js ")")).
  cbn [mbind option_bind]. rewrite read_quoted_json. cbn [mbind option_bind].
  rewrite bool_decide_eq_true_2 by done. unfold json_parse_quoted. by rewrite json_parse_quote.
Qed.

Lemma read_equation source path v :
  name path → trimmed v → forallb value_unit v = true →
  tryParseRequestCondition (call (source_name source) path ++ js " == " ++ buildExprLiteral MATCH_EQ v)
  = Ok (Some (rule_condition source path MATCH_EQ v)).
Proof.
  intros Hp Ht Hv. destruct (literal_back v Ht Hv) as (Hl & Hu & _ & Hne). revert Hl Hu Hne.
  generalize (buildExprLiteral MATCH_EQ v). intros l Hl Hu Hne.
  unfold tryParseRequestCondition. rewrite source_not_time.
  assert (match_equation (call (source_name source) path ++ js " == " ++ l) = Some (source, path, l)) as Heq.
  { unfold match_equation.
    assert (forallb (λ c, negb (line_terminator c)) l = true) as Hlt.
    { rewrite forallb_forall_elem in Hu |- *. intros c Hc. specialize (Hu c Hc).
      unfold text_unit in Hu. rewrite !andb_true_iff in Hu. tauto. }
    apply truthy_str_true in Hne. destruct source.
    - change (jq "param(`") with (source_name Param ++ jq "(`"). rewrite read_between_call by done.
      change (strip_prefix (jq "`) == ") (jq "`)" ++ js " == " ++ l)) with (Some l).
      cbn [mbind option_bind]. by rewrite Hne, Hlt.
    - change (read_between (jq "param(`") _ _) with (@None (jsstr * jsstr)).
      change (jq "header(`") with (source_name Header ++ jq "(`"). rewrite read_between_call by done.
      change (strip_prefix (jq "`) == ") (jq "`)" ++ js " == " ++ l)) with (Some l).
      cbn [mbind option_bind]. by rewrite Hne, Hlt. }
  assert (∀ a b, a = jq "header(`" ∨ a = jq "param(`" →
            strip_prefix b (jq "`)" ++ js " == " ++ l) = None →
            read_between a b (call (source_name source) path ++ js " == " ++ l) = None) as Hno.
  { intros a b Ha Hb. destruct source, Ha as [->| ->]; try reflexivity.
    - change (jq "param(`") with (source_name Param ++ jq "(`"). by rewrite read_between_call, Hb.
    - change (jq "header(`") with (source_name Header ++ jq "(`"). by rewrite read_between_call, Hb. }
  unfold match_exists, match_has_param, match_param_comparison. rewrite !Hno by auto.
  cbn [mbind option_bind].
  assert (match_has_header (call (source_name source) path ++ js " == " ++ l) = None) as ->
    by (by destruct source).
  cbv iota. by rewrite Heq, Hl.
Qed.

(** Parentheses, which the editor writes around a range in a conjunction, do
    not matter. *)
Lemma read_range f tz a b :
  f ∈ TIME_FUNCS → name tz → numeric_literal a = true → numeric_literal b = true →
  let e := call f tz ++ js " >= " ++ a ++ js " || " ++ call f tz ++ js " < " ++ b in
  let c := Time {| t_timeFunc := f; t_timezone := tz; t_mode := MATCH_RANGE; t_value := [];
                   t_rangeStart := a; t_rangeEnd := b |} in
  tryParseRequestCondition e = Ok (Some c) ∧ tryParseRequestCondition (js "(" ++ e ++ js ")") = Ok (Some c).
Proof.
  intros Hf Htz Ha Hb e c. unfold tryParseRequestCondition, tryParseTimeCondition. split.
  - pose proof (match_range_text f tz a b [] Hf Htz Ha Hb ltac:(done)) as H.
    rewrite app_nil_r in H. unfold e. by rewrite H.
  - change (match_time_range [] (js "(" ++ e ++ js ")")) with (@None RequestCondition).
    rewrite (strip_prefix_app (js "(")). cbn [mbind option_bind]. subst e.
    pose proof (match_range_text f tz a b (js ")") Hf Htz Ha Hb ltac:(by intros ? [= <-])) as H.
    revert H. generalize (js " >= ") (js " || ") (js " < ") (js ")"). intros w x y z H.
    rewrite <-!app_assoc. by rewrite H.
Qed.

(** *** The shape of a clause *)

(** Passed over by the cut at [&&], inside and outside parentheses. *)
Definition solid (w : jsstr) : Prop := opaque op_and w ∧ balanced w.

Lemma solid_app w w' : solid w → solid w' → solid (w ++ w').
Proof. intros [? ?] [? ?]. split; [by apply opaque_app | by apply balanced_app]. Qed.

Lemma solid_text w : forallb text_unit w = true → solid w.
Proof.
  intros H. rewrite forallb_forall_elem in H.
  split; [apply opaque_plain | apply balanced_plain]; rewrite forallb_forall_elem; intros c Hc;
    specialize (H c Hc); unfold text_unit, plain in *; rewrite !andb_true_iff in *; tauto.
Qed.

Lemma solid_group w : balanced w → solid (40%N :: w ++ [41%N]).
Proof. split; [by apply opaque_group | by apply balanced_group]. Qed.

Lemma name_quote_text a : name a → forallb no_paren (quote_json a) = true.
Proof.
  intros Ha. apply quote_json_all; [by vm_compute|]. destruct Ha as [_ Ha].
  rewrite forallb_forall_elem in Ha |- *. intros c Hc. specialize (Ha c Hc).
  unfold name_unit, zone_unit in Ha. rewrite !andb_true_iff in Ha. tauto.
Qed.

Lemma solid_call f a : forallb text_unit f = true → name a → solid (call f a).
Proof.
  intros Hf Ha. unfold call. apply solid_app; [by apply solid_text|].
  by apply solid_group, balanced_plain, name_quote_text.
Qed.

Lemma solid_or : solid (js " || ").
Proof. split; [by apply opaque_plain | by apply balanced_plain]. Qed.

(** A text put together from calls and plain texts. *)
Ltac solve_solid :=
  first [ exact solid_or | by apply solid_call | by apply solid_text | by apply solid_text, num_units_text
        | apply solid_app; solve_solid ].

(** Free of bars. *)
Definition no_bar (w : jsstr) : bool := forallb (λ c, negb (c =? 124)%N) w.

Lemma no_bar_app w w' : no_bar (w ++ w') = no_bar w && no_bar w'.
Proof. apply forallb_app. Qed.

Lemma no_bar_text w : forallb text_unit w = true → no_bar w = true.
Proof.
  unfold no_bar. rewrite !forallb_forall_elem. intros H c Hc. specialize (H c Hc).
  unfold text_unit in H. rewrite !andb_true_iff in H. tauto.
Qed.

Lemma no_bar_call f a : forallb text_unit f = true → name a → no_bar (call f a) = true.
Proof.
  intros Hf [_ Ha]. unfold call. rewrite no_bar_app, no_bar_text by done.
  change (no_bar (quote_json a ++ [41%N]) = true). rewrite no_bar_app, andb_true_r.
  apply quote_json_all; [by vm_compute|]. rewrite forallb_forall_elem in Ha |- *. intros c Hc.
  specialize (Ha c Hc). unfold name_unit in Ha. rewrite !andb_true_iff in Ha. tauto.
Qed.

Lemma parenthesize_no_bar w : no_bar w = true → parenthesize w = w.
Proof.
  unfold parenthesize, no_bar. rewrite forallb_forall_elem. intros H.
  destruct (includes w (js " || ")) eqn:E; [|done]. apply includes_spec in E as (a & b & ->).
  specialize (H 124%N ltac:(rewrite !elem_of_app; right; left; simpl; set_solver)). done.
Qed.

Lemma trimmed_ends x m y : trimmed x → trimmed y → x ≠ [] → y ≠ [] → trimmed (x ++ m ++ y).
Proof.
  intros [Hx _] [_ Hy] Hxne Hyne. split; intros c.
  - destruct x as [|d x]; [done|]. apply Hx.
  - destruct y as [|d y _] using rev_ind; [done|]. rewrite !app_assoc, last_snoc.
    intros [= <-]. apply Hy. by rewrite last_snoc.
Qed.

Lemma call_trimmed f a m y :
  trimmed f → f ≠ [] → trimmed y → y ≠ [] → trimmed (call f a ++ m ++ y).
Proof.
  intros. unfold call.
  replace ((f ++ 40%N :: quote_json a ++ [41%N]) ++ m ++ y)
    with (f ++ (40%N :: quote_json a ++ [41%N] ++ m) ++ y) by (by repeat (rewrite <-app_assoc; cbn [app])).
  by apply trimmed_ends.
Qed.

Lemma time_func_text f : f ∈ TIME_FUNCS → forallb text_unit f = true ∧ trimmed f ∧ f ≠ [].
Proof.
  unfold TIME_FUNCS. rewrite !elem_of_cons, elem_of_nil.
  intros [->|[->|[->|[->|[->|[]]]]]];
    (split; [reflexivity|]; split; [apply (bool_decide_eq_true_1 _); by vm_compute | done]).
Qed.

Lemma source_text source : forallb text_unit (source_name source) = true ∧ trimmed (source_name source) ∧ source_name source ≠ [].
Proof.
  destruct source;
    (split; [reflexivity|]; split; [apply (bool_decide_eq_true_1 _); by vm_compute | done]).
Qed.

(** The text of a test for contents. *)
Definition has_text (source : RuleSource) (path v : jsstr) : jsstr :=
  js "has(" ++ call (source_name source) path ++ js ", " ++ quote_json v ++ js ")".

Lemma has_solid source path v :
  name path → forallb text_unit v = true → solid (has_text source path v).
Proof.
  intros Hp Hv. unfold has_text.
  change (js "has(" ++ call (source_name source) path ++ js ", " ++ quote_json v ++ js ")")
    with (js "has" ++ 40%N :: (call (source_name source) path ++ js ", " ++ quote_json v ++ [41%N])).
  rewrite (app_assoc (js ", ")), app_assoc. apply solid_app; [by apply solid_text|].
  apply solid_group. apply balanced_app; [apply solid_call; [apply source_text | done]|].
  apply solid_text. rewrite forallb_app. apply andb_true_iff. split; [done | by apply quote_text].
Qed.

Lemma has_trimmed source path v : trimmed (has_text source path v).
Proof.
  unfold has_text. rewrite (app_assoc (call _ _)), (app_assoc (_ ++ _)).
  apply trimmed_ends; [apply (bool_decide_eq_true_1 _); by vm_compute.. | done | done].
Qed.

(** What the loops need to know of a clause. *)
Record clause_shape (e : jsstr) (c : RequestCondition) : Prop := {
  shape_reads : tryParseRequestCondition e = Ok (Some c);
  shape_reads_paren : tryParseRequestCondition (parenthesize e) = Ok (Some c);
  shape_solid : solid e;
  shape_trimmed : trimmed e;
  shape_nonempty : e ≠ []
}.

Lemma plain_shape e c :
  tryParseRequestCondition e = Ok (Some c) → no_bar e = true → solid e → trimmed e → e ≠ [] →
  clause_shape e c.
Proof. intros. split; try done. by rewrite parenthesize_no_bar. Qed.

Lemma clause_has_shape e c : clause e c → clause_shape e c.
Proof.
  intros H. destruct H as [f tz a b Hf Htz Ha Hb|f tz mode v Hf Htz Hm Hv|source path Hp|path v Hp Hv|source path v Hp Ht Hv].
  - destruct (time_func_text f Hf) as (Fu & Ft & Fn), (numeric_literal_units b Hb) as [_ Hbne].
    destruct (read_range f tz a b Hf Htz Ha Hb) as [R1 R2]. split; try done.
    + unfold parenthesize. rewrite (proj2 (includes_spec _ (js " || "))); [exact R2|].
      exists (call f tz ++ js " >= " ++ a), (call f tz ++ js " < " ++ b).
      generalize (js " >= ") (js " || ") (js " < ") (call f tz). intros. by rewrite <-!app_assoc.
    + solve_solid.
    + replace (call f tz ++ js " >= " ++ a ++ js " || " ++ call f tz ++ js " < " ++ b)
        with (call f tz ++ (js " >= " ++ a ++ js " || " ++ call f tz ++ js " < ") ++ b).
      * apply call_trimmed; [done..| by apply numeric_trimmed | done].
      * generalize (js " >= ") (js " || ") (js " < ") (call f tz). intros. by rewrite <-!app_assoc.
    + destruct f; [done|]. by unfold call.
  - destruct (time_func_text f Hf) as (Fu & Ft & Fn), (numeric_literal_units v Hv) as [_ Hvne].
    assert (forallb text_unit (time_op mode) = true) as Hop.
    { rewrite !elem_of_cons, elem_of_nil in Hm. by destruct Hm as [->|[->|[->|[]]]]. }
    apply plain_shape.
    + unfold tryParseRequestCondition. by rewrite time_comparison_text.
    + rewrite !no_bar_app, no_bar_call, !no_bar_text by (try done; by apply num_units_text). done.
    + solve_solid.
    + replace (call f tz ++ js " " ++ time_op mode ++ js " " ++ v)
        with (call f tz ++ (js " " ++ time_op mode ++ js " ") ++ v) by (by rewrite <-!app_assoc).
      apply call_trimmed; [done..| by apply numeric_trimmed | done].
    + destruct f; [done|]. by unfold call.
  - destruct (source_text source) as (Fu & Ft & Fn). apply plain_shape.
    + by apply read_exists.
    + rewrite no_bar_app, no_bar_call by done. by destruct source.
    + apply solid_app; [by apply solid_call|]. apply solid_text. by destruct source.
    + destruct source;
        [change (absent_text Param) with (js " != " ++ js "nil")
        |change (absent_text Header) with (js " != " ++ jq "``")];
        (apply call_trimmed; [done..| apply (bool_decide_eq_true_1 _); by vm_compute | done]).
    + by destruct source.
  - destruct (value_text v Hv) as [Hu _]. apply plain_shape.
    + by apply read_has.
    + rewrite !no_bar_app, no_bar_call, (no_bar_text (quote_json v)) by (done || by apply quote_text).
      done.
    + by apply (has_solid Header).
    + by apply (has_trimmed Header).
    + done.
  - destruct (source_text source) as (Fu & Ft & Fn), (literal_back v Ht Hv) as (_ & Lu & Lt & Ln).
    apply plain_shape.
    + by apply read_equation.
    + rewrite !no_bar_app, no_bar_call, !no_bar_text by done. done.
    + solve_solid.
    + by apply call_trimmed.
    + by destruct source.
Qed.

(** ** What the editor writes *)

(** What a condition reads back as: normalised, with its texts trimmed and
    the fields its mode does not use blank. *)
Definition canonical (c : RequestCondition) : RequestCondition :=
  match normalizeCondition (Some (to_partial c)) with
  | Time n =>
      if bool_decide (t_mode n = MATCH_RANGE)
      then Time {| t_timeFunc := t_timeFunc n; t_timezone := t_timezone n; t_mode := MATCH_RANGE;
                   t_value := []; t_rangeStart := trim (t_rangeStart n);
                   t_rangeEnd := trim (t_rangeEnd n) |}
      else Time {| t_timeFunc := t_timeFunc n; t_timezone := t_timezone n; t_mode := t_mode n;
                   t_value := trim (t_value n); t_rangeStart := []; t_rangeEnd := [] |}
  | ParamHeader n =>
      rule_condition (ph_source n) (trim (ph_path n)) (ph_mode n)
        (if bool_decide (ph_mode n = MATCH_EXISTS) then [] else trim (ph_value n))
  end.

(** Conditions the reader can take back.  Of a body parameter these are only
    equations and presence. *)
Definition readable (c : RequestCondition) : Prop :=
  match normalizeCondition (Some (to_partial c)) with
  | Time n => name (t_timezone n)
  | ParamHeader n =>
      name (trim (ph_path n)) ∧ forallb value_unit (trim (ph_value n)) = true ∧
      (ph_source n = Header ∨ ph_mode n ∈ [MATCH_EQ; MATCH_EXISTS])
  end.

#[export] Instance readable_dec c : Decision (readable c).
Proof. unfold readable. destruct (normalizeCondition _); apply _. Defined.

Lemma listed_mode_in source m fallback :
  fallback ∈ map fst (getRequestRuleMatchOptions source) →
  listed_mode source m fallback ∈ map fst (getRequestRuleMatchOptions source).
Proof.
  intros Hf. unfold listed_mode. destruct m as [m|]; [|done].
  destruct (existsb _ _) eqn:E; [|done]. apply existsb_exists in E as (item & Hi & He).
  apply bool_decide_eq_true in He as <-. apply list_elem_of_In in Hi. by apply list_elem_of_fmap_2.
Qed.

Lemma normal_time t :
  ∃ n, normalizeCondition (Some (to_partial (Time t))) = Time n ∧ t_timeFunc n ∈ TIME_FUNCS
       ∧ t_mode n ∈ [MATCH_EQ; MATCH_GTE; MATCH_LT; MATCH_RANGE].
Proof.
  eexists. split; [reflexivity|]. split; cbn [t_timeFunc t_mode].
  - unfold isTimeFunc. simpl p_timeFunc. cbv iota. case_bool_decide; [done | left].
  - apply (listed_mode_in (js "time")). apply (bool_decide_eq_true_1 _). by vm_compute.
Qed.

Lemma normal_param_header c :
  ∃ n, normalizeCondition (Some (to_partial (ParamHeader c))) = ParamHeader n ∧
       ph_source n = ph_source c ∧ ph_path n = ph_path c ∧ ph_value n = ph_value c ∧
       ph_mode n ∈ map fst (getRequestRuleMatchOptions (source_name (ph_source c))).
Proof.
  destruct c as [source path mode value]. unfold normalizeCondition. simpl default. simpl p_source.
  rewrite bool_decide_eq_false_2 by (by destruct source).
  eexists. split; [reflexivity|]. cbn [ph_source ph_path ph_value ph_mode].
  assert ((if bool_decide (Some (source_name source) = Some (js "header")) then Header else Param) = source) as ->
    by (by destruct source).
  do 3 (split; [done|]). apply listed_mode_in.
  destruct source; apply (bool_decide_eq_true_1 _); by vm_compute.
Qed.

Lemma build_time_clause t :
  buildTimeConditionExpr t ≠ [] → readable (Time t) → clause (buildTimeConditionExpr t) (canonical (Time t)).
Proof.
  unfold buildTimeConditionExpr, readable, canonical. destruct (normal_time t) as (n & -> & Hf & Hm).
  intros Hne Htz. case_bool_decide as Hr.
  - destruct (numeric_literal (trim (t_rangeStart n))) eqn:Ea; [|done].
    destruct (numeric_literal (trim (t_rangeEnd n))) eqn:Eb; [|done].
    cbn [negb orb]. exact (clause_range _ _ _ _ Hf Htz Ea Eb).
  - destruct (numeric_literal (trim (t_value n))) eqn:Ev; [|done].
    cbn [negb]. refine (clause_time _ _ _ _ Hf Htz _ Ev). set_solver.
Qed.

Lemma build_param_header_clause c :
  buildRequestConditionExpr (ParamHeader c) ≠ [] → readable (ParamHeader c) →
  clause (buildRequestConditionExpr (ParamHeader c)) (canonical (ParamHeader c)).
Proof.
  unfold buildRequestConditionExpr, readable, canonical.
  destruct (normal_param_header c) as (n & -> & Hs & _ & _ & Hm).
  intros Hne (Hp & Hv & Hsm). unfold build_param_header in Hne |- *.
  assert (truthy_str (trim (ph_path n)) = true) as Ht by (apply truthy_str_true; apply Hp).
  rewrite Ht in Hne |- *. cbn [negb] in Hne |- *.
  assert (ph_mode n = MATCH_EXISTS ∨ (ph_mode n = MATCH_CONTAINS ∧ ph_source n = Header) ∨ ph_mode n = MATCH_EQ) as Hcase.
  { destruct Hsm as [Hh|Hsm]; [|set_solver]. rewrite <-Hs, Hh in Hm. simpl in Hm. set_solver. }
  destruct Hcase as [Hx|[[Hx Hsrc]|Hx]]; rewrite Hx.
  - rewrite !bool_decide_eq_true_2 by done.
    pose proof (clause_exists (ph_source n) (trim (ph_path n)) Hp) as H. by destruct (ph_source n).
  - rewrite Hsrc. rewrite (bool_decide_eq_false_2 (MATCH_CONTAINS = MATCH_EXISTS)) by done.
    exact (clause_has (trim (ph_path n)) (trim (ph_value n)) Hp Hv).
  - pose proof (clause_equation (ph_source n) (trim (ph_path n)) (trim (ph_value n)) Hp
                  (trim_trimmed _) Hv) as H.
    unfold buildExprLiteral in H |- *. rewrite trim_idemp in H. exact H.
Qed.

Lemma build_clause c :
  buildRequestConditionExpr c ≠ [] → readable c → clause (buildRequestConditionExpr c) (canonical c).
Proof. destruct c; [apply build_time_clause | apply build_param_header_clause]. Qed.

(** ** A factor *)

Lemma strip_prefix_Some p s w : strip_prefix p s = Some w ↔ s = p ++ w.
Proof.
  split; [|intros ->; apply strip_prefix_app].
  revert s; induction p as [|c p IH]; intros s; simpl; [by intros [= ->]|].
  destruct s as [|d s]; [done|]. destruct (N.eqb_spec c d) as [->|]; [|done].
  by intros ->%IH.
Qed.

Lemma strip_suffix_Some p s w : strip_suffix p s = Some w ↔ s = w ++ p.
Proof.
  unfold strip_suffix. split.
  - destruct (strip_prefix (reverse p) (reverse s)) as [r|] eqn:E; [|done]. intros [= <-].
    apply strip_prefix_Some in E. apply (f_equal reverse) in E.
    by rewrite reverse_app, !reverse_involutive in E.
  - intros ->. rewrite reverse_app, strip_prefix_app. cbn [mbind option_bind]. by rewrite reverse_involutive.
Qed.

Lemma match_factor_text cond m :
  cond ≠ [] → numeric_literal m = true →
  match_factor (js "(" ++ cond ++ js " ? " ++ m ++ js " : 1)") = Some (cond, m).
Proof.
  intros Hc [Hm Hne]%numeric_literal_units. unfold match_factor.
  rewrite (strip_prefix_app (js "(")). cbn [mbind option_bind].
  rewrite (proj2 (strip_suffix_Some (js " : 1)") _ (cond ++ js " ? " ++ m)))
    by (generalize (js " ? ") (js " : 1)"); intros; by rewrite <-!app_assoc).
  cbn [mbind option_bind].
  assert (span num_unit (reverse (cond ++ js " ? " ++ m)) = (reverse m, reverse (cond ++ js " ? "))) as ->.
  { rewrite app_assoc, reverse_app. apply span_app.
    - rewrite forallb_forall_elem in Hm |- *. intros c. rewrite elem_of_reverse. apply Hm.
    - intros c. rewrite reverse_app. by intros [= <-]. }
  assert (truthy_str (reverse m) = true) as ->.
  { apply truthy_str_true. intros E. apply Hne. apply (f_equal reverse) in E.
    by rewrite reverse_involutive in E. }
  cbn [negb]. rewrite !reverse_involutive, (proj2 (strip_suffix_Some (js " ? ") _ cond)) by done.
  cbn [mbind option_bind]. by rewrite (proj2 (truthy_str_true cond)).
Qed.

Lemma parse_conditions_text es cs :
  Forall2 (λ e c, trimmed e ∧ tryParseRequestCondition e = Ok (Some c)) es cs →
  parse_conditions es = Ok (Some cs).
Proof.
  induction 1 as [|e c es cs [Ht He] _ IH]; [done|]. cbn [parse_conditions].
  rewrite trim_id, He by done. cbn [mbind res_bind]. by rewrite IH.
Qed.

(** The conjunction of some conditions. *)
Definition conjunction (es : list jsstr) : jsstr :=
  match es with [e] => e | _ => join (js " && ") (map parenthesize es) end.

Lemma parenthesize_shape e c :
  clause_shape e c →
  part_ok 38 [38%N] (parenthesize e) ∧ balanced (parenthesize e).
Proof.
  intros [_ _ [Ho Hb] Ht Hne]. unfold parenthesize. destruct (includes e (js " || ")); [|done].
  change (js "(" ++ e ++ js ")") with (40%N :: e ++ [41%N]). destruct (solid_group e Hb).
  split; [|done]. split; [done|]. split; [apply group_trimmed | done].
Qed.

Lemma parse_conjunction es cs :
  Forall2 clause_shape es cs → es ≠ [] →
  parse_conditions (splitTopLevelAnd (conjunction es)) = Ok (Some cs)
  ∧ balanced (conjunction es) ∧ conjunction es ≠ [].
Proof.
  intros H Hne. unfold conjunction.
  assert (∀ e c, clause_shape e c → splitTopLevelAnd e = [e]) as Hone.
  { intros e c [_ _ [Ho _] Ht He]. change (splitTopLevelAnd (join (js " && ") [e]) = [e]).
    apply split_and; [|done]. constructor; [done | constructor]. }
  destruct es as [|e [|e' es]]; [done| |].
  - inversion H as [|? c ? ? Hc Hrest]; subst. inversion Hrest; subst.
    rewrite (Hone e c) by done. destruct Hc as [Hr _ [_ Hb] Ht He]. split; [|done].
    apply parse_conditions_text. constructor; [done | constructor].
  - remember (e :: e' :: es) as l. rewrite split_and; [|..].
    + split; [|split].
      * apply parse_conditions_text. apply Forall2_fmap_l. eapply Forall2_impl; [exact H|].
        intros x y Hx. destruct (parenthesize_shape x y Hx) as [(_ & Ht & _) _]. split; [done|].
        by destruct Hx.
      * clear Hne Heql. induction H as [|x y l ys Hx H IH]; [by apply balanced_plain|].
        destruct (parenthesize_shape x y Hx) as [_ Hb]. destruct l as [|x' l]; [done|].
        change (join ?sep (map parenthesize (x :: x' :: l)))
          with (parenthesize x ++ sep ++ join sep (map parenthesize (x' :: l))).
        apply balanced_app; [done|]. apply balanced_app; [by apply balanced_plain | done].
      * subst l. inversion H as [|? ? ? ? Hx]; subst.
        destruct (parenthesize_shape _ _ Hx) as [(_ & _ & Hp) _]. cbn [map join].
        by destruct (parenthesize e).
    + clear Hne Heql. induction H as [|x y l ys Hx _ IH]; [constructor|].
      constructor; [by apply (parenthesize_shape x y) | done].
    + by subst l.
Qed.

(** ** Groups *)

Definition written (c : RequestCondition) : bool := truthy_str (buildRequestConditionExpr c).

(** A group with the conditions that are written, in canonical form. *)
Definition canonical_group (g : RequestRuleGroup) : RequestRuleGroup :=
  {| conditions := map canonical (List.filter written (conditions g));
     multiplier := trim (multiplier g) |}.

Definition written_group (g : RequestRuleGroup) : bool := truthy_str (buildRuleGroupFactor g).

Definition readable_group (g : RequestRuleGroup) : Prop :=
  Forall (λ c, written c = true → readable c) (conditions g).

#[export] Instance readable_group_dec g : Decision (readable_group g).
Proof. unfold readable_group. apply _. Defined.

Lemma conditions_shape cs :
  Forall (λ c, written c = true → readable c) cs →
  Forall2 clause_shape (List.filter truthy_str (map buildRequestConditionExpr cs))
    (map canonical (List.filter written cs)).
Proof.
  induction 1 as [|c cs Hc _ IH]; [constructor|]. simpl. unfold written at 1 in Hc.
  change (written c) with (truthy_str (buildRequestConditionExpr c)).
  destruct (truthy_str (buildRequestConditionExpr c)) eqn:E; [|done].
  simpl. constructor; [|done]. apply clause_has_shape, build_clause; [by apply truthy_str_true | by apply Hc].
Qed.

Lemma factor_part_ok cond m :
  balanced cond → numeric_literal m = true →
  part_ok 32 [42; 32]%N (js "(" ++ cond ++ js " ? " ++ m ++ js " : 1)").
Proof.
  intros Hb [Hm _]%numeric_literal_units.
  assert (js "(" ++ cond ++ js " ? " ++ m ++ js " : 1)"
          = 40%N :: (cond ++ js " ? " ++ m ++ js " : 1") ++ [41%N]) as ->.
  { change (js " : 1)") with (js " : 1" ++ [41%N]). generalize (js " ? ") (js " : 1").
    intros. simpl. by rewrite <-!app_assoc. }
  split; [|split; [apply group_trimmed | done]]. apply opaque_group; [done|].
  apply balanced_app; [done|]. repeat apply balanced_app; try (by apply balanced_plain).
  apply balanced_plain. rewrite forallb_forall_elem in Hm |- *. intros c Hc. specialize (Hm c Hc).
  pose proof (num_unit_plain 38 c ltac:(by left) Hm) as Hpl. unfold plain in Hpl.
  by apply andb_true_iff in Hpl as [? _].
Qed.

(** A factor as the loops see it. *)
Record factor_shape (e : jsstr) (g : RequestRuleGroup) : Prop := {
  factor_reads : tryParseRuleGroupFactor e = Ok (Some g);
  factor_part : part_ok 32 [42; 32]%N e
}.

Lemma factor_has_shape g :
  written_group g = true → readable_group g → factor_shape (buildRuleGroupFactor g) (canonical_group g).
Proof.
  unfold written_group, buildRuleGroupFactor. intros Hw%truthy_str_true Hr.
  destruct (numeric_literal (trim (multiplier g))) eqn:Em; [|done]. cbn [negb] in Hw |- *.
  pose proof (conditions_shape _ Hr) as Hcs.
  destruct (List.filter truthy_str _) as [|e es] eqn:Ees; [done|]. clear Hw.
  change (match es with [] => e | _ :: _ => join (js " && ") (map parenthesize (e :: es)) end)
    with (conjunction (e :: es)).
  destruct (parse_conjunction _ _ Hcs) as (Hp & Hb & Hne); [done|].
  revert Hp Hb Hne. generalize (conjunction (e :: es)). intros cond Hp Hb Hne. split.
  - unfold tryParseRuleGroupFactor. rewrite match_factor_text, Hp by done.
    cbn [mbind res_bind]. unfold canonical_group.
    destruct (map canonical _) eqn:E; [|done]. by inversion Hcs.
  - by apply factor_part_ok.
Qed.

Lemma factors_shape gs :
  Forall readable_group gs →
  Forall2 factor_shape (List.filter truthy_str (map buildRuleGroupFactor gs))
    (map canonical_group (List.filter written_group gs)).
Proof.
  induction 1 as [|g gs Hg _ IH]; [constructor|]. simpl.
  change (written_group g) with (truthy_str (buildRuleGroupFactor g)).
  destruct (truthy_str (buildRuleGroupFactor g)) eqn:E; [|done].
  simpl. constructor; [|done]. by apply factor_has_shape.
Qed.

Lemma parse_factors_text es gs : Forall2 factor_shape es gs → parse_factors es = Ok (Some gs).
Proof.
  induction 1 as [|e g es gs [He _] _ IH]; [done|]. cbn [parse_factors]. rewrite He.
  cbn [mbind res_bind]. by rewrite IH.
Qed.

Lemma parts_of_shape es gs : Forall2 factor_shape es gs → Forall (part_ok 32 [42; 32]%N) es.
Proof. induction 1 as [|e g es gs [_ He] _ IH]; by constructor. Qed.

Lemma split_times parts :
  Forall (part_ok 32 [42; 32]%N) parts → parts ≠ [] → splitTopLevelMultiply (join op_times parts) = parts.
Proof. exact (splitTopLevel_joined 32 [42; 32]%N [] eq_refl eq_refl eq_refl parts). Qed.

Lemma join_trimmed parts :
  Forall (part_ok 32 [42; 32]%N) parts → parts ≠ [] → trimmed (join op_times parts) ∧ join op_times parts ≠ [].
Proof.
  induction 1 as [|p ps (_ & Ht & Hne) _ IH]; [done|]. intros _. destruct ps as [|p' ps]; [done|].
  destruct IH as [Ht' Hne']; [done|].
  change (join op_times (p :: p' :: ps)) with (p ++ op_times ++ join op_times (p' :: ps)).
  split; [by apply trimmed_ends|]. by destruct p.
Qed.

(** Any joined factors are read. *)
Lemma parse_joined es gs :
  Forall2 factor_shape es gs → tryParseRequestRuleExpr (join op_times es) = Ok (Some gs).
Proof.
  intros H. unfold tryParseRequestRuleExpr. destruct (decide (es = [])) as [->|Hne].
  { by inversion H. }
  destruct (join_trimmed es) as [Ht Hj]; [by eapply parts_of_shape | done |].
  rewrite trim_id, (proj2 (truthy_str_true _) Hj) by done. cbn [negb].
  rewrite split_times by (done || by eapply parts_of_shape). by apply parse_factors_text.
Qed.

(** Reading the rules back gives the groups in canonical form: for groups
    whose written conditions the reader can take (equations, presence,
    header contents and time conditions over names and values without
    operator characters), the text of all groups parses to the groups that
    were written, each with its written conditions normalised. *)
Theorem rules_round_trip (groups : list RequestRuleGroup) (Hr : Forall readable_group groups) :
  tryParseRequestRuleExpr (buildRequestRuleExpr groups)
  = Ok (Some (map canonical_group (List.filter written_group groups))).
Proof. apply parse_joined, factors_shape, Hr. Qed.

(** ** Price and rules *)

(** A price the split leaves alone: its parentheses match, they do not enclose
    the whole of it, and it does not end like a rule. *)
Definition price_ok (base : jsstr) : Prop :=
  base ≠ [] ∧ trimmed base ∧ closes 0 base = true ∧ hasFullOuterParens base = false
  ∧ strip_suffix (js " : 1") base = None.

#[export] Instance price_ok_dec base : Decision (price_ok base).
Proof. unfold price_ok. apply _. Defined.

Lemma price_part base :
  price_ok base →
  part_ok 32 [42; 32]%N (40%N :: base ++ [41%N]) ∧ unwrapOuterParens (40%N :: base ++ [41%N]) = base
  ∧ tryParseRequestRuleExpr (40%N :: base ++ [41%N]) = Ok None.
Proof.
  intros (Hne & Ht & Hc%closes_balanced & Hf & Hs).
  assert (part_ok 32 [42; 32]%N (40%N :: base ++ [41%N])) as Hp.
  { split; [by apply opaque_group|]. split; [apply group_trimmed | done]. }
  split; [done|]. split; [by apply unwrap_group|].
  unfold tryParseRequestRuleExpr. rewrite trim_group. cbn [truthy_str].
  change (40%N :: base ++ [41%N]) with (join op_times [40%N :: base ++ [41%N]]) at 2.
  rewrite split_times; [|by constructor | done]. rewrite (proj2 (truthy_str_true _)) by done.
  cbn [negb parse_factors].
  assert (match_factor (40%N :: base ++ [41%N]) = None) as Hm; [|unfold tryParseRuleGroupFactor; by rewrite Hm].
  unfold match_factor. change (40%N :: base ++ [41%N]) with (js "(" ++ base ++ [41%N]).
  rewrite (strip_prefix_app (js "(")). cbn [mbind option_bind].
  destruct (strip_suffix (js " : 1)") (base ++ [41%N])) as [r|] eqn:E; [|done].
  apply strip_suffix_Some in E. change (js " : 1)") with (js " : 1" ++ [41%N]) in E.
  rewrite app_assoc in E. apply app_inj_tail in E as [E _].
  rewrite (proj2 (strip_suffix_Some (js " : 1") base r)) in Hs by done. done.
Qed.

Lemma factor_is_rule e g :
  factor_shape e g → tryParseRequestRuleExpr e = Ok (Some [g]).
Proof. intros H. apply (parse_joined [e]). constructor; [done | constructor]. Qed.

Lemma sort_factors es gs : Forall2 factor_shape es gs → sort_parts es = Ok (es, []).
Proof.
  induction 1 as [|e g es gs He _ IH]; [done|]. cbn [sort_parts]. rewrite (factor_is_rule e g He).
  cbn [mbind res_bind]. by rewrite IH.
Qed.

(** The split of a price and any factors, given how the loop sorts them. *)
Lemma split_combined base es rs bs :
  price_ok base → Forall (part_ok 32 [42; 32]%N) es → es ≠ [] → sort_parts es = Ok (rs, bs) →
  let e := combineBillingExpr base (join op_times es) in
  splitBillingExprAndRequestRules e
  = Ok (match rs, bs with
        | _ :: _, [] => {| billingExpr := base; requestRuleExpr := join op_times rs |}
        | _, _ => {| billingExpr := e; requestRuleExpr := [] |}
        end).
Proof.
  intros Hb Hps Hne Hsort e. subst e. destruct (join_trimmed es Hps Hne) as [Ht Hj].
  destruct (price_part base Hb) as (Hp & Hu & Hn).
  assert (combineBillingExpr base (join op_times es)
          = join op_times ((40%N :: base ++ [41%N]) :: es)) as ->.
  { unfold combineBillingExpr. rewrite (trim_id base), (trim_id (join op_times es)) by (done || apply Hb).
    rewrite (proj2 (truthy_str_true base)), (proj2 (truthy_str_true (join op_times es))) by (done || apply Hb).
    cbn [negb]. destruct es as [|e es]; [done|].
    change (join op_times (?p :: e :: es)) with (p ++ op_times ++ join op_times (e :: es)).
    change (js ") * ") with ([41%N] ++ op_times). simpl. by rewrite <-!app_assoc. }
  destruct (join_trimmed ((40%N :: base ++ [41%N]) :: es)) as [Ht' Hne']; [by constructor | done|].
  unfold splitBillingExprAndRequestRules. rewrite trim_id, (proj2 (truthy_str_true _) Hne') by done.
  cbn [negb]. rewrite split_times by (done || by constructor).
  destruct (Nat.leb_spec (length ((40%N :: base ++ [41%N]) :: es)) 1) as [Hl|_].
  { destruct es; [done|]. simpl in Hl. lia. }
  cbn [sort_parts]. rewrite Hn. cbn [mbind res_bind]. rewrite Hsort. cbn [mbind res_bind].
  destruct rs, bs; try done. by rewrite Hu.
Qed.

(** Combining a price with rules and separating them again gives both
    back.  For a price whose parentheses match, that is not parenthesised as
    a whole and does not itself end like a rule, and for readable groups of which at
    least one is written, the split of the combined expression returns the
    price and the rule text exactly. *)
Theorem price_rules_separate (base : jsstr) (groups : list RequestRuleGroup)
    (Hb : price_ok base) (Hr : Forall readable_group groups) (Hw : buildRequestRuleExpr groups ≠ []) :
  splitBillingExprAndRequestRules (combineBillingExpr base (buildRequestRuleExpr groups))
  = Ok {| billingExpr := base; requestRuleExpr := buildRequestRuleExpr groups |}.
Proof.
  pose proof (factors_shape groups Hr) as Hs. unfold buildRequestRuleExpr in Hw |- *.
  change (js " * ") with op_times in *.
  revert Hw Hs. generalize (List.filter truthy_str (map buildRuleGroupFactor groups)). intros es Hw Hs.
  assert (es ≠ []) as Hne by (by intros ->).
  rewrite (split_combined base es es []); [|done | by eapply parts_of_shape | done | by eapply sort_factors].
  by destruct es.
Qed.

(** ** Comparisons of a body parameter *)

(** The text of such a condition is a conjunction, of which the reader takes
    the second half for a condition of its own. *)
Definition param_conjunction (path rest : jsstr) : jsstr :=
  call (js "param") path ++ js " != nil" ++ js " && " ++ rest.

Lemma rest_comparison path op v :
  name path → op ∈ [js ">"; js ">="; js "<"; js "<="] →
  tryParseRequestCondition (call (js "param") path ++ js " " ++ op ++ js " " ++ v) = Ok None.
Proof.
  intros Hp Hop. unfold tryParseRequestCondition. rewrite (source_not_time Param).
  assert (∀ b, strip_prefix b (jq "`)" ++ js " " ++ op ++ js " " ++ v) = None →
            read_between (jq "param(`") b (call (js "param") path ++ js " " ++ op ++ js " " ++ v) = None) as Hno.
  { intros b Hb. change (jq "param(`") with (js "param" ++ jq "(`"). by rewrite read_between_call, Hb. }
  unfold match_exists, match_has_param, match_param_comparison, match_equation.
  rewrite !elem_of_cons, elem_of_nil in Hop.
  destruct Hop as [->|[->|[->|[->|[]]]]]; by rewrite !Hno by reflexivity.
Qed.

Lemma rest_has path t :
  tryParseRequestCondition (js "has(" ++ call (js "param") path ++ t) = Ok None.
Proof. reflexivity. Qed.

Lemma param_present_parts path rest :
  name path → solid rest → trimmed rest → rest ≠ [] →
  splitTopLevelAnd (param_conjunction path rest) = [call (js "param") path ++ js " != nil"; rest].
Proof.
  intros Hp [Ho _] Ht Hne.
  destruct (clause_has_shape _ _ (clause_exists Param path Hp)) as [_ _ [Hpo _] Hpt Hpn].
  change (param_conjunction path rest)
    with (call (js "param") path ++ (js " != nil" ++ js " && " ++ rest)).
  rewrite app_assoc.
  change ((call (js "param") path ++ js " != nil") ++ js " && " ++ rest)
    with (join (js " && ") [call (js "param") path ++ js " != nil"; rest]).
  apply split_and; [|done]. constructor; [done|]. constructor; [done | constructor].
Qed.

(** The modes whose text is a conjunction. *)
Definition conjunction_modes : list jsstr := [MATCH_CONTAINS; MATCH_GT; MATCH_GTE; MATCH_LT; MATCH_LTE].

Lemma param_conjunction_text c :
  ph_source c = Param → ph_mode c ∈ conjunction_modes → name (trim (ph_path c)) →
  forallb value_unit (trim (ph_value c)) = true → buildRequestConditionExpr (ParamHeader c) ≠ [] →
  ∃ rest, buildRequestConditionExpr (ParamHeader c) = param_conjunction (trim (ph_path c)) rest
    ∧ solid rest ∧ trimmed rest ∧ rest ≠ [] ∧ tryParseRequestCondition rest = Ok None.
Proof.
  intros Hs Hm Hp Hv. destruct (value_text _ Hv) as [Hu _].
  assert (buildRequestConditionExpr (ParamHeader c) = build_param_header c) as ->.
  { destruct c as [source path mode value]. cbn [ph_source ph_mode] in Hs, Hm. subst source.
    unfold buildRequestConditionExpr, normalizeCondition. simpl default. simpl p_source.
    rewrite !bool_decide_eq_false_2 by done. do 2 f_equal. unfold conjunction_modes in Hm.
    rewrite !elem_of_cons, elem_of_nil in Hm. by destruct Hm as [->|[->|[->|[->|[->|[]]]]]]. }
  unfold build_param_header. rewrite Hs, (proj2 (truthy_str_true (trim (ph_path c)))) by apply Hp.
  cbn [negb].
  set (p := trim (ph_path c)) in *. set (v := trim (ph_value c)) in *.
  change (source_name Param ++ js "(" ++ quote_json p ++ js ")") with (call (js "param") p).
  assert (ph_mode c = MATCH_CONTAINS ∨ ∃ op, compare_op (ph_mode c) = Some op
            ∧ op ∈ [js ">"; js ">="; js "<"; js "<="] ∧ ph_mode c ≠ MATCH_EXISTS ∧ ph_mode c ≠ MATCH_CONTAINS) as Hcase.
  { unfold conjunction_modes in Hm. rewrite !elem_of_cons, elem_of_nil in Hm.
    destruct Hm as [->|[->|[->|[->|[->|[]]]]]]; [by left|right; eexists; split; [reflexivity|];
      split; [apply (bool_decide_eq_true_1 _); by vm_compute | done] ..]. }
  destruct Hcase as [Hx|(op & Hop & Hin & He & Hc)].
  - rewrite Hx. intros _. exists (js "has(" ++ call (js "param") p ++ js ", " ++ quote_json v ++ js ")").
    split; [symmetry; apply (app_assoc (call (js "param") p))|].
    split; [|split; [|split; [done | apply rest_has]]].
    + by apply (has_solid Param).
    + by apply (has_trimmed Param).
  - rewrite !bool_decide_eq_false_2, Hop by done. subst v.
    destruct (numeric_literal (trim (ph_value c))) eqn:En; [|done]. cbn [negb]. intros _.
    exists (call (js "param") p ++ js " " ++ op ++ js " " ++ trim (ph_value c)).
    split; [symmetry; apply (app_assoc (call (js "param") p))|].
    assert (forallb text_unit op = true) as Hopu.
    { rewrite !elem_of_cons, elem_of_nil in Hin. by destruct Hin as [->|[->|[->|[->|[]]]]]. }
    split; [solve_solid|]. split; [|split; [done | by apply rest_comparison]].
    replace (call (js "param") p ++ js " " ++ op ++ js " " ++ trim (ph_value c))
      with (call (js "param") p ++ (js " " ++ op ++ js " ") ++ trim (ph_value c)) by (by rewrite <-!app_assoc).
    apply numeric_literal_units in En as [_ Hne].
    apply call_trimmed; [apply (bool_decide_eq_true_1 _); by vm_compute | done | apply trim_trimmed | done].
Qed.

Lemma unreadable_factor path rest m :
  name path → solid rest → trimmed rest → rest ≠ [] → tryParseRequestCondition rest = Ok None →
  numeric_literal m = true →
  let e := js "(" ++ param_conjunction path rest ++ js " ? " ++ m ++ js " : 1)" in
  part_ok 32 [42; 32]%N e ∧ tryParseRuleGroupFactor e = Ok None.
Proof.
  intros Hp Hsolid Ht Hne Hrest Hm e. split.
  - apply factor_part_ok; [|done]. unfold param_conjunction.
    apply balanced_app; [by apply (solid_call (js "param"))|].
    apply balanced_app; [by apply balanced_plain|].
    apply balanced_app; [by apply balanced_plain | apply Hsolid].
  - unfold tryParseRuleGroupFactor, e. rewrite match_factor_text by done.
    rewrite param_present_parts by done. cbn [parse_conditions].
    destruct (clause_has_shape _ _ (clause_exists Param path Hp)) as [Hr _ _ Htr _].
    change (call (source_name Param) path ++ absent_text Param)
      with (call (js "param") path ++ js " != nil") in Hr, Htr.
    rewrite (trim_id _ Htr), Hr. cbn [mbind res_bind]. by rewrite (trim_id _ Ht), Hrest.
Qed.

(** C37: The editor cannot read back a comparison of a body parameter.  For a
    contents test or a numeric comparison of a parameter that the editor writes,
    where the trimmed path is not empty and has no control character, double
    quote, backslash, parenthesis, surrogate, ampersand or vertical bar ([name]),
    and the trimmed value has no parenthesis, ampersand, vertical bar or line end
    ([value_unit]), the text of the rule does not parse, and splitting the
    expression combined with a price leaves the rule inside the price.  The price
    is not empty and trimmed, its parentheses match but do not enclose the whole
    of it, and it does not end like a rule ([price_ok]). *)
Theorem comparison_unreadable (c : ParamHeaderCondition) (m base : jsstr)
    (Hs : ph_source c = Param) (Hm : ph_mode c ∈ conjunction_modes)
    (Hp : name (trim (ph_path c))) (Hv : forallb value_unit (trim (ph_value c)) = true)
    (Hb : price_ok base) :
  let rules := buildRequestRuleExpr [{| conditions := [ParamHeader c]; multiplier := m |}] in
  rules ≠ [] →
  tryParseRequestRuleExpr rules = Ok None ∧
  splitBillingExprAndRequestRules (combineBillingExpr base rules)
  = Ok {| billingExpr := combineBillingExpr base rules; requestRuleExpr := [] |}.
Proof.
  intros rules Hw. set (g := {| conditions := [ParamHeader c]; multiplier := m |}) in *.
  assert (rules = buildRuleGroupFactor g) as E.
  { subst rules. unfold buildRequestRuleExpr in *. cbn [map List.filter] in *.
    by destruct (truthy_str (buildRuleGroupFactor g)). }
  clearbody rules. subst rules. revert Hw. unfold buildRuleGroupFactor. cbn [multiplier conditions g].
  destruct (numeric_literal (trim m)) eqn:Em; [|done]. cbn [negb map List.filter].
  destruct (truthy_str (buildRequestConditionExpr (ParamHeader c))) eqn:Ew; [|done].
  apply truthy_str_true in Ew. intros _.
  destruct (param_conjunction_text c Hs Hm Hp Hv Ew) as (rest & -> & Hsolid & Ht & Hne & Hrest).
  destruct (unreadable_factor (trim (ph_path c)) rest (trim m)) as [Hpart Hf]; [done..|].
  revert Hpart Hf. generalize (js "(" ++ param_conjunction (trim (ph_path c)) rest ++ js " ? " ++ trim m ++ js " : 1)").
  intros e Hpart Hf.
  assert (tryParseRequestRuleExpr e = Ok None) as Hno.
  { unfold tryParseRequestRuleExpr. destruct Hpart as (Ho & Hte & Hene).
    rewrite trim_id, (proj2 (truthy_str_true e)) by done. cbn [negb].
    change e with (join op_times [e]). rewrite split_times; [|by constructor | done].
    cbn [parse_factors]. by rewrite Hf. }
  split; [done|]. apply (split_combined base [e] [] [e] Hb); [by constructor | done|].
  cbn [sort_parts]. by rewrite Hno.
Qed.

(** ** Instances *)

Definition header_at_night : RequestRuleGroup :=
  {| conditions :=
       [ParamHeader {| ph_source := Header; ph_path := js "x-plan "; ph_mode := MATCH_CONTAINS;
                       ph_value := jq "pro `5`" |};
        Time {| t_timeFunc := js "hour"; t_timezone := js "Asia/Shanghai"; t_mode := MATCH_RANGE;
                t_value := js "7"; t_rangeStart := js "21"; t_rangeEnd := js " 6" |};
        ParamHeader createEmptyCondition];
     multiplier := js "0.5" |}.

Definition fast_mode : RequestRuleGroup :=
  {| conditions :=
       [ParamHeader {| ph_source := Param; ph_path := js "speed"; ph_mode := MATCH_EQ;
                       ph_value := js "fast" |}];
     multiplier := js "1.5e1" |}.

Definition sample_price : jsstr := jq "tier(`base`, p * 2 + c * 8)".

Lemma rules_round_trip_witness :
  Forall readable_group [header_at_night; createEmptyRuleGroup; fast_mode] ∧
  tryParseRequestRuleExpr (buildRequestRuleExpr [header_at_night; createEmptyRuleGroup; fast_mode])
  = Ok (Some (map canonical_group
                (List.filter written_group [header_at_night; createEmptyRuleGroup; fast_mode]))).
Proof.
  assert (Forall readable_group [header_at_night; createEmptyRuleGroup; fast_mode]) as H
    by (apply (bool_decide_eq_true_1 _); vm_compute; reflexivity).
  split; [exact H | exact (rules_round_trip _ H)].
Defined.

Lemma price_rules_separate_witness :
  splitBillingExprAndRequestRules
    (combineBillingExpr sample_price (buildRequestRuleExpr [header_at_night; fast_mode]))
  = Ok {| billingExpr := sample_price;
          requestRuleExpr := buildRequestRuleExpr [header_at_night; fast_mode] |}.
Proof.
  apply (price_rules_separate sample_price [header_at_night; fast_mode]);
    [apply (bool_decide_eq_true_1 _); vm_compute; reflexivity.. | vm_compute; discriminate].
Defined.

Definition long_answers : ParamHeaderCondition :=
  {| ph_source := Param; ph_path := js "max_tokens"; ph_mode := MATCH_GT; ph_value := js "4096" |}.

Lemma comparison_unreadable_witness :
  let rules := buildRequestRuleExpr [{| conditions := [ParamHeader long_answers]; multiplier := js "2" |}] in
  tryParseRequestRuleExpr rules = Ok None ∧
  splitBillingExprAndRequestRules (combineBillingExpr sample_price rules)
  = Ok {| billingExpr := combineBillingExpr sample_price rules; requestRuleExpr := [] |}.
Proof.
  apply (comparison_unreadable long_answers (js "2") sample_price);
    [reflexivity | apply (bool_decide_eq_true_1 _); vm_compute; reflexivity.. | vm_compute; discriminate].
Defined.
