(* ===== verification/GroupPricing.v ===== *)
(** * Group ratios and their editor rows (system-settings/models/group-ratio-pricing-state.ts)

    The administrator edits user groups as rows; the settings keep four maps
    keyed by the group's name.  Rows are built from the maps, edited, written
    back to maps, and matched with the rows already on screen when the
    settings are loaded again.

    Objects used as maps are lists of properties in the order [Object.keys]
    lists them; group names are assumed not to be members of
    [Object.prototype].  [createId] is a parameter, a function on the state
    it draws its ids from. *)

From Stdlib Require Import ZArith.
From S2P Require Import Prelude JsString JsNumber JsNumberFacts JsCollections JsValue.

Record GroupPricingDraft := {
  id_ : jsstr;
  name : jsstr;
  ratio : jsstr;
  topupRatio : jsstr;
  selectable : bool;
  description : jsstr
}.

Record GroupPricingMaps := {
  groupRatio : list (jsstr * num);
  userUsableGroups : list (jsstr * jsstr);
  groupDescriptions : list (jsstr * jsstr);
  topupGroupRatio : list (jsstr * num)
}.

(** [parsed] is [Number(value)]. *)
Definition normalizeRatio (parsed : num) : num :=
  if num_is_finite parsed then parsed else num_of_Z 1.

(** [Object.hasOwn(m, k)]. *)
Definition hasOwn {V} (m : list (jsstr * V)) (k : jsstr) : bool :=
  match mget k m with Some _ => true | None => false end.

(** The names of the groups, in the order the maps mention them. *)
Definition group_names (maps : GroupPricingMaps) : list jsstr :=
  uniq (mkeys (groupRatio maps) ++ mkeys (userUsableGroups maps)
        ++ mkeys (groupDescriptions maps) ++ mkeys (topupGroupRatio maps)).

Section build.
Context {S : Type} (createId : S → jsstr * S).

Definition build_row (maps : GroupPricingMaps) (newId : jsstr) (n : jsstr) : GroupPricingDraft :=
  let selectable := hasOwn (userUsableGroups maps) n in
  {| id_ := newId;
     name := n;
     ratio := num_to_string (normalizeRatio (default num_nan (mget n (groupRatio maps))));
     topupRatio := match mget n (topupGroupRatio maps) with Some t => num_to_string t | None => [] end;
     selectable := selectable;
     description := default [] (if selectable then mget n (userUsableGroups maps)
                                else mget n (groupDescriptions maps)) |}.

Fixpoint build_rows (maps : GroupPricingMaps) (s : S) (names : list jsstr) : list GroupPricingDraft * S :=
  match names with
  | [] => ([], s)
  | n :: names' =>
      let '(newId, s) := createId s in
      let '(rows, s) := build_rows maps s names' in
      (build_row maps newId n :: rows, s)
  end.

Definition buildGroupPricingDrafts (s : S) (maps : GroupPricingMaps) : list GroupPricingDraft * S :=
  build_rows maps s (group_names maps).
End build.

Definition empty_maps : GroupPricingMaps :=
  {| groupRatio := []; userUsableGroups := []; groupDescriptions := []; topupGroupRatio := [] |}.

(** One turn of the loop of [serializeGroupPricingDrafts]. *)
Definition write_row (maps : GroupPricingMaps) (row : GroupPricingDraft) : GroupPricingMaps :=
  let n := trim (name row) in
  if negb (truthy_str n) then maps
  else
    let topup := trim (topupRatio row) in
    {| groupRatio := obj_set n (normalizeRatio (num_of_string (ratio row))) (groupRatio maps);
       groupDescriptions := obj_set n (description row) (groupDescriptions maps);
       userUsableGroups := if selectable row then obj_set n (description row) (userUsableGroups maps)
                           else userUsableGroups maps;
       topupGroupRatio := if truthy_str topup && num_is_finite (num_of_string topup)
                          then obj_set n (num_of_string topup) (topupGroupRatio maps)
                          else topupGroupRatio maps |}.

Definition serializeGroupPricingDrafts (rows : list GroupPricingDraft) : GroupPricingMaps :=
  fold_left write_row rows empty_maps.

Definition set_id (row : GroupPricingDraft) (i : jsstr) : GroupPricingDraft :=
  {| id_ := i; name := name row; ratio := ratio row; topupRatio := topupRatio row;
     selectable := selectable row; description := description row |}.

(** [new Map(rows.map((row) => [row.name, row]))]. *)
Definition rows_by_name (rows : list GroupPricingDraft) : list (jsstr * GroupPricingDraft) :=
  fold_left (λ m row, mset (name row) row m) rows [].

Definition reconcileGroupPricingDrafts (incomingRows currentRows : list GroupPricingDraft)
    : list GroupPricingDraft :=
  let currentRowsByName := rows_by_name currentRows in
  map (λ incomingRow, match mget (name incomingRow) currentRowsByName with
                      | Some currentRow => set_id incomingRow (id_ currentRow)
                      | None => incomingRow
                      end) incomingRows.

(** ** Loops that write properties *)

(** The last write of a property wins. *)
Lemma mget_writes {V A} (f : A → option (jsstr * V)) (l : list A) acc j :
  mget j (fold_left (λ m a, match f a with Some (k, v) => obj_set k v m | None => m end) l acc)
  = match last (omap (λ a, '(k, v) ← f a; if decide (k = j) then Some v else None) l) with
    | Some v => Some v
    | None => mget j acc
    end.
Proof.
  revert acc; induction l as [|a l IH]; intros acc; [done|]. cbn [fold_left omap list_omap].
  rewrite IH. destruct (f a) as [[k v]|]; cbn [mbind option_bind]; [|done].
  rewrite mget_obj_set. case_decide; [|done].
  rewrite last_cons. by destruct (last _).
Qed.

(** What a row writes to each map, under which name. *)
Definition row_name (row : GroupPricingDraft) : option jsstr :=
  let n := trim (name row) in if truthy_str n then Some n else None.

Definition row_ratio (row : GroupPricingDraft) : option (jsstr * num) :=
  n ← row_name row; Some (n, normalizeRatio (num_of_string (ratio row))).
Definition row_description (row : GroupPricingDraft) : option (jsstr * jsstr) :=
  n ← row_name row; Some (n, description row).
Definition row_usable (row : GroupPricingDraft) : option (jsstr * jsstr) :=
  n ← row_name row; if selectable row then Some (n, description row) else None.
Definition row_topup (row : GroupPricingDraft) : option (jsstr * num) :=
  n ← row_name row;
  let t := trim (topupRatio row) in
  if truthy_str t && num_is_finite (num_of_string t) then Some (n, num_of_string t) else None.

(** The value the last row of that name writes. *)
Definition last_write {V} (f : GroupPricingDraft → option (jsstr * V)) rows (j : jsstr) : option V :=
  last (omap (λ row, '(k, v) ← f row; if decide (k = j) then Some v else None) rows).

Lemma fold_write_row rows maps :
  let step {V} (f : GroupPricingDraft → option (jsstr * V)) :=
    fold_left (λ m a, match f a with Some (k, v) => obj_set k v m | None => m end) rows in
  fold_left write_row rows maps
  = {| groupRatio := step row_ratio (groupRatio maps);
       userUsableGroups := step row_usable (userUsableGroups maps);
       groupDescriptions := step row_description (groupDescriptions maps);
       topupGroupRatio := step row_topup (topupGroupRatio maps) |}.
Proof.
  revert maps; induction rows as [|row rows IH]; intros maps step; [by destruct maps|].
  cbn [fold_left]. rewrite IH. subst step. cbn [fold_left].
  unfold write_row, row_ratio, row_usable, row_description, row_topup, row_name.
  destruct (truthy_str (trim (name row))); cbn [negb mbind option_bind]; [|done].
  cbn [groupRatio userUsableGroups groupDescriptions topupGroupRatio].
  by destruct (selectable row), (truthy_str (trim (topupRatio row)) && _).
Qed.

Lemma serialize_lookup rows j :
  let saved := serializeGroupPricingDrafts rows in
  mget j (groupRatio saved) = last_write row_ratio rows j ∧
  mget j (userUsableGroups saved) = last_write row_usable rows j ∧
  mget j (groupDescriptions saved) = last_write row_description rows j ∧
  mget j (topupGroupRatio saved) = last_write row_topup rows j.
Proof.
  unfold serializeGroupPricingDrafts. rewrite fold_write_row.
  cbn [groupRatio userUsableGroups groupDescriptions topupGroupRatio empty_maps].
  repeat split; rewrite mget_writes; unfold last_write; by destruct (last _).
Qed.

(** ** Rows built from maps *)

Lemma build_rows_zip {S} (createId : S → jsstr * S) maps names s :
  ∃ ids, length ids = length names ∧ fst (build_rows createId maps s names) = zip_with (build_row maps) ids names.
Proof.
  revert s; induction names as [|n names IH]; intros s; [by exists []|]. simpl.
  destruct (createId s) as [i s']. destruct (IH s') as (ids & Hl & E).
  destruct (build_rows createId maps s' names) as [rows s'']. simpl in E. subst rows.
  exists (i :: ids). simpl. by rewrite Hl.
Qed.

Lemma last_write_cons {V} (f : GroupPricingDraft → option (jsstr * V)) row rows j :
  last_write f (row :: rows) j
  = match last_write f rows j with
    | Some v => Some v
    | None => '(k, v) ← f row; if decide (k = j) then Some v else None
    end.
Proof.
  unfold last_write. cbn [omap list_omap].
  destruct (f row) as [[k v]|]; cbn [mbind option_bind]; [|by destruct (last _)].
  case_decide; [by rewrite last_cons | by destruct (last _)].
Qed.

Lemma last_write_built {V} (f : GroupPricingDraft → option (jsstr * V)) (g : jsstr → option V) maps ids names j :
  (∀ i n, n ∈ names → f (build_row maps i n) = (v ← g n; Some (n, v))) →
  NoDup names → length ids = length names →
  last_write f (zip_with (build_row maps) ids names) j = if decide (j ∈ names) then g j else None.
Proof.
  intros Hf Hnd. revert ids. induction Hnd as [|n names Hn Hnd IH]; intros [|i ids] Hl; try done.
  cbn [zip_with]. rewrite last_write_cons, IH; [|intros; apply Hf; by constructor | by injection Hl].
  rewrite Hf by constructor. destruct (decide (n = j)) as [->|Hne].
  - rewrite decide_False, decide_True by (done || constructor).
    destruct (g j); simpl; [by rewrite decide_True | done].
  - assert ((v ← g n; Some (n, v)) ≫= (λ '(k, v), if decide (k = j) then Some v else None) = None) as ->.
    { destruct (g n); simpl; [by rewrite decide_False | done]. }
    destruct (decide (j ∈ names)).
    + rewrite decide_True by (by constructor). by destruct (g j).
    + rewrite decide_False; [done|]. intros [?|?]%elem_of_cons; congruence.
Qed.

(** Numbers whose text reads back as the same number. *)
Definition exact (x : num) : Prop := num_of_string (num_to_string x) = x.

#[export] Instance exact_dec x : Decision (exact x).
Proof. unfold exact. apply _. Defined.

Lemma exact_normalize x : (num_is_finite x = true → exact x) → exact (normalizeRatio x).
Proof. unfold normalizeRatio. destruct (num_is_finite x); [auto | by intros _; vm_compute]. Qed.

Lemma normalize_idemp x : normalizeRatio (normalizeRatio x) = normalizeRatio x.
Proof. unfold normalizeRatio. destruct (num_is_finite x) eqn:E; by rewrite ?E. Qed.

Lemma exact_text x : exact x → trim (num_to_string x) ≠ [] ∧ num_of_string (trim (num_to_string x)) = x.
Proof.
  intros Hx.
  assert (num_of_string (trim (num_to_string x)) = x) as E.
  { unfold num_of_string. rewrite trim_idemp. exact Hx. }
  split; [|done]. intros Hn. rewrite Hn in E. rewrite <-E in Hn. by vm_compute in Hn.
Qed.

(** Maps as the settings hold them: one value per name, names that are not
    blank and carry no surrounding white space, numbers that print exactly. *)
Record well_formed (maps : GroupPricingMaps) : Prop := {
  wf_names : Forall (λ n, n ≠ [] ∧ trimmed n) (group_names maps);
  wf_ratios : Forall (λ kv, num_is_finite (snd kv) = true → exact (snd kv)) (groupRatio maps);
  wf_topup : Forall (λ kv, num_is_finite (snd kv) = true ∧ exact (snd kv)) (topupGroupRatio maps)
}.

Lemma group_names_spec maps n :
  n ∈ group_names maps ↔
  is_Some (mget n (groupRatio maps)) ∨ is_Some (mget n (userUsableGroups maps))
  ∨ is_Some (mget n (groupDescriptions maps)) ∨ is_Some (mget n (topupGroupRatio maps)).
Proof. unfold group_names. rewrite elem_of_uniq, !elem_of_app, !mget_is_Some. done. Qed.

(** C34: Building the rows of the group editor and writing them back gives the
    maps back, if the names of the groups are not empty and carry no surrounding
    white space (a group named with an outer blank would be saved without it),
    the finite ratios print exactly, and every top-up ratio is finite and prints
    exactly ([well_formed]).  For every group any of such maps mentions: its ratio
    is the stored one, or 1 where there is none or it is not a finite number; it is
    usable with the same description exactly if it was; its description is
    the usable one, else the stored one, else blank; its top-up ratio is
    unchanged; and no other group appears.  This holds whatever ids the rows
    are given. *)
Theorem group_pricing_round_trip {S} (createId : S → jsstr * S) (s : S) (maps : GroupPricingMaps)
    (Hwf : well_formed maps) :
  let saved := serializeGroupPricingDrafts (fst (buildGroupPricingDrafts createId s maps)) in
  ∀ n : jsstr,
    mget n (groupRatio saved)
    = (if decide (n ∈ group_names maps)
       then Some (normalizeRatio (default num_nan (mget n (groupRatio maps)))) else None) ∧
    mget n (userUsableGroups saved) = mget n (userUsableGroups maps) ∧
    mget n (groupDescriptions saved)
    = (if decide (n ∈ group_names maps)
       then Some (default (default [] (mget n (groupDescriptions maps))) (mget n (userUsableGroups maps)))
       else None) ∧
    mget n (topupGroupRatio saved) = mget n (topupGroupRatio maps).
Proof.
  intros saved n. subst saved. unfold buildGroupPricingDrafts.
  destruct (build_rows_zip createId maps (group_names maps) s) as (ids & Hl & ->).
  destruct (serialize_lookup (zip_with (build_row maps) ids (group_names maps)) n) as (-> & -> & -> & ->).
  assert (NoDup (group_names maps)) as Hnd by apply NoDup_uniq.
  assert (∀ i n, n ∈ group_names maps → row_name (build_row maps i n) = Some n) as Hname.
  { intros i m Hm. destruct Hwf as [Hn _ _]. rewrite Forall_forall in Hn. destruct (Hn m Hm) as [Hne Ht].
    unfold row_name. cbn [name build_row]. rewrite trim_id by done. by rewrite (proj2 (truthy_str_true m)). }
  assert (∀ V (o : option V), n ∉ group_names maps → (is_Some o → n ∈ group_names maps) → o = None) as Hnone.
  { intros V [v|] Hn Ho; [|done]. exfalso. eauto. }
  split; [|split; [|split]].
  - apply (last_write_built _ (λ n, Some (normalizeRatio (default num_nan (mget n (groupRatio maps)))))); [|done..].
    intros i m Hm. unfold row_ratio. rewrite Hname by done. cbn [mbind option_bind ratio build_row].
    rewrite exact_normalize; [by rewrite normalize_idemp|]. destruct Hwf as [_ Hr _]. rewrite Forall_forall in Hr.
    destruct (mget m (groupRatio maps)) as [x|] eqn:E; [|done]. apply mget_elem_of in E. exact (Hr _ E).
  - rewrite (last_write_built _ (λ n, mget n (userUsableGroups maps))); [|  |done..].
    + case_decide; [done|]. symmetry. apply Hnone; [done|]. rewrite group_names_spec. auto.
    + intros i m Hm. unfold row_usable. rewrite Hname by done. cbn [mbind option_bind selectable description build_row].
      unfold hasOwn. by destruct (mget m (userUsableGroups maps)).
  - apply (last_write_built _ (λ n, Some (default (default [] (mget n (groupDescriptions maps))) (mget n (userUsableGroups maps))))); [|done..].
    intros i m Hm. unfold row_description. rewrite Hname by done. cbn [mbind option_bind description build_row].
    unfold hasOwn. by destruct (mget m (userUsableGroups maps)).
  - rewrite (last_write_built _ (λ n, mget n (topupGroupRatio maps))); [| |done..].
    + case_decide; [done|]. symmetry. apply Hnone; [done|]. rewrite group_names_spec. auto.
    + intros i m Hm. unfold row_topup. rewrite Hname by done. cbn [mbind option_bind topupRatio build_row].
      destruct (mget m (topupGroupRatio maps)) as [x|] eqn:E; [|done]. cbn [mbind option_bind].
      destruct Hwf as [_ _ Ht]. rewrite Forall_forall in Ht. apply mget_elem_of in E.
      destruct (Ht _ E) as [Hf Hx]. cbn [snd] in Hf, Hx. destruct (exact_text x Hx) as [Hne ->].
      by rewrite (proj2 (truthy_str_true _) Hne), Hf.
Qed.

(** ** Rows across a reload *)

Lemma mget_rows_by_name rows j :
  mget j (rows_by_name rows) = last (List.filter (λ r, bool_decide (name r = j)) rows).
Proof.
  unfold rows_by_name.
  assert (∀ acc, mget j (fold_left (λ m row, mset (name row) row m) rows acc)
                 = match last (List.filter (λ r, bool_decide (name r = j)) rows) with
                   | Some r => Some r | None => mget j acc end) as H.
  { induction rows as [|row rows IH]; intros acc; [done|]. cbn [fold_left List.filter]. rewrite IH.
    case_bool_decide as Hn.
    - rewrite last_cons. destruct (last _); [done|]. by rewrite Hn, mget_mset_eq.
    - destruct (last _); [done|]. by rewrite mget_mset_ne by (by intros ->). }
  rewrite H. by destruct (last _).
Qed.

(** The id a reloaded row gets. *)
Definition kept_id (currentRows : list GroupPricingDraft) (row : GroupPricingDraft) : jsstr :=
  match last (List.filter (λ r, bool_decide (name r = name row)) currentRows) with
  | Some currentRow => id_ currentRow
  | None => id_ row
  end.

Lemma reconcile_kept incoming current :
  reconcileGroupPricingDrafts incoming current = map (λ r, set_id r (kept_id current r)) incoming.
Proof.
  unfold reconcileGroupPricingDrafts. apply map_ext. intros r. rewrite mget_rows_by_name.
  unfold kept_id. destruct (last _); [done | by destruct r].
Qed.

Lemma kept_id_cases current row :
  (∃ c, c ∈ current ∧ name c = name row ∧ kept_id current row = id_ c) ∨ kept_id current row = id_ row.
Proof.
  unfold kept_id. destruct (last _) as [c|] eqn:E; [left | by right].
  apply last_Some in E as [l E]. exists c.
  assert (c ∈ List.filter (λ r, bool_decide (name r = name row)) current) as Hc by (rewrite E; set_solver).
  apply elem_of_filterb in Hc as [Hc Hn%bool_decide_eq_true]. done.
Qed.

Lemma id_inj (rows : list GroupPricingDraft) r r' :
  NoDup (map id_ rows) → r ∈ rows → r' ∈ rows → id_ r = id_ r' → r = r'.
Proof.
  induction rows as [|x rows IH]; intros Hnd Hr Hr' E; [by apply elem_of_nil in Hr|].
  simpl in Hnd. apply NoDup_cons in Hnd as [Hx Hnd].
  apply elem_of_cons in Hr as [->|Hr], Hr' as [->|Hr']; [done| | |by apply IH];
    exfalso; apply Hx; [rewrite E | rewrite <-E]; by apply (list_elem_of_fmap_2 id_).
Qed.

(** C39: Loading the settings again keeps the rows on screen.  When the names of the
    incoming rows are distinct and all ids involved are distinct, matching
    them with the rows on screen leaves what they would save unchanged, gives every
    row whose name is on screen the id of the last row of that name there,
    leaves the other rows as they came, and again gives all rows distinct
    ids. *)
Theorem reload_keeps_rows (incoming current : list GroupPricingDraft)
    (Hnames : NoDup (map name incoming)) (Hids : NoDup (map id_ incoming ++ map id_ current)) :
  let rows := reconcileGroupPricingDrafts incoming current in
  serializeGroupPricingDrafts rows = serializeGroupPricingDrafts incoming ∧
  Forall2 (λ r r', r' = set_id r (match last (List.filter (λ c, bool_decide (name c = name r)) current) with
                                  | Some c => id_ c | None => id_ r end)) incoming rows ∧
  NoDup (map id_ rows).
Proof.
  intros rows. subst rows. rewrite reconcile_kept. split; [|split].
  - unfold serializeGroupPricingDrafts. generalize empty_maps.
    induction incoming as [|r rs IH]; intros maps; [done|].
    simpl in Hnames, Hids. apply NoDup_cons in Hnames as [_ Hnames], Hids as [_ Hids].
    cbn [map fold_left]. by rewrite <-IH.
  - clear. induction incoming as [|r rs IH]; [constructor|]. by constructor.
  - apply NoDup_app in Hids as (Hinc & Hdis & Hcur). revert Hnames Hinc Hdis.
    assert (∀ rs, (∀ r, r ∈ rs → r ∈ incoming) → NoDup (map name rs) → NoDup (map id_ incoming) →
              (∀ x, x ∈ map id_ incoming → x ∉ map id_ current) →
              NoDup (map id_ (map (λ r, set_id r (kept_id current r)) rs))) as H; [|by eauto].
    induction rs as [|r rs IH]; intros Hsub Hn Hinc Hdis; [constructor|].
    simpl in Hn. apply NoDup_cons in Hn as [Hr Hn]. cbn [map]. constructor; [|set_solver].
    intros Hin. rewrite map_map in Hin. apply list_elem_of_fmap in Hin as (r' & E & Hr').
    cbn [id_ set_id] in E. apply Hr.
    assert (r ∈ incoming ∧ r' ∈ incoming) as [Hri Hri'] by (split; apply Hsub; set_solver).
    assert (∀ a b, a ∈ incoming → b ∈ current → id_ a ≠ id_ b) as Hne.
    { intros a b Ha Hb Hab. apply (Hdis (id_ a)); [by apply (list_elem_of_fmap_2 id_)|].
      rewrite Hab. by apply (list_elem_of_fmap_2 id_). }
    assert (name r' = name r) as <-; [|by apply (list_elem_of_fmap_2 name)].
    destruct (kept_id_cases current r) as [(c & Hc & Hcn & Ec)|Ec],
      (kept_id_cases current r') as [(c' & Hc' & Hcn' & Ec')|Ec'].
    + rewrite <-Hcn, <-Hcn'. f_equal. apply (id_inj current); congruence.
    + exfalso. apply (Hne r' c); congruence.
    + exfalso. apply (Hne r c'); congruence.
    + f_equal. apply (id_inj incoming); congruence.
Qed.

(** ** Instances *)

Definition counter_id (n : N) : jsstr * N := (dec_of_N n, N.succ n).

Definition sample_maps : GroupPricingMaps :=
  {| groupRatio := [(js "default", num_of_Z 1); (js "vip", num_div (num_of_Z 1) (num_of_Z 2))];
     userUsableGroups := [(js "default", js "Everyone")];
     groupDescriptions := [(js "vip", js "Paying users"); (js "default", js "old text")];
     topupGroupRatio := [(js "partner", num_div (num_of_Z 9) (num_of_Z 10))] |}.

Lemma sample_well_formed : well_formed sample_maps.
Proof.
  split.
  - apply (bool_decide_eq_true_1 _). by vm_compute.
  - apply (bool_decide_eq_true_1 _). by vm_compute.
  - apply (bool_decide_eq_true_1 _). by vm_compute.
Qed.

Lemma group_pricing_round_trip_witness :
  let saved := serializeGroupPricingDrafts (fst (buildGroupPricingDrafts counter_id 1%N sample_maps)) in
  mget (js "partner") (topupGroupRatio saved) = mget (js "partner") (topupGroupRatio sample_maps)
  ∧ mget (js "partner") (groupRatio saved) = Some (num_of_Z 1).
Proof.
  destruct (group_pricing_round_trip counter_id 1%N sample_maps sample_well_formed (js "partner"))
    as (Hr & _ & _ & Ht).
  split; [exact Ht | exact Hr].
Defined.

Lemma reload_keeps_rows_witness :
  let incoming := fst (buildGroupPricingDrafts counter_id 10%N sample_maps) in
  let current := fst (buildGroupPricingDrafts counter_id 1%N sample_maps) in
  map id_ (reconcileGroupPricingDrafts incoming current) = map id_ current ∧
  NoDup (map id_ (reconcileGroupPricingDrafts incoming current)).
Proof.
  split; [vm_compute; reflexivity|].
  apply (reload_keeps_rows
           (fst (buildGroupPricingDrafts counter_id 10%N sample_maps))
           (fst (buildGroupPricingDrafts counter_id 1%N sample_maps)));
    apply (bool_decide_eq_true_1 _); vm_compute; reflexivity.
Defined.
