(* ===== verification/ModelPricing.v ===== *)
(** * Model prices and their editor (system-settings/models/model-pricing-snapshots.ts,
    model-ratio-visual-editor.tsx)

    The price of a model is spread over ten settings, each a JSON object keyed
    by the model's name: a price per request, seven ratios, a billing mode
    and a billing expression.  The editor reads them into one snapshot per
    model, shows saved and drafted snapshots side by side, and writes an
    edited model - or a copy of it for several models - back to the settings.

    The settings are modelled as the objects their JSON texts hold, with the
    values the declared types give them ([Record<string, number>],
    [Record<string, string>]); the eight numeric ones are a function of
    [PriceField].  Model names are assumed not to be members of
    [Object.prototype]. *)

From Stdlib Require Import ZArith.
From S2P Require Import Prelude JsString JsNumber JsNumberFacts JsCollections JsValue Json JsonFacts ExprSplit TimeRange TimeRangeSpec RequestRules RequestRulesSpec.

(** The numeric settings. *)
Inductive PriceField :=
  | price | ratio | cacheRatio | createCacheRatio | completionRatio | imageRatio | audioRatio
  | audioCompletionRatio.

#[export] Instance PriceField_eq_dec : EqDecision PriceField.
Proof. solve_decision. Defined.

(** In the order in which the code lists them. *)
Definition price_fields : list PriceField :=
  [price; ratio; cacheRatio; createCacheRatio; completionRatio; imageRatio; audioRatio;
   audioCompletionRatio].

Record ModelPricingMaps := {
  numbers : PriceField → list (jsstr * num);
  billingModes : list (jsstr * jsstr);
  billingExprs : list (jsstr * jsstr)
}.

Record ModelPricingSnapshot := {
  name : jsstr;
  values : PriceField → option jsstr;
  billingMode : option jsstr;
  billingExpr : option jsstr;
  requestRuleExpr : option jsstr;
  hasConflict : bool
}.

(** What the editor panel works on. *)
Record ModelRatioData := {
  d_name : jsstr;
  d_values : PriceField → option jsstr;
  d_billingMode : option jsstr;
  d_billingExpr : option jsstr;
  d_requestRuleExpr : option jsstr
}.

Definition TIERED : jsstr := js "tiered_expr".
Definition PER_REQUEST : jsstr := js "per-request".
Definition PER_TOKEN : jsstr := js "per-token".

(** ** parseFloat *)

(** The exponent part at the start of a text; none where it is malformed. *)
Definition float_exponent (s : jsstr) : Z :=
  match s with
  | c :: r =>
      if ((c =? 101) || (c =? 69))%N then
        let '(neg, r) := match r with
                         | d :: r' => if (d =? 43)%N then (false, r')
                                      else if (d =? 45)%N then (true, r') else (false, r)
                         | [] => (false, r)
                         end in
        let d := fst (span_digits r) in
        (if neg then Z.opp else Datatypes.id) (Z.of_N (dec_value d))
      else 0%Z
  | [] => 0%Z
  end.

(** The longest decimal literal at the start of a text. *)
Definition float_prefix (neg : bool) (s : jsstr) : num :=
  if starts_with s (js "Infinity") then S754_infinity neg
  else
    let '(ip, r) := span_digits s in
    let '(fp, r) := match r with
                    | c :: r' => if (c =? 46)%N then span_digits r' else ([], r)
                    | [] => ([], r)
                    end in
    if bool_decide (ip ++ fp = []) then num_nan
    else of_decimal neg (dec_value (ip ++ fp)) (float_exponent r - Z.of_nat (length fp)).

Definition parse_float (s : jsstr) : num :=
  match trim_start s with
  | c :: r => if (c =? 43)%N then float_prefix false r
              else if (c =? 45)%N then float_prefix true r else float_prefix false (c :: r)
  | [] => num_nan
  end.

(** ** Snapshots *)

(** [value !== undefined && value !== '']. *)
Definition hasPricingValue (value : option jsstr) : bool := truthy_str (default [] value).

Definition isBasePricingUnset (snapshot : option ModelPricingSnapshot) : bool :=
  match snapshot with
  | None => true
  | Some s =>
      negb (bool_decide (billingMode s = Some TIERED))
      && negb (hasPricingValue (values s price)) && negb (hasPricingValue (values s ratio))
  end.

Definition getModeLabel (mode : option jsstr) : jsstr :=
  if bool_decide (mode = Some PER_REQUEST) then js "Per-request"
  else if bool_decide (mode = Some TIERED) then js "Expression"
  else js "Per-token".

Definition getModeVariant (mode : option jsstr) : jsstr :=
  if bool_decide (mode = Some PER_REQUEST) then js "warning"
  else if bool_decide (mode = Some TIERED) then js "info"
  else js "success".

(** Every model some setting names. *)
Definition modelNames (maps : ModelPricingMaps) : list jsstr :=
  uniq (flat_map (λ f, mkeys (numbers maps f)) price_fields
        ++ mkeys (billingModes maps) ++ mkeys (billingExprs maps)).

(** [map[name]?.toString() || '']. *)
Definition number_text (maps : ModelPricingMaps) (n : jsstr) (f : PriceField) : jsstr :=
  match mget n (numbers maps f) with Some x => num_to_string x | None => [] end.

Definition model_snapshot (maps : ModelPricingMaps) (n : jsstr) : res ModelPricingSnapshot :=
  let text := number_text maps n in
  if bool_decide (mget n (billingModes maps) = Some TIERED) then
    let fullExpr := default [] (mget n (billingExprs maps)) in
    split ← splitBillingExprAndRequestRules fullExpr;
    Ok {| name := n; values := λ f, Some (text f); billingMode := Some TIERED;
          billingExpr := Some (RequestRules.billingExpr split);
          requestRuleExpr := Some (RequestRules.requestRuleExpr split);
          hasConflict := false |}
  else
    Ok {| name := n; values := λ f, Some (text f);
          billingMode := Some (if truthy_str (text price) then PER_REQUEST else PER_TOKEN);
          billingExpr := None; requestRuleExpr := None;
          hasConflict := truthy_str (text price)
                         && existsb (λ f, truthy_str (text f))
                              [ratio; completionRatio; cacheRatio; createCacheRatio; imageRatio;
                               audioRatio; audioCompletionRatio] |}.

Definition buildModelSnapshots (maps : ModelPricingMaps) : res (list ModelPricingSnapshot) :=
  res_mapM (model_snapshot maps) (modelNames maps).

Definition field_key (f : PriceField) : jsstr :=
  match f with
  | price => js "price" | ratio => js "ratio" | cacheRatio => js "cacheRatio"
  | createCacheRatio => js "createCacheRatio" | completionRatio => js "completionRatio"
  | imageRatio => js "imageRatio" | audioRatio => js "audioRatio"
  | audioCompletionRatio => js "audioCompletionRatio"
  end.

(** The object a signature is the text of. *)
Definition signature_value (s : ModelPricingSnapshot) : val :=
  VObj (map (λ f, (field_key f, VStr (default [] (values s f)))) price_fields
        ++ [(js "billingMode", VStr (str_or (default [] (billingMode s)) PER_TOKEN));
            (js "billingExpr", VStr (default [] (billingExpr s)));
            (js "requestRuleExpr", VStr (default [] (requestRuleExpr s)))]).

Definition getSnapshotSignature (snapshot : option ModelPricingSnapshot) : jsstr :=
  match snapshot with
  | None => []
  | Some s => default [] (json_stringify [] (signature_value s))
  end.

(** ** Rows of the table *)

Record ModelRow := {
  displayed : ModelPricingSnapshot;
  saved : option ModelPricingSnapshot;
  draft : option ModelPricingSnapshot;
  isDraftChanged : bool;
  isDraftDeleted : bool;
  isDraftNew : bool
}.

Definition unset_snapshot (n : jsstr) : ModelPricingSnapshot :=
  {| name := n; values := λ _, None; billingMode := Some PER_TOKEN; billingExpr := None;
     requestRuleExpr := None; hasConflict := false |}.

Definition by_name (rows : list ModelPricingSnapshot) : list (jsstr * ModelPricingSnapshot) :=
  fold_left (λ m row, mset (name row) row m) rows [].

Definition model_row (savedByName draftByName : list (jsstr * ModelPricingSnapshot)) (n : jsstr) : ModelRow :=
  let s := mget n savedByName in
  let d := mget n draftByName in
  {| displayed := match s, d with
                  | Some s, _ => s
                  | None, Some d => d
                  | None, None => unset_snapshot n
                  end;
     saved := s;
     draft := d;
     isDraftChanged := negb (bool_decide (getSnapshotSignature s = getSnapshotSignature d));
     isDraftDeleted := match s, d with Some _, None => true | _, _ => false end;
     isDraftNew := match s, d with None, Some _ => true | _, _ => false end |}.

(** [candidates] are the models of the filter 'unset'; [None] is the filter
    that shows every model. *)
Definition model_rows (locale_compare : jsstr → jsstr → num) (candidates : option (list jsstr))
    (savedRows draftRows : list ModelPricingSnapshot) : list ModelRow :=
  let savedByName := by_name savedRows in
  let draftByName := by_name draftRows in
  let names := match candidates with
               | Some cs => uniq cs
               | None => uniq (mkeys savedByName ++ mkeys draftByName)
               end in
  let rows := List.filter (λ r, negb (isDraftDeleted r)) (map (model_row savedByName draftByName) names) in
  let rows := List.filter (λ r, match candidates with
                                | None => true
                                | Some _ => isBasePricingUnset (saved r)
                                end) rows in
  js_sort (λ a b, locale_compare (name (displayed a)) (name (displayed b))) rows.

(** [handleEdit]: the row as the panel edits it. *)
Definition edit_data (row : ModelRow) : ModelRatioData :=
  let s := match draft row, saved row with
           | Some d, _ => d
           | None, Some s => s
           | None, None => displayed row
           end in
  {| d_name := name s;
     d_values := values s;
     d_billingMode := Some (if bool_decide (billingMode s = Some TIERED) then TIERED
                            else if hasPricingValue (values s price) then PER_REQUEST
                            else PER_TOKEN);
     d_billingExpr := billingExpr s;
     d_requestRuleExpr := requestRuleExpr s |}.

(** ** Writing *)

Definition set_number (f : PriceField) (n : jsstr) (x : num) (maps : ModelPricingMaps) : ModelPricingMaps :=
  {| numbers := λ f', if decide (f' = f) then obj_set n x (numbers maps f) else numbers maps f';
     billingModes := billingModes maps; billingExprs := billingExprs maps |}.

Definition setIfPresent (n : jsstr) (data : ModelRatioData) (maps : ModelPricingMaps) (f : PriceField)
    : ModelPricingMaps :=
  let value := default [] (d_values data f) in
  if negb (truthy_str value) then maps
  else
    let parsed := parse_float value in
    if num_is_finite parsed then set_number f n parsed maps else maps.

(** The deletions at the start of a turn, and the whole of [handleDelete]. *)
Definition delete_model (maps : ModelPricingMaps) (n : jsstr) : ModelPricingMaps :=
  {| numbers := λ f, obj_del n (numbers maps f);
     billingModes := obj_del n (billingModes maps);
     billingExprs := obj_del n (billingExprs maps) |}.

Definition ratio_fields : list PriceField :=
  [ratio; cacheRatio; createCacheRatio; completionRatio; imageRatio; audioRatio; audioCompletionRatio].

(** One turn of the loop of [persistPricingData]. *)
Definition persist_one (data : ModelRatioData) (maps : ModelPricingMaps) (n : jsstr) : ModelPricingMaps :=
  let maps := delete_model maps n in
  if bool_decide (d_billingMode data = Some TIERED) then
    let combined := combineBillingExpr (default [] (d_billingExpr data)) (default [] (d_requestRuleExpr data)) in
    let maps := if truthy_str combined
                then {| numbers := numbers maps;
                        billingModes := obj_set n TIERED (billingModes maps);
                        billingExprs := obj_set n combined (billingExprs maps) |}
                else maps in
    fold_left (setIfPresent n data) price_fields maps
  else if truthy_str (default [] (d_values data price)) then setIfPresent n data maps price
  else fold_left (setIfPresent n data) ratio_fields maps.

Definition persistPricingData (maps : ModelPricingMaps) (data : ModelRatioData) (targetNames : list jsstr)
    : ModelPricingMaps :=
  fold_left (persist_one data) targetNames maps.

(** The copy of a model's prices to the selected models. *)
Definition batch_copy (maps : ModelPricingMaps) (data : ModelRatioData) (targetNames : list jsstr)
    : ModelPricingMaps :=
  match targetNames with
  | [] => maps
  | _ => persistPricingData maps data (uniq (d_name data :: targetNames))
  end.
