(* ===== verification/ModelPricingSpec.v ===== *)
(** * Model prices: what saving and reading promise

    Signatures tell apart exactly the snapshots that differ; saving a model
    rewrites its entries and no others; whatever is saved or deleted, no
    model has conflicting prices; and saving a model as it was read changes
    nothing. *)

From Stdlib Require Import ZArith.
From stdpp Require Import relations.
From S2P Require Import Prelude JsString JsNumber JsNumberFacts JsCollections JsValue Json JsonFacts ExprSplit TimeRange TimeRangeSpec RequestRules RequestRulesSpec ModelPricing.

(** ** Signatures *)

(** What a signature shows of a snapshot. *)
Definition signature_fields (s : ModelPricingSnapshot) : list jsstr :=
  map (λ f, default [] (values s f)) price_fields
  ++ [str_or (default [] (billingMode s)) PER_TOKEN; default [] (billingExpr s);
      default [] (requestRuleExpr s)].

Definition units_ok (s : ModelPricingSnapshot) : Prop := Forall (Forall code_unit) (signature_fields s).

#[export] Instance units_ok_dec s : Decision (units_ok s).
Proof. unfold units_ok. apply _. Defined.

Lemma signature_value_fields s :
  signature_value s
  = VObj (zip (map field_key price_fields ++ [js "billingMode"; js "billingExpr"; js "requestRuleExpr"])
            (map VStr (signature_fields s))).
Proof. reflexivity. Qed.

Lemma signature_json_ok s : units_ok s → json_ok (signature_value s).
Proof.
  intros H. unfold signature_value. constructor; [| |reflexivity].
  - cbn [map price_fields app].
    repeat (apply Forall_cons; split; [apply (bool_decide_eq_true_1 _); vm_compute; reflexivity|]).
    constructor.
  - unfold units_ok, signature_fields in H. cbn [map price_fields app] in H |- *.
    repeat (apply Forall_cons in H as [? H]; constructor; [by constructor|]). constructor.
Qed.

Lemma signature_text s : units_ok s → ∃ w, getSnapshotSignature (Some s) = w ∧ json_parse w = Ok (signature_value s).
Proof.
  intros H. destruct (json_parse_stringify [] (List.Forall_nil _) _ (signature_json_ok s H)) as (w & Hw & Hp).
  exists w. unfold getSnapshotSignature. by rewrite Hw.
Qed.

(** The texts of an object. *)
Definition texts_of (v : val) : list jsstr :=
  match v with
  | VObj ps => map (λ kv, match snd kv with VStr s => s | _ => [] end) ps
  | _ => []
  end.

Lemma signature_value_inj a b : signature_value a = signature_value b → signature_fields a = signature_fields b.
Proof. intros H. exact (f_equal texts_of H). Qed.

Lemma signature_value_ext a b : signature_fields a = signature_fields b → signature_value a = signature_value b.
Proof. intros H. by rewrite !signature_value_fields, H. Qed.

(** A row is marked as changed exactly if the drafted snapshot differs from the
    saved one.  Two signatures are the same text if and only if both
    snapshots are missing, or both are there with the same prices, billing
    mode, expression and rules (absent texts counting as blank, an absent mode as
    per token). *)
Theorem signature_spec (a b : option ModelPricingSnapshot)
    (Ha : from_option units_ok True a) (Hb : from_option units_ok True b) :
  getSnapshotSignature a = getSnapshotSignature b ↔
  match a, b with
  | None, None => True
  | Some a, Some b => signature_fields a = signature_fields b
  | _, _ => False
  end.
Proof.
  destruct a as [a|], b as [b|]; [| | |done].
  - destruct (signature_text a Ha) as (w & Ew & Pw), (signature_text b Hb) as (w' & Ew' & Pw').
    rewrite Ew, Ew'. split.
    + intros ->. apply signature_value_inj. congruence.
    + intros E%signature_value_ext. unfold getSnapshotSignature in Ew, Ew'. congruence.
  - split; [|done]. intros E. discriminate E.
  - split; [|done]. intros E. discriminate E.
Qed.

(** ** Saving *)

Lemma mget_numbers_set f n x maps f' j :
  mget j (numbers (set_number f n x maps) f')
  = if decide (f' = f ∧ n = j) then Some x else mget j (numbers maps f').
Proof.
  cbn [numbers set_number]. destruct (decide (f' = f)) as [->|Hf].
  - rewrite mget_obj_set. destruct (decide (n = j)) as [->|Hn].
    + by rewrite decide_True.
    + by rewrite decide_False by naive_solver.
  - by rewrite decide_False by naive_solver.
Qed.

(** The number a field of the edited data stores, if any. *)
Definition stored (data : ModelRatioData) (f : PriceField) : option num :=
  let value := default [] (d_values data f) in
  if truthy_str value && num_is_finite (parse_float value) then Some (parse_float value) else None.

Lemma setIfPresent_stored n data maps f :
  setIfPresent n data maps f
  = match stored data f with Some x => set_number f n x maps | None => maps end.
Proof.
  unfold setIfPresent, stored. by destruct (truthy_str _), (num_is_finite _).
Qed.

Lemma mget_set_fields n data fs maps f j :
  NoDup fs →
  mget j (numbers (fold_left (setIfPresent n data) fs maps) f)
  = (if decide (f ∈ fs ∧ n = j) then match stored data f with Some x => Some x | None => mget j (numbers maps f) end
     else mget j (numbers maps f)).
Proof.
  intros Hnd. revert maps. induction Hnd as [|g fs Hg Hnd IH]; intros maps; cbn [fold_left].
  - rewrite decide_False; [done|]. set_solver.
  - rewrite IH, setIfPresent_stored. destruct (decide (f = g)) as [->|Hne].
    + rewrite (decide_False (P := g ∈ fs ∧ n = j)) by naive_solver.
      destruct (stored data g) as [x|]; [rewrite mget_numbers_set|]; repeat case_decide; try done;
        exfalso; set_solver.
    + assert (∀ o : option num, mget j (numbers (match o with Some x => set_number g n x maps | None => maps end) f)
                = mget j (numbers maps f)) as E.
      { intros [x|]; [|done]. rewrite mget_numbers_set. by rewrite decide_False by naive_solver. }
      rewrite !E. repeat case_decide; try done; exfalso; set_solver.
Qed.

Lemma texts_set_fields n data fs maps :
  billingModes (fold_left (setIfPresent n data) fs maps) = billingModes maps ∧
  billingExprs (fold_left (setIfPresent n data) fs maps) = billingExprs maps.
Proof.
  revert maps; induction fs as [|f fs IH]; intros maps; [done|]. cbn [fold_left].
  destruct (IH (setIfPresent n data maps f)) as [-> ->]. rewrite setIfPresent_stored. by destruct (stored data f).
Qed.

(** The combined expression of the edited data, and what the data say of each
    setting. *)
Definition combined (data : ModelRatioData) : jsstr :=
  combineBillingExpr (default [] (d_billingExpr data)) (default [] (d_requestRuleExpr data)).

Definition is_tiered (data : ModelRatioData) : bool := bool_decide (d_billingMode data = Some TIERED).

Definition written_number (data : ModelRatioData) (f : PriceField) : option num :=
  if is_tiered data then stored data f
  else if hasPricingValue (d_values data price) then
    if decide (f = price) then stored data price else None
  else if decide (f = price) then None else stored data f.

Definition written_texts (data : ModelRatioData) : option jsstr * option jsstr :=
  if is_tiered data && truthy_str (combined data) then (Some TIERED, Some (combined data)) else (None, None).

Lemma price_field_cases f : f ∈ price_fields ∧ (f ∈ ratio_fields ↔ f ≠ price).
Proof. destruct f; apply (bool_decide_eq_true_1 _); by vm_compute. Qed.

Lemma persist_one_lookup data maps n j :
  (∀ f, mget j (numbers (persist_one data maps n) f)
        = if decide (n = j) then written_number data f else mget j (numbers maps f)) ∧
  mget j (billingModes (persist_one data maps n))
  = (if decide (n = j) then fst (written_texts data) else mget j (billingModes maps)) ∧
  mget j (billingExprs (persist_one data maps n))
  = (if decide (n = j) then snd (written_texts data) else mget j (billingExprs maps)).
Proof.
  assert (NoDup price_fields ∧ NoDup ratio_fields) as [Hp Hr]
    by (split; apply (bool_decide_eq_true_1 _); by vm_compute).
  unfold persist_one, written_number, written_texts, is_tiered, combined, hasPricingValue.
  set (e := combineBillingExpr _ _).
  case_bool_decide as Ht; cbn [andb].
  - destruct (texts_set_fields n data price_fields
      (if truthy_str e then {| numbers := numbers (delete_model maps n);
                               billingModes := obj_set n TIERED (billingModes (delete_model maps n));
                               billingExprs := obj_set n e (billingExprs (delete_model maps n)) |}
       else delete_model maps n)) as [-> ->].
    split; [|split].
    + intros f. rewrite mget_set_fields by done. destruct (price_field_cases f) as [Hf _].
      assert (∀ b : bool, numbers (if b then {| numbers := numbers (delete_model maps n);
                               billingModes := obj_set n TIERED (billingModes (delete_model maps n));
                               billingExprs := obj_set n e (billingExprs (delete_model maps n)) |}
                               else delete_model maps n) = numbers (delete_model maps n)) as -> by (by intros []).
      cbn [numbers delete_model]. rewrite mget_obj_del.
      repeat case_decide; try done; try (exfalso; naive_solver). by destruct (stored data f).
    + destruct (truthy_str e); cbn [billingModes delete_model]; rewrite ?mget_obj_set, ?mget_obj_del;
        by case_decide.
    + destruct (truthy_str e); cbn [billingExprs delete_model]; rewrite ?mget_obj_set, ?mget_obj_del;
        by case_decide.
  - destruct (truthy_str (default [] (d_values data price))) eqn:Ep.
    + rewrite setIfPresent_stored. split; [|split].
      * intros f. destruct (stored data price) as [x|]; [rewrite mget_numbers_set|]; cbn [numbers delete_model];
          rewrite mget_obj_del; repeat case_decide; naive_solver.
      * destruct (stored data price); cbn [billingModes delete_model set_number]; by rewrite mget_obj_del.
      * destruct (stored data price); cbn [billingExprs delete_model set_number]; by rewrite mget_obj_del.
    + destruct (texts_set_fields n data ratio_fields (delete_model maps n)) as [-> ->].
      cbn [billingModes billingExprs delete_model fst snd]. rewrite !mget_obj_del. split; [|done].
      intros f. rewrite mget_set_fields by done. destruct (price_field_cases f) as [_ Hf].
      cbn [numbers delete_model]. rewrite mget_obj_del.
      repeat case_decide; try naive_solver; by destruct (stored data f); naive_solver.
Qed.

(** C35: Saving prices rewrites the entries of the target models and no others.
    After the data of one model are saved for a list of models, every target
    has exactly the entries the data give it - the expression mode with the combined
    expression and all readable numbers; or the price alone when one is set;
    or the ratios without a price - and every other model has the entries
    it had. *)
Theorem persist_spec (maps : ModelPricingMaps) (data : ModelRatioData) (targets : list jsstr) (j : jsstr) :
  let saved := persistPricingData maps data targets in
  (∀ f, mget j (numbers saved f) = if decide (j ∈ targets) then written_number data f else mget j (numbers maps f)) ∧
  mget j (billingModes saved) = (if decide (j ∈ targets) then fst (written_texts data) else mget j (billingModes maps)) ∧
  mget j (billingExprs saved) = (if decide (j ∈ targets) then snd (written_texts data) else mget j (billingExprs maps)).
Proof.
  unfold persistPricingData. revert maps. induction targets as [|n targets IH]; intros maps.
  { cbn [fold_left]. split; [|split]; intros; rewrite decide_False; try done; apply not_elem_of_nil. }
  cbn [fold_left]. destruct (IH (persist_one data maps n)) as (H1 & H2 & H3), (persist_one_lookup data maps n j) as (E1 & E2 & E3).
  assert (∀ A (w o x : A), x = (if decide (n = j) then w else o) →
            (if decide (j ∈ targets) then w else x) = if decide (j ∈ n :: targets) then w else o) as Hstep.
  { intros A w o x ->. destruct (decide (j ∈ targets)) as [Hj|Hj].
    - by rewrite (decide_True (P := j ∈ n :: targets)) by (by constructor).
    - destruct (decide (n = j)) as [->|Hn]; [by rewrite decide_True by constructor|].
      rewrite decide_False; [done|]. intros [?|?]%elem_of_cons; congruence. }
  split; [intros f; rewrite H1; by apply Hstep|]. split; [rewrite H2 | rewrite H3]; by apply Hstep.
Qed.

(** ** No conflicts *)

(** The entries of a model agree with one way of pricing it. *)
Definition tidy (maps : ModelPricingMaps) (n : jsstr) : Prop :=
  match mget n (billingModes maps) with
  | Some m => m = TIERED ∧ ∃ e, mget n (billingExprs maps) = Some e ∧ e ≠ []
  | None =>
      mget n (billingExprs maps) = None ∧
      (mget n (numbers maps price) = None ∨ ∀ f, f ≠ price → mget n (numbers maps f) = None)
  end.

(** An expression is saved only when there is one. *)
Definition expression_given (data : ModelRatioData) : Prop :=
  d_billingMode data = Some TIERED → combined data ≠ [].

#[export] Instance expression_given_dec data : Decision (expression_given data).
Proof. unfold expression_given. apply _. Defined.

Inductive pricing_step : relation ModelPricingMaps :=
  | step_save maps data targets :
      expression_given data → pricing_step maps (persistPricingData maps data targets)
  | step_copy maps data targets :
      expression_given data → pricing_step maps (batch_copy maps data targets)
  | step_delete maps n : pricing_step maps (delete_model maps n).

Lemma persist_one_tidy data maps n j :
  expression_given data → tidy maps j → tidy (persist_one data maps n) j.
Proof.
  unfold tidy. intros Hg Hj. destruct (persist_one_lookup data maps n j) as (E1 & E2 & E3). rewrite E2, E3.
  destruct (decide (n = j)) as [->|_].
  - unfold written_texts, is_tiered. case_bool_decide as Ht; cbn [andb].
    + rewrite (proj2 (truthy_str_true _) (Hg Ht)). cbn [fst snd]. split; [done|]. eexists. split; [done | by apply Hg].
    + cbn [fst snd]. split; [done|].
      assert (∀ f, mget j (numbers (persist_one data maps j) f) = written_number data f) as Hw
        by (intros f; rewrite E1; by repeat case_decide).
      unfold written_number, is_tiered in Hw. rewrite bool_decide_eq_false_2 in Hw by done.
      destruct (hasPricingValue (d_values data price)).
      * right. intros f Hf. rewrite Hw. by rewrite decide_False.
      * left. rewrite Hw. by rewrite decide_True.
  - destruct (mget j (billingModes maps)); [done|]. destruct Hj as [He [Hp|Ho]]; (split; [done|]).
    + left. by rewrite E1.
    + right. intros f Hf. rewrite E1. by apply Ho.
Qed.

Lemma persist_tidy data maps targets :
  expression_given data → (∀ j, tidy maps j) → ∀ j, tidy (persistPricingData maps data targets) j.
Proof.
  intros Hg. unfold persistPricingData. revert maps. induction targets as [|n targets IH]; intros maps H; [done|].
  cbn [fold_left]. apply IH. intros j. by apply persist_one_tidy.
Qed.

Lemma delete_tidy maps n j : tidy maps j → tidy (delete_model maps n) j.
Proof.
  unfold tidy. cbn [numbers billingModes billingExprs delete_model]. rewrite !mget_obj_del.
  destruct (decide (n = j)) as [->|Hn].
  - intros _. split; [done|]. left. done.
  - destruct (mget j (billingModes maps)); [done|]. intros [He [Hp|Ho]]; (split; [done|]); [by left|].
    right. intros f Hf. rewrite mget_obj_del, decide_False by done. by apply Ho.
Qed.

Lemma step_tidy maps maps' : pricing_step maps maps' → (∀ j, tidy maps j) → ∀ j, tidy maps' j.
Proof.
  intros [m data targets Hg|m data targets Hg|m n] H j.
  - by apply persist_tidy.
  - unfold batch_copy. destruct targets; [apply H | by apply persist_tidy].
  - by apply delete_tidy.
Qed.

(** C25: No sequence of edits makes a model's prices conflict.  From settings in
    which every model is priced in one way, after any saves, copies to other
    models and deletions - none of which saves an expression mode without an
    expression - no snapshot shows a conflict, and every model in expression
    mode has an expression. *)
Theorem reachable_no_conflict (maps maps' : ModelPricingMaps)
    (H0 : ∀ j, tidy maps j) (Hsteps : rtc pricing_step maps maps') :
  ∀ n s, model_snapshot maps' n = Ok s →
    hasConflict s = false ∧
    (billingMode s = Some TIERED → ∃ e, mget n (billingExprs maps') = Some e ∧ e ≠ []).
Proof.
  assert (∀ j, tidy maps' j) as Ht.
  { induction Hsteps as [m|m m' m'' Hstep _ IH]; [done|]. apply IH. by eapply step_tidy. }
  intros n s. specialize (Ht n). unfold tidy in Ht. unfold model_snapshot.
  case_bool_decide as Hm.
  - rewrite Hm in Ht. destruct Ht as [_ He]. destruct (splitBillingExprAndRequestRules _) as [r|]; [|done].
    intros [= <-]. by split.
  - intros [= <-]. cbn [hasConflict billingMode]. split.
    + destruct (mget n (billingModes maps')) as [m|] eqn:Em; [by destruct Ht as [-> _]|].
      destruct Ht as [_ [Hp|Ho]]; unfold number_text; [by rewrite Hp|].
      apply andb_false_iff. right. by rewrite !Ho.
    + destruct (truthy_str _); intros [= Hx].
Qed.

(** Saving an expression mode without an expression stores the numbers and no
    mode, and so a conflict when both a price and a ratio are given. *)
Definition blank_expression : ModelRatioData :=
  {| d_name := js "m"; d_values := λ f, match f with price | ratio => Some (js "1") | _ => None end;
     d_billingMode := Some TIERED; d_billingExpr := Some []; d_requestRuleExpr := None |}.

Definition no_settings : ModelPricingMaps :=
  {| numbers := λ _, []; billingModes := []; billingExprs := [] |}.

Lemma blank_expression_conflict :
  match model_snapshot (persistPricingData no_settings blank_expression [js "m"]) (js "m") with
  | Ok s => hasConflict s = true ∧ billingMode s = Some PER_REQUEST
  | Throw _ => False
  end.
Proof. by vm_compute. Qed.

(** ** Saving what was read *)

(** A stored number whose text [parseFloat] reads back. *)
Definition text_exact (x : num) : Prop :=
  num_is_finite x = true ∧ parse_float (num_to_string x) = x.

#[export] Instance text_exact_dec x : Decision (text_exact x).
Proof. unfold text_exact. apply _. Defined.

(** An expression that comes back from its split. *)
Definition editor_form (e : jsstr) : Prop :=
  match splitBillingExprAndRequestRules e with
  | Ok r => combineBillingExpr (RequestRules.billingExpr r) (RequestRules.requestRuleExpr r) = e
  | Throw _ => False
  end.

#[export] Instance editor_form_dec e : Decision (editor_form e).
Proof. unfold editor_form. destruct (splitBillingExprAndRequestRules e); apply _. Defined.

(** What the rule editor combines is such an expression. *)
Lemma combined_editor_form base groups :
  price_ok base → Forall readable_group groups → buildRequestRuleExpr groups ≠ [] →
  editor_form (combineBillingExpr base (buildRequestRuleExpr groups)).
Proof.
  intros Hb Hr Hw. pose proof (factors_shape groups Hr) as Hs. unfold buildRequestRuleExpr in *.
  change (js " * ") with op_times in *. revert Hw Hs.
  generalize (List.filter truthy_str (map buildRuleGroupFactor groups)). intros es Hw Hs.
  assert (es ≠ []) as Hne by (by intros ->). unfold editor_form.
  rewrite (split_combined base es es []); [|done | by eapply parts_of_shape | done | by eapply sort_factors].
  by destruct es.
Qed.

Lemma num_to_string_nonempty x : text_exact x → num_to_string x ≠ [].
Proof. intros [Hf Hx] E. rewrite E in Hx. by rewrite <-Hx in Hf. Qed.

(** The settings give every model the same entries. *)
Definition same_settings (maps maps' : ModelPricingMaps) : Prop :=
  ∀ n, (∀ f, mget n (numbers maps f) = mget n (numbers maps' f)) ∧
       mget n (billingModes maps) = mget n (billingModes maps') ∧
       mget n (billingExprs maps) = mget n (billingExprs maps').

(** The entries of a model are those its snapshot shows. *)
Record readable_entries (maps : ModelPricingMaps) (n : jsstr) : Prop := {
  entries_tidy : tidy maps n;
  entries_exact : ∀ f x, mget n (numbers maps f) = Some x → text_exact x;
  entries_form : ∀ e, mget n (billingExprs maps) = Some e → editor_form e
}.

(** The data the editor takes from a snapshot. *)
Definition data_of (s : ModelPricingSnapshot) : ModelRatioData :=
  edit_data {| displayed := s; saved := Some s; draft := Some s; isDraftChanged := false;
               isDraftDeleted := false; isDraftNew := false |}.

Ltac run_data :=
  cbn [displayed saved draft name values billingMode billingExpr requestRuleExpr d_name d_values
       d_billingMode d_billingExpr d_requestRuleExpr fst snd].

Lemma stored_text maps n (data : ModelRatioData) f :
  (∀ x, mget n (numbers maps f) = Some x → text_exact x) →
  d_values data f = Some (number_text maps n f) → stored data f = mget n (numbers maps f).
Proof.
  intros Hx Hd. unfold stored. rewrite Hd. unfold number_text. simpl default.
  destruct (mget n (numbers maps f)) as [x|]; [|done]. specialize (Hx x eq_refl).
  rewrite (proj2 (truthy_str_true _) (num_to_string_nonempty x Hx)). destruct Hx as [Hf ->].
  by rewrite Hf.
Qed.

Lemma written_back maps n s :
  readable_entries maps n → model_snapshot maps n = Ok s →
  d_name (data_of s) = n ∧
  (∀ f, written_number (data_of s) f = mget n (numbers maps f)) ∧
  written_texts (data_of s) = (mget n (billingModes maps), mget n (billingExprs maps)).
Proof.
  intros [Ht Hx Hform] Hs. unfold model_snapshot in Hs. unfold tidy in Ht.
  assert (∀ data f, d_values data f = Some (number_text maps n f) → stored data f = mget n (numbers maps f)) as Hst.
  { intros data f. apply stored_text, Hx. }
  case_bool_decide as Hm.
  - rewrite Hm in Ht. destruct Ht as [_ (e & He & Hne)]. specialize (Hform e He). unfold editor_form in Hform.
    rewrite He in Hs. simpl default in Hs. destruct (splitBillingExprAndRequestRules e) as [r|]; [|done].
    cbn [mbind res_bind] in Hs. injection Hs as <-. rewrite Hm, He.
    unfold written_number, written_texts, is_tiered, combined, data_of, edit_data.
    run_data.
    rewrite !bool_decide_eq_true_2 by done. simpl default. rewrite Hform, (proj2 (truthy_str_true e) Hne).
    split; [done|]. split; [|done]. intros f. by apply Hst.
  - injection Hs as <-. destruct (mget n (billingModes maps)) as [m|]; [by destruct Ht as [-> _]|].
    destruct Ht as [He Hone]. rewrite He.
    unfold written_number, written_texts, is_tiered, data_of, edit_data.
    run_data.
    assert (truthy_str (number_text maps n price) = true → mget n (numbers maps price) ≠ None) as Hp
      by (unfold number_text; by destruct (mget n (numbers maps price))).
    assert (truthy_str (number_text maps n price) = false → mget n (numbers maps price) = None) as Hp'.
    { unfold number_text. destruct (mget n (numbers maps price)) as [x|] eqn:E; [|done].
      by rewrite (proj2 (truthy_str_true _) (num_to_string_nonempty x (Hx _ _ E))). }
    destruct (truthy_str (number_text maps n price)) eqn:Et.
    + rewrite (bool_decide_eq_false_2 (Some PER_REQUEST = Some TIERED)) by done.
      unfold hasPricingValue. simpl default. rewrite Et.
      rewrite (bool_decide_eq_false_2 (Some PER_REQUEST = Some TIERED)) by done. cbn [andb].
      split; [done|]. split; [|done]. intros f. case_decide as Hf; [subst f; by apply Hst|].
      destruct Hone as [Hone|Hone]; [by destruct Hp | by rewrite Hone].
    + rewrite (bool_decide_eq_false_2 (Some PER_TOKEN = Some TIERED)) by done.
      unfold hasPricingValue. simpl default. rewrite Et.
      rewrite (bool_decide_eq_false_2 (Some PER_TOKEN = Some TIERED)) by done. cbn [andb].
      split; [done|]. split; [|done]. intros f. case_decide as Hf; [subst f; by rewrite Hp'|]. by apply Hst.
Qed.

(** C26: Opening a model and saving it unchanged changes nothing.  For a model
    priced in one way, whose numbers print exactly and whose expression, if
    any, is of the form the editor combines, saving the data the editor reads
    from its snapshot leaves every setting of every model as it was. *)
Theorem unchanged_save (maps : ModelPricingMaps) (n : jsstr) (s : ModelPricingSnapshot)
    (He : readable_entries maps n) (Hs : model_snapshot maps n = Ok s) :
  same_settings (persistPricingData maps (data_of s) [d_name (data_of s)]) maps.
Proof.
  destruct (written_back maps n s He Hs) as (-> & Hw & Ht). intros j.
  change (persistPricingData maps (data_of s) [n]) with (persist_one (data_of s) maps n).
  destruct (persist_one_lookup (data_of s) maps n j) as (E1 & E2 & E3). rewrite E2, E3, Ht.
  split; [intros f; rewrite E1|split]; case_decide; subst; auto.
Qed.

(** ** Instances *)

Definition tiered_text : jsstr :=
  combineBillingExpr sample_price (buildRequestRuleExpr [header_at_night; fast_mode]).

Definition sample_settings : ModelPricingMaps :=
  {| numbers := λ f, match f with
                     | price => [(js "image-1", num_div (num_of_Z 1) (num_of_Z 25))]
                     | ratio => [(js "chat-1", num_div (num_of_Z 5) (num_of_Z 4)); (js "chat-2", num_of_Z 2)]
                     | completionRatio => [(js "chat-1", num_of_Z 4)]
                     | _ => []
                     end;
     billingModes := [(js "chat-2", TIERED)];
     billingExprs := [(js "chat-2", tiered_text)] |}.

Definition copied : ModelRatioData :=
  {| d_name := js "chat-1"; d_values := λ f, match f with ratio => Some (js "0.75") | _ => Some [] end;
     d_billingMode := Some PER_TOKEN; d_billingExpr := None; d_requestRuleExpr := None |}.

Definition is_ok {A} (r : res A) : bool := match r with Ok _ => true | Throw _ => false end.

Definition sample_snapshot (n : jsstr) : option ModelPricingSnapshot :=
  match model_snapshot sample_settings n with Ok s => Some s | Throw _ => None end.

Lemma signature_spec_witness :
  getSnapshotSignature (sample_snapshot (js "chat-1")) = getSnapshotSignature (sample_snapshot (js "image-1"))
  ↔ match sample_snapshot (js "chat-1"), sample_snapshot (js "image-1") with
    | None, None => True
    | Some a, Some b => signature_fields a = signature_fields b
    | _, _ => False
    end.
Proof.
  apply (signature_spec (sample_snapshot (js "chat-1")) (sample_snapshot (js "image-1")));
    apply (bool_decide_eq_true_1 _); vm_compute; reflexivity.
Defined.

Lemma mget_singleton {V} (k : jsstr) (v : V) (j : jsstr) : mget j [(k, v)] = if decide (j = k) then Some v else None.
Proof. done. Qed.

Lemma sample_tidy j : tidy sample_settings j.
Proof.
  unfold tidy, sample_settings. cbn [numbers billingModes billingExprs].
  rewrite !mget_singleton. case_decide as H2.
  - split; [done|]. exists tiered_text. split; [done|]. by vm_compute.
  - split; [done|]. case_decide as H1; [right | by left].
    intros f Hf. subst j. by destruct f.
Qed.

(** The settings after a copy and a deletion. *)
Definition sample_edits : ModelPricingMaps :=
  delete_model (batch_copy sample_settings copied [js "chat-2"]) (js "image-1").

Lemma sample_edits_reachable : rtc pricing_step sample_settings sample_edits.
Proof.
  eapply rtc_l; [apply (step_copy sample_settings copied [js "chat-2"]); done|].
  apply rtc_once, step_delete.
Qed.

Lemma sample_edits_ok : is_ok (model_snapshot sample_edits (js "chat-2")) = true.
Proof. by vm_compute. Qed.

Lemma reachable_no_conflict_witness :
  match model_snapshot sample_edits (js "chat-2") with
  | Ok s => hasConflict s = false
  | Throw _ => False
  end.
Proof.
  generalize sample_edits_ok.
  generalize (reachable_no_conflict sample_settings sample_edits sample_tidy sample_edits_reachable (js "chat-2")).
  destruct (model_snapshot sample_edits (js "chat-2")) as [s|e]; intros H Hok; [|discriminate Hok].
  exact (proj1 (H s eq_refl)).
Defined.

Lemma sample_entries : readable_entries sample_settings (js "chat-2").
Proof.
  split; [apply sample_tidy | |].
  - intros [] x Hx; vm_compute in Hx; try discriminate Hx. injection Hx as <-.
    apply (bool_decide_eq_true_1 _). by vm_compute.
  - intros e He. cbn [billingExprs sample_settings] in He. rewrite mget_singleton, decide_True in He by done.
    assert (e = tiered_text) as -> by congruence.
    apply combined_editor_form; [apply (bool_decide_eq_true_1 _); by vm_compute.. | by vm_compute].
Qed.

Lemma sample_snapshot_ok : is_ok (model_snapshot sample_settings (js "chat-2")) = true.
Proof. by vm_compute. Qed.

Lemma unchanged_save_witness :
  match model_snapshot sample_settings (js "chat-2") with
  | Ok s => same_settings (persistPricingData sample_settings (data_of s) [d_name (data_of s)]) sample_settings
  | Throw _ => False
  end.
Proof.
  generalize sample_snapshot_ok. generalize (unchanged_save sample_settings (js "chat-2")).
  destruct (model_snapshot sample_settings (js "chat-2")) as [s|e]; intros H Hok; [|discriminate Hok].
  exact (H s sample_entries eq_refl).
Defined.
