(* ===== verification/JsRegExp.v ===== *)
(** * Regular expressions

    The backtracking matcher of ECMAScript for the operators the sources use
    where reading the longest run is not exact: classes, sequences, ordered
    alternatives, greedy repetition, optional parts, capture groups and the
    end of input.  A matcher takes the rest of the text, the captures so far
    and a continuation; the first way that makes the continuation succeed is
    the match. *)

From Stdlib Require Import ZArith.
From S2P Require Import Prelude JsString JsCollections.

Inductive re :=
  | RChar (p : N → bool)
  | REps
  | RSeq (a b : re)
  | RAlt (a b : re)
  | RStar (a : re)
  | ROpt (a : re)
  | RGroup (i : nat) (a : re)
  | REnd.

(** The texts of the groups that took part in the match. *)
Definition captures : Type := list (nat * jsstr).

Section matcher.
Context {A : Type}.

Definition or_else (o o' : option A) : option A := match o with Some x => Some x | None => o' end.

(** Greedy repetition: every turn has to consume a unit, so as many turns as
    the text has units are enough. *)
Fixpoint repeat_match (m : jsstr → captures → (jsstr → captures → option A) → option A)
    (k : jsstr → captures → option A) (fuel : nat) (s : jsstr) (cs : captures) : option A :=
  match fuel with
  | O => k s cs
  | S f =>
      or_else (m s cs (λ s' cs', if length s' <? length s then repeat_match m k f s' cs' else None))
        (k s cs)
  end.

Fixpoint rmatch (r : re) (s : jsstr) (cs : captures) (k : jsstr → captures → option A) : option A :=
  match r with
  | RChar p => match s with c :: s' => if p c then k s' cs else None | [] => None end
  | REps => k s cs
  | RSeq a b => rmatch a s cs (λ s' cs', rmatch b s' cs' k)
  | RAlt a b => or_else (rmatch a s cs k) (rmatch b s cs k)
  | RStar a => repeat_match (rmatch a) k (length s) s cs
  | ROpt a => or_else (rmatch a s cs k) (k s cs)
  | RGroup i a => rmatch a s cs (λ s' cs', k s' (mset i (take (length s - length s') s) cs'))
  | REnd => match s with [] => k s cs | _ => None end
  end.
End matcher.

(** [s.match(/^r/)]: the captures, and the rest of the text. *)
Definition match_here (r : re) (s : jsstr) : option (captures * jsstr) :=
  rmatch r s [] (λ s' cs, Some (cs, s')).

(** The successive results of [r.exec(s)] for a global [r] that never matches
    the empty text: from each position the first match is taken, and the
    search goes on behind it. *)
Fixpoint match_all (r : re) (fuel : nat) (s : jsstr) : list captures :=
  match fuel with
  | O => []
  | S f =>
      match match_here r s with
      | Some (cs, s') => cs :: match_all r f s'
      | None => match s with [] => [] | _ :: s' => match_all r f s' end
      end
  end.

(** ** Abbreviations *)

Definition rlit (w : jsstr) : re := fold_right (λ c r, RSeq (RChar (N.eqb c)) r) REps w.
Definition rplus (a : re) : re := RSeq a (RStar a).
Definition rws : re := RStar (RChar is_ws).
Definition rseq (l : list re) : re := fold_right RSeq REps l.
Definition ralt (a : re) (l : list re) : re := fold_left RAlt l a.

(** ** What a match has consumed *)

Inductive star (L : jsstr → Prop) : jsstr → Prop :=
  | star_nil : star L []
  | star_app w w' : L w → star L w' → star L (w ++ w').

(** The language of an expression; the end of input is the empty word. *)
Fixpoint lang (r : re) (w : jsstr) : Prop :=
  match r with
  | RChar p => ∃ c, w = [c] ∧ p c = true
  | REps | REnd => w = []
  | RSeq a b => ∃ w1 w2, w = w1 ++ w2 ∧ lang a w1 ∧ lang b w2
  | RAlt a b => lang a w ∨ lang b w
  | RStar a => star (lang a) w
  | ROpt a => lang a w ∨ w = []
  | RGroup _ a => lang a w
  end.

Lemma or_else_inv {A} (o o' : option A) x : or_else o o' = Some x → o = Some x ∨ o' = Some x.
Proof. destruct o; [by left | by right]. Qed.

(** A match consumes a word of the language. *)
Lemma rmatch_lang {A} r s cs (k : jsstr → captures → option A) x :
  rmatch r s cs k = Some x → ∃ w s' cs', s = w ++ s' ∧ lang r w ∧ k s' cs' = Some x.
Proof.
  revert s cs k. induction r as [p| |a IHa b IHb|a IHa b IHb|a IHa|a IHa|i a IHa|]; intros s cs k H; cbn [rmatch lang] in *.
  - destruct s as [|c s]; [done|]. destruct (p c) eqn:E; [|done]. exists [c], s, cs. eauto.
  - by exists [], s, cs.
  - apply IHa in H as (w1 & s1 & cs1 & -> & H1 & H). apply IHb in H as (w2 & s2 & cs2 & -> & H2 & H).
    exists (w1 ++ w2), s2, cs2. rewrite <-app_assoc. eauto 10.
  - apply or_else_inv in H as [H|H]; [apply IHa in H | apply IHb in H];
      destruct H as (w & s' & cs' & ? & ? & ?); eauto 10.
  - revert H. generalize (length s) at 1. intros fuel. revert s cs.
    induction fuel as [|fuel IH]; intros s cs H; cbn [repeat_match] in H.
    { exists [], s, cs. split; [done|]. split; [constructor | done]. }
    apply or_else_inv in H as [H|H].
    + apply IHa in H as (w & s1 & cs1 & -> & Hw & H). case_match; [|done].
      apply IH in H as (w' & s2 & cs2 & -> & Hw' & H).
      exists (w ++ w'), s2, cs2. rewrite <-app_assoc. split; [done|]. split; [by constructor | done].
    + exists [], s, cs. split; [done|]. split; [constructor | done].
  - apply or_else_inv in H as [H|H].
    + apply IHa in H as (w & s' & cs' & ? & ? & ?). eauto 10.
    + exists [], s, cs. eauto.
  - apply IHa in H as (w & s' & cs' & ? & ? & ?). eauto 10.
  - destruct s; [|done]. by exists [], [], cs.
Qed.

(** Conversely every word of the language in front of a text the continuation
    accepts leads to a match, if the end of input is not asked for inside. *)
Fixpoint no_end (r : re) : bool :=
  match r with
  | REnd => false
  | RChar _ | REps => true
  | RSeq a b | RAlt a b => no_end a && no_end b
  | RStar a | ROpt a | RGroup _ a => no_end a
  end.

Lemma or_else_is_Some {A} (o o' : option A) : is_Some o ∨ is_Some o' → is_Some (or_else o o').
Proof. intros [[x ->]|H]; [by eexists | by destruct o]. Qed.

Lemma rmatch_complete {A} r w s cs (k : jsstr → captures → option A) :
  no_end r = true → lang r w → (∀ cs', is_Some (k s cs')) → is_Some (rmatch r (w ++ s) cs k).
Proof.
  revert w s cs k. induction r as [p| |a IHa b IHb|a IHa b IHb|a IHa|a IHa|i a IHa|];
    intros w s cs k Hr Hw Hk; cbn [no_end lang rmatch] in *; try done.
  - destruct Hw as (c & -> & Hc). simpl. by rewrite Hc.
  - by subst w.
  - apply andb_true_iff in Hr as [Hra Hrb]. destruct Hw as (w1 & w2 & -> & H1 & H2).
    rewrite <-app_assoc. apply IHa; [done..|]. intros cs'. by apply IHb.
  - apply andb_true_iff in Hr as [Hra Hrb]. apply or_else_is_Some. destruct Hw; auto.
  - assert (∀ fuel, length w ≤ fuel → is_Some (repeat_match (rmatch a) k fuel (w ++ s) cs)) as H;
      [|apply H; rewrite length_app; lia].
    revert cs. induction Hw as [|w w' Hw _ IH]; intros cs fuel Hf.
    + destruct fuel; [apply Hk|]. apply or_else_is_Some. right. apply Hk.
    + rewrite length_app in Hf. destruct w as [|c w]; [apply IH; simpl in Hf; lia|].
      destruct fuel as [|fuel]; [simpl in Hf; lia|]. cbn [repeat_match]. apply or_else_is_Some. left.
      rewrite <-app_assoc. apply IHa; [done..|]. intros cs'.
      rewrite (proj2 (Nat.ltb_lt _ _)) by (simpl; rewrite !length_app; lia). apply IH. simpl in Hf. lia.
  - apply or_else_is_Some. destruct Hw as [Hw | ->]; [left; by apply IHa | right; apply Hk].
  - apply IHa; [done..|]. intros cs'. apply Hk.
Qed.

(** A whole text matches exactly if it is in the language. *)
Lemma match_whole r s : no_end r = true → is_Some (match_here (RSeq r REnd) s) ↔ lang r s.
Proof.
  intros Hr. unfold match_here. cbn [rmatch]. split.
  - intros [x H]. apply rmatch_lang in H as (w & s' & cs' & -> & Hw & H).
    destruct s'; [by rewrite app_nil_r | done].
  - intros H. rewrite <-(app_nil_r s). apply rmatch_complete; [done..|]. intros cs'. by eexists.
Qed.

(** ** Refutation by derivatives *)

Fixpoint nullable (r : re) : bool :=
  match r with
  | RChar _ => false
  | REps | RStar _ | ROpt _ | REnd => true
  | RSeq a b => nullable a && nullable b
  | RAlt a b => nullable a || nullable b
  | RGroup _ a => nullable a
  end.

Definition alt_o (a b : option re) : option re :=
  match a, b with Some a, Some b => Some (RAlt a b) | Some a, None => Some a | None, b => b end.

(** What is left of an expression behind a unit; [None] when nothing is. *)
Fixpoint deriv (c : N) (r : re) : option re :=
  match r with
  | RChar p => if p c then Some REps else None
  | REps | REnd => None
  | RSeq a b =>
      alt_o (option_map (λ a', RSeq a' b) (deriv c a)) (if nullable a then deriv c b else None)
  | RAlt a b => alt_o (deriv c a) (deriv c b)
  | RStar a => option_map (λ a', RSeq a' (RStar a)) (deriv c a)
  | ROpt a | RGroup _ a => deriv c a
  end.

Definition lang_o (o : option re) (w : jsstr) : Prop :=
  match o with Some r => lang r w | None => False end.

Lemma lang_nullable r : lang r [] → nullable r = true.
Proof.
  induction r as [p| |a IHa b IHb|a IHa b IHb|a IHa|a IHa|i a IHa|]; cbn [lang nullable]; try done.
  - by intros (? & ? & _).
  - intros (w1 & w2 & E & Ha & Hb). symmetry in E. apply app_nil in E as [-> ->].
    by rewrite IHa, IHb.
  - intros [H|H]; [by rewrite IHa | by rewrite IHb, orb_true_r].
Qed.

Lemma lang_alt_o a b w : lang_o a w ∨ lang_o b w → lang_o (alt_o a b) w.
Proof. destruct a, b; simpl; tauto. Qed.

Lemma lang_deriv r c w : lang r (c :: w) → lang_o (deriv c r) w.
Proof.
  revert w. induction r as [p| |a IHa b IHb|a IHa b IHb|a IHa|a IHa|i a IHa|]; intros w; cbn [lang deriv]; try done.
  - intros (d & [= -> ->] & ->). done.
  - intros (w1 & w2 & E & Ha & Hb). apply lang_alt_o. destruct w1 as [|d w1]; simpl in E.
    + subst w2. right. rewrite (lang_nullable a Ha). by apply IHb.
    + injection E as <- ->. left. apply IHa in Ha. destruct (deriv c a); [|done]. simpl. eauto.
  - intros [H|H]; apply lang_alt_o; auto.
  - intros H. remember (c :: w) as cw eqn:E. induction H as [|w1 w2 Ha Hs IH]; [done|].
    destruct w1 as [|d w1]; [by apply IH|]. injection E as -> <-. apply IHa in Ha.
    destruct (deriv c a); [|done]. simpl. eauto.
  - intros [H|?]; [auto | done].
  - auto.
Qed.

(** The texts that start with [p] have no prefix in the language. *)
Fixpoint refuted (r : re) (p : jsstr) : bool :=
  if nullable r then false
  else match p with
       | [] => false
       | c :: p' => match deriv c r with Some r' => refuted r' p' | None => true end
       end.

(** The expression matches no prefix of the text. *)
Definition fails (r : re) (s : jsstr) : Prop :=
  ∀ (A : Type) (k : jsstr → captures → option A) cs, rmatch r s cs k = None.

Lemma refuted_lang r p w s t : refuted r p = true → p ++ s = w ++ t → ¬ lang r w.
Proof.
  revert r w. induction p as [|c p IH]; intros r w; cbn [refuted];
    (destruct (nullable r) eqn:En; [done|]); [done|].
  intros Hr E Hw. destruct w as [|d w]; [apply lang_nullable in Hw; congruence|].
  injection E as -> E. apply lang_deriv in Hw. destruct (deriv d r) as [r'|]; [|done].
  by apply (IH r' w Hr E).
Qed.

Lemma refuted_fails r p s : refuted r p = true → fails r (p ++ s).
Proof.
  intros H A k cs. destruct (rmatch r (p ++ s) cs k) eqn:E; [|done].
  apply rmatch_lang in E as (w & s' & _ & E & Hw & _). by destruct (refuted_lang r p w s s' H E).
Qed.

(** ** Matches that succeed at the first attempt *)

(** On [w ++ s] the first attempt of [r] consumes [w], with the effect [u] on
    the captures. *)
Definition takes (r : re) (w s : jsstr) (u : captures → captures) : Prop :=
  ∀ (A : Type) (k : jsstr → captures → option A) cs x,
    k s (u cs) = Some x → rmatch r (w ++ s) cs k = Some x.

Lemma takes_match r w s u : takes r w s u → match_here r (w ++ s) = Some (u [], s).
Proof. intros H. by apply H. Qed.

Lemma takes_end r w u : takes r w [] u → match_here (RSeq r REnd) w = Some (u [], []).
Proof.
  intros H. unfold match_here. cbn [rmatch]. rewrite <-(app_nil_r w) at 1. by apply H.
Qed.

Lemma takes_eps s : takes REps [] s id.
Proof. by intros A k cs x. Qed.

Lemma takes_lit w s : takes (rlit w) w s id.
Proof.
  intros A k cs x Hk. induction w as [|c w IH]; [done|].
  cbn [rlit fold_right rmatch app]. rewrite N.eqb_refl. exact IH.
Qed.

(** A run of a class up to a unit outside it, or to the end. *)
Lemma takes_run p w s :
  forallb p w = true → (∀ c, head s = Some c → p c = false) → takes (RStar (RChar p)) w s id.
Proof.
  intros Hw Hs A k cs x Hk. cbn [rmatch].
  assert (∀ fuel, length w ≤ fuel → repeat_match (rmatch (RChar p)) k fuel (w ++ s) cs = Some x) as H.
  { induction w as [|c w IH]; intros fuel Hf.
    - destruct fuel as [|fuel]; [done|]. cbn [app repeat_match].
      destruct s as [|c s]; cbn [rmatch or_else]; [done|]. by rewrite (Hs c).
    - destruct fuel as [|fuel]; [simpl in Hf; lia|]. simpl in Hw. apply andb_true_iff in Hw as [Hc Hw].
      cbn [app repeat_match rmatch]. rewrite Hc. cbn [length].
      rewrite (proj2 (Nat.ltb_lt _ _)) by lia. rewrite IH; [done | done |]. simpl in Hf. lia. }
  apply H. rewrite length_app. lia.
Qed.

Lemma takes_run1 p w s :
  forallb p w = true → w ≠ [] → (∀ c, head s = Some c → p c = false) →
  takes (rplus (RChar p)) w s id.
Proof.
  intros Hw Hne Hs A k cs x Hk. destruct w as [|c w]; [done|]. simpl in Hw.
  apply andb_true_iff in Hw as [Hc Hw]. unfold rplus. cbn [rmatch app]. rewrite Hc.
  by apply (takes_run p w s Hw Hs A k cs x).
Qed.

Lemma takes_seq a b w1 w2 s u1 u2 :
  takes a w1 (w2 ++ s) u1 → takes b w2 s u2 → takes (RSeq a b) (w1 ++ w2) s (λ cs, u2 (u1 cs)).
Proof. intros Ha Hb A k cs x Hk. cbn [rmatch]. rewrite <-app_assoc. apply Ha. by apply Hb. Qed.

(** The first alternative that does not fail; alternatives in front of
    something, whose failure may come from what follows. *)
Lemma takes_alt_l a b w s u : takes a w s u → takes (RAlt a b) w s u.
Proof. intros Ha A k cs x Hk. cbn [rmatch]. by rewrite (Ha A k cs x Hk). Qed.

Lemma takes_alt_r a b w s u : fails a (w ++ s) → takes b w s u → takes (RAlt a b) w s u.
Proof. intros Ha Hb A k cs x Hk. cbn [rmatch]. rewrite (Ha A k cs). by apply Hb. Qed.

Lemma takes_seq_alt_l a b c w s u : takes (RSeq a c) w s u → takes (RSeq (RAlt a b) c) w s u.
Proof. intros H A k cs x Hk. specialize (H A k cs x Hk). cbn [rmatch] in *. by rewrite H. Qed.

Lemma takes_seq_alt_r a b c w s u :
  fails (RSeq a c) (w ++ s) → takes (RSeq b c) w s u → takes (RSeq (RAlt a b) c) w s u.
Proof.
  intros Ha Hb A k cs x Hk. specialize (Ha A k cs). specialize (Hb A k cs x Hk).
  cbn [rmatch] in *. by rewrite Ha.
Qed.

Lemma takes_opt a w s u : takes a w s u → takes (ROpt a) w s u.
Proof. intros Ha A k cs x Hk. cbn [rmatch]. by rewrite (Ha A k cs x Hk). Qed.

Lemma takes_opt_none a s : fails a s → takes (ROpt a) [] s id.
Proof. intros Ha A k cs x Hk. cbn [rmatch app]. by rewrite (Ha A k cs). Qed.

Lemma takes_group i a w s u : takes a w s u → takes (RGroup i a) w s (λ cs, mset i w (u cs)).
Proof.
  intros Ha A k cs x Hk. cbn [rmatch]. apply Ha. rewrite length_app.
  replace (length w + length s - length s) with (length w) by lia. by rewrite take_app_length.
Qed.

(** A run that has to give units back: the shorter ones of what follows fail,
    up to the right one. *)
Section back.
Context {A : Type} (p : N → bool) (s : jsstr) (cs : captures) (k : jsstr → captures → option A).

Lemma run_none v fuel :
  forallb p v = true → (∀ c, head s = Some c → p c = false) →
  (∀ v1 v2, v = v1 ++ v2 → k (v2 ++ s) cs = None) →
  repeat_match (rmatch (RChar p)) k fuel (v ++ s) cs = None.
Proof.
  revert fuel. induction v as [|c v IH]; intros fuel Hv Hs Hk.
  - specialize (Hk [] [] eq_refl). destruct fuel as [|fuel]; [done|]. cbn [app repeat_match].
    destruct s as [|d s']; cbn [rmatch or_else]; [done|]. by rewrite (Hs d).
  - destruct fuel as [|fuel]; [by apply (Hk [] (c :: v))|]. simpl in Hv. apply andb_true_iff in Hv as [Hc Hv].
    cbn [app repeat_match rmatch]. rewrite Hc. cbn [length].
    rewrite (proj2 (Nat.ltb_lt _ _)) by lia. rewrite IH; [by apply (Hk [] (c :: v)) | done..|].
    intros v1 v2 ->. by apply (Hk (c :: v1)).
Qed.

Lemma run_back w v x :
  forallb p w = true → forallb p v = true → (∀ c, head s = Some c → p c = false) →
  (∀ v1 v2, v = v1 ++ v2 → v1 ≠ [] → k (v2 ++ s) cs = None) → k (v ++ s) cs = Some x →
  rmatch (RStar (RChar p)) (w ++ v ++ s) cs k = Some x.
Proof.
  intros Hw Hv Hs Hk Hx. cbn [rmatch].
  assert (∀ fuel, length w ≤ fuel → repeat_match (rmatch (RChar p)) k fuel (w ++ v ++ s) cs = Some x) as H.
  { induction w as [|c w IH]; intros fuel Hf.
    - cbn [app]. destruct fuel as [|fuel]; [done|]. cbn [repeat_match].
      assert (or_else (rmatch (RChar p) (v ++ s) cs (λ s' cs', if length s' <? length (v ++ s)
                         then repeat_match (rmatch (RChar p)) k fuel s' cs' else None)) (k (v ++ s) cs)
              = k (v ++ s) cs) as ->; [|done].
      destruct v as [|c v]; cbn [app rmatch].
      + destruct s as [|d s']; [done|]. by rewrite (Hs d).
      + simpl in Hv. apply andb_true_iff in Hv as [Hc Hv]. rewrite Hc. cbn [length].
        rewrite (proj2 (Nat.ltb_lt _ _)) by lia. rewrite run_none; [done..|].
        intros v1 v2 ->. by apply (Hk (c :: v1)).
    - destruct fuel as [|fuel]; [simpl in Hf; lia|]. simpl in Hw. apply andb_true_iff in Hw as [Hc Hw].
      cbn [app repeat_match rmatch]. rewrite Hc. cbn [length].
      rewrite (proj2 (Nat.ltb_lt _ _)) by lia. rewrite IH; [done | done |]. simpl in Hf. lia. }
  apply H. rewrite length_app. lia.
Qed.
End back.

Lemma takes_group_back i p w v s1 s2 b u :
  forallb p w = true → w ≠ [] → forallb p v = true → (∀ c, head (s1 ++ s2) = Some c → p c = false) →
  (∀ v1 v2, v = v1 ++ v2 → v1 ≠ [] → fails b (v2 ++ s1 ++ s2)) →
  takes b (v ++ s1) s2 u →
  takes (RSeq (RGroup i (rplus (RChar p))) b) (w ++ v ++ s1) s2 (λ cs, u (mset i w cs)).
Proof.
  intros Hw Hne Hv Hs Hb Ht A k cs x Hk. destruct w as [|c w]; [done|]. simpl in Hw.
  apply andb_true_iff in Hw as [Hc Hw]. unfold rplus. rewrite <-!app_assoc.
  change (rmatch (RSeq (RChar p) (RStar (RChar p))) ((c :: w) ++ v ++ s1 ++ s2) cs
            (λ s' cs', rmatch b s' (mset i (take (length ((c :: w) ++ v ++ s1 ++ s2) - length s')
               ((c :: w) ++ v ++ s1 ++ s2)) cs') k) = Some x).
  set (total := (c :: w) ++ v ++ s1 ++ s2).
  cbn [rmatch]. unfold total at 1. cbn [app]. rewrite Hc. apply run_back; [done..| |].
  - intros v1 v2 E Hv1. by apply Hb with v1.
  - unfold total. rewrite (length_app (c :: w)).
    replace (length (c :: w) + length (v ++ s1 ++ s2) - length (v ++ s1 ++ s2)) with (length (c :: w)) by lia.
    rewrite take_app_length. specialize (Ht A k (mset i (c :: w) cs) x Hk). by rewrite <-app_assoc in Ht.
Qed.

(** Turns of a repetition that leaves the captures alone. *)
Lemma takes_star a ws s :
  Forall (λ w, w ≠ []) ws →
  (∀ w ws', w :: ws' `suffix_of` ws → takes a w (concat ws' ++ s) id) → fails a s →
  takes (RStar a) (concat ws) s id.
Proof.
  intros Hne Ha Hs A k cs x Hk. cbn [rmatch].
  assert (∀ ws', ws' `suffix_of` ws → ∀ fuel, length (concat ws') ≤ fuel →
            repeat_match (rmatch a) k fuel (concat ws' ++ s) cs = Some x) as H.
  { induction ws' as [|w ws' IH]; intros Hsuf fuel Hf.
    - destruct fuel as [|fuel]; [done|]. cbn [repeat_match concat app]. by rewrite (Hs A _ cs).
    - assert (w ≠ []) as Hw.
      { rewrite Forall_forall in Hne. apply Hne. destruct Hsuf as [pre ->].
        apply elem_of_app. right. constructor. }
      cbn [concat] in *. rewrite length_app in Hf.
      assert (0 < length w) by (destruct w; [done | simpl; lia]).
      destruct fuel as [|fuel]; [lia|]. cbn [repeat_match]. rewrite <-app_assoc.
      rewrite (Ha w ws' Hsuf A _ cs x); [done|].
      rewrite (proj2 (Nat.ltb_lt _ _)) by (rewrite !length_app; lia). apply IH; [|lia].
      destruct Hsuf as [pre ->]. exists (pre ++ [w]). by rewrite <-app_assoc. }
  apply H; [done|]. rewrite length_app. lia.
Qed.

Lemma takes_star_none a s : fails a s → takes (RStar a) [] s id.
Proof. intros H. apply (takes_star a [] s); [constructor | | done]. intros w ws' [pre E]. by destruct pre. Qed.

(** ** Successive matches *)

Lemma match_all_hit r f w s u :
  takes r w s u → match_all r (S f) (w ++ s) = u [] :: match_all r f s.
Proof. intros H. cbn [match_all]. by rewrite (takes_match r w s u H). Qed.

Lemma match_all_miss r f c s : fails r (c :: s) → match_all r (S f) (c :: s) = match_all r f s.
Proof. intros H. cbn [match_all]. unfold match_here. by rewrite (H _ _ []). Qed.

(** No match at any position of a text. *)
Definition nowhere (r : re) (s : jsstr) : bool :=
  forallb (λ i, match match_here r (drop i s) with Some _ => false | None => true end)
    (seq 0 (S (length s))).

Lemma match_all_nowhere r f s : nowhere r s = true → match_all r f s = [].
Proof.
  unfold nowhere. rewrite forallb_forall_elem. intros H.
  assert (∀ i, i ≤ length s → match_here r (drop i s) = None) as Hn.
  { intros i Hi. specialize (H i). destruct (match_here r (drop i s)); [|done].
    assert (i ∈ seq 0 (S (length s))) as Hin by (apply elem_of_seq; lia). by apply H in Hin. }
  clear H. revert s Hn. induction f as [|f IH]; intros s Hn; [done|]. cbn [match_all].
  pose proof (Hn 0 ltac:(lia)) as H0. rewrite drop_0 in H0. rewrite H0. destruct s as [|c s]; [done|].
  apply IH. intros i Hi. apply (Hn (S i)). simpl. lia.
Qed.

(** Units at none of which a match starts are skipped. *)
Lemma match_all_skip r f w s :
  (∀ c s', c ∈ w → fails r (c :: s')) → match_all r (length w + f) (w ++ s) = match_all r f s.
Proof.
  induction w as [|c w IH]; intros H; [done|]. cbn [length Nat.add app].
  rewrite match_all_miss by (apply H; constructor). apply IH. intros d s' Hd. apply H. by constructor.
Qed.

(** Texts joined by a separator where no match starts. *)
Lemma match_all_joined {W} r sep (text : W → jsstr) (g : W → captures) w ws tail f :
  (∀ w', w' ∈ w :: ws → text w' ≠ [] ∧ ∀ s, ∃ u, takes r (text w') s u ∧ u [] = g w') →
  (∀ c s, c ∈ sep → fails r (c :: s)) → nowhere r tail = true →
  length (text w ++ concat (map (λ w', sep ++ text w') ws) ++ tail) < f →
  match_all r f (text w ++ concat (map (λ w', sep ++ text w') ws) ++ tail) = map g (w :: ws).
Proof.
  intros Hok Hsep Htail. revert w f Hok. induction ws as [|w' ws IH]; intros w f Hok Hf;
    (destruct f as [|f]; [lia|]); destruct (Hok w ltac:(constructor)) as [Hne Hw];
    (edestruct Hw as (u & Hu & Hg); rewrite (match_all_hit _ _ _ _ u Hu), Hg); cbn [map]; f_equal.
  - cbn [map concat app]. by apply match_all_nowhere.
  - cbn [map concat] in *. rewrite <-!app_assoc. rewrite !length_app in Hf.
    assert (0 < length (text w)) by (destruct (text w); [done | simpl; lia]).
    replace f with (length sep + (f - length sep)) by lia. rewrite match_all_skip by done.
    apply IH; [intros v Hv; apply Hok; by constructor|]. rewrite !length_app. lia.
Qed.

(** ** Counting a unit *)

Definition count (c : N) (s : jsstr) : nat := length (List.filter (N.eqb c) s).

Lemma count_app c s s' : count c (s ++ s') = count c s + count c s'.
Proof. unfold count. by rewrite List.filter_app, length_app. Qed.

(** No word of the language has the unit. *)
Fixpoint free_of (c : N) (r : re) : bool :=
  match r with
  | RChar p => negb (p c)
  | REps | REnd => true
  | RSeq a b | RAlt a b => free_of c a && free_of c b
  | RStar a | ROpt a | RGroup _ a => free_of c a
  end.

Lemma free_of_lang c r w : free_of c r = true → lang r w → count c w = 0.
Proof.
  revert w. induction r as [p| |a IHa b IHb|a IHa b IHb|a IHa|a IHa|i a IHa|]; intros w; cbn [free_of lang].
  - intros Hp (d & -> & Hd). unfold count. cbn [List.filter]. destruct (N.eqb_spec c d); [|done].
    subst. by rewrite Hd in Hp.
  - by intros _ ->.
  - intros [Ha Hb]%andb_true_iff (w1 & w2 & -> & H1 & H2). rewrite count_app, IHa, IHb; done.
  - intros [Ha Hb]%andb_true_iff [H|H]; auto.
  - intros Ha Hw. induction Hw as [|w w' Hw _ IH]; [done|]. rewrite count_app, IH. by rewrite (IHa w Ha Hw).
  - intros Ha [H | ->]; auto.
  - auto.
  - by intros _ ->.
Qed.

Lemma lang_lit w0 w : lang (rlit w0) w → w = w0.
Proof.
  revert w. induction w0 as [|c w0 IH]; intros w; [done|].
  change (rlit (c :: w0)) with (RSeq (RChar (N.eqb c)) (rlit w0)). cbn [lang].
  intros (w1 & w2 & -> & (d & -> & <-%N.eqb_eq) & H). by rewrite (IH w2 H).
Qed.
