(* ===== verification/TierExpr.v ===== *)
(** * Tiers of billing expressions (pricing/lib/tier-expr.ts)

    The billing editor shows an expression as a list of tiers: a label, the
    conditions under which it applies, and a cost per unit for each kind of
    token.  This file models the registry of billing variables, the
    normalisation of tiers, the writer and the reader.  The reader is built
    from regular expressions that leave room for backtracking, so they are
    regular expressions of [JsRegExp]. *)

From Stdlib Require Import ZArith.
From S2P Require Import Prelude JsString JsNumber JsCollections Json ExprSplit TimeRange JsRegExp.

(** ** The registry of variables (billing-expr.ts) *)

(** The cost fields of a tier. *)
Inductive TierField :=
  | F_input_unit_cost | F_output_unit_cost
  | F_cache_read_unit_cost | F_cache_create_unit_cost | F_cache_create_1h_unit_cost
  | F_image_unit_cost | F_image_output_unit_cost
  | F_audio_input_unit_cost | F_audio_output_unit_cost.

#[export] Instance TierField_eq_dec : EqDecision TierField.
Proof. solve_decision. Defined.

Inductive Side := SideInput | SideOutput | SideCondition.

Record BillingVar := {
  key : jsstr;
  field : option jsstr;
  tierField : option TierField;
  v_label : jsstr;
  shortLabel : jsstr;
  side : Side;
  isBase : bool;
  isConditionOnly : bool;
  group : option jsstr
}.

Definition BILLING_VARS : list BillingVar := [
  {| key := js "p"; field := Some (js "inputPrice"); tierField := Some F_input_unit_cost;
     v_label := js "Input price"; shortLabel := js "Input"; side := SideInput;
     isBase := true; isConditionOnly := false; group := None |};
  {| key := js "c"; field := Some (js "outputPrice"); tierField := Some F_output_unit_cost;
     v_label := js "Completion price"; shortLabel := js "Output"; side := SideOutput;
     isBase := true; isConditionOnly := false; group := None |};
  {| key := js "len"; field := None; tierField := None;
     v_label := js "Input length"; shortLabel := js "Length"; side := SideCondition;
     isBase := false; isConditionOnly := true; group := None |};
  {| key := js "cr"; field := Some (js "cacheReadPrice"); tierField := Some F_cache_read_unit_cost;
     v_label := js "Cache read price"; shortLabel := js "Cache Read"; side := SideInput;
     isBase := false; isConditionOnly := false; group := Some (js "cache") |};
  {| key := js "cc"; field := Some (js "cacheCreatePrice");
     tierField := Some F_cache_create_unit_cost;
     v_label := js "Cache create price"; shortLabel := js "Cache Write"; side := SideInput;
     isBase := false; isConditionOnly := false; group := Some (js "cache") |};
  {| key := js "cc1h"; field := Some (js "cacheCreate1hPrice");
     tierField := Some F_cache_create_1h_unit_cost;
     v_label := js "Cache create (1h) price"; shortLabel := js "Cache Write (1h)";
     side := SideInput;
     isBase := false; isConditionOnly := false; group := Some (js "cache") |};
  {| key := js "img"; field := Some (js "imagePrice"); tierField := Some F_image_unit_cost;
     v_label := js "Image input price"; shortLabel := js "Image In"; side := SideInput;
     isBase := false; isConditionOnly := false; group := Some (js "media") |};
  {| key := js "img_o"; field := Some (js "imageOutputPrice");
     tierField := Some F_image_output_unit_cost;
     v_label := js "Image output price"; shortLabel := js "Image Out"; side := SideOutput;
     isBase := false; isConditionOnly := false; group := Some (js "media") |};
  {| key := js "ai"; field := Some (js "audioInputPrice");
     tierField := Some F_audio_input_unit_cost;
     v_label := js "Audio input price"; shortLabel := js "Audio In"; side := SideInput;
     isBase := false; isConditionOnly := false; group := Some (js "media") |};
  {| key := js "ao"; field := Some (js "audioOutputPrice");
     tierField := Some F_audio_output_unit_cost;
     v_label := js "Audio output price"; shortLabel := js "Audio Out"; side := SideOutput;
     isBase := false; isConditionOnly := false; group := Some (js "media") |} ].

Definition BILLING_PRICING_VARS : list BillingVar :=
  List.filter (λ v, negb (isConditionOnly v)) BILLING_VARS.

Definition BILLING_CONDITION_VARS : list jsstr :=
  map key (List.filter (λ v, isBase v || isConditionOnly v) BILLING_VARS).

Definition BILLING_EXTRA_VARS : list BillingVar :=
  List.filter (λ v, negb (isBase v) && negb (isConditionOnly v)) BILLING_VARS.

(** The field and the variable of each extra; every one of them has a field. *)
Definition BILLING_CACHE_VAR_MAP : list (TierField * jsstr) :=
  omap (λ v, f ← tierField v; Some (f, key v)) BILLING_EXTRA_VARS.

(** ** Tiers *)

Inductive CacheMode := CACHE_MODE_TIMED | CACHE_MODE_GENERIC.

#[export] Instance CacheMode_eq_dec : EqDecision CacheMode.
Proof. solve_decision. Defined.

Inductive TokenVar := Var_p | Var_c | Var_len.
Inductive TokenOp := Op_lt | Op_le | Op_gt | Op_ge.

#[export] Instance TokenVar_eq_dec : EqDecision TokenVar.
Proof. solve_decision. Defined.

#[export] Instance TokenOp_eq_dec : EqDecision TokenOp.
Proof. solve_decision. Defined.

(** The bound of a token condition: [number | string]. *)
Inductive TokenValue := ValNum (n : num) | ValStr (s : jsstr).

#[export] Instance TokenValue_eq_dec : EqDecision TokenValue.
Proof. solve_decision. Defined.

Inductive TierConditionInput :=
  | TokenTierCondition (var : TokenVar) (op : TokenOp) (value : TokenValue)
  | VisualTimeRangeCondition (condition : TimeRangeCondition).

#[export] Instance TierConditionInput_eq_dec : EqDecision TierConditionInput.
Proof. solve_decision. Defined.

(** The optional costs. *)
Record ExtraCosts := {
  cache_read_unit_cost : option num;
  cache_create_unit_cost : option num;
  cache_create_1h_unit_cost : option num;
  image_unit_cost : option num;
  image_output_unit_cost : option num;
  audio_input_unit_cost : option num;
  audio_output_unit_cost : option num
}.

#[export] Instance ExtraCosts_eq_dec : EqDecision ExtraCosts.
Proof. solve_decision. Defined.

Record VisualTier := {
  label : jsstr;
  conditions : list TierConditionInput;
  input_unit_cost : num;
  output_unit_cost : num;
  cache_mode : CacheMode;
  extra_costs : ExtraCosts
}.

#[export] Instance VisualTier_eq_dec : EqDecision VisualTier.
Proof. solve_decision. Defined.

(** [Partial<VisualTier>]. *)
Record PartialTier := {
  p_label : option jsstr;
  p_conditions : option (list TierConditionInput);
  p_input_unit_cost : option num;
  p_output_unit_cost : option num;
  p_cache_mode : option CacheMode;
  p_extra_costs : ExtraCosts
}.

Record VisualConfig := { tiers : list VisualTier }.

#[export] Instance VisualConfig_eq_dec : EqDecision VisualConfig.
Proof. solve_decision. Defined.

Definition no_extra_costs : ExtraCosts :=
  {| cache_read_unit_cost := None; cache_create_unit_cost := None;
     cache_create_1h_unit_cost := None; image_unit_cost := None;
     image_output_unit_cost := None; audio_input_unit_cost := None;
     audio_output_unit_cost := None |}.

Definition extra_cost (c : ExtraCosts) (f : TierField) : option num :=
  match f with
  | F_cache_read_unit_cost => cache_read_unit_cost c
  | F_cache_create_unit_cost => cache_create_unit_cost c
  | F_cache_create_1h_unit_cost => cache_create_1h_unit_cost c
  | F_image_unit_cost => image_unit_cost c
  | F_image_output_unit_cost => image_output_unit_cost c
  | F_audio_input_unit_cost => audio_input_unit_cost c
  | F_audio_output_unit_cost => audio_output_unit_cost c
  | F_input_unit_cost | F_output_unit_cost => None
  end.

(** The record with the costs that a function gives for the optional fields. *)
Definition costs_of (f : TierField → option num) : ExtraCosts :=
  {| cache_read_unit_cost := f F_cache_read_unit_cost;
     cache_create_unit_cost := f F_cache_create_unit_cost;
     cache_create_1h_unit_cost := f F_cache_create_1h_unit_cost;
     image_unit_cost := f F_image_unit_cost;
     image_output_unit_cost := f F_image_output_unit_cost;
     audio_input_unit_cost := f F_audio_input_unit_cost;
     audio_output_unit_cost := f F_audio_output_unit_cost |}.

(** [tier[field] = cost]. *)
Definition set_cost (c : ExtraCosts) (f : TierField) (cost : num) : ExtraCosts :=
  costs_of (λ f', if decide (f' = f) then Some cost else extra_cost c f').

(** [Number(cost) || 0] for an optional cost; [Number(undefined)] is NaN. *)
Definition cost_or_0 (cost : option num) : num := num_or (default num_nan cost) num_zero.

(** ** Normalisation *)

Definition getTierCacheMode (tier : option PartialTier) : CacheMode :=
  match tier ≫= p_cache_mode with
  | Some mode => mode
  | None =>
      let hourly := default num_nan (t ← tier; cache_create_1h_unit_cost (p_extra_costs t)) in
      if num_ltb num_zero hourly then CACHE_MODE_TIMED else CACHE_MODE_GENERIC
  end.

(** The fields of the argument override the first five defaults; the optional
    costs are normalised in any case. *)
Definition normalizeVisualTier (tier : PartialTier) : VisualTier :=
  {| label := default [] (p_label tier);
     conditions := default [] (p_conditions tier);
     input_unit_cost := default (cost_or_0 (p_input_unit_cost tier)) (p_input_unit_cost tier);
     output_unit_cost := default (cost_or_0 (p_output_unit_cost tier)) (p_output_unit_cost tier);
     cache_mode := default (getTierCacheMode (Some tier)) (p_cache_mode tier);
     extra_costs := costs_of (λ f, Some (cost_or_0 (extra_cost (p_extra_costs tier) f))) |}.

(** A whole tier as a partial one. *)
Definition as_partial (t : VisualTier) : PartialTier :=
  {| p_label := Some (label t); p_conditions := Some (conditions t);
     p_input_unit_cost := Some (input_unit_cost t);
     p_output_unit_cost := Some (output_unit_cost t);
     p_cache_mode := Some (cache_mode t); p_extra_costs := extra_costs t |}.

Definition createDefaultVisualConfig : VisualConfig :=
  {| tiers := [normalizeVisualTier
       {| p_label := Some (js "base"); p_conditions := Some [];
          p_input_unit_cost := Some num_zero; p_output_unit_cost := Some num_zero;
          p_cache_mode := Some CACHE_MODE_GENERIC; p_extra_costs := no_extra_costs |}] |}.

Definition normalizeVisualConfig (config : option VisualConfig) : VisualConfig :=
  match config with
  | Some c =>
      if bool_decide (tiers c = []) then createDefaultVisualConfig
      else {| tiers := map (λ tier, normalizeVisualTier (as_partial tier)) (tiers c) |}
  | None => createDefaultVisualConfig
  end.

(** ** Writing *)

Definition token_var_text (v : TokenVar) : jsstr :=
  match v with Var_p => js "p" | Var_c => js "c" | Var_len => js "len" end.

Definition token_op_text (o : TokenOp) : jsstr :=
  match o with Op_lt => js "<" | Op_le => js "<=" | Op_gt => js ">" | Op_ge => js ">=" end.

Definition token_value_text (v : TokenValue) : jsstr :=
  match v with ValNum n => num_to_string n | ValStr s => s end.

(** One condition; [None] when it is dropped. *)
Definition condition_text (condition : TierConditionInput) : option jsstr :=
  match condition with
  | VisualTimeRangeCondition c => buildTimeRangeConditionExpr c
  | TokenTierCondition var op value =>
      if bool_decide (value = ValStr []) then None
      else Some (token_var_text var ++ js " " ++ token_op_text op ++ js " "
                 ++ token_value_text value)
  end.

Definition buildConditionStr (conditions : list TierConditionInput) : jsstr :=
  join (js " && ") (omap condition_text conditions).

(** The terms of the optional costs that are not zero. *)
Definition extra_terms (tier : VisualTier) : list jsstr :=
  omap (λ '(field, exprVar),
          let v := cost_or_0 (extra_cost (extra_costs tier) field) in
          if num_eqb v num_zero then None
          else Some (exprVar ++ js " * " ++ num_to_string v))
    BILLING_CACHE_VAR_MAP.

Definition buildTierBodyExpr (tier : VisualTier) : jsstr :=
  let ic := num_or (input_unit_cost tier) num_zero in
  let oc := num_or (output_unit_cost tier) num_zero in
  join (js " + ") ((js "p * " ++ num_to_string ic) :: (js "c * " ++ num_to_string oc)
                   :: extra_terms tier).

(** [tier(label, body)], the label in double quotes. *)
Definition tier_call (label body : jsstr) : jsstr :=
  jq "tier(`" ++ label ++ jq "`, " ++ body ++ js ")".

(** A tier of a list of several, at index [i]; the last one is the
    alternative to the others and is written without its conditions. *)
Definition tier_part (last : bool) (i : nat) (tier : VisualTier) : jsstr :=
  let label := str_or (label tier) (js "tier_" ++ dec_of_N (N.of_nat (S i))) in
  let body := tier_call label (buildTierBodyExpr tier) in
  let cond := buildConditionStr (conditions tier) in
  if negb last && truthy_str cond then cond ++ js " ? " ++ body else body.

Definition generateExprFromVisualConfig (config : option VisualConfig) : jsstr :=
  match config with
  | None | Some {| tiers := [] |} => js "p * 0 + c * 0"
  | Some {| tiers := [tier] |} =>
      let label := str_or (label tier) (js "default") in
      let body := tier_call label (buildTierBodyExpr tier) in
      let cond := buildConditionStr (conditions tier) in
      if truthy_str cond then cond ++ js " ? " ++ body ++ js " : p * 0 + c * 0" else body
  | Some {| tiers := ts |} =>
      join (js " : ") (imap (λ i, tier_part (i =? pred (length ts)) i) ts)
  end.

(** ** The regular expressions of the reader *)

(** [[\d.eE+-]] and [[\d.eE+]]. *)
Definition cost_unit (c : N) : bool :=
  is_digit c || (c =? 46)%N || (c =? 101)%N || (c =? 69)%N || (c =? 43)%N || (c =? 45)%N.
Definition bound_unit (c : N) : bool :=
  is_digit c || (c =? 46)%N || (c =? 101)%N || (c =? 69)%N || (c =? 43)%N.
Definition unquoted_unit (c : N) : bool := negb (c =? 34)%N.

Definition re_cost (i : nat) : re := RGroup i (rplus (RChar cost_unit)).

(** One optional term of [optCacheStr]. *)
Definition re_extra (i : nat) (v : jsstr) : re :=
  ROpt (rseq [rws; rlit (js "+"); rws; rlit v; rws; rlit (js "*"); rws; re_cost i]).

Definition optCacheStr (i : nat) : re :=
  rseq (imap (λ k '(_, v), re_extra (i + k) v) BILLING_CACHE_VAR_MAP).

(** [bodyPat], its groups numbered from [i]. *)
Definition bodyPat (i : nat) : re :=
  rseq [rlit (js "p"); rws; rlit (js "*"); rws; re_cost i; rws; rlit (js "+"); rws;
        rlit (js "c"); rws; rlit (js "*"); rws; re_cost (S i); optCacheStr (S (S i))].

(** [tier(label, body)] with the label in group [i]. *)
Definition re_tier (i : nat) : re :=
  rseq [rlit (jq "tier(`"); RGroup i (RStar (RChar unquoted_unit)); rlit (jq "`,"); rws;
        bodyPat (S i); rlit (js ")")].

Definition singleRe : re := RSeq (re_tier 1) REnd.

(** [timeRangeConditionPattern()], as a regular expression. *)
Definition re_minute : re :=
  rseq [rlit (jq "hour(`"); rplus (RChar unquoted_unit); rlit (jq "`)"); rws; rlit (js "*"); rws;
        rlit (js "60"); rws; rlit (js "+"); rws; rlit (jq "minute(`");
        rplus (RChar unquoted_unit); rlit (jq "`)")].
Definition re_segment : re :=
  rseq [rlit (js "("); re_minute; rws; rlit (js ">="); rws; rplus (RChar is_digit); rws;
        ralt (rlit (js "&&")) [rlit (js "||")]; rws; re_minute; rws; rlit (js "<="); rws;
        rplus (RChar is_digit); rlit (js ")")].
Definition re_time : re :=
  ralt re_segment
    [rseq [rlit (js "("); re_segment; rplus (rseq [rws; rlit (js "||"); rws; re_segment]);
           rlit (js ")")]].

Definition re_var : re := ralt (rlit (js "p")) [rlit (js "c"); rlit (js "len")].
Definition re_op : re := ralt (rlit (js "<")) [rlit (js "<="); rlit (js ">"); rlit (js ">=")].
Definition re_clause : re :=
  ralt re_time [rseq [re_var; rws; re_op; rws; rplus (RChar bound_unit)]].
Definition condGroup : re :=
  RGroup 1 (RSeq re_clause (RStar (rseq [rws; rlit (js "&&"); rws; re_clause]))).

Definition tierRe : re := RSeq (ROpt (rseq [condGroup; rws; rlit (js "?"); rws])) (re_tier 2).

(** [^(p|c|len)\s*(<|<=|>|>=)\s*([\d.eE+]+)$]. *)
Definition clauseRe : re :=
  rseq [RGroup 1 re_var; rws; RGroup 2 re_op; rws; RGroup 3 (rplus (RChar bound_unit)); REnd].

(** ** Reading *)

(** The text behind a version prefix: [v], digits and a colon. *)
Definition strip_version (s : jsstr) : jsstr :=
  match s with
  | 118%N :: r =>
      match span_digits r with
      | (_ :: _, 58%N :: body) => body
      | _ => s
      end
  | _ => s
  end.

Definition group_text (i : nat) (m : captures) : jsstr := default [] (mget i m).

(** The tier of a match whose groups start at [i]: label, input cost, output
    cost and the optional costs. *)
Definition match_tier (i : nat) (conditions : list TierConditionInput) (m : captures) : VisualTier :=
  normalizeVisualTier
    {| p_label := Some (group_text i m); p_conditions := Some conditions;
       p_input_unit_cost := Some (num_of_string (group_text (i + 1) m));
       p_output_unit_cost := Some (num_of_string (group_text (i + 2) m));
       p_cache_mode := None;
       p_extra_costs :=
         fold_left (λ c '(k, (field, _)),
                      match mget (i + 3 + k) m with
                      | Some val => set_cost c field (num_of_string val)
                      | None => c
                      end)
           (imap pair BILLING_CACHE_VAR_MAP) no_extra_costs |}.

Definition token_var_of (s : jsstr) : option TokenVar :=
  if bool_decide (s = js "p") then Some Var_p
  else if bool_decide (s = js "c") then Some Var_c
  else if bool_decide (s = js "len") then Some Var_len else None.

Definition token_op_of (s : jsstr) : option TokenOp :=
  if bool_decide (s = js "<") then Some Op_lt
  else if bool_decide (s = js "<=") then Some Op_le
  else if bool_decide (s = js ">") then Some Op_gt
  else if bool_decide (s = js ">=") then Some Op_ge else None.

(** A clause of a condition; one that is neither kind is passed over. *)
Definition read_clause (cp : jsstr) : option TierConditionInput :=
  match parseTimeRangeCondition cp with
  | Some c => Some (VisualTimeRangeCondition c)
  | None =>
      '(cm, _) ← match_here clauseRe (trim cp);
      var ← token_var_of (group_text 1 cm);
      op ← token_op_of (group_text 2 cm);
      Some (TokenTierCondition var op (ValNum (num_of_string (group_text 3 cm))))
  end.

Definition read_conditions (condStr : jsstr) : list TierConditionInput :=
  if truthy_str condStr then omap read_clause (splitTopLevelAnd condStr) else [].

Definition tryParseVisualConfig (exprStr : jsstr) : option VisualConfig :=
  if negb (truthy_str exprStr) then None
  else
    let body := strip_version exprStr in
    match match_here singleRe body with
    | Some (simple, _) =>
        Some (normalizeVisualConfig (Some {| tiers := [match_tier 1 [] simple] |}))
    | None =>
        let tiers := map (λ m, match_tier 2 (read_conditions (group_text 1 m)) m)
                       (match_all tierRe (S (length body)) body) in
        if bool_decide (tiers = []) then None
        else
          let cfg := normalizeVisualConfig (Some {| tiers := tiers |}) in
          let regenerated := generateExprFromVisualConfig (Some cfg) in
          if bool_decide (strip_ws regenerated = strip_ws body) then Some cfg else None
    end.

(** ** Which variables an expression mentions *)

(** The variables of [ESTIMATOR_VARS]. *)
Definition ESTIMATOR_VARS : list jsstr :=
  [js "cr"; js "cc"; js "cc1h"; js "img"; js "img_o"; js "ai"; js "ao"].

(** [\w]. *)
Definition word_unit (c : N) : bool :=
  is_digit c || ((65 <=? c) && (c <=? 90))%N || ((97 <=? c) && (c <=? 122))%N || (c =? 95)%N.

Definition at_boundary (word : bool) (s : jsstr) : bool :=
  xorb word (match s with c :: _ => word_unit c | [] => false end).

(** A match of [\b(v1|v2|..)\b] at or behind a position; [word] tells whether
    the unit before it is one of [\w]. *)
Fixpoint mentions (vars : list jsstr) (word : bool) (s : jsstr) : bool :=
  (at_boundary word s
   && existsb (λ v, match strip_prefix v s with
                    | Some rest => at_boundary (match last v with Some c => word_unit c | None => word end) rest
                    | None => false
                    end) vars)
  || match s with [] => false | c :: s' => mentions vars (word_unit c) s' end.

Definition exprUsesExtraVars (exprStr : jsstr) : bool :=
  if negb (truthy_str exprStr) then false else mentions ESTIMATOR_VARS false exprStr.
