(* ===== verification/TierExprSpec.v ===== *)
(** * What the tier editor writes, it reads back (pricing/lib/tier-expr.ts)

    The writer of [TierExpr] against its reader.  Every piece of text the
    writer produces is consumed by the matching part of the reader's regular
    expression at the first attempt ([takes]); that nothing else matches is
    shown by derivatives ([refuted]).  The round trip covers token conditions,
    time windows, several tiers and the optional costs. *)

From Stdlib Require Import ZArith.
From S2P Require Import Prelude JsString JsNumber JsNumberFacts JsCollections Json ExprSplit.
From S2P Require Import TimeRange TimeRangeSpec JsRegExp TierExpr.

(** ** The units of printed numbers *)

Lemma forallb_weaken {A} (p q : A → bool) l :
  (∀ x, p x = true → q x = true) → forallb p l = true → forallb q l = true.
Proof. intros H. rewrite !forallb_forall_elem. auto. Qed.

Lemma digit_cost_unit c : is_digit c = true → cost_unit c = true.
Proof. unfold cost_unit. by intros ->. Qed.

Lemma digits_cost_units s : forallb is_digit s = true → forallb cost_unit s = true.
Proof. apply forallb_weaken, digit_cost_unit. Qed.

Lemma dec_cost_units n : forallb cost_unit (dec_of_N n) = true.
Proof. apply digits_cost_units, dec_of_N_digits. Qed.

Lemma zeros_cost_units n : forallb cost_unit (zeros n) = true.
Proof.
  apply forallb_forall_elem. unfold zeros. by intros c [-> _]%elem_of_replicate.
Qed.

Lemma forallb_take {A} (p : A → bool) n l : forallb p l = true → forallb p (take n l) = true.
Proof. rewrite !forallb_forall_elem. intros H x Hx. eapply H, subseteq_take, Hx. Qed.

Lemma forallb_drop {A} (p : A → bool) n l : forallb p l = true → forallb p (drop n l) = true.
Proof. rewrite !forallb_forall_elem. intros H x Hx. eapply H, subseteq_drop, Hx. Qed.

Lemma layout_units ds k n :
  forallb cost_unit ds = true → ds ≠ [] →
  forallb cost_unit (layout_number ds k n) = true ∧ layout_number ds k n ≠ [].
Proof.
  intros Hds Hne. unfold layout_number.
  assert (forallb cost_unit (js "e-") = true ∧ forallb cost_unit (js "e+") = true
          ∧ forallb cost_unit (js ".") = true ∧ forallb cost_unit (js "0.") = true) as (He1 & He2 & Hd & H0)
    by (split_and!; reflexivity).
  generalize dependent (js "e-"). generalize dependent (js "e+"). generalize dependent (js ".").
  intros dot Hd ep He2 em He1.
  destruct ((k <=? n)%Z && (n <=? 21)%Z).
  { rewrite forallb_app, Hds, zeros_cost_units. split; [done|]. by destruct ds. }
  destruct ((0 <? n)%Z && (n <=? 21)%Z) eqn:E.
  { rewrite !forallb_app, Hd, forallb_take, forallb_drop by done. split; [done|].
    destruct ds; [done|]. destruct (Z.to_nat n) eqn:En; [|done].
    apply andb_true_iff in E as [E%Z.ltb_lt _]. lia. }
  destruct ((-6 <? n)%Z && (n <=? 0)%Z).
  { rewrite !forallb_app, Hds, zeros_cost_units, H0. done. }
  set (es := (if (n - 1 <? 0)%Z then em else ep) ++ dec_of_N (Z.to_N (Z.abs (n - 1)))).
  assert (forallb cost_unit es = true) as Hes.
  { unfold es. rewrite forallb_app, dec_cost_units. destruct (n - 1 <? 0)%Z; [rewrite He1 | rewrite He2]; done. }
  clearbody es. destruct ds as [|d [|d' ds]]; [done|..]; split; try done.
  - change (forallb cost_unit ([d] ++ es) = true). by rewrite forallb_app, Hds.
  - change (forallb cost_unit ([d] ++ dot ++ (d' :: ds) ++ es) = true).
    change (forallb cost_unit ([d] ++ (d' :: ds)) = true) in Hds.
    rewrite forallb_app in Hds. apply andb_true_iff in Hds as [H1 H2].
    by rewrite !forallb_app, H1, Hd, H2, Hes.
Qed.

(** A finite number prints as a nonempty run of [[\d.eE+-]]. *)
Lemma num_units x :
  num_is_finite x = true → forallb cost_unit (num_to_string x) = true ∧ num_to_string x ≠ [].
Proof.
  destruct x as [s|s| |s m e]; try done; intros _.
  assert (∀ z, forallb cost_unit (dec_of_Z z) = true ∧ dec_of_Z z ≠ []) as Hz.
  { intros z. unfold dec_of_Z. destruct (_ <? _)%Z; simpl; rewrite dec_cost_units; split; try done.
    apply dec_of_N_nonempty. }
  assert (∀ t, forallb cost_unit t = true ∧ t ≠ [] →
            forallb cost_unit ((if s then js "-" else []) ++ t) = true
            ∧ (if s then js "-" else []) ++ t ≠ []) as Hs.
  { intros t [Ht Hne]. destruct s; [|done]. split; [exact Ht | done]. }
  unfold num_to_string. destruct (num_to_Z _) as [z|].
  - destruct (_ <? _)%Z; [apply Hz|]. destruct (shortest_digits _ _ _ _ _ _) as [[sig k] n].
    apply Hs, layout_units; [apply dec_cost_units | apply dec_of_N_nonempty].
  - destruct (shortest_digits _ _ _ _ _ _) as [[sig k] n].
    apply Hs, layout_units; [apply dec_cost_units | apply dec_of_N_nonempty].
Qed.

Lemma cost_unit_not_ws c : cost_unit c = true → is_ws c = false.
Proof.
  unfold cost_unit. rewrite !orb_true_iff. intros [[[[[H|H]|H]|H]|H]|H];
    [by apply digit_not_ws|..]; apply N.eqb_eq in H; subst; reflexivity.
Qed.

Lemma bound_cost_unit c : bound_unit c = true → cost_unit c = true.
Proof. unfold bound_unit, cost_unit. by intros ->. Qed.

(** A cost of a tier as its text and back. *)
Definition prints_back (x : num) : bool := bool_decide (num_of_string (num_to_string x) = x).
Definition cost_ok (x : num) : bool := num_is_finite x && prints_back x.

Lemma cost_ok_spec x :
  cost_ok x = true →
  forallb cost_unit (num_to_string x) = true ∧ num_to_string x ≠ []
  ∧ num_of_string (num_to_string x) = x.
Proof.
  unfold cost_ok, prints_back. intros [Hf Hb%bool_decide_eq_true]%andb_true_iff.
  destruct (num_units x Hf). done.
Qed.

(** ** Sequences of pieces *)

Lemma takes_cons r l w1 w2 s u1 u2 :
  takes r w1 (w2 ++ s) u1 → takes (rseq l) w2 s u2 →
  takes (rseq (r :: l)) (w1 ++ w2) s (λ cs, u2 (u1 cs)).
Proof. apply takes_seq. Qed.

Lemma takes_ext r w s u u' : takes r w s u → (∀ cs, u cs = u' cs) → takes r w s u'.
Proof. intros H E A k cs x. rewrite <-E. apply H. Qed.

Lemma takes_nil s : takes (rseq []) [] s id.
Proof. apply takes_eps. Qed.

Lemma takes_last r w s u : takes r w s u → takes (rseq [r]) w s u.
Proof.
  intros H. rewrite <-(app_nil_r w). apply (takes_cons r [] w [] s u id); [exact H | apply takes_nil].
Qed.

(** A blank, or none, before something that is not blank. *)
Definition no_ws_head (s : jsstr) : Prop := ∀ c, head s = Some c → is_ws c = false.

Lemma takes_blank s : no_ws_head s → takes rws [32%N] s id.
Proof. intros H. by apply takes_run. Qed.

Lemma no_ws_head_app w s : w ≠ [] → no_ws_head w → no_ws_head (w ++ s).
Proof. destruct w; [done|]. intros _ H c. apply H. Qed.

Lemma cost_no_ws_head w : forallb cost_unit w = true → no_ws_head w.
Proof.
  intros H c Hc. destruct w as [|d w]; [done|]. injection Hc as <-.
  simpl in H. apply andb_true_iff in H as [H _]. by apply cost_unit_not_ws.
Qed.

(** The next piece of a sequence: a literal, or a blank before a unit that is
    visible. *)
Ltac take_lit w := eapply (takes_cons _ _ w); [apply takes_lit|].
Ltac take_blank := eapply (takes_cons _ _ [32%N]); [apply takes_blank; by intros ? [= <-]|].

(** A cost up to a unit that cannot continue it. *)
Definition no_cost_head (s : jsstr) : Prop := ∀ c, head s = Some c → cost_unit c = false.

Lemma takes_cost i x s :
  cost_ok x = true → no_cost_head s →
  takes (re_cost i) (num_to_string x) s (mset i (num_to_string x)).
Proof.
  intros (Hu & Hne & _)%cost_ok_spec Hs.
  exact (takes_group i _ _ _ id (takes_run1 _ _ _ Hu Hne Hs)).
Qed.

Lemma cost_head x s : cost_ok x = true → no_ws_head (num_to_string x ++ s).
Proof.
  intros (Hu & Hne & _)%cost_ok_spec. apply no_ws_head_app; [done|]. by apply cost_no_ws_head.
Qed.

(** ** The optional costs *)

(** The expression of one optional term, without the question mark. *)
Definition re_term (i : nat) (v : jsstr) : re :=
  rseq [rws; rlit (js "+"); rws; rlit v; rws; rlit (js "*"); rws; re_cost i].

Definition term_prefix (v : jsstr) : jsstr := js " + " ++ v ++ js " * ".

(** No term is read for a later one or for the end of the call. *)
Fixpoint vars_ok (i : nat) (vs : list (TierField * jsstr)) : bool :=
  match vs with
  | [] => true
  | (_, v) :: vs' =>
      match head v with Some c => negb (is_ws c) | None => false end
      && refuted (re_term i v) (js ")")
      && forallb (λ '(_, v'), refuted (re_term i v) (term_prefix v')) vs'
      && vars_ok (S i) vs'
  end.

Section extras.
Context (g : TierField → num).

Definition term_text (fv : TierField * jsstr) : jsstr :=
  if num_eqb (g (fst fv)) num_zero then []
  else term_prefix (snd fv) ++ num_to_string (g (fst fv)).

Definition terms_text (vs : list (TierField * jsstr)) : jsstr := concat (map term_text vs).

(** The captures behind the terms. *)
Fixpoint extra_groups (i : nat) (vs : list (TierField * jsstr)) (cs : captures) : captures :=
  match vs with
  | [] => cs
  | (f, _) :: vs' =>
      extra_groups (S i) vs'
        (if num_eqb (g f) num_zero then cs else mset i (num_to_string (g f)) cs)
  end.

Lemma terms_head vs s :
  terms_text vs ++ 41%N :: s = 41%N :: s
  ∨ ∃ f v r, (f, v) ∈ vs ∧ terms_text vs ++ 41%N :: s = term_prefix v ++ r.
Proof.
  induction vs as [|[f v] vs IH]; [by left|].
  change (terms_text ((f, v) :: vs)) with (term_text (f, v) ++ terms_text vs).
  unfold term_text. cbn [fst snd]. destruct (num_eqb (g f) num_zero).
  - destruct IH as [IH|(f' & v' & r & Hin & IH)]; [by left|]. right. exists f', v', r.
    split; [by constructor | exact IH].
  - right. exists f, v. rewrite <-!app_assoc. eexists. split; [constructor | done].
Qed.

Lemma terms_no_cost_head vs s : no_cost_head (terms_text vs ++ 41%N :: s).
Proof.
  destruct (terms_head vs s) as [->|(f & v & r & _ & ->)]; by intros c [= <-].
Qed.

Lemma takes_term i v x s :
  no_ws_head v → v ≠ [] → cost_ok x = true → no_cost_head s →
  takes (re_term i v) (term_prefix v ++ num_to_string x) s (mset i (num_to_string x)).
Proof.
  intros Hv Hne Hx Hs. unfold re_term.
  assert (term_prefix v ++ num_to_string x
          = [32%N] ++ js "+" ++ [32%N] ++ v ++ [32%N] ++ js "*" ++ [32%N] ++ num_to_string x) as ->.
  { unfold term_prefix. assert (js " + " = [32%N] ++ js "+" ++ [32%N]) as -> by reflexivity.
    assert (js " * " = [32%N] ++ js "*" ++ [32%N]) as -> by reflexivity. by rewrite <-!app_assoc. }
  eapply takes_ext.
  - take_blank. take_lit (js "+").
    eapply (takes_cons _ _ [32%N]); [apply takes_blank; rewrite <-app_assoc; by apply no_ws_head_app|].
    take_lit v. take_blank. take_lit (js "*").
    eapply (takes_cons _ _ [32%N]); [apply takes_blank; by apply cost_head|].
    apply takes_last. by apply takes_cost.
  - done.
Qed.

Lemma takes_extras i vs s :
  vars_ok i vs = true → (∀ f, cost_ok (g f) = true) →
  takes (rseq (imap (λ k '(_, v), re_extra (i + k) v) vs)) (terms_text vs) (41%N :: s)
    (extra_groups i vs).
Proof.
  intros Hvs Hg. revert i Hvs. induction vs as [|[f v] vs IH]; intros i Hvs; [apply takes_nil|].
  cbn [vars_ok] in Hvs. rewrite !andb_true_iff in Hvs. destruct Hvs as [[[Hv Hend] Hall] Hvs].
  assert (imap (λ k '(_, v), re_extra (i + k) v) ((f, v) :: vs)
          = re_extra i v :: imap (λ k '(_, v), re_extra (S i + k) v) vs) as ->.
  { cbn [imap]. rewrite Nat.add_0_r. f_equal. apply imap_ext. intros k [? ?] _. cbn [compose].
    by rewrite Nat.add_succ_r. }
  change (terms_text ((f, v) :: vs)) with (term_text (f, v) ++ terms_text vs).
  specialize (IH (S i) Hvs). unfold term_text. cbn [fst snd extra_groups].
  destruct (num_eqb (g f) num_zero) eqn:E.
  - apply (takes_cons _ _ [] _ _ id); [|exact IH]. apply takes_opt_none.
    destruct (terms_head vs s) as [->|(f' & v' & r & Hin & ->)].
    + exact (refuted_fails _ (js ")") s Hend).
    + rewrite forallb_forall_elem in Hall. by apply refuted_fails, (Hall (f', v')).
  - apply (takes_cons _ _ _ _ _ (mset i (num_to_string (g f)))); [|exact IH]. apply takes_opt.
    apply takes_term; [| |done | apply terms_no_cost_head].
    + intros c Hc. rewrite Hc in Hv. by apply negb_true_iff in Hv.
    + by intros ->.
Qed.

(** What the captures hold. *)
Lemma mget_extra_groups i vs cs k :
  mget k (extra_groups i vs cs)
  = match (if k <? i then None else vs !! (k - i)) with
    | Some (f, _) => if num_eqb (g f) num_zero then mget k cs else Some (num_to_string (g f))
    | None => mget k cs
    end.
Proof.
  revert i cs. induction vs as [|[f v] vs IH]; intros i cs; cbn [extra_groups].
  - by destruct (k <? i).
  - rewrite IH. destruct (Nat.ltb_spec k (S i)), (Nat.ltb_spec k i); try lia.
    + destruct (num_eqb _ _); [done|]. by rewrite mget_mset_ne by lia.
    + assert (k = i) as -> by lia. rewrite Nat.sub_diag. cbn.
      destruct (num_eqb _ _); [done | by rewrite mget_mset_eq].
    + replace (k - i) with (S (k - S i)) by lia. cbn [lookup list_lookup].
      destruct (num_eqb (g f) num_zero); [done|]. by rewrite mget_mset_ne by lia.
Qed.
End extras.

Lemma cache_vars_ok i : vars_ok i BILLING_CACHE_VAR_MAP = true.
Proof. vm_compute. reflexivity. Qed.

(** ** A tier *)

Definition in_cost (t : VisualTier) : num := num_or (input_unit_cost t) num_zero.
Definition out_cost (t : VisualTier) : num := num_or (output_unit_cost t) num_zero.
Definition opt_cost (t : VisualTier) (f : TierField) : num :=
  cost_or_0 (extra_cost (extra_costs t) f).

(** All costs print exactly. *)
Definition costs_ok (t : VisualTier) : bool :=
  cost_ok (in_cost t) && cost_ok (out_cost t)
  && forallb (λ '(f, _), cost_ok (opt_cost t f)) BILLING_CACHE_VAR_MAP.

Lemma cost_ok_0 : cost_ok num_zero = true.
Proof. vm_compute. reflexivity. Qed.

Lemma opt_cost_ok t f : costs_ok t = true → cost_ok (opt_cost t f) = true.
Proof.
  unfold costs_ok. rewrite !andb_true_iff. cbn. rewrite !andb_true_iff.
  intros [_ H]. destruct f; try exact cost_ok_0; tauto.
Qed.

Lemma join_concat {sep} a l : join sep (a :: l) = a ++ concat (map (λ w, sep ++ w) l).
Proof.
  revert a; induction l as [|b l IH]; intros a; [by rewrite app_nil_r|].
  change (join sep (a :: b :: l)) with (a ++ sep ++ join sep (b :: l)).
  rewrite IH. cbn [map concat]. by rewrite <-!app_assoc.
Qed.

Lemma extra_terms_text t :
  concat (map (λ w, js " + " ++ w) (extra_terms t)) = terms_text (opt_cost t) BILLING_CACHE_VAR_MAP.
Proof.
  unfold extra_terms, terms_text. induction BILLING_CACHE_VAR_MAP as [|[f v] vs IH]; [done|].
  cbn [map concat omap list_omap]. unfold term_text at 1. cbn [fst snd]. fold (opt_cost t f).
  destruct (num_eqb (opt_cost t f) num_zero); [exact IH|]. cbn [map concat]. f_equal; [|exact IH].
  unfold term_prefix. by rewrite <-!app_assoc.
Qed.

Lemma body_text t :
  buildTierBodyExpr t
  = js "p" ++ [32%N] ++ js "*" ++ [32%N] ++ num_to_string (in_cost t) ++ [32%N] ++ js "+" ++ [32%N]
    ++ js "c" ++ [32%N] ++ js "*" ++ [32%N] ++ num_to_string (out_cost t)
    ++ terms_text (opt_cost t) BILLING_CACHE_VAR_MAP.
Proof.
  unfold buildTierBodyExpr. fold (in_cost t) (out_cost t). rewrite join_concat. cbn [map concat].
  rewrite extra_terms_text.
  assert (js "p * " = js "p" ++ [32%N] ++ js "*" ++ [32%N]) as -> by reflexivity.
  assert (js "c * " = js "c" ++ [32%N] ++ js "*" ++ [32%N]) as -> by reflexivity.
  assert (js " + " = [32%N] ++ js "+" ++ [32%N]) as -> by reflexivity.
  generalize (js "p") (js "*") (js "+") (js "c"). intros. by rewrite <-!app_assoc.
Qed.

(** The captures of a tier's call, its groups numbered from [i]. *)
Definition tier_groups (i : nat) (l : jsstr) (t : VisualTier) (cs : captures) : captures :=
  extra_groups (opt_cost t) (i + 3) BILLING_CACHE_VAR_MAP
    (mset (i + 2) (num_to_string (out_cost t)) (mset (i + 1) (num_to_string (in_cost t)) (mset i l cs))).

Lemma takes_body i t s :
  costs_ok t = true →
  takes (bodyPat i) (buildTierBodyExpr t) (41%N :: s)
    (λ cs, extra_groups (opt_cost t) (S (S i)) BILLING_CACHE_VAR_MAP
             (mset (S i) (num_to_string (out_cost t)) (mset i (num_to_string (in_cost t)) cs))).
Proof.
  intros Ht. assert (cost_ok (in_cost t) = true ∧ cost_ok (out_cost t) = true) as [Hi Ho].
  { unfold costs_ok in Ht. rewrite !andb_true_iff in Ht. tauto. }
  rewrite body_text. unfold bodyPat.
  assert (∀ x r, cost_ok x = true → takes rws [32%N] (num_to_string x ++ r) id) as Hblank.
  { intros x r Hx. by apply takes_blank, cost_head. }
  eapply takes_ext.
  - take_lit (js "p"). take_blank. take_lit (js "*").
    eapply (takes_cons _ _ [32%N]); [rewrite <-app_assoc; by apply Hblank|].
    eapply takes_cons; [apply takes_cost; [done | by intros c [= <-]]|].
    take_blank. take_lit (js "+"). take_blank. take_lit (js "c"). take_blank. take_lit (js "*").
    eapply (takes_cons _ _ [32%N]); [rewrite <-app_assoc; by apply Hblank|].
    eapply takes_cons; [apply takes_cost; [done | apply terms_no_cost_head]|].
    apply takes_last, takes_extras; [apply cache_vars_ok|]. intros f. by apply opt_cost_ok.
  - done.
Qed.

Definition no_quote (l : jsstr) : bool := forallb unquoted_unit l.

Lemma takes_tier i l t s :
  no_quote l = true → costs_ok t = true →
  takes (re_tier i) (tier_call l (buildTierBodyExpr t)) s (tier_groups i l t).
Proof.
  intros Hl Ht. unfold re_tier, tier_call.
  assert (jq "`, " ++ buildTierBodyExpr t ++ js ")"
          = jq "`," ++ [32%N] ++ buildTierBodyExpr t ++ js ")") as ->.
  { assert (jq "`, " = jq "`," ++ [32%N]) as -> by reflexivity. by rewrite <-!app_assoc. }
  eapply takes_ext.
  - take_lit (jq "tier(`").
    eapply takes_cons; [refine (takes_group i _ l _ id (takes_run _ _ _ Hl _)); by intros c [= <-]|].
    take_lit (jq "`,").
    eapply (takes_cons _ _ [32%N]); [apply takes_blank; rewrite body_text; by intros c [= <-]|].
    eapply takes_cons; [by apply takes_body|]. apply takes_last, takes_lit.
  - intros cs. unfold tier_groups. by rewrite !Nat.add_succ_r, Nat.add_0_r.
Qed.

(** ** The tier of a match *)

(** A tier as the reader returns it: all costs present, the cache mode
    inferred from the cost of hourly caches. *)
Definition reread_tier (l : jsstr) (cds : list TierConditionInput) (t : VisualTier) : VisualTier :=
  {| label := l; conditions := cds;
     input_unit_cost := in_cost t; output_unit_cost := out_cost t;
     cache_mode :=
       if num_ltb num_zero (opt_cost t F_cache_create_1h_unit_cost)
       then CACHE_MODE_TIMED else CACHE_MODE_GENERIC;
     extra_costs := costs_of (λ f, Some (opt_cost t f)) |}.

Lemma num_or_zero_idemp x : num_or (num_or x num_zero) num_zero = num_or x num_zero.
Proof. by destruct x. Qed.

Lemma cost_or_0_idemp o : cost_or_0 (Some (cost_or_0 o)) = cost_or_0 o.
Proof. apply num_or_zero_idemp. Qed.

Lemma num_eqb_zero x : num_eqb (num_or x num_zero) num_zero = true → num_or x num_zero = num_zero.
Proof. destruct x as [[]|[]| |[] ? ?]; done. Qed.

Lemma opt_cost_zero t f : num_eqb (opt_cost t f) num_zero = true → opt_cost t f = num_zero.
Proof. apply num_eqb_zero. Qed.

Definition optional (f : TierField) : bool :=
  match f with F_input_unit_cost | F_output_unit_cost => false | _ => true end.

Lemma extra_cost_costs_of h f : optional f = true → extra_cost (costs_of h) f = h f.
Proof. by destruct f. Qed.

Lemma extra_cost_set c f v f' :
  optional f' = true →
  extra_cost (set_cost c f v) f' = if decide (f' = f) then Some v else extra_cost c f'.
Proof. intros H. unfold set_cost. by rewrite extra_cost_costs_of. Qed.

(** Reading the optional costs from captures. *)
Section read_costs.
Context (o : nat → option jsstr).

Definition read_cost (c : ExtraCosts) (p : nat * (TierField * jsstr)) : ExtraCosts :=
  let '(k, (field, _)) := p in
  match o k with Some val => set_cost c field (num_of_string val) | None => c end.

Lemma extra_cost_read c k f v f' :
  optional f' = true →
  extra_cost (read_cost c (k, (f, v))) f'
  = if decide (f' = f) then match o k with Some val => Some (num_of_string val) | None => extra_cost c f' end
    else extra_cost c f'.
Proof.
  intros H. unfold read_cost. destruct (o k); [by apply extra_cost_set|]. by case_decide.
Qed.

Lemma fold_read_cost_other vs n c f :
  optional f = true → f ∉ map fst vs →
  extra_cost (fold_left read_cost (imap (λ k, pair (n + k)) vs) c) f = extra_cost c f.
Proof.
  intros Hf. revert n c. induction vs as [|[f1 v1] vs IH]; intros n c Hin; [done|].
  cbn [map fst] in Hin. apply not_elem_of_cons in Hin as [Hne Hin]. cbn [imap fold_left].
  rewrite (imap_ext _ (λ k, pair (S n + k))) by (intros; unfold compose; by rewrite Nat.add_succ_r).
  rewrite IH, extra_cost_read by done. by rewrite decide_False.
Qed.

Lemma fold_read_cost vs n c f v k :
  NoDup (map fst vs) → optional f = true → vs !! k = Some (f, v) →
  extra_cost (fold_left read_cost (imap (λ k, pair (n + k)) vs) c) f
  = match o (n + k) with Some val => Some (num_of_string val) | None => extra_cost c f end.
Proof.
  intros Hnd Hf. revert n c k. induction vs as [|[f1 v1] vs IH]; intros n c k Hk; [done|].
  cbn [map fst] in Hnd. apply NoDup_cons in Hnd as [Hin Hnd]. cbn [imap fold_left].
  rewrite (imap_ext _ (λ k, pair (S n + k))) by (intros; unfold compose; by rewrite Nat.add_succ_r).
  destruct k as [|k]; cbn [lookup list_lookup] in Hk.
  - injection Hk as -> ->. rewrite fold_read_cost_other, extra_cost_read by done.
    by rewrite decide_True.
  - rewrite (IH Hnd (S n) _ k Hk), Nat.add_succ_r, extra_cost_read by done.
    rewrite decide_False; [done|]. intros ->. apply Hin.
    apply list_elem_of_lookup_2 in Hk. by apply (list_elem_of_fmap_2 fst) in Hk.
Qed.
End read_costs.

Lemma cache_fields_nodup : NoDup (map fst BILLING_CACHE_VAR_MAP).
Proof. apply (bool_decide_eq_true_1 _). vm_compute. reflexivity. Qed.

Lemma cache_field f :
  optional f = true → ∃ k v, BILLING_CACHE_VAR_MAP !! k = Some (f, v).
Proof.
  intros Hf. enough (f ∈ map fst BILLING_CACHE_VAR_MAP) as H.
  { apply list_elem_of_fmap in H as ([f' v] & -> & H).
    apply list_elem_of_lookup_1 in H as [k Hk]. eauto. }
  destruct f; try done; apply (bool_decide_eq_true_1 _); vm_compute; reflexivity.
Qed.

Lemma match_tier_groups i cds l t cs :
  costs_ok t = true → (∀ k, i + 3 ≤ k → mget k cs = None) →
  match_tier i cds (tier_groups i l t cs) = reread_tier l cds t.
Proof.
  intros Ht Hcs. set (m := tier_groups i l t cs).
  assert (∀ f, optional f = true →
            extra_cost (fold_left (read_cost (λ k, mget (i + 3 + k) m)) (imap pair BILLING_CACHE_VAR_MAP)
                          no_extra_costs) f
            = if num_eqb (opt_cost t f) num_zero then None else Some (opt_cost t f)) as Hex.
  { intros f Hf. destruct (cache_field f Hf) as (k & v & Hk).
    pose proof (fold_read_cost (λ k, mget (i + 3 + k) m) _ 0 no_extra_costs f v k cache_fields_nodup Hf Hk) as H.
    cbn [Nat.add] in H. change (imap (λ k, pair k)) with (@imap (TierField * jsstr) _ pair) in H.
    rewrite H. unfold m, tier_groups. rewrite mget_extra_groups.
    rewrite (proj2 (Nat.ltb_ge _ _)) by lia. replace (i + 3 + k - (i + 3)) with k by lia. rewrite Hk.
    destruct (num_eqb (opt_cost t f) num_zero).
    - rewrite !mget_mset_ne, Hcs by lia. by destruct f.
    - by rewrite (proj2 (proj2 (cost_ok_spec _ (opt_cost_ok t f Ht)))). }
  assert (∀ j, j < 3 → mget (i + j) m
            = mget (i + j) (mset (i + 2) (num_to_string (out_cost t))
                (mset (i + 1) (num_to_string (in_cost t)) (mset i l cs)))) as Hm.
  { intros j Hj. unfold m, tier_groups. rewrite mget_extra_groups.
    by rewrite (proj2 (Nat.ltb_lt _ _)) by lia. }
  unfold match_tier.
  change (fold_left _ (imap pair BILLING_CACHE_VAR_MAP) no_extra_costs)
    with (fold_left (read_cost (λ k, mget (i + 3 + k) m)) (imap pair BILLING_CACHE_VAR_MAP) no_extra_costs).
  revert Hex. generalize (fold_left (read_cost (λ k, mget (i + 3 + k) m)) (imap pair BILLING_CACHE_VAR_MAP) no_extra_costs).
  intros ec Hex.
  assert (group_text i m = l ∧ group_text (i + 1) m = num_to_string (in_cost t)
          ∧ group_text (i + 2) m = num_to_string (out_cost t)) as (-> & -> & ->).
  { unfold group_text. pose proof (Hm 0 ltac:(lia)) as H0. rewrite Nat.add_0_r in H0.
    rewrite H0, (Hm 1 ltac:(lia)), (Hm 2 ltac:(lia)).
    split_and!; repeat (rewrite mget_mset_eq || rewrite mget_mset_ne by lia); done. }
  unfold costs_ok in Ht. rewrite !andb_true_iff in Ht. destruct Ht as [[Hi Ho] _].
  rewrite (proj2 (proj2 (cost_ok_spec _ Hi))), (proj2 (proj2 (cost_ok_spec _ Ho))).
  unfold normalizeVisualTier, reread_tier, getTierCacheMode.
  cbn [p_label p_conditions p_input_unit_cost p_output_unit_cost p_cache_mode p_extra_costs
       default mbind option_bind].
  f_equal.
  - change (cache_create_1h_unit_cost ec) with (extra_cost ec F_cache_create_1h_unit_cost).
    rewrite Hex by done. destruct (num_eqb _ num_zero) eqn:E; [|done].
    by rewrite (opt_cost_zero t _ E).
  - assert (∀ f, optional f = true → cost_or_0 (extra_cost ec f) = opt_cost t f) as Hc.
    { intros f Hf. rewrite Hex by done. destruct (num_eqb _ num_zero) eqn:E.
      - by rewrite (opt_cost_zero t f E).
      - apply cost_or_0_idemp. }
    unfold costs_of. by rewrite !Hc.
Qed.

(** ** Time windows as clauses *)

Section zone.
Context (tz : jsstr) (Htz : zone_ok tz).

Lemma zone_unquoted : forallb unquoted_unit tz = true ∧ tz ≠ [].
Proof.
  destruct Htz as (Hne & _ & Hu). split; [|done]. revert Hu. apply forallb_weaken. intros c.
  unfold zone_unit, unquoted_unit. rewrite !andb_true_iff. tauto.
Qed.

Lemma takes_minute s : takes re_minute (minute_of_day tz) s id.
Proof.
  rewrite <-(app_nil_r (minute_of_day tz)), minute_literals by done.
  assert (jq "`) * 60 + minute(`"
          = jq "`)" ++ [32%N] ++ js "*" ++ [32%N] ++ js "60" ++ [32%N] ++ js "+" ++ [32%N] ++ jq "minute(`")
    as -> by reflexivity.
  rewrite <-!app_assoc. destruct zone_unquoted as [Hu Hne]. eapply takes_ext.
  - take_lit (jq "hour(`").
    eapply takes_cons; [apply (takes_run1 _ _ _ Hu Hne); by intros c [= <-]|].
    take_lit (jq "`)"). take_blank. take_lit (js "*"). take_blank. take_lit (js "60"). take_blank.
    take_lit (js "+"). take_blank. take_lit (jq "minute(`").
    eapply takes_cons; [apply (takes_run1 _ _ _ Hu Hne); by intros c [= <-]|].
    rewrite app_nil_r. apply takes_last, takes_lit.
  - done.
Qed.

Lemma dec_no_ws_head n s : no_ws_head (dec_of_N n ++ s).
Proof.
  apply no_ws_head_app; [apply dec_of_N_nonempty|]. apply cost_no_ws_head, dec_cost_units.
Qed.

Lemma minute_no_ws_head s : no_ws_head (minute_of_day tz ++ s).
Proof. by intros c [= <-]. Qed.

Lemma takes_digits n c s : is_digit c = false → takes (rplus (RChar is_digit)) (dec_of_N n) (c :: s) id.
Proof.
  intros Hc. apply takes_run1; [apply dec_of_N_digits | apply dec_of_N_nonempty|].
  by intros d [= <-].
Qed.

Lemma takes_joiner (b : bool) s :
  takes (ralt (rlit (js "&&")) [rlit (js "||")]) (if b then js "&&" else js "||") s id.
Proof.
  destruct b; [apply takes_alt_l, takes_lit | apply takes_alt_r; [|apply takes_lit]].
  by apply refuted_fails.
Qed.

Lemma takes_segment a b s : takes re_segment (segment_text tz a b) s id.
Proof.
  assert (segment_text tz a b
          = js "(" ++ minute_of_day tz ++ [32%N] ++ js ">=" ++ [32%N] ++ dec_of_N a ++ [32%N]
            ++ (if (a <=? b)%N then js "&&" else js "||") ++ [32%N] ++ minute_of_day tz ++ [32%N]
            ++ js "<=" ++ [32%N] ++ dec_of_N b ++ js ")") as ->.
  { unfold segment_text, window_text, from_text, until_text, joiner.
    assert (js " >= " = [32%N] ++ js ">=" ++ [32%N] ∧ js " <= " = [32%N] ++ js "<=" ++ [32%N]
            ∧ js " && " = [32%N] ++ js "&&" ++ [32%N] ∧ js " || " = [32%N] ++ js "||" ++ [32%N])
      as (-> & -> & -> & ->) by (split_and!; reflexivity).
    change (js "(") with [40%N]. change (js ")") with [41%N]. generalize (minute_of_day tz). intros m.
    destruct (a <=? b)%N; by rewrite <-!app_assoc. }
  eapply takes_ext.
  - take_lit (js "("). eapply takes_cons; [apply takes_minute|]. take_blank. take_lit (js ">=").
    eapply (takes_cons _ _ [32%N]); [apply takes_blank; rewrite <-app_assoc; apply dec_no_ws_head|].
    eapply takes_cons; [by apply takes_digits|].
    eapply (takes_cons _ _ [32%N]).
    { apply takes_blank. destruct (a <=? b)%N; by intros c [= <-]. }
    eapply takes_cons; [apply takes_joiner|].
    eapply (takes_cons _ _ [32%N]); [apply takes_blank; rewrite <-app_assoc; apply minute_no_ws_head|].
    eapply takes_cons; [apply takes_minute|]. take_blank. take_lit (js "<=").
    eapply (takes_cons _ _ [32%N]); [apply takes_blank; rewrite <-app_assoc; apply dec_no_ws_head|].
    eapply takes_cons; [by apply takes_digits|]. apply takes_last, takes_lit.
  - done.
Qed.

(** The windows behind the first one. *)
Lemma takes_more a b s :
  takes (rseq [rws; rlit (js "||"); rws; re_segment]) (js " || " ++ segment_text tz a b) s id.
Proof.
  assert (js " || " = [32%N] ++ js "||" ++ [32%N]) as -> by reflexivity. rewrite <-!app_assoc.
  eapply takes_ext.
  - take_blank. take_lit (js "||"). take_blank. apply takes_last, takes_segment.
  - done.
Qed.

Lemma takes_windows ws s : windows_ok ws → takes re_time (windows_text tz ws) s id.
Proof.
  intros [Hne _]. destruct ws as [|w [|w' ws]]; [done|apply takes_alt_l, takes_segment|].
  unfold windows_text. cbn [map].
  set (more := map (λ w, js " || " ++ segment_text tz (fst w) (snd w)) (w' :: ws)).
  assert (js "(" ++ join (js " || ") (segment_text tz (fst w) (snd w) :: segment_text tz (fst w') (snd w')
            :: map (λ w, segment_text tz (fst w) (snd w)) ws) ++ js ")"
          = js "(" ++ segment_text tz (fst w) (snd w) ++ concat more ++ js ")") as ->.
  { rewrite join_concat, <-app_assoc. unfold more. cbn [map]. by rewrite map_map. }
  apply takes_alt_r; [by apply (refuted_fails _ (js "(("))|]. eapply takes_ext.
  - take_lit (js "("). eapply takes_cons; [apply takes_segment|].
    eapply takes_cons; [|apply takes_last, takes_lit]. unfold more. cbn [map concat].
    eapply takes_seq; [apply takes_more|]. apply takes_star.
    + apply Forall_forall. intros x Hx. by apply list_elem_of_fmap in Hx as (? & -> & _).
    + intros x xs Hx. assert (x ∈ map (λ w, js " || " ++ segment_text tz (fst w) (snd w)) ws) as Hin.
      { destruct Hx as [pre ->]. apply elem_of_app. right. constructor. }
      apply list_elem_of_fmap in Hin as (y & -> & _). apply takes_more.
    + by apply (refuted_fails _ (js ")")).
  - done.
Qed.

Lemma windows_part_ok ws : windows_ok ws → part_ok 38 [38%N] (windows_text tz ws).
Proof.
  intros [Hne _].
  assert (∃ x, balanced x ∧ windows_text tz ws = 40%N :: x ++ [41%N]) as (x & Hx & ->).
  { destruct ws as [|w [|w' ws]]; [done|..].
    - exists (window_text tz (fst w) (snd w)). split; [by apply window_balanced | done].
    - exists (join (js " || ") (map (λ w, segment_text tz (fst w) (snd w)) (w :: w' :: ws))). split; [|done].
      apply join_balanced, Forall_forall. intros y Hy. apply list_elem_of_fmap in Hy as (? & -> & _).
      by apply segment_balanced. }
  split; [by apply opaque_group|]. split; [apply group_trimmed | done].
Qed.
End zone.

(** A clause that starts neither with a parenthesis nor with [h] is no time
    window. *)
Lemma no_window e :
  part_ok 124 [124%N] e → (∀ c, head e = Some c → c ≠ 40%N ∧ c ≠ 104%N) →
  parseTimeRangeCondition e = None.
Proof.
  intros Hp Hh. pose proof Hp as (_ & Ht & Hne). destruct e as [|c e]; [done|].
  destruct (Hh c eq_refl) as [Hc1 Hc2].
  assert (unwrapOuterParens (c :: e) = c :: e) as Hu by (apply unwrap_plain; [done | by apply not_full_head]).
  assert (splitTopLevel op_or (c :: e) = [c :: e]) as Hs.
  { apply (split_or [c :: e]); [|done]. constructor; [done | constructor]. }
  unfold parseTimeRangeCondition. rewrite Hu, Hs. cbn [across_midnight read_segments].
  unfold read_segment. rewrite Hu. unfold match_window, read_minute_of_day.
  assert (strip_prefix (jq "hour(`") (c :: e) = None) as ->; [|done].
  change (jq "hour(`") with (104%N :: jq "our(`"). cbn [strip_prefix].
  by rewrite (proj2 (N.eqb_neq 104 c)) by congruence.
Qed.

(** ** Token clauses *)

Definition token_text (var : TokenVar) (op : TokenOp) (t : jsstr) : jsstr :=
  token_var_text var ++ js " " ++ token_op_text op ++ js " " ++ t.

(** The bound of a token condition as it is read back and printed again. *)
Definition bound_ok (t : jsstr) : bool :=
  forallb bound_unit t && bool_decide (num_to_string (num_of_string t) = t).

Section token.
Context (t : jsstr) (Ht : bound_ok t = true) (Hne : t ≠ []).

Lemma bound_units : forallb bound_unit t = true.
Proof. unfold bound_ok in Ht. by apply andb_true_iff in Ht as [? _]. Qed.

Lemma bound_no_ws_head s : no_ws_head (t ++ s).
Proof.
  apply no_ws_head_app; [done|]. apply cost_no_ws_head.
  pose proof bound_units as H. revert H. apply forallb_weaken, bound_cost_unit.
Qed.

(** [p], [c] or [len], possibly in a group. *)
Lemma takes_var var s : takes re_var (token_var_text var) s id.
Proof.
  destruct var.
  - apply takes_alt_l, takes_alt_l, takes_lit.
  - apply takes_alt_l, takes_alt_r; [|apply takes_lit]. by apply (refuted_fails _ (js "c")).
  - apply takes_alt_r; [|apply takes_lit]. by apply (refuted_fails _ (js "l")).
Qed.

(** An operator, possibly in a group, in front of [c], which starts with
    blanks or a bound: a shorter operator fails on what is left. *)
Lemma takes_op (wrap : re → re) c op w s u :
  (wrap = id ∨ wrap = RGroup 2) →
  refuted (RSeq (wrap (rlit (js "<"))) c) (js "<=") = true →
  refuted (RSeq (wrap (ralt (rlit (js "<")) [rlit (js "<=")])) c) (js ">") = true →
  refuted (RSeq (wrap (ralt (rlit (js "<")) [rlit (js "<="); rlit (js ">")])) c) (js ">=") = true →
  takes (RSeq (wrap (rlit (token_op_text op))) c) (token_op_text op ++ w) s u →
  takes (RSeq (wrap re_op) c) (token_op_text op ++ w) s u.
Proof.
  intros Hw H1 H2 H3 Hop.
  assert (∀ a b w' u', takes (RSeq (wrap a) c) w' s u' → takes (RSeq (wrap (RAlt a b)) c) w' s u') as Hl.
  { intros a b w' u' H. destruct Hw as [-> | ->]; [by apply takes_seq_alt_l|].
    change (takes (RSeq (RAlt (RGroup 2 a) (RGroup 2 b)) c) w' s u'). by apply takes_seq_alt_l. }
  assert (∀ a b w' u', fails (RSeq (wrap a) c) (w' ++ s) → takes (RSeq (wrap b) c) w' s u' →
            takes (RSeq (wrap (RAlt a b)) c) w' s u') as Hr.
  { intros a b w' u' Hf H. destruct Hw as [-> | ->]; [by apply takes_seq_alt_r|].
    change (takes (RSeq (RAlt (RGroup 2 a) (RGroup 2 b)) c) w' s u'). by apply takes_seq_alt_r. }
  unfold re_op, ralt in *. cbn [fold_left] in *. destruct op; cbn [token_op_text] in *.
  - by apply Hl, Hl, Hl.
  - apply Hl, Hl, Hr; [|done]. rewrite <-app_assoc. by apply refuted_fails.
  - apply Hl, Hr; [|done]. rewrite <-app_assoc. by apply refuted_fails.
  - apply Hr; [|done]. rewrite <-app_assoc. by apply refuted_fails.
Qed.

Definition no_bound_head (s : jsstr) : Prop := ∀ c, head s = Some c → bound_unit c = false.

Lemma takes_bound s : no_bound_head s → takes (rplus (RChar bound_unit)) t s id.
Proof. intros H. apply takes_run1; [apply bound_units | done | done]. Qed.

Lemma op_no_ws_head op s : no_ws_head (token_op_text op ++ s).
Proof. destruct op; by intros c [= <-]. Qed.

Lemma takes_token var op s : no_bound_head s → takes re_clause (token_text var op t) s id.
Proof.
  intros Hs. unfold token_text. change (js " ") with [32%N]. apply takes_alt_r.
  { destruct var; by apply refuted_fails. }
  eapply takes_ext.
  - eapply takes_cons; [apply takes_var|].
    eapply (takes_cons _ _ [32%N]); [apply takes_blank; rewrite <-app_assoc; apply op_no_ws_head|].
    apply (takes_op id); [by left | vm_compute; reflexivity.. |].
    change (RSeq (id ?a) ?c) with (rseq [a; rws; rplus (RChar bound_unit)]).
    take_lit (token_op_text op).
    eapply (takes_cons _ _ [32%N]); [apply takes_blank, bound_no_ws_head|].
    apply takes_last. by apply takes_bound.
  - done.
Qed.

Lemma last_bound c : last t = Some c → bound_unit c = true.
Proof.
  intros H. pose proof bound_units as Hu. rewrite forallb_forall_elem in Hu. apply Hu.
  by apply last_Some_elem_of.
Qed.

Lemma token_trimmed var op : trimmed (token_text var op t).
Proof.
  split.
  - destruct var; by intros c [= <-].
  - intros c. unfold token_text. rewrite !app_assoc, last_app.
    destruct (last t) as [d|] eqn:E; [|by apply last_None in E]. intros [= <-].
    by apply cost_unit_not_ws, bound_cost_unit, last_bound.
Qed.

Lemma token_plain o var op :
  (o = 38 ∨ o = 124)%N → forallb (plain o) (token_text var op t) = true.
Proof.
  intros Ho. unfold token_text. rewrite !forallb_app, !andb_true_iff. split_and!.
  - destruct Ho as [-> | ->]; by destruct var.
  - by destruct Ho as [-> | ->].
  - destruct Ho as [-> | ->]; by destruct op.
  - by destruct Ho as [-> | ->].
  - pose proof bound_units as H. revert H. apply forallb_weaken. intros c. unfold bound_unit, is_digit, plain, no_paren.
    rewrite !orb_true_iff, !andb_true_iff, !N.leb_le, !N.eqb_eq, !negb_true_iff, !N.eqb_neq.
    destruct Ho as [-> | ->]; lia.
Qed.

Lemma token_part_ok o var op : (o = 38 ∨ o = 124)%N → part_ok o [o] (token_text var op t).
Proof.
  intros Ho. split; [by apply opaque_plain, token_plain|]. split; [apply token_trimmed|].
  by destruct var.
Qed.

Lemma token_no_window var op : parseTimeRangeCondition (token_text var op t) = None.
Proof.
  apply no_window; [apply token_part_ok; by right|]. unfold token_text. destruct var; by intros c [= <-].
Qed.

Lemma read_token var op :
  read_clause (token_text var op t) = Some (TokenTierCondition var op (ValNum (num_of_string t))).
Proof.
  unfold read_clause. rewrite token_no_window, (trim_id _ (token_trimmed var op)).
  assert (match_here clauseRe (token_text var op t)
          = Some ([(1, token_var_text var); (2, token_op_text op); (3, t)], [])) as ->.
  { rewrite <-(app_nil_r (token_text var op t)).
    refine (takes_match clauseRe _ [] (λ cs, mset 3 t (mset 2 (token_op_text op) (mset 1 (token_var_text var) cs))) _).
    unfold token_text, clauseRe. change (js " ") with [32%N]. eapply takes_ext.
    - eapply takes_cons; [exact (takes_group 1 _ _ _ id (takes_var var _))|].
      eapply (takes_cons _ _ [32%N]); [apply takes_blank; rewrite <-app_assoc; apply op_no_ws_head|].
      apply (takes_op (RGroup 2)); [by right | vm_compute; reflexivity.. |].
      change (RSeq (RGroup 2 ?a) ?c) with (rseq [RGroup 2 a; rws; RGroup 3 (rplus (RChar bound_unit)); REnd]).
      eapply takes_cons; [exact (takes_group 2 _ _ _ id (takes_lit _ _))|].
      eapply (takes_cons _ _ [32%N]); [apply takes_blank, bound_no_ws_head|].
      rewrite <-(app_nil_r t) at 1.
      eapply takes_cons; [exact (takes_group 3 _ _ _ id (takes_bound [] ltac:(by intros ? [=])))|].
      intros A k cs x H. exact H.
    - done. }
  by destruct var, op.
Qed.
End token.

(** ** Conditions *)

(** A condition that is read back: a bound that prints as it was read, a zone
    of [zone_unit]s. *)
Definition condition_ok (c : TierConditionInput) : bool :=
  match c with
  | TokenTierCondition _ _ v =>
      bool_decide (token_value_text v = []) || bound_ok (token_value_text v)
  | VisualTimeRangeCondition c => forallb zone_unit (trim (timezone c))
  end.

(** The condition as the reader returns it. *)
Definition reread_condition (c : TierConditionInput) : option TierConditionInput :=
  match condition_text c with
  | None => None
  | Some _ =>
      Some match c with
           | TokenTierCondition var op v =>
               TokenTierCondition var op (ValNum (num_of_string (token_value_text v)))
           | VisualTimeRangeCondition c =>
               VisualTimeRangeCondition
                 {| timezone := trim (timezone c); ranges := map trim_range (ranges c) |}
           end
  end.

(** What the round trip needs of the text of a condition that an expression
    [clause] is to read. *)
Record clause_ok (clause : re) (e : jsstr) : Prop := {
  clause_part : part_ok 38 [38%N] e;
  clause_takes s : no_bound_head s → takes clause e s id
}.

Lemma clause_nonempty clause e : clause_ok clause e → e ≠ [].
Proof. by intros [(_ & _ & ?) _]. Qed.

Lemma clause_visible clause e s : clause_ok clause e → no_ws_head (e ++ s).
Proof. intros [(_ & [Hh _] & Hne) _]. apply no_ws_head_app; [done|]. intros c Hc. by apply Hh. Qed.

(** Clauses joined by [&&] in front of a question mark. *)
Lemma takes_clauses i clause es s :
  Forall (clause_ok clause) es → es ≠ [] →
  refuted (rseq [rws; rlit (js "&&"); rws; clause]) (js " ?") = true →
  takes (RGroup i (RSeq clause (RStar (rseq [rws; rlit (js "&&"); rws; clause]))))
    (join (js " && ") es) (js " ?" ++ s) (mset i (join (js " && ") es)).
Proof.
  intros Hcl Hne Href. refine (takes_group i _ _ _ id _). destruct Hcl as [|e es He Hes]; [done|].
  assert (∀ r, no_bound_head (js " ?" ++ r)) as Hq by (intros r; by intros c [= <-]).
  assert (∀ ws, no_bound_head (concat (map (λ w, js " && " ++ w) ws) ++ js " ?" ++ s)) as Hb.
  { intros [|w ws]; [apply Hq|]. by intros c [= <-]. }
  rewrite join_concat. eapply takes_ext.
  - eapply takes_seq; [by apply (clause_takes clause e He)|]. apply takes_star.
    + apply Forall_forall. intros x Hx. by apply list_elem_of_fmap in Hx as (? & -> & _).
    + intros x xs Hx.
      assert (∃ es1 y es2, es = es1 ++ y :: es2 ∧ x = js " && " ++ y
                ∧ xs = map (λ w, js " && " ++ w) es2) as (es1 & y & es2 & -> & -> & ->).
      { destruct Hx as [pre Hx]. change (map ?f es) with (f <$> es) in Hx.
        apply fmap_app_inv in Hx as (es1 & es' & -> & Hx & ->). destruct es' as [|y es2]; [done|].
        cbn in Hx. injection Hx as -> ->. by exists es1, y, es2. }
      apply Forall_app in Hes as [_ Hes]. inversion Hes as [|? ? Hy _]; subst.
      assert (js " && " = [32%N] ++ js "&&" ++ [32%N]) as Hsep by reflexivity.
      rewrite Hsep at 1. rewrite <-!app_assoc. eapply takes_ext.
      * take_blank. take_lit (js "&&").
        eapply (takes_cons _ _ [32%N]); [apply takes_blank; by apply (clause_visible clause)|].
        apply takes_last. by apply (clause_takes clause y Hy).
      * done.
    + by apply refuted_fails.
  - done.
Qed.

(** A first unit of a clause that starts no call of [tier]. *)
Definition clause_head (e : jsstr) : Prop := ∃ c e', e = c :: e' ∧ c ∈ [112; 99; 108; 40]%N.

Lemma range_segment_trim tz r : range_segment tz (trim_range r) = range_segment tz r.
Proof.
  unfold range_segment, trim_range. cbn [start end_].
  assert (∀ v, timeToMinuteOfDay (trim v) = timeToMinuteOfDay v) as H.
  { intros v. unfold timeToMinuteOfDay. by rewrite trim_idemp. }
  by rewrite !H.
Qed.

Lemma build_trim c :
  buildTimeRangeConditionExpr {| timezone := trim (timezone c); ranges := map trim_range (ranges c) |}
  = buildTimeRangeConditionExpr c.
Proof.
  unfold buildTimeRangeConditionExpr. cbn [timezone ranges]. rewrite trim_idemp, length_map.
  assert (∀ tz, flat_map (range_segment tz) (map trim_range (ranges c)) = flat_map (range_segment tz) (ranges c))
    as ->.
  { intros tz. induction (ranges c) as [|r rs IH]; [done|]. cbn [map flat_map].
    by rewrite range_segment_trim, IH. }
  by destruct (ranges c).
Qed.

Lemma num_text_nonempty n : num_to_string n ≠ [].
Proof.
  destruct (num_is_finite n) eqn:E; [by apply num_units|]. destruct n as [|[]| |]; done.
Qed.

Lemma token_value_empty v : token_value_text v = [] → v = ValStr [].
Proof. destruct v as [n|s]; [intros H; by apply num_text_nonempty in H | by intros <-]. Qed.

Lemma token_clause_ok var op t :
  bound_ok t = true → t ≠ [] → clause_ok re_clause (token_text var op t) ∧ clause_head (token_text var op t).
Proof.
  intros Ht Hne. split; [split|].
  - apply token_part_ok; [done..|by left].
  - intros s. by apply takes_token.
  - unfold token_text. destruct var; eexists _, _; (split; [reflexivity|]); set_solver.
Qed.

Lemma windows_clause_ok tz ws :
  zone_ok tz → windows_ok ws → clause_ok re_clause (windows_text tz ws) ∧ clause_head (windows_text tz ws).
Proof.
  intros Htz Hws. split; [split|].
  - by apply windows_part_ok.
  - intros s _. apply takes_alt_l. by apply takes_windows.
  - destruct Hws as [Hne _]. destruct ws as [|w [|w' ws]]; [done|..];
      eexists 40%N, _; (split; [reflexivity|]); set_solver.
Qed.

Lemma condition_cases c e :
  condition_ok c = true → condition_text c = Some e →
  (clause_ok re_clause e ∧ clause_head e) ∧ read_clause e = reread_condition c
  ∧ ∀ c', reread_condition c = Some c' → condition_text c' = Some e.
Proof.
  intros Hok He. unfold reread_condition. rewrite He. destruct c as [var op v|c]; cbn [condition_ok] in Hok.
  - cbn [condition_text] in He. case_bool_decide as Hv; [done|].
    set (t := token_value_text v) in *. assert (t ≠ []) as Hne by (by intros E%token_value_empty).
    rewrite bool_decide_eq_false_2 in Hok by done. cbn [orb] in Hok.
    assert (e = token_text var op t) as -> by (by injection He as <-).
    split; [by apply token_clause_ok|]. split; [by apply read_token|]. intros c' [= <-].
    cbn [condition_text token_value_text]. rewrite bool_decide_eq_false_2 by done.
    unfold bound_ok in Hok. apply andb_true_iff in Hok as [_ ->%bool_decide_eq_true]. done.
  - cbn [condition_text] in He. pose proof (build_windows c) as H. rewrite He in H.
    destruct H as (Htz & _ & ws & Hws & Hr & ->).
    assert (zone_ok (trim (timezone c))) as Hz by (split; [done|]; split; [apply trim_trimmed | done]).
    split; [by apply windows_clause_ok|]. split.
    + unfold read_clause. rewrite parse_windows by done. by rewrite Hr.
    + intros c' [= <-]. cbn [condition_text]. by rewrite build_trim.
Qed.

(** A list of conditions. *)
Definition conditions_ok (cds : list TierConditionInput) : bool := forallb condition_ok cds.

Definition clauses (cds : list TierConditionInput) : list jsstr := omap condition_text cds.

Lemma clauses_cons c cds :
  clauses (c :: cds) = match condition_text c with Some e => e :: clauses cds | None => clauses cds end.
Proof. done. Qed.

Lemma clauses_ok cds :
  conditions_ok cds = true → Forall (λ e, clause_ok re_clause e ∧ clause_head e) (clauses cds).
Proof.
  induction cds as [|c cds IH]; [constructor|]. cbn [conditions_ok forallb].
  intros [Hc Hcds]%andb_true_iff. rewrite clauses_cons.
  destruct (condition_text c) as [e|] eqn:E; [|by apply IH].
  constructor; [by apply (condition_cases c e) | by apply IH].
Qed.

Lemma read_clauses cds :
  conditions_ok cds = true → omap read_clause (clauses cds) = omap reread_condition cds.
Proof.
  induction cds as [|c cds IH]; [done|]. cbn [conditions_ok forallb].
  intros [Hc Hcds]%andb_true_iff. specialize (IH Hcds). rewrite clauses_cons. cbn [omap list_omap].
  destruct (condition_text c) as [e|] eqn:E.
  - destruct (condition_cases c e Hc E) as (_ & Hr & _). cbn [omap list_omap]. rewrite Hr.
    destruct (reread_condition c); by f_equal.
  - unfold reread_condition at 1. by rewrite E.
Qed.

Lemma clauses_reread cds :
  conditions_ok cds = true → clauses (omap reread_condition cds) = clauses cds.
Proof.
  induction cds as [|c cds IH]; [done|]. cbn [conditions_ok forallb].
  intros [Hc Hcds]%andb_true_iff. specialize (IH Hcds). rewrite clauses_cons. cbn [omap list_omap].
  destruct (condition_text c) as [e|] eqn:E.
  - destruct (condition_cases c e Hc E) as (_ & _ & Hr). destruct (reread_condition c) as [c'|] eqn:E'.
    + rewrite clauses_cons, (Hr c' eq_refl). by f_equal.
    + unfold reread_condition in E'. by rewrite E in E'.
  - unfold reread_condition at 1. by rewrite E.
Qed.

Lemma conditions_nil cds : conditions_ok cds = true → buildConditionStr cds = [] → clauses cds = [].
Proof.
  intros Hok. apply join_nil_inv. eapply Forall_impl; [by apply clauses_ok|].
  intros e [H _]. by apply (clause_nonempty re_clause).
Qed.

(** The condition of a tier is captured as a whole and cut at the clauses. *)
Lemma takes_conditions cds s :
  conditions_ok cds = true → buildConditionStr cds ≠ [] →
  takes condGroup (buildConditionStr cds) (js " ?" ++ s) (mset 1 (buildConditionStr cds)).
Proof.
  intros Hok Hne. unfold buildConditionStr in *. fold (clauses cds) in *. apply takes_clauses.
  - eapply Forall_impl; [by apply clauses_ok | by intros e [? _]].
  - by intros E; rewrite E in Hne.
  - vm_compute. reflexivity.
Qed.

Lemma read_conditions_text cds :
  conditions_ok cds = true →
  read_conditions (buildConditionStr cds) = omap reread_condition cds.
Proof.
  intros Hok. rewrite <-(read_clauses cds Hok). unfold read_conditions.
  destruct (truthy_str (buildConditionStr cds)) eqn:E.
  - apply truthy_str_true in E. unfold buildConditionStr in *. fold (clauses cds) in *.
    rewrite split_and; [done| |by intros E'; rewrite E' in E].
    eapply Forall_impl; [by apply clauses_ok|]. intros e [H _]. by apply (clause_part re_clause).
  - apply truthy_str_false in E. by rewrite (conditions_nil cds Hok E).
Qed.

(** ** Written tiers *)

(** A tier as it is written: its label and the conditions in front of it. *)
Record Written := { w_label : jsstr; w_conditions : list TierConditionInput; w_tier : VisualTier }.

Definition written_ok (w : Written) : bool :=
  no_quote (w_label w) && conditions_ok (w_conditions w) && costs_ok (w_tier w).

Definition written_text (w : Written) : jsstr :=
  let cond := buildConditionStr (w_conditions w) in
  let call := tier_call (w_label w) (buildTierBodyExpr (w_tier w)) in
  if truthy_str cond then cond ++ js " ? " ++ call else call.

Definition written_groups (w : Written) : captures :=
  let cond := buildConditionStr (w_conditions w) in
  tier_groups 2 (w_label w) (w_tier w) (if truthy_str cond then mset 1 cond [] else []).

Definition reread_written (w : Written) : VisualTier :=
  reread_tier (w_label w) (omap reread_condition (w_conditions w)) (w_tier w).

Definition read_match (m : captures) : VisualTier :=
  match_tier 2 (read_conditions (group_text 1 m)) m.

Lemma takes_written w s :
  written_ok w = true →
  ∃ u, takes tierRe (written_text w) s u ∧ u [] = written_groups w.
Proof.
  unfold written_ok. rewrite !andb_true_iff. intros [[Hl Hc] Ht]. unfold written_text, written_groups.
  destruct (truthy_str (buildConditionStr (w_conditions w))) eqn:E.
  - apply truthy_str_true in E. eexists. split.
    + rewrite app_assoc. eapply takes_seq; [apply takes_opt | by apply takes_tier].
      eapply takes_cons; [|].
      * assert (js " ? " = js " ?" ++ [32%N]) as -> by reflexivity. rewrite <-!app_assoc.
        by apply takes_conditions.
      * assert (js " ? " = [32%N] ++ js "?" ++ [32%N] ++ []) as -> by reflexivity.
        take_blank. take_lit (js "?"). take_blank. apply takes_nil.
    + done.
  - eexists. split.
    + apply (takes_seq _ _ [] (tier_call (w_label w) (buildTierBodyExpr (w_tier w))) _ id); [|by apply takes_tier].
      apply takes_opt_none.
      unfold tier_call. rewrite <-!app_assoc.
      by apply (refuted_fails _ (jq "tier(`")).
    + done.
Qed.

Lemma read_written w : written_ok w = true → read_match (written_groups w) = reread_written w.
Proof.
  unfold written_ok. rewrite !andb_true_iff. intros [[Hl Hc] Ht]. unfold read_match, written_groups. cbv zeta.
  set (cond := buildConditionStr (w_conditions w)).
  match goal with |- context [tier_groups _ _ _ ?x] => set (cs := x) end.
  assert (group_text 1 (tier_groups 2 (w_label w) (w_tier w) cs) = cond) as ->.
  { unfold group_text, tier_groups. rewrite mget_extra_groups. cbn [Nat.ltb Nat.leb Nat.add].
    rewrite !mget_mset_ne by lia. unfold cs. destruct (truthy_str cond) eqn:E; [done|].
    by apply truthy_str_false in E as ->. }
  rewrite match_tier_groups; [|done|].
  - unfold cond. by rewrite read_conditions_text.
  - intros k Hk. unfold cs. destruct (truthy_str cond); [|done]. by rewrite mget_mset_ne by lia.
Qed.

Lemma no_match_at c s : c ∈ [32; 58]%N → fails tierRe (c :: s).
Proof.
  intros Hc. repeat (apply elem_of_cons in Hc as [-> | Hc];
    [by apply (refuted_fails tierRe [_])|]). by apply not_elem_of_nil in Hc.
Qed.

Lemma written_nonempty w : written_text w ≠ [].
Proof.
  unfold written_text. destruct (truthy_str _); [|done].
  by intros [_ [_ ?]%app_nil]%app_nil.
Qed.

(** The successive matches are the tiers, whatever follows them that does
    not match. *)
Lemma read_all w ws tail f :
  forallb written_ok (w :: ws) = true → nowhere tierRe tail = true →
  length (written_text w ++ concat (map (λ w, js " : " ++ written_text w) ws) ++ tail) < f →
  map read_match
    (match_all tierRe f (written_text w ++ concat (map (λ w, js " : " ++ written_text w) ws) ++ tail))
  = map reread_written (w :: ws).
Proof.
  intros Hok Htail Hf. rewrite forallb_forall_elem in Hok.
  rewrite (match_all_joined tierRe (js " : ") written_text written_groups); [|..|exact Htail|exact Hf].
  - rewrite map_map. apply map_ext_in. intros v Hv%list_elem_of_In. apply read_written. by apply Hok.
  - intros v Hv. split; [apply written_nonempty|]. intros s. apply takes_written. by apply Hok.
  - intros c s Hc. apply no_match_at. revert Hc. change (js " : ") with [32%N; 58%N; 32%N]. set_solver.
Qed.

(** A normalised tier stays as it is. *)
Lemma reread_normal w : normalizeVisualTier (as_partial (reread_written w)) = reread_written w.
Proof.
  unfold normalizeVisualTier, reread_written, reread_tier. cbn. f_equal.
  unfold costs_of, opt_cost. cbn. by rewrite !cost_or_0_idemp.
Qed.

(** Quotes tell a call of one tier from a list of several. *)
Definition quotes (s : jsstr) : nat := count 34 s.

Lemma quotes_app s s' : quotes (s ++ s') = quotes s + quotes s'.
Proof. apply count_app. Qed.

(** A text that is one call has two quotes. *)
Lemma single_quotes s x : match_here singleRe s = Some x → quotes s = 2.
Proof.
  unfold match_here, singleRe. cbn [rmatch]. intros H.
  apply rmatch_lang in H as (w & s' & cs' & -> & Hw & H). destruct s' as [|? ?]; [|done].
  rewrite app_nil_r. clear H. unfold re_tier in Hw.
  destruct Hw as (w1 & wr & -> & H1 & w2 & wr2 & -> & H2 & w3 & wr3 & -> & H3 & Hw).
  apply lang_lit in H1 as ->. apply lang_lit in H3 as ->.
  rewrite !quotes_app. change (quotes (jq "tier(`")) with 1. change (quotes (jq "`,")) with 1.
  assert (quotes w2 = 0 ∧ quotes wr3 = 0) as [-> ->]; [|done]. split.
  - by apply (free_of_lang 34 (RGroup 1 (RStar (RChar unquoted_unit)))).
  - by apply (free_of_lang 34 (rseq [rws; bodyPat 2; rlit (js ")")])).
Qed.

Lemma written_quotes w : 2 ≤ quotes (written_text w).
Proof.
  assert (2 ≤ quotes (tier_call (w_label w) (buildTierBodyExpr (w_tier w)))) as H.
  { unfold tier_call. rewrite !quotes_app. change (quotes (jq "tier(`")) with 1.
    change (quotes (jq "`, ")) with 1. lia. }
  unfold written_text. destruct (truthy_str _); [rewrite !quotes_app|]; lia.
Qed.

Lemma written_head w :
  written_ok w = true →
  ∃ c s, written_text w = c :: s ∧
    (if truthy_str (buildConditionStr (w_conditions w)) then c ∈ [112; 99; 108; 40]%N else c = 116%N).
Proof.
  unfold written_ok. rewrite !andb_true_iff. intros [[_ Hc] _]. unfold written_text.
  destruct (truthy_str _) eqn:E; [|by eexists _, _].
  apply truthy_str_true in E. unfold buildConditionStr in *. fold (clauses (w_conditions w)) in *.
  destruct (clauses_ok _ Hc) as [|e es [_ He] _]; [done|].
  destruct He as (c & e' & -> & Hin). exists c. rewrite join_concat. by eexists.
Qed.

Lemma version_free c s : c ≠ 118%N → strip_version (c :: s) = c :: s.
Proof.
  intros Hc. unfold strip_version. destruct c as [|p]; [done|].
  do 7 (destruct p as [p|p|]; try done).
Qed.

(** ** The round trip *)

(** The tiers as they are written: default labels, no conditions at the end
    of a list. *)
Definition writtens (ts : list VisualTier) : list Written :=
  match ts with
  | [t] => [{| w_label := str_or (label t) (js "default"); w_conditions := conditions t; w_tier := t |}]
  | _ =>
      imap (λ i t,
        {| w_label := str_or (label t) (js "tier_" ++ dec_of_N (N.of_nat (S i)));
           w_conditions := if i =? pred (length ts) then [] else conditions t;
           w_tier := t |}) ts
  end.

Definition reread_config (cfg : VisualConfig) : VisualConfig :=
  {| tiers := map reread_written (writtens (tiers cfg)) |}.

Definition tier_ok (t : VisualTier) : bool :=
  no_quote (label t) && conditions_ok (conditions t) && costs_ok t.

Lemma no_quote_or a b : no_quote a = true → no_quote b = true → no_quote (str_or a b) = true.
Proof. unfold str_or. by destruct (truthy_str a). Qed.

Lemma no_quote_tier i : no_quote (js "tier_" ++ dec_of_N i) = true.
Proof.
  unfold no_quote. rewrite forallb_app. apply andb_true_iff. split; [done|].
  pose proof (dec_of_N_digits i) as H. revert H. apply forallb_weaken. intros c.
  unfold is_digit, unquoted_unit. rewrite andb_true_iff, !N.leb_le, negb_true_iff, N.eqb_neq. lia.
Qed.

Lemma writtens_ok ts : forallb tier_ok ts = true → forallb written_ok (writtens ts) = true.
Proof.
  intros H. rewrite forallb_forall_elem in H.
  assert (∀ t l cds, t ∈ ts → no_quote l = true → cds = [] ∨ cds = conditions t →
            written_ok {| w_label := str_or (label t) l; w_conditions := cds; w_tier := t |} = true) as Hw.
  { intros t l cds Hin Hl Hcds. specialize (H t Hin). unfold tier_ok, written_ok in *.
    rewrite !andb_true_iff in *. destruct H as [[Hq Hc] Ht]. cbn [w_label w_conditions w_tier].
    split_and!; [by apply no_quote_or | by destruct Hcds as [-> | ->] | done]. }
  apply forallb_forall_elem. intros w Hin. unfold writtens in Hin.
  assert (w ∈ imap (λ i t, {| w_label := str_or (label t) (js "tier_" ++ dec_of_N (N.of_nat (S i)));
             w_conditions := if i =? pred (length ts) then [] else conditions t; w_tier := t |}) ts
          → written_ok w = true) as Hmany.
  { clear Hin. intros Hin. apply elem_of_lookup_imap in Hin as (i & t & -> & Ht%list_elem_of_lookup_2).
    apply Hw; [done | apply no_quote_tier|]. destruct (_ =? _); auto. }
  destruct ts as [|t [|t' ts]]; [by apply Hmany | | by apply Hmany].
  apply list_elem_of_singleton in Hin as ->. apply Hw; [constructor | done | by right].
Qed.

(** The text of an expression: the tiers, and the alternative of a single
    conditional tier. *)
Definition written_list (ws : list Written) : jsstr := join (js " : ") (map written_text ws).

Definition fallback (ws : list Written) : jsstr :=
  match ws with
  | [w] => if truthy_str (buildConditionStr (w_conditions w)) then js " : p * 0 + c * 0" else []
  | _ => []
  end.

Lemma fallback_many ts : 2 ≤ length ts → fallback (writtens ts) = [].
Proof. destruct ts as [|t [|t' ts]]; [simpl; lia.. | done]. Qed.

Lemma generate_text ts :
  ts ≠ [] →
  generateExprFromVisualConfig (Some {| tiers := ts |})
  = written_list (writtens ts) ++ fallback (writtens ts).
Proof.
  intros Hne. destruct ts as [|t [|t' ts]]; [done|..].
  - cbn [generateExprFromVisualConfig writtens written_list map join fallback].
    unfold written_text. cbn [w_conditions w_label w_tier].
    destruct (truthy_str _); [by rewrite <-!app_assoc | by rewrite app_nil_r].
  - rewrite (fallback_many (t :: t' :: ts)) by (simpl; lia). rewrite app_nil_r.
    unfold written_list, writtens. cbn [generateExprFromVisualConfig]. f_equal.
    change (map ?f ?l) with (f <$> l). rewrite fmap_imap. apply imap_ext. intros i u _. unfold compose.
    unfold tier_part, written_text. cbn [w_conditions w_label w_tier]. by destruct (_ =? _).
Qed.

(** Writing a reread tier again. *)
Lemma opt_cost_reread l cds t f v :
  (f, v) ∈ BILLING_CACHE_VAR_MAP → opt_cost (reread_tier l cds t) f = opt_cost t f.
Proof.
  intros Hin. unfold opt_cost at 1. cbn [reread_tier extra_costs].
  rewrite extra_cost_costs_of; [apply cost_or_0_idemp|].
  assert (forallb (λ '(f, _), optional f) BILLING_CACHE_VAR_MAP = true) as H by (vm_compute; reflexivity).
  rewrite forallb_forall_elem in H. exact (H (f, v) Hin).
Qed.

Lemma body_reread l cds t : buildTierBodyExpr (reread_tier l cds t) = buildTierBodyExpr t.
Proof.
  assert (in_cost (reread_tier l cds t) = in_cost t) as Hi by apply num_or_zero_idemp.
  assert (out_cost (reread_tier l cds t) = out_cost t) as Ho by apply num_or_zero_idemp.
  assert (terms_text (opt_cost (reread_tier l cds t)) BILLING_CACHE_VAR_MAP
          = terms_text (opt_cost t) BILLING_CACHE_VAR_MAP) as Hx.
  { unfold terms_text. apply (f_equal (@concat N)). apply map_ext_in. intros [f v] Hin%list_elem_of_In.
    unfold term_text. cbn [fst snd]. by rewrite (opt_cost_reread l cds t f v Hin). }
  by rewrite !body_text, Hi, Ho, Hx.
Qed.

Lemma written_reread l cds cds' t :
  conditions_ok cds = true → buildConditionStr cds' = buildConditionStr (omap reread_condition cds) →
  written_text {| w_label := l; w_conditions := cds';
                  w_tier := reread_tier l (omap reread_condition cds) t |}
  = written_text {| w_label := l; w_conditions := cds; w_tier := t |}.
Proof.
  intros Hok Hc. unfold written_text. cbn [w_label w_conditions w_tier]. rewrite Hc, body_reread.
  unfold buildConditionStr. fold (clauses (omap reread_condition cds)) (clauses cds).
  by rewrite clauses_reread.
Qed.

Lemma str_or_again a b : b ≠ [] → str_or (str_or a b) b = str_or a b.
Proof. intros Hb. unfold str_or. by destruct a, b. Qed.

Lemma imap_imap {A B C} (f : nat → A → B) (g : nat → B → C) l :
  imap g (imap f l) = imap (λ i x, g i (f i x)) l.
Proof. revert f g. induction l as [|x l IH]; intros f g; [done|]. cbn [imap]. f_equal. apply IH. Qed.

Lemma writtens_reread ts :
  forallb tier_ok ts = true →
  map written_text (writtens (map reread_written (writtens ts))) = map written_text (writtens ts)
  ∧ fallback (writtens (map reread_written (writtens ts))) = fallback (writtens ts).
Proof.
  intros Hok. destruct (decide (length ts = 1)) as [H1|H1].
  - destruct ts as [|t [|]]; try done. cbn [forallb] in Hok. rewrite andb_true_r in Hok.
    unfold tier_ok in Hok. rewrite !andb_true_iff in Hok. destruct Hok as [[_ Hc] _].
    cbn [writtens map reread_written reread_tier label conditions w_label w_conditions w_tier].
    rewrite str_or_again by done. split.
    + f_equal. by apply written_reread.
    + cbn [fallback w_conditions]. unfold buildConditionStr.
      fold (clauses (omap reread_condition (conditions t))) (clauses (conditions t)).
      by rewrite clauses_reread.
  - assert (∀ us, length us ≠ 1 →
              writtens us = imap (λ i t,
                {| w_label := str_or (label t) (js "tier_" ++ dec_of_N (N.of_nat (S i)));
                   w_conditions := if i =? pred (length us) then [] else conditions t; w_tier := t |}) us) as Hw.
    { intros [|u [|u' us]]; done. }
    assert (length (map reread_written (writtens ts)) = length ts) as Hl.
    { rewrite length_map, Hw by done. by rewrite length_imap. }
    split.
    + rewrite (Hw (map _ _)) by lia. rewrite Hl, Hw by done.
      change (map ?f ?l) with (f <$> l). rewrite !fmap_imap, imap_imap. apply imap_ext. intros i t Ht. unfold compose.
      cbn [reread_written reread_tier label conditions w_label w_conditions w_tier].
      rewrite str_or_again by done. rewrite forallb_forall_elem in Hok.
      assert (conditions_ok (conditions t) = true) as Hc.
      { specialize (Hok t (list_elem_of_lookup_2 _ _ _ Ht)). unfold tier_ok in Hok.
        rewrite !andb_true_iff in Hok. tauto. }
      destruct (_ =? _); by apply written_reread.
    + destruct ts as [|t [|t' ts]]; [done..|]. rewrite !fallback_many; [done | simpl; lia|].
      rewrite Hl. simpl; lia.
Qed.

Lemma generate_reread cfg :
  tiers cfg ≠ [] → forallb tier_ok (tiers cfg) = true →
  generateExprFromVisualConfig (Some (reread_config cfg)) = generateExprFromVisualConfig (Some cfg).
Proof.
  destruct cfg as [ts]. cbn [tiers]. intros Hne Hok. unfold reread_config. cbn [tiers].
  rewrite !generate_text; [|done|].
  - destruct (writtens_reread ts Hok) as [Ht ->]. unfold written_list. by rewrite Ht.
  - destruct ts as [|t [|t' ts]]; done.
Qed.

Lemma writtens_cons ts : ts ≠ [] → ∃ w ws, writtens ts = w :: ws.
Proof. intros Hne. destruct ts as [|t [|t' ts]]; [done|..]; by eexists _, _. Qed.

Lemma fallback_nowhere ws : nowhere tierRe (fallback ws) = true.
Proof.
  destruct ws as [|w [|w' ws]]; [vm_compute; reflexivity | | vm_compute; reflexivity].
  unfold fallback. destruct (truthy_str _); vm_compute; reflexivity.
Qed.

Lemma clause_not_single c s : c ∈ [112; 99; 108; 40]%N → fails singleRe (c :: s).
Proof.
  intros Hc. repeat (apply elem_of_cons in Hc as [-> | Hc];
    [by apply (refuted_fails singleRe [_])|]). by apply not_elem_of_nil in Hc.
Qed.

(** Where the reader takes the way for several tiers. *)
Lemma not_single w ws :
  written_ok w = true → (ws ≠ [] ∨ truthy_str (buildConditionStr (w_conditions w)) = true) →
  match_here singleRe (written_list (w :: ws) ++ fallback (w :: ws)) = None.
Proof.
  intros Hw Hor. destruct (match_here singleRe _) as [x|] eqn:E; [|done].
  destruct (truthy_str (buildConditionStr (w_conditions w))) eqn:Hc.
  - destruct (written_head w Hw) as (c & s & Hs & Hin). rewrite Hc in Hin.
    unfold written_list in E. cbn [map] in E. rewrite join_concat, Hs in E.
    cbn [app] in E. unfold match_here in E. by rewrite (clause_not_single c _ Hin) in E.
  - destruct Hor as [Hne|?]; [|done]. apply single_quotes in E. destruct ws as [|w' ws]; [done|].
    revert E. unfold written_list. cbn [map]. rewrite join_concat. cbn [map concat]. rewrite !quotes_app.
    pose proof (written_quotes w). pose proof (written_quotes w'). lia.
Qed.

(** C21: What the tier editor writes, it reads back.  For one or more tiers whose
    labels contain no double quote, whose costs are finite and print as texts that
    read as the same cost, and each of whose conditions is either a token bound
    that is empty or a text of digits, points, e, E and plus signs that prints as it
    was read (so no negative bound and no negative exponent; [bound_ok]), or a list of
    time windows in a zone without control characters, double quotes, backslashes,
    parentheses and surrogates ([zone_unit]), the expression that is written reads
    as the same tiers in normal form: default labels filled in, zero costs filled
    in, windows trimmed, conditions that are not written dropped, and the cache
    mode inferred from the cost of hourly caches.  Writing the result again gives
    the same expression. *)
Theorem tiers_round_trip (cfg : VisualConfig)
    (Hne : tiers cfg ≠ []) (Hok : forallb tier_ok (tiers cfg) = true) :
  tryParseVisualConfig (generateExprFromVisualConfig (Some cfg)) = Some (reread_config cfg) ∧
  generateExprFromVisualConfig (Some (reread_config cfg)) = generateExprFromVisualConfig (Some cfg).
Proof.
  pose proof (generate_reread cfg Hne Hok) as Hgen. split; [|exact Hgen].
  destruct cfg as [ts]. cbn [tiers] in *. pose proof (writtens_ok ts Hok) as Hws.
  unfold tryParseVisualConfig. set (text := generateExprFromVisualConfig (Some {| tiers := ts |})) in *.
  pose proof (generate_text ts Hne) as Ht. fold text in Ht. unfold reread_config in *. cbn [tiers] in *.
  destruct (writtens_cons ts Hne) as (w & ws & E). rewrite E in *.
  assert (written_ok w = true) as Hw by (cbn [forallb] in Hws; by apply andb_true_iff in Hws as [? _]).
  assert (normalizeVisualConfig (Some {| tiers := map reread_written (w :: ws) |})
          = {| tiers := map reread_written (w :: ws) |}) as Hnorm.
  { unfold normalizeVisualConfig. cbn [tiers]. rewrite bool_decide_eq_false_2 by done. f_equal.
    rewrite map_map. apply map_ext. intros u. apply reread_normal. }
  assert (strip_version text = text ∧ truthy_str text = true) as [-> ->].
  { destruct (written_head w Hw) as (c & s & Hs & Hin). rewrite Ht. unfold written_list. cbn [map].
    rewrite join_concat, Hs. split; [|done]. apply version_free. destruct (truthy_str _); [|by rewrite Hin].
    intros ->. revert Hin. apply (bool_decide_eq_false_1 _). vm_compute. reflexivity. }
  cbn [negb]. destruct (decide (ws = [] ∧ truthy_str (buildConditionStr (w_conditions w)) = false)) as [[-> Hc]|Hm].
  - assert (text = written_text w) as ->.
    { rewrite Ht. cbn [written_list map join fallback]. by rewrite Hc, app_nil_r. }
    unfold written_ok in Hw. rewrite !andb_true_iff in Hw. destruct Hw as [[Hl Hcd] Hcost].
    assert (match_here singleRe (written_text w) = Some (tier_groups 1 (w_label w) (w_tier w) [], [])) as ->.
    { unfold written_text. rewrite Hc. apply takes_end. by apply takes_tier. }
    assert (match_tier 1 [] (tier_groups 1 (w_label w) (w_tier w) []) = reread_written w) as ->; [|by rewrite <-Hnorm].
    rewrite match_tier_groups by done. unfold reread_written. f_equal.
    rewrite <-read_conditions_text by done. apply truthy_str_false in Hc. by rewrite Hc.
  - assert (match_here singleRe text = None) as ->.
    { rewrite Ht. apply not_single; [done|]. destruct ws as [|w' ws]; [|by left].
      right. destruct (truthy_str _); [done|]. by destruct Hm. }
    assert (map (λ m, match_tier 2 (read_conditions (group_text 1 m)) m) (match_all tierRe (S (length text)) text)
            = map reread_written (w :: ws)) as ->.
    { change (map read_match (match_all tierRe (S (length text)) text) = map reread_written (w :: ws)).
      rewrite Ht. unfold written_list. cbn [map]. rewrite join_concat, map_map, <-app_assoc.
      apply read_all; [done | apply fallback_nowhere | lia]. }
    rewrite bool_decide_eq_false_2 by done. rewrite Hnorm, Hgen. by rewrite bool_decide_eq_true_2.
Qed.

(** The tiers of the editor's documentation: a night window and a bound, then
    the rest. *)
Definition night_tiers : VisualConfig :=
  {| tiers :=
       [{| label := js "night long";
           conditions :=
             [VisualTimeRangeCondition night_and_noon;
              TokenTierCondition Var_len Op_le (ValStr (js "200000"))];
           input_unit_cost := num_of_string (js "2.5"); output_unit_cost := num_of_Z 15;
           cache_mode := CACHE_MODE_GENERIC;
           extra_costs := set_cost (set_cost no_extra_costs F_cache_read_unit_cost (num_of_string (js "0.25")))
                            F_image_output_unit_cost (num_of_string (js "1e-7")) |};
        {| label := [];
           conditions := [TokenTierCondition Var_p Op_gt (ValNum (num_of_Z 8))];
           input_unit_cost := num_of_Z 3; output_unit_cost := num_nan;
           cache_mode := CACHE_MODE_GENERIC;
           extra_costs := set_cost no_extra_costs F_cache_create_1h_unit_cost (num_of_Z 6) |}] |}.

Lemma tiers_round_trip_witness :
  tiers night_tiers ≠ [] ∧ forallb tier_ok (tiers night_tiers) = true ∧
  tryParseVisualConfig (generateExprFromVisualConfig (Some night_tiers)) = Some (reread_config night_tiers) ∧
  generateExprFromVisualConfig (Some (reread_config night_tiers))
  = generateExprFromVisualConfig (Some night_tiers).
Proof.
  split; [discriminate|]. split; [vm_compute; reflexivity|].
  apply (tiers_round_trip night_tiers); [discriminate | vm_compute; reflexivity].
Defined.

(** ** What the reader accepts *)

Lemma normalize_normal p : normalizeVisualTier (as_partial (normalizeVisualTier p)) = normalizeVisualTier p.
Proof.
  unfold normalizeVisualTier. cbn. f_equal. unfold costs_of. cbn. by rewrite !cost_or_0_idemp.
Qed.

Lemma normalize_config_normal c : normalizeVisualConfig (Some (normalizeVisualConfig c)) = normalizeVisualConfig c.
Proof.
  assert (normalizeVisualConfig (Some createDefaultVisualConfig) = createDefaultVisualConfig) as Hd
    by (vm_compute; reflexivity).
  destruct c as [[ts]|]; [|exact Hd]. unfold normalizeVisualConfig at 2 3. cbn [tiers].
  case_bool_decide as Hne; [exact Hd|]. unfold normalizeVisualConfig. cbn [tiers].
  rewrite bool_decide_eq_false_2 by (by destruct ts). f_equal. rewrite map_map. apply map_ext.
  intros t. apply normalize_normal.
Qed.

Lemma normalize_config_nonempty c : tiers (normalizeVisualConfig c) ≠ [].
Proof. destruct c as [[[|t ts]]|]; done. Qed.

(** C33: What the reader accepts.  The result is a nonempty list of tiers in
    normal form.  An expression of several tiers or of a conditional tier is
    accepted only if writing the tiers gives it back up to white space.  An
    expression that is a single call is accepted in any case, whatever its
    costs are. *)
Theorem accepted_expression (e : jsstr) :
  match tryParseVisualConfig e with
  | Some cfg =>
      tiers cfg ≠ [] ∧ normalizeVisualConfig (Some cfg) = cfg ∧
      (lang (re_tier 1) (strip_version e) ∧ length (tiers cfg) = 1
       ∨ strip_ws (generateExprFromVisualConfig (Some cfg)) = strip_ws (strip_version e))
  | None => ¬ lang (re_tier 1) (strip_version e)
  end.
Proof.
  pose proof (match_whole (re_tier 1) (strip_version e) eq_refl) as Hsingle.
  change (RSeq (re_tier 1) REnd) with singleRe in Hsingle.
  unfold tryParseVisualConfig. destruct (truthy_str e) eqn:He; cbn [negb].
  - destruct (match_here singleRe (strip_version e)) as [[m r]|].
    + split; [apply normalize_config_nonempty|]. split; [apply normalize_config_normal|].
      left. split; [by apply Hsingle; eexists | done].
    + assert (¬ lang (re_tier 1) (strip_version e)) as Hn by (intros H; apply Hsingle in H as [? ?]; done).
      case_bool_decide; [done|]. case_bool_decide; [|done].
      split; [apply normalize_config_nonempty|]. split; [apply normalize_config_normal | by right].
  - apply truthy_str_false in He as ->. intros H. by apply Hsingle in H as [? ?].
Qed.

(** The costs of a single call need not be numbers: an expression that adds
    another price opens as a tier whose input is free, and is written so. *)
Definition sum_expression : jsstr := jq "tier(`x`, p * 1+2 + c * 3)".

Lemma sum_expression_lost :
  option_map (λ cfg, (map input_unit_cost (tiers cfg), generateExprFromVisualConfig (Some cfg)))
    (tryParseVisualConfig sum_expression)
  = Some ([num_nan], jq "tier(`x`, p * 0 + c * 3)").
Proof. vm_compute. reflexivity. Qed.
