(* ===== verification/MediaTiers.v ===== *)
(** * Media tiers (pricing/lib/media-tier-expr.ts, billing-expr.ts)

    Images and videos are priced per unit, per second or per token.  The
    editor of such prices writes tiers whose conditions bear on the properties
    of the request; the tier parser of billing-expr.ts, which the price pages
    use for every expression, reads them back. *)

From Stdlib Require Import ZArith.
From S2P Require Import Prelude JsString JsNumber JsCollections Json ExprSplit TimeRange JsRegExp.
From S2P Require Import TierExpr.

(** ** Conditions *)

Inductive DimensionVar :=
  | V_quality | V_resolution_tier | V_image_size_tier | V_image_size
  | V_reference_image_count | V_reference_video_count | V_reference_audio_count.

#[export] Instance DimensionVar_eq_dec : EqDecision DimensionVar.
Proof. solve_decision. Defined.

Definition dimension_vars : list DimensionVar :=
  [V_quality; V_resolution_tier; V_image_size_tier; V_image_size;
   V_reference_image_count; V_reference_video_count; V_reference_audio_count].

Definition var_text (v : DimensionVar) : jsstr :=
  match v with
  | V_quality => js "quality"
  | V_resolution_tier => js "resolution_tier"
  | V_image_size_tier => js "image_size_tier"
  | V_image_size => js "image_size"
  | V_reference_image_count => js "reference_image_count"
  | V_reference_video_count => js "reference_video_count"
  | V_reference_audio_count => js "reference_audio_count"
  end.

Inductive MediaConditionOperator :=
  | MEDIA_CONDITION_EQ | MEDIA_CONDITION_LT | MEDIA_CONDITION_LTE
  | MEDIA_CONDITION_GT | MEDIA_CONDITION_GTE | MEDIA_CONDITION_RANGE.

#[export] Instance MediaConditionOperator_eq_dec : EqDecision MediaConditionOperator.
Proof. solve_decision. Defined.

Record MediaDimensionCondition := {
  variable : DimensionVar;
  operator : MediaConditionOperator;
  value : jsstr;
  rangeEnd : option jsstr
}.

#[export] Instance MediaDimensionCondition_eq_dec : EqDecision MediaDimensionCondition.
Proof. solve_decision. Defined.

Inductive MediaCondition :=
  | DimensionCondition (c : MediaDimensionCondition)
  | MediaTimeRangeCondition (c : TimeRangeCondition).

#[export] Instance MediaCondition_eq_dec : EqDecision MediaCondition.
Proof. solve_decision. Defined.

Definition isReferenceCountCondition (v : DimensionVar) : bool :=
  starts_with (var_text v) (js "reference_") && ends_with (var_text v) (js "_count").

(** ** Tiers of the editor *)

Inductive MediaBillingMethod :=
  | MEDIA_BILLING_PER_UNIT | MEDIA_BILLING_PER_SECOND
  | MEDIA_BILLING_FIXED_PLUS_SECOND | MEDIA_BILLING_PER_TOTAL_TOKEN.

#[export] Instance MediaBillingMethod_eq_dec : EqDecision MediaBillingMethod.
Proof. solve_decision. Defined.

Record MediaTier := {
  label : jsstr;
  conditions : list MediaCondition;
  billingMethod : MediaBillingMethod;
  unitPrice : num;
  fixedPrice : num;
  perSecondPrice : num;
  totalTokenPrice : option num;
  reservePerSecond : option num
}.

#[export] Instance MediaTier_eq_dec : EqDecision MediaTier.
Proof. solve_decision. Defined.

Record MediaVisualConfig := { tiers : list MediaTier }.

#[export] Instance MediaVisualConfig_eq_dec : EqDecision MediaVisualConfig.
Proof. solve_decision. Defined.

Definition createDefaultMediaTier (index : nat) : MediaTier :=
  {| label := if index =? 0 then js "base" else js "tier_" ++ dec_of_N (N.of_nat (S index));
     conditions := []; billingMethod := MEDIA_BILLING_PER_UNIT;
     unitPrice := num_zero; fixedPrice := num_zero; perSecondPrice := num_zero;
     totalTokenPrice := Some num_zero; reservePerSecond := Some num_zero |}.

Definition createDefaultMediaConfig : MediaVisualConfig := {| tiers := [createDefaultMediaTier 0] |}.

(** A missing price is NaN as a number. *)
Definition finitePrice (value : option num) : num :=
  let number := default num_nan value in
  if num_is_finite number && num_leb num_zero number then number else num_zero.

(** [s.replaceAll(c, w)] for a single unit [c]. *)
Definition replace_unit (c : N) (w s : jsstr) : jsstr :=
  flat_map (λ d, if (d =? c)%N then w else [d]) s.

Definition escapeExprString (value : jsstr) : jsstr :=
  replace_unit 34 [92%N; 34%N] (replace_unit 92 [92%N; 92%N] value).

(** [Number.isSafeInteger]. *)
Definition is_safe_integer (x : num) : bool :=
  match num_to_Z x with Some z => (Z.abs z <=? 2 ^ 53 - 1)%Z | None => false end.

Definition parseReferenceCount (value : jsstr) : option num :=
  let normalized := trim value in
  if bool_decide (normalized = []) || negb (forallb is_digit normalized) then None
  else
    let count := num_of_string normalized in
    if is_safe_integer count then Some count else None.

(** ** Writing *)

Definition operator_symbol (o : MediaConditionOperator) : jsstr :=
  match o with
  | MEDIA_CONDITION_EQ => js "=="
  | MEDIA_CONDITION_LT => js "<"
  | MEDIA_CONDITION_LTE => js "<="
  | MEDIA_CONDITION_GT => js ">"
  | MEDIA_CONDITION_GTE => js ">="
  | MEDIA_CONDITION_RANGE => js "undefined"
  end.

Definition buildMediaCondition (condition : MediaCondition) : option jsstr :=
  match condition with
  | MediaTimeRangeCondition c => buildTimeRangeConditionExpr c
  | DimensionCondition c =>
      let name := var_text (variable c) in
      if negb (isReferenceCountCondition (variable c)) then
        let v := trim (value c) in
        if truthy_str v then Some (name ++ jq " == `" ++ escapeExprString v ++ jq "`") else None
      else
        match parseReferenceCount (value c) with
        | None => None
        | Some v =>
            match operator c with
            | MEDIA_CONDITION_RANGE =>
                match parseReferenceCount (default [] (rangeEnd c)) with
                | Some e =>
                    if num_ltb e v then None
                    else Some (name ++ js " >= " ++ num_to_string v ++ js " && "
                               ++ name ++ js " <= " ++ num_to_string e)
                | None => None
                end
            | o => Some (name ++ js " " ++ operator_symbol o ++ js " " ++ num_to_string v)
            end
        end
  end.

Definition buildMediaTierCondition (tier : MediaTier) : option jsstr :=
  if bool_decide (conditions tier = []) then None
  else
    let built := map buildMediaCondition (conditions tier) in
    if existsb (λ c, bool_decide (c = None)) built then None
    else Some (join (js " && ") (omap id built)).

Definition buildMediaCost (tier : MediaTier) : jsstr :=
  let price x := num_to_string (finitePrice x) in
  match billingMethod tier with
  | MEDIA_BILLING_PER_TOTAL_TOKEN =>
      js "deferred(total * " ++ price (totalTokenPrice tier) ++ js ", usd("
      ++ price (reservePerSecond tier) ++ js " * seconds * units))"
  | MEDIA_BILLING_PER_SECOND =>
      js "usd(" ++ price (Some (perSecondPrice tier)) ++ js " * seconds * units)"
  | MEDIA_BILLING_FIXED_PLUS_SECOND =>
      js "usd((" ++ price (Some (fixedPrice tier)) ++ js " + "
      ++ price (Some (perSecondPrice tier)) ++ js " * seconds) * units)"
  | MEDIA_BILLING_PER_UNIT => js "usd(" ++ price (Some (unitPrice tier)) ++ js " * units)"
  end.

(** The tiers before the last one that have a condition. *)
Definition conditional_tiers (source : list MediaTier) : list (MediaTier * jsstr) :=
  omap (λ tier, match buildMediaTierCondition tier with
                | Some c => if truthy_str c then Some (tier, c) else None
                | None => None
                end) (removelast source).

(** A tier at an index, and its condition unless it is the last one. *)
Definition media_part (index : nat) (tier : MediaTier) (condition : option jsstr) : jsstr :=
  let l := escapeExprString (str_or (label tier) (js "tier_" ++ dec_of_N (N.of_nat (S index)))) in
  let body := tier_call l (buildMediaCost tier) in
  match condition with Some c => c ++ js " ? " ++ body | None => body end.

Definition generateMediaExpr (config : MediaVisualConfig) : jsstr :=
  let source := if bool_decide (tiers config = []) then [createDefaultMediaTier 0] else tiers config in
  let fallback := default (createDefaultMediaTier 0) (last source) in
  let conditional := conditional_tiers source in
  let written := map (λ tc, (fst tc, Some (snd tc))) conditional ++ [(fallback, None)] in
  let parts := imap (λ index tc, media_part index (fst tc) (snd tc)) written in
  let version := if existsb (λ tc, bool_decide (billingMethod (fst tc) = MEDIA_BILLING_PER_TOTAL_TOKEN)) written
                 then js "v3" else js "v2" in
  version ++ js ":" ++ join (js " : ") parts.

(** ** The tier parser (billing-expr.ts) *)

Record MediaPricing := {
  m_method : MediaBillingMethod;
  m_unitPrice : option num;
  m_fixedPrice : option num;
  m_perSecondPrice : option num;
  m_totalTokenPrice : option num;
  m_reservePerSecond : option num
}.

(** A condition on tokens or on the time of the day. *)
Inductive TierCondition :=
  | ParsedTokenTierCondition (var : TokenVar) (op : TokenOp) (value : num)
  | ParsedTimeCondition (c : TimeRangeCondition).

(** A tier as the price pages see it; [prices] has an entry for each price
    field of the registry. *)
Record ParsedTier := {
  t_label : jsstr;
  t_conditions : list TierCondition;
  mediaConditions : list MediaCondition;
  mediaPricing : option MediaPricing;
  prices : list (jsstr * num)
}.

Definition stripExprVersion (exprStr : jsstr) : num * jsstr :=
  match exprStr with
  | 118%N :: r =>
      match span_digits r with
      | ((_ :: _) as d, 58%N :: body) => (num_of_string d, body)
      | _ => (num_of_Z 1, exprStr)
      end
  | _ => (num_of_Z 1, exprStr)
  end.

(** The name of the price field of each variable. *)
Definition BILLING_VAR_KEY_TO_FIELD : list (jsstr * jsstr) :=
  omap (λ v, f ← field v; Some (key v, f)) BILLING_PRICING_VARS.

(** [BILLING_VAR_REGEX] behind its word boundary. *)
Definition re_alternatives (l : list jsstr) : re :=
  match l with [] => RChar (λ _, false) | w :: ws => ralt (rlit w) (map rlit ws) end.

Definition BILLING_VAR_REGEX : re :=
  rseq [RGroup 1 (re_alternatives (map key BILLING_PRICING_VARS)); rws; rlit (js "*"); rws; re_cost 2].

(** The successive matches of [BILLING_VAR_REGEX]; [word] tells whether the
    unit before the text is one of [\w]. *)
Fixpoint var_matches (fuel : nat) (word : bool) (s : jsstr) : list captures :=
  match fuel with
  | O => []
  | S f =>
      match (if at_boundary word s then match_here BILLING_VAR_REGEX s else None) with
      | Some (cs, s') =>
          cs :: var_matches f
                  (match last (take (length s - length s') s) with Some c => word_unit c | None => word end) s'
      | None => match s with [] => [] | c :: s' => var_matches f (word_unit c) s' end
      end
  end.

(** The first coefficient of every variable. *)
Definition coefficients (bodyStr : jsstr) : list (jsstr * num) :=
  fold_left (λ coeffs m,
      let v := group_text 1 m in
      match mget v coeffs with
      | Some _ => coeffs
      | None => mset v (num_of_string (group_text 2 m)) coeffs
      end)
    (var_matches (S (length bodyStr)) false bodyStr) [].

Definition parseTierBody (bodyStr : jsstr) : list (jsstr * num) :=
  let coeffs := coefficients bodyStr in
  map (λ '(varName, f), (f, cost_or_0 (mget varName coeffs))) BILLING_VAR_KEY_TO_FIELD.

(** The four forms of a media price, after white space has been removed. *)
Definition re_total : re :=
  rseq [rlit (js "deferred(total*"); re_cost 1; rlit (js ",usd("); re_cost 2;
        rlit (js "*seconds*units))")].
Definition re_fixed : re :=
  rseq [rlit (js "usd(("); re_cost 1; rlit (js "+"); re_cost 2; rlit (js "*seconds)*units)")].
Definition re_second : re := rseq [rlit (js "usd("); re_cost 1; rlit (js "*seconds*units)")].
Definition re_unit : re := rseq [rlit (js "usd("); re_cost 1; rlit (js "*units)")].

Definition group_num (i : nat) (m : captures) : option num := Some (num_of_string (group_text i m)).

Definition parseMediaPricing (bodyStr : jsstr) : option MediaPricing :=
  let normalized := strip_ws bodyStr in
  let matched r := option_map fst (match_here (RSeq r REnd) normalized) in
  match matched re_total with
  | Some m => Some {| m_method := MEDIA_BILLING_PER_TOTAL_TOKEN; m_unitPrice := None;
                      m_fixedPrice := None; m_perSecondPrice := None;
                      m_totalTokenPrice := group_num 1 m; m_reservePerSecond := group_num 2 m |}
  | None =>
  match matched re_fixed with
  | Some m => Some {| m_method := MEDIA_BILLING_FIXED_PLUS_SECOND; m_unitPrice := None;
                      m_fixedPrice := group_num 1 m; m_perSecondPrice := group_num 2 m;
                      m_totalTokenPrice := None; m_reservePerSecond := None |}
  | None =>
  match matched re_second with
  | Some m => Some {| m_method := MEDIA_BILLING_PER_SECOND; m_unitPrice := None;
                      m_fixedPrice := None; m_perSecondPrice := group_num 1 m;
                      m_totalTokenPrice := None; m_reservePerSecond := None |}
  | None =>
  match matched re_unit with
  | Some m => Some {| m_method := MEDIA_BILLING_PER_UNIT; m_unitPrice := group_num 1 m;
                      m_fixedPrice := None; m_perSecondPrice := None;
                      m_totalTokenPrice := None; m_reservePerSecond := None |}
  | None => None
  end end end end.

(** *** Conditions *)

Definition text_vars : list DimensionVar := [V_quality; V_resolution_tier; V_image_size_tier; V_image_size].
Definition count_vars : list DimensionVar :=
  [V_reference_image_count; V_reference_video_count; V_reference_audio_count].

Definition re_text_clause : re :=
  rseq [RGroup 1 (re_alternatives (map var_text text_vars)); rws; rlit (js "=="); rws;
        rlit (jq "`"); RGroup 2 (rplus (RChar unquoted_unit)); rlit (jq "`"); REnd].

Definition re_count_op : re :=
  ralt (rlit (js "==")) [rlit (js "<="); rlit (js ">="); rlit (js "<"); rlit (js ">")].

Definition re_count_clause : re :=
  rseq [RGroup 1 (re_alternatives (map var_text count_vars)); rws; RGroup 2 re_count_op; rws;
        RGroup 3 (rplus (RChar bound_unit)); REnd].

Definition dimension_of (s : jsstr) : option DimensionVar :=
  List.find (λ v, bool_decide (var_text v = s)) dimension_vars.

Definition MEDIA_CONDITION_OPERATOR_MAP (s : jsstr) : option MediaConditionOperator :=
  List.find (λ o, bool_decide (operator_symbol o = s))
    [MEDIA_CONDITION_EQ; MEDIA_CONDITION_LT; MEDIA_CONDITION_LTE; MEDIA_CONDITION_GT; MEDIA_CONDITION_GTE].

(** A clause on a text: the variable and its value. *)
Definition match_text_clause (clause : jsstr) : option (DimensionVar * jsstr) :=
  '(m, _) ← match_here re_text_clause clause;
  v ← dimension_of (group_text 1 m);
  Some (v, group_text 2 m).

(** A clause on a count: the variable, the operator and the bound. *)
Definition match_count_clause (clause : jsstr) : option (DimensionVar * MediaConditionOperator * jsstr) :=
  '(m, _) ← match_here re_count_clause clause;
  v ← dimension_of (group_text 1 m);
  o ← MEDIA_CONDITION_OPERATOR_MAP (group_text 2 m);
  Some (v, o, group_text 3 m).

(** A lower bound followed by an upper bound of the same count is a range. *)
Definition closes_range (v : DimensionVar) (o : MediaConditionOperator)
    (next : option (DimensionVar * MediaConditionOperator * jsstr)) : option jsstr :=
  match next with
  | Some (v', o', e) =>
      if bool_decide (o = MEDIA_CONDITION_GTE) && bool_decide (v' = v)
         && bool_decide (o' = MEDIA_CONDITION_LTE)
      then Some e else None
  | None => None
  end.

(** The loop over the clauses; [skip] when the last turn has taken two. *)
Fixpoint parse_clauses (skip : bool) (clauses : list jsstr) : list MediaCondition :=
  match clauses with
  | [] => []
  | clause :: rest =>
      if skip then parse_clauses false rest
      else
        match parseTimeRangeCondition clause with
        | Some c => MediaTimeRangeCondition c :: parse_clauses false rest
        | None =>
            match match_text_clause clause with
            | Some (v, w) =>
                DimensionCondition {| variable := v; operator := MEDIA_CONDITION_EQ; value := w;
                                      rangeEnd := None |} :: parse_clauses false rest
            | None =>
                match match_count_clause clause with
                | Some (v, o, n) =>
                    match closes_range v o (head rest ≫= match_count_clause) with
                    | Some e =>
                        DimensionCondition {| variable := v; operator := MEDIA_CONDITION_RANGE;
                                              value := n; rangeEnd := Some e |}
                        :: parse_clauses true rest
                    | None =>
                        DimensionCondition {| variable := v; operator := o; value := n;
                                              rangeEnd := None |} :: parse_clauses false rest
                    end
                | None => parse_clauses false rest
                end
            end
        end
  end.

Definition parseMediaConditions (conditionString : jsstr) : list MediaCondition :=
  parse_clauses false (if truthy_str conditionString then splitTopLevelAnd conditionString else []).

(** *** Tiers *)

Definition numericVars : list jsstr := [js "p"; js "c"; js "len"] ++ map var_text count_vars.

Definition numericCondition : re :=
  rseq [re_alternatives numericVars; rws; re_count_op; rws; rplus (RChar bound_unit)].
Definition textCondition : re :=
  rseq [re_alternatives (map var_text text_vars); rws; rlit (js "=="); rws; rlit (jq "`");
        rplus (RChar unquoted_unit); rlit (jq "`")].
Definition media_condition : re := ralt numericCondition [textCondition; re_time].
Definition media_condGroup : re :=
  RGroup 1 (RSeq media_condition (RStar (rseq [rws; rlit (js "&&"); rws; media_condition]))).

(** A body with parentheses nested two deep. *)
Definition re_no_paren : re := RChar no_paren.
Definition re_group (inner : re) : re := rseq [rlit (js "("); RStar inner; rlit (js ")")].
Definition tierBody : re :=
  RGroup 3 (rplus (RAlt re_no_paren (re_group (RAlt re_no_paren (re_group re_no_paren))))).

Definition media_tierRe : re :=
  RSeq (ROpt (rseq [media_condGroup; rws; rlit (js "?"); rws]))
    (rseq [rlit (jq "tier(`"); RGroup 2 (RStar (RChar unquoted_unit)); rlit (jq "`,"); rws;
           tierBody; rlit (js ")")]).

(** A clause as a token or time condition. *)
Definition read_tier_clause (cp : jsstr) : option TierCondition :=
  match read_clause cp with
  | Some (VisualTimeRangeCondition c) => Some (ParsedTimeCondition c)
  | Some (TokenTierCondition v o (ValNum n)) => Some (ParsedTokenTierCondition v o n)
  | _ => None
  end.

Definition is_token_condition (c : TierCondition) : bool :=
  match c with ParsedTokenTierCondition _ _ _ => true | ParsedTimeCondition _ => false end.

Definition parsed_tier (m : captures) : ParsedTier :=
  let condStr := group_text 1 m in
  let conditions := if truthy_str condStr then omap read_tier_clause (splitTopLevelAnd condStr) else [] in
  let pricing := parseMediaPricing (group_text 3 m) in
  {| t_label := group_text 2 m;
     t_conditions := match pricing with
                     | Some _ => List.filter is_token_condition conditions
                     | None => conditions
                     end;
     mediaConditions := parseMediaConditions condStr;
     mediaPricing := pricing;
     prices := parseTierBody (group_text 3 m) |}.

Definition parseTiersFromExpr (exprStr : jsstr) : list ParsedTier :=
  if negb (truthy_str exprStr) then []
  else
    let '(_, body) := stripExprVersion exprStr in
    map parsed_tier (match_all media_tierRe (S (length body)) body).

(** ** Reading *)

(** [/\busd\s*\(/] at or behind a position. *)
Fixpoint calls_usd (word : bool) (s : jsstr) : bool :=
  (at_boundary word s
   && match strip_prefix (js "usd") s with
      | Some r => starts_with (drop_while is_ws r) (js "(")
      | None => false
      end)
  || match s with [] => false | c :: s' => calls_usd (word_unit c) s' end.

Definition isMediaBillingExpr (expr : jsstr) : bool :=
  truthy_str expr
  && (starts_with expr (js "v2:") || starts_with expr (js "v3:"))
  && calls_usd false expr.

Definition media_tier_of (tier : ParsedTier) : MediaTier :=
  let pricing := mediaPricing tier in
  let total := match pricing with
               | Some p => bool_decide (m_method p = MEDIA_BILLING_PER_TOTAL_TOKEN)
               | None => false
               end in
  {| label := t_label tier;
     conditions := mediaConditions tier;
     billingMethod := default MEDIA_BILLING_PER_UNIT (m_method <$> pricing);
     unitPrice := finitePrice (pricing ≫= m_unitPrice);
     fixedPrice := finitePrice (pricing ≫= m_fixedPrice);
     perSecondPrice := finitePrice (pricing ≫= m_perSecondPrice);
     totalTokenPrice := if total then Some (finitePrice (pricing ≫= m_totalTokenPrice)) else None;
     reservePerSecond := if total then Some (finitePrice (pricing ≫= m_reservePerSecond)) else None |}.

Definition tryParseMediaConfig (expr : jsstr) : option MediaVisualConfig :=
  if negb (isMediaBillingExpr expr) then None
  else
    let parsed := parseTiersFromExpr expr in
    if bool_decide (parsed = []) || existsb (λ t, match mediaPricing t with None => true | _ => false end) parsed
    then None
    else if existsb (λ t, match mediaConditions t, t_conditions t with
                          | [], _ => true
                          | _, _ :: _ => true
                          | _, _ => false
                          end) (removelast parsed)
    then None
    else Some {| tiers := map media_tier_of parsed |}.

(** ** Summaries *)

Section summaries.
(** The translation of a key. *)
Context (t : jsstr → jsstr).

Definition MEDIA_CONDITION_LABELS (v : DimensionVar) : jsstr :=
  match v with
  | V_quality => js "Image quality"
  | V_resolution_tier => js "Video resolution tier"
  | V_image_size_tier => js "Image size tier"
  | V_image_size => js "Image size"
  | V_reference_image_count => js "Reference image count"
  | V_reference_video_count => js "Reference video count"
  | V_reference_audio_count => js "Reference audio count"
  end.

Definition ranges_text (ranges : list TimeRange) : jsstr :=
  join (js ", ") (map (λ r, start r ++ js "-" ++ end_ r) ranges).

Definition summary_symbol (o : MediaConditionOperator) : jsstr :=
  match o with
  | MEDIA_CONDITION_EQ => js "="
  | MEDIA_CONDITION_LT => js "<"
  | MEDIA_CONDITION_LTE => [0x2264%N]
  | MEDIA_CONDITION_GT => js ">"
  | MEDIA_CONDITION_GTE => [0x2265%N]
  | MEDIA_CONDITION_RANGE => js "undefined"
  end.

Definition formatMediaConditionSummary (condition : MediaCondition) : jsstr :=
  match condition with
  | MediaTimeRangeCondition c =>
      t (js "Time range") ++ js " " ++ ranges_text (ranges c) ++ js " (" ++ timezone c ++ js ")"
  | DimensionCondition c =>
      let l := t (MEDIA_CONDITION_LABELS (variable c)) in
      match operator c with
      | MEDIA_CONDITION_RANGE =>
          l ++ js " " ++ value c ++ [0x2013%N] ++ default (js "undefined") (rangeEnd c)
      | o => l ++ js " " ++ summary_symbol o ++ js " " ++ value c
      end
  end.

Definition formatMediaConditionsSummary (conditions : list MediaCondition) : jsstr :=
  join (js " " ++ [0xB7%N] ++ js " ") (map formatMediaConditionSummary conditions).

Definition token_label (v : TokenVar) : jsstr :=
  match v with
  | Var_p => js "Billable input tokens"
  | Var_c => js "Billable output tokens"
  | Var_len => js "Full input length"
  end.

Definition token_operator (o : TokenOp) : jsstr :=
  match o with Op_lt => js "<" | Op_le => [0x2264%N] | Op_gt => js ">" | Op_ge => [0x2265%N] end.

Definition formatTierConditionsSummary (conditions : list TierCondition) : jsstr :=
  join (js " && ") (List.filter truthy_str (map (λ condition,
    match condition with
    | ParsedTimeCondition c =>
        t (js "Time range") ++ js " " ++ ranges_text (ranges c) ++ js " (" ++ timezone c ++ js ")"
    | ParsedTokenTierCondition v o n =>
        t (token_label v) ++ js " " ++ token_operator o ++ js " " ++ num_to_string n
    end) conditions)).
End summaries.

Inductive MediaUnit := UnitImage | UnitVideo | UnitOutput.

Definition inferMediaUnit (tiers : list ParsedTier) : MediaUnit :=
  let variables := flat_map (λ tier,
        omap (λ c, match c with DimensionCondition d => Some (variable d) | _ => None end)
          (mediaConditions tier)) tiers in
  let hasVideo := existsb (λ v, bool_decide (v = V_resolution_tier)
                                || starts_with (var_text v) (js "reference_")) variables in
  let hasImage := existsb (λ v, bool_decide (v ∈ [V_quality; V_image_size_tier; V_image_size])) variables in
  if hasVideo && negb hasImage then UnitVideo
  else if hasImage && negb hasVideo then UnitImage else UnitOutput.
