(* ===== verification/MediaTiersSpec.v ===== *)
(** * What the media editor writes, it reads back

    The writer of [MediaTiers] against the tier parser: the nested bodies, the
    four forms of a price, the clauses of a condition and the list of tiers.
    The last part shows what the reader lets through and should not. *)

From Stdlib Require Import ZArith.
From S2P Require Import Prelude JsString JsNumber JsNumberFacts JsCollections Json ExprSplit.
From S2P Require Import TimeRange TimeRangeSpec JsRegExp TierExpr TierExprSpec MediaTiers.

(** ** Bodies with nested parentheses *)

Section pieces.
Context (inner : re).

(** A unit that is no parenthesis, or a group whose inside [inner] repeats. *)
Definition piece (w : jsstr) : Prop :=
  (∃ c, w = [c] ∧ no_paren c = true)
  ∨ (∃ w', w = 40%N :: w' ++ [41%N] ∧ ∀ s, takes (RStar inner) w' (41%N :: s) id).

Definition pieces (w : jsstr) : Prop := ∃ ws, w = concat ws ∧ Forall piece ws.

Lemma pieces_flat w : forallb no_paren w = true → pieces w.
Proof.
  intros H. exists (map (λ c, [c]) w). split.
  - clear H. induction w as [|c w IH]; [done|]. cbn [map concat app]. by rewrite <-IH.
  - rewrite forallb_forall_elem in H. apply Forall_forall. intros x Hx.
    apply list_elem_of_fmap in Hx as (c & -> & Hc). left. eauto.
Qed.

Lemma pieces_app w w' : pieces w → pieces w' → pieces (w ++ w').
Proof.
  intros (ws & -> & H) (ws' & -> & H'). exists (ws ++ ws'). rewrite concat_app. split; [done|].
  by apply Forall_app.
Qed.

Lemma pieces_group w :
  (∀ s, takes (RStar inner) w (41%N :: s) id) → pieces (40%N :: w ++ [41%N]).
Proof.
  intros H. exists [40%N :: w ++ [41%N]]. split; [cbn [concat]; by rewrite app_nil_r|].
  constructor; [|constructor]. right. eauto.
Qed.

Lemma takes_char p c s : p c = true → takes (RChar p) [c] s id.
Proof. intros H A k cs x Hk. cbn [rmatch app]. by rewrite H. Qed.

Lemma takes_piece w s : piece w → takes (RAlt re_no_paren (re_group inner)) w s id.
Proof.
  intros [(c & -> & Hc)|(w' & -> & Hw)].
  - by apply takes_alt_l, takes_char.
  - apply takes_alt_r; [by apply (refuted_fails re_no_paren [40%N])|].
    change (40%N :: w' ++ [41%N]) with (js "(" ++ w' ++ js ")"). eapply takes_ext.
    + take_lit (js "("). eapply takes_cons; [apply Hw|]. apply takes_last, takes_lit.
    + done.
Qed.

Lemma pieces_takes w s :
  pieces w → takes (RStar (RAlt re_no_paren (re_group inner))) w (41%N :: s) id.
Proof.
  intros (ws & -> & H). apply takes_star.
  - eapply Forall_impl; [exact H|]. intros x [(c & -> & _)|(w' & -> & _)]; done.
  - intros w ws' [pre ->]. apply takes_piece. apply Forall_app in H as [_ H]. by inversion H.
  - by apply (refuted_fails _ [41%N]).
Qed.

Lemma pieces_takes1 w s :
  pieces w → w ≠ [] → takes (rplus (RAlt re_no_paren (re_group inner))) w (41%N :: s) id.
Proof.
  intros (ws & -> & H) Hne. destruct H as [|w ws Hw Hws]; [done|]. cbn [concat].
  eapply takes_ext; [eapply takes_seq; [by apply takes_piece | by apply pieces_takes; exists ws] | done].
Qed.
End pieces.

(** ** The four forms of a price *)

(** Every price prints exactly; in a sum, the second one without a sign (it
    has one from 10^21 on). *)
Definition prices_ok (t : MediaTier) : bool :=
  forallb (λ x, cost_ok (finitePrice x))
    [Some (unitPrice t); Some (fixedPrice t); Some (perSecondPrice t); totalTokenPrice t; reservePerSecond t]
  && (negb (bool_decide (billingMethod t = MEDIA_BILLING_FIXED_PLUS_SECOND))
      || forallb (λ c, negb (c =? 43)%N) (num_to_string (finitePrice (Some (perSecondPrice t))))).

(** The price of a tier as the parser sees it. *)
Definition pricing_of (t : MediaTier) : MediaPricing :=
  let price x := Some (finitePrice x) in
  match billingMethod t with
  | MEDIA_BILLING_PER_UNIT =>
      {| m_method := MEDIA_BILLING_PER_UNIT; m_unitPrice := price (Some (unitPrice t));
         m_fixedPrice := None; m_perSecondPrice := None;
         m_totalTokenPrice := None; m_reservePerSecond := None |}
  | MEDIA_BILLING_PER_SECOND =>
      {| m_method := MEDIA_BILLING_PER_SECOND; m_unitPrice := None; m_fixedPrice := None;
         m_perSecondPrice := price (Some (perSecondPrice t));
         m_totalTokenPrice := None; m_reservePerSecond := None |}
  | MEDIA_BILLING_FIXED_PLUS_SECOND =>
      {| m_method := MEDIA_BILLING_FIXED_PLUS_SECOND; m_unitPrice := None;
         m_fixedPrice := price (Some (fixedPrice t));
         m_perSecondPrice := price (Some (perSecondPrice t));
         m_totalTokenPrice := None; m_reservePerSecond := None |}
  | MEDIA_BILLING_PER_TOTAL_TOKEN =>
      {| m_method := MEDIA_BILLING_PER_TOTAL_TOKEN; m_unitPrice := None; m_fixedPrice := None;
         m_perSecondPrice := None; m_totalTokenPrice := price (totalTokenPrice t);
         m_reservePerSecond := price (reservePerSecond t) |}
  end.

Lemma strip_ws_app s s' : strip_ws (s ++ s') = strip_ws s ++ strip_ws s'.
Proof. apply List.filter_app. Qed.

Section price_text.
Context (x : num) (Hx : cost_ok x = true).

Lemma price_units : forallb cost_unit (num_to_string x) = true.
Proof. by apply cost_ok_spec in Hx as (? & _ & _). Qed.

Lemma strip_price : strip_ws (num_to_string x) = num_to_string x.
Proof.
  apply strip_ws_id. pose proof price_units as H. revert H. apply forallb_weaken. intros c Hc.
  by rewrite cost_unit_not_ws.
Qed.

Lemma price_flat : forallb no_paren (num_to_string x) = true.
Proof.
  pose proof price_units as H. revert H. apply forallb_weaken. intros c.
  unfold cost_unit, is_digit, no_paren.
  rewrite !orb_true_iff, !andb_true_iff, !N.leb_le, !N.eqb_eq, !negb_true_iff, !N.eqb_neq. lia.
Qed.

Lemma price_count c : cost_unit c = false → count c (num_to_string x) = 0.
Proof.
  intros Hc. pose proof price_units as H. unfold count. rewrite forallb_forall_elem in H.
  destruct (List.filter (N.eqb c) (num_to_string x)) as [|d l] eqn:E; [done|].
  assert (d ∈ List.filter (N.eqb c) (num_to_string x)) as Hd by (rewrite E; constructor).
  apply elem_of_filterb in Hd as [Hd <-%N.eqb_eq]. rewrite (H _ Hd) in Hc. done.
Qed.

(** A price in a group of the reader. *)
Lemma takes_price i s : no_cost_head s → takes (re_cost i) (num_to_string x) s (mset i (num_to_string x)).
Proof. by apply takes_cost. Qed.

Lemma price_back : num_of_string (num_to_string x) = x.
Proof. by apply cost_ok_spec in Hx as (_ & _ & ?). Qed.
End price_text.

Lemma lang_prefix l rs w : lang (rseq (rlit l :: rs)) w → ∃ w', w = l ++ w'.
Proof. intros (w1 & w2 & -> & H & _). apply lang_lit in H as ->. eauto. Qed.

Lemma no_match r s : no_end r = true → ¬ lang r s → match_here (RSeq r REnd) s = None.
Proof.
  intros Hr Hn. destruct (match_here _ s) eqn:E; [|done]. destruct Hn.
  apply match_whole; [done|]. by eexists.
Qed.

Lemma no_match_prefix r p s : refuted (RSeq r REnd) p = true → match_here (RSeq r REnd) (p ++ s) = None.
Proof. intros H. unfold match_here. by apply refuted_fails. Qed.

(** A single price has no group inside. *)
Lemma no_fixed x s : cost_ok x = true → match_here (RSeq re_fixed REnd) (js "usd(" ++ num_to_string x ++ s) = None.
Proof.
  intros Hx. apply no_match; [done|]. intros H. apply lang_prefix in H as [w' H].
  assert (js "usd((" = js "usd(" ++ [40%N]) as E by reflexivity. rewrite E, <-app_assoc in H.
  apply app_inv_head in H. pose proof Hx as (Hu & Hne & _)%cost_ok_spec.
  destruct (num_to_string x) as [|c t]; [done|]. injection H as -> _. done.
Qed.

Lemma no_second x : cost_ok x = true →
  match_here (RSeq re_second REnd) (js "usd(" ++ num_to_string x ++ js "*units)") = None.
Proof.
  intros Hx. apply no_match; [done|]. intros (w1 & w2 & E & H1 & w3 & w4 & -> & _ & w5 & w6 & -> & H5 & _).
  apply lang_lit in H5 as ->. apply (f_equal (count 111)) in E. rewrite !count_app in E.
  rewrite (price_count x Hx 111) in E by done.
  assert (count 111 (js "*seconds*units)") = 1 ∧ count 111 (js "usd(") = 0 ∧ count 111 (js "*units)") = 0)
    as (E1 & E2 & E3) by (split_and!; reflexivity).
  rewrite E1, E2, E3 in E. lia.
Qed.

(** The texts of the four forms, without white space. *)
Ltac take_price := eapply takes_cons; [by apply takes_price; [|by intros ? [= <-]]|].

Lemma takes_unit x : cost_ok x = true →
  takes re_unit (js "usd(" ++ num_to_string x ++ js "*units)") [] (mset 1 (num_to_string x)).
Proof.
  intros Hx. eapply takes_ext; [take_lit (js "usd("); take_price; apply takes_last, takes_lit | done].
Qed.

Lemma takes_second x : cost_ok x = true →
  takes re_second (js "usd(" ++ num_to_string x ++ js "*seconds*units)") [] (mset 1 (num_to_string x)).
Proof.
  intros Hx. eapply takes_ext; [take_lit (js "usd("); take_price; apply takes_last, takes_lit | done].
Qed.

Lemma takes_total x y : cost_ok x = true → cost_ok y = true →
  takes re_total (js "deferred(total*" ++ num_to_string x ++ js ",usd(" ++ num_to_string y
                  ++ js "*seconds*units))") []
    (λ cs, mset 2 (num_to_string y) (mset 1 (num_to_string x) cs)).
Proof.
  intros Hx Hy. eapply takes_ext.
  - take_lit (js "deferred(total*"). take_price. take_lit (js ",usd("). take_price.
    apply takes_last, takes_lit.
  - done.
Qed.

(** The sign of a sum could belong to the price in front of it, but then none
    is left for the sum. *)
Lemma takes_fixed x y :
  cost_ok x = true → cost_ok y = true → forallb (λ c, negb (c =? 43)%N) (num_to_string y) = true →
  takes re_fixed (js "usd((" ++ num_to_string x ++ js "+" ++ num_to_string y ++ js "*seconds)*units)") []
    (λ cs, mset 2 (num_to_string y) (mset 1 (num_to_string x) cs)).
Proof.
  intros Hx Hy Hsign. pose proof Hx as (Hux & Hnx & _)%cost_ok_spec. pose proof Hy as (Huy & Hny & _)%cost_ok_spec.
  eapply takes_ext.
  - take_lit (js "usd(("). rewrite (app_assoc (js "+")).
    apply takes_group_back; [done..| | |].
    + by intros c [= <-].
    + intros v1 v2 E Hv1. destruct v1 as [|c v1]; [done|]. injection E as _ E.
      destruct v2 as [|d v2]; [by apply (refuted_fails _ (js "*"))|].
      assert (d ≠ 43%N) as Hd.
      { rewrite E, forallb_app in Hsign. apply andb_true_iff in Hsign as [_ Hsign]. simpl in Hsign.
        apply andb_true_iff in Hsign as [Hsign _]. by apply negb_true_iff, N.eqb_neq in Hsign. }
      intros A k cs. cbn -[js N.eqb]. change (js "+") with [43%N]. cbn [rlit fold_right rmatch].
      by rewrite (proj2 (N.eqb_neq 43 d)) by congruence.
    + change (RSeq (rlit (js "+")) ?b) with (rseq [rlit (js "+"); re_cost 2; rlit (js "*seconds)*units)")]).
      rewrite <-app_assoc. take_lit (js "+"). take_price. apply takes_last, takes_lit.
  - done.
Qed.

Lemma group_num_eq i m x : cost_ok x = true → mget i m = Some (num_to_string x) → group_num i m = Some x.
Proof. intros Hx Hm. unfold group_num, group_text. rewrite Hm. cbn. by rewrite price_back. Qed.

(** The price that is written is the price that is read. *)
Lemma pricing_text t :
  prices_ok t = true → parseMediaPricing (buildMediaCost t) = Some (pricing_of t).
Proof.
  unfold prices_ok. cbn [forallb]. rewrite !andb_true_iff. intros [(Hu & Hf & Hs & Ht & Hr & _) Hsign].
  unfold parseMediaPricing, buildMediaCost, pricing_of.
  set (u := finitePrice (Some (unitPrice t))) in *. set (f := finitePrice (Some (fixedPrice t))) in *.
  set (p := finitePrice (Some (perSecondPrice t))) in *. set (q := finitePrice (totalTokenPrice t)) in *.
  set (r := finitePrice (reservePerSecond t)) in *.
  assert (strip_ws (js "usd(") = js "usd(" ∧ strip_ws (js " * units)") = js "*units)"
          ∧ strip_ws (js " * seconds * units)") = js "*seconds*units)" ∧ strip_ws (js "usd((") = js "usd(("
          ∧ strip_ws (js " + ") = js "+" ∧ strip_ws (js " * seconds) * units)") = js "*seconds)*units)"
          ∧ strip_ws (js "deferred(total * ") = js "deferred(total*" ∧ strip_ws (js ", usd(") = js ",usd("
          ∧ strip_ws (js " * seconds * units))") = js "*seconds*units))")
    as (E1 & E2 & E3 & E4 & E5 & E6 & E7 & E8 & E9) by (split_and!; reflexivity).
  destruct (billingMethod t);
    rewrite ?strip_ws_app, ?E1, ?E2, ?E3, ?E4, ?E5, ?E6, ?E7, ?E8, ?E9, ?strip_price by done.
  - rewrite (no_match_prefix re_total (js "usd(")), no_fixed, no_second, (takes_end _ _ _ (takes_unit u Hu)) by done.
    cbn [option_map fst]. by rewrite (group_num_eq 1 _ _ Hu).
  - rewrite (no_match_prefix re_total (js "usd(")), no_fixed, (takes_end _ _ _ (takes_second p Hs)) by done.
    cbn [option_map fst]. by rewrite (group_num_eq 1 _ _ Hs).
  - rewrite (no_match_prefix re_total (js "usd((")), (takes_end _ _ _ (takes_fixed f p Hf Hs Hsign)) by done.
    cbn [option_map fst]. by rewrite (group_num_eq 1 _ _ Hf), (group_num_eq 2 _ _ Hs).
  - rewrite (takes_end _ _ _ (takes_total q r Ht Hr)).
    cbn [option_map fst]. by rewrite (group_num_eq 1 _ _ Ht), (group_num_eq 2 _ _ Hr).
Qed.

(** The body of a tier is nested at most two deep. *)
Lemma cost_pieces t :
  prices_ok t = true → pieces (RAlt re_no_paren (re_group re_no_paren)) (buildMediaCost t).
Proof.
  unfold prices_ok. cbn [forallb]. rewrite !andb_true_iff. intros [(Hu & Hf & Hs & Ht & Hr & _) _].
  assert (∀ inner x, cost_ok x = true → pieces inner (num_to_string x)) as Hp.
  { intros inner x Hx. by apply pieces_flat, price_flat. }
  assert (∀ w, pieces re_no_paren w → pieces (RAlt re_no_paren (re_group re_no_paren)) (40%N :: w ++ [41%N])) as Hg.
  { intros w Hw. apply pieces_group. intros s. by apply pieces_takes. }
  assert (∀ w, forallb no_paren w = true → pieces re_no_paren (40%N :: w ++ [41%N])) as Hg1.
  { intros w Hw. apply pieces_group. intros s. apply takes_run; [done|]. by intros c [= <-]. }
  assert (js "usd(" = js "usd" ++ [40%N] ∧ js " * units)" = js " * units" ++ [41%N]
          ∧ js " * seconds * units)" = js " * seconds * units" ++ [41%N]
          ∧ js "usd((" = js "usd" ++ [40%N] ++ [40%N]
          ∧ js " * seconds) * units)" = js " * seconds" ++ [41%N] ++ js " * units" ++ [41%N]
          ∧ js "deferred(total * " = js "deferred" ++ [40%N] ++ js "total * "
          ∧ js ", usd(" = js ", usd" ++ [40%N]
          ∧ js " * seconds * units))" = js " * seconds * units" ++ [41%N] ++ [41%N])
    as (E1 & E2 & E3 & E4 & E5 & E6 & E7 & E8) by (split_and!; reflexivity).
  unfold buildMediaCost.
  destruct (billingMethod t); rewrite ?E1, ?E2, ?E3, ?E4, ?E5, ?E6, ?E7, ?E8.
  - rewrite <-!app_assoc. apply pieces_app; [by apply pieces_flat|].
    rewrite (app_assoc (num_to_string _)). apply Hg, pieces_app; [by apply Hp | by apply pieces_flat].
  - rewrite <-!app_assoc. apply pieces_app; [by apply pieces_flat|].
    rewrite (app_assoc (num_to_string _)). apply Hg, pieces_app; [by apply Hp | by apply pieces_flat].
  - rewrite <-!app_assoc. apply pieces_app; [by apply pieces_flat|].
    assert (∀ x y a b c : jsstr, [40%N] ++ [40%N] ++ x ++ a ++ y ++ b ++ [41%N] ++ c ++ [41%N]
              = 40%N :: ((40%N :: (x ++ a ++ y ++ b) ++ [41%N]) ++ c) ++ [41%N]) as E.
    { intros. cbn [app]. do 2 f_equal. by rewrite <-!app_assoc. }
    rewrite E. apply Hg, pieces_app; [|by apply pieces_flat].
    apply Hg1. by rewrite !forallb_app, !price_flat by done.
  - rewrite <-!app_assoc. apply pieces_app; [by apply pieces_flat|].
    rewrite (app_assoc (num_to_string (finitePrice (reservePerSecond t)))).
    set (reserve := num_to_string (finitePrice (reservePerSecond t)) ++ _).
    assert (forallb no_paren reserve = true) as Hres.
    { unfold reserve. rewrite forallb_app, price_flat by done. reflexivity. }
    assert ([40%N] ++ js "total * " ++ num_to_string (finitePrice (totalTokenPrice t)) ++ js ", usd"
              ++ [40%N] ++ reserve ++ [41%N] ++ [41%N]
            = 40%N :: (js "total * " ++ num_to_string (finitePrice (totalTokenPrice t)) ++ js ", usd"
                       ++ (40%N :: reserve ++ [41%N])) ++ [41%N]) as ->.
    { rewrite <-!app_assoc. cbn [app]. by rewrite <-app_assoc. }
    apply Hg. apply pieces_app; [by apply pieces_flat|]. apply pieces_app; [by apply Hp|].
    apply pieces_app; [by apply pieces_flat|]. by apply Hg1.
Qed.

(** ** Clauses *)

(** The clauses of a condition: a range has two. *)
Inductive Clause :=
  | ClTime (c : TimeRangeCondition)
  | ClText (v : DimensionVar) (w : jsstr)
  | ClCount (v : DimensionVar) (o : MediaConditionOperator) (n : jsstr).

Definition clause_text (c : Clause) : jsstr :=
  match c with
  | ClTime c => default [] (buildTimeRangeConditionExpr c)
  | ClText v w => var_text v ++ jq " == `" ++ w ++ jq "`"
  | ClCount v o n => var_text v ++ js " " ++ operator_symbol o ++ js " " ++ n
  end.

(** Units of a text that needs no escape and does not interfere with the
    operators. *)
Definition text_unit (c : N) : bool :=
  negb (c =? 34)%N && negb (c =? 92)%N && no_paren c && negb (c =? 38)%N && negb (c =? 124)%N.

(** The operators between a count and a bound. *)
Definition count_ops : list MediaConditionOperator :=
  [MEDIA_CONDITION_EQ; MEDIA_CONDITION_LT; MEDIA_CONDITION_LTE; MEDIA_CONDITION_GT; MEDIA_CONDITION_GTE].

Definition good_clause (c : Clause) : Prop :=
  match c with
  | ClTime c => zone_ok (trim (timezone c)) ∧ buildTimeRangeConditionExpr c ≠ None
  | ClText v w => v ∈ text_vars ∧ forallb text_unit w = true ∧ w ≠ []
  | ClCount v o n => v ∈ count_vars ∧ o ∈ count_ops ∧ forallb bound_unit n = true ∧ n ≠ []
  end.

Lemma var_plain v : forallb (λ c, plain 38 c && plain 124 c && negb (is_ws c)) (var_text v) = true.
Proof. by destruct v. Qed.

(** *** Alternatives of words *)

Lemma fails_alt a b s : fails a s → fails b s → fails (RAlt a b) s.
Proof. intros Ha Hb A k cs. cbn [rmatch]. by rewrite (Ha A k cs), (Hb A k cs). Qed.

Lemma fails_lit w s : strip_prefix w s = None → fails (rlit w) s.
Proof.
  intros H A k cs. revert s H. induction w as [|c w IH]; intros s H; [done|].
  change (rlit (c :: w)) with (RSeq (RChar (N.eqb c)) (rlit w)). cbn [rmatch].
  destruct s as [|d s]; [done|]. cbn [strip_prefix] in H. destruct (c =? d)%N; [|done]. by apply IH.
Qed.

Lemma takes_alts_first r ws w s : takes r w s id → takes (fold_left RAlt ws r) w s id.
Proof. revert r. induction ws as [|a ws IH]; intros r H; [done|]. cbn [fold_left]. by apply IH, takes_alt_l. Qed.

(** A word for which none of the words in front of it is read. *)
Fixpoint words_before (w : jsstr) (ws : list jsstr) : list jsstr :=
  match ws with [] => [] | u :: ws' => if decide (u = w) then [] else u :: words_before w ws' end.

Lemma takes_word ws w s :
  w ∈ ws → (∀ u, u ∈ words_before w ws → strip_prefix u (w ++ s) = None) →
  takes (re_alternatives ws) w s id.
Proof.
  intros Hw Hne.
  assert (∀ us r, (∀ u, u ∈ words_before w us → strip_prefix u (w ++ s) = None) →
            fails r (w ++ s) → w ∈ us → takes (fold_left RAlt (map rlit us) r) w s id) as H.
  { induction us as [|u us IH]; intros r Hus Hr Hin; [by apply not_elem_of_nil in Hin|].
    cbn [map fold_left words_before] in *. destruct (decide (u = w)) as [->|Hu].
    - by apply takes_alts_first, takes_alt_r, takes_lit.
    - apply IH; [intros v Hv; apply Hus; by constructor| |].
      + apply fails_alt; [done|]. apply fails_lit, Hus. constructor.
      + apply elem_of_cons in Hin; destruct Hin; [by subst | done]. }
  destruct ws as [|u ws]; [by apply not_elem_of_nil in Hw|]. cbn [re_alternatives words_before] in *.
  unfold ralt. destruct (decide (u = w)) as [->|Hu]; [apply takes_alts_first, takes_lit|]. apply H.
  - intros v Hv. apply Hne. by constructor.
  - apply fails_lit, Hne. constructor.
  - apply elem_of_cons in Hw; destruct Hw; [by subst | done].
Qed.

(** The check by computation, for a known beginning of what follows: the words
    in front of it differ from the text in some unit. *)
Fixpoint clash (u p : jsstr) : bool :=
  match u, p with c :: u', d :: p' => negb (c =? d)%N || clash u' p' | _, _ => false end.

Lemma clash_none u p s : clash u p = true → strip_prefix u (p ++ s) = None.
Proof.
  revert p. induction u as [|c u IH]; intros p H; [done|]. destruct p as [|d p]; [done|].
  cbn [strip_prefix app clash] in *. destruct (c =? d)%N; [by apply IH | done].
Qed.

Definition word_clear (ws : list jsstr) (w pre : jsstr) : bool :=
  forallb (λ u, clash u (w ++ pre)) (words_before w ws).

Lemma takes_word_clear ws w pre s :
  w ∈ ws → word_clear ws w pre = true → takes (re_alternatives ws) w (pre ++ s) id.
Proof.
  intros Hw Hc. apply takes_word; [done|]. intros u Hu. unfold word_clear in Hc.
  rewrite forallb_forall_elem in Hc. rewrite app_assoc. by apply clash_none, Hc.
Qed.

Lemma takes_words {X} (xs : list X) (text : X → jsstr) ws pre x s :
  forallb (λ x, bool_decide (text x ∈ ws) && word_clear ws (text x) pre) xs = true → x ∈ xs →
  takes (re_alternatives ws) (text x) (pre ++ s) id.
Proof.
  rewrite forallb_forall_elem. intros H Hx. apply H, andb_true_iff in Hx as [Hin%bool_decide_eq_true Hc].
  by apply takes_word_clear.
Qed.

Lemma takes_text_var v s :
  v ∈ text_vars → takes (re_alternatives (map var_text text_vars)) (var_text v) (js " " ++ s) id.
Proof. apply takes_words. vm_compute. reflexivity. Qed.

Lemma takes_count_var v s :
  v ∈ count_vars → takes (re_alternatives (map var_text count_vars)) (var_text v) (js " " ++ s) id.
Proof. apply takes_words. vm_compute. reflexivity. Qed.

Lemma takes_numeric_var v s :
  v ∈ count_vars → takes (re_alternatives numericVars) (var_text v) (js " " ++ s) id.
Proof. apply takes_words. vm_compute. reflexivity. Qed.

Lemma takes_count_op o s :
  o ∈ count_ops → takes re_count_op (operator_symbol o) (js " " ++ s) id.
Proof. apply (takes_words count_ops operator_symbol [js "=="; js "<="; js ">="; js "<"; js ">"]). vm_compute. reflexivity. Qed.

(** *** Reading a clause *)

Lemma refuted_vars r l :
  forallb (λ v, refuted r (var_text v)) l = true → ∀ v s, v ∈ l → fails r (var_text v ++ s).
Proof. rewrite forallb_forall_elem. intros H v s Hv. by apply refuted_fails, H. Qed.

Lemma text_units_unquoted w : forallb text_unit w = true → forallb unquoted_unit w = true.
Proof.
  apply forallb_weaken. intros c. unfold text_unit, unquoted_unit. rewrite !andb_true_iff. tauto.
Qed.

Lemma text_clause_split v w :
  clause_text (ClText v w)
  = var_text v ++ js " " ++ js "==" ++ [32%N] ++ jq "`" ++ w ++ jq "`".
Proof.
  cbn [clause_text]. assert (jq " == `" = js " " ++ js "==" ++ [32%N] ++ jq "`") as -> by reflexivity.
  by rewrite <-!app_assoc.
Qed.

Lemma count_clause_split v o n :
  clause_text (ClCount v o n) = var_text v ++ js " " ++ operator_symbol o ++ js " " ++ n.
Proof. done. Qed.

Section text_clause.
Context (v : DimensionVar) (w : jsstr) (Hv : v ∈ text_vars) (Hw : forallb text_unit w = true) (Hne : w ≠ []).

Lemma text_run s : takes (rplus (RChar unquoted_unit)) w (jq "`" ++ s) id.
Proof. apply takes_run1; [by apply text_units_unquoted | done|]. by intros c [= <-]. Qed.

Lemma takes_text_clause s : takes textCondition (clause_text (ClText v w)) s id.
Proof.
  rewrite text_clause_split. eapply takes_ext.
  - eapply takes_cons; [rewrite <-app_assoc; by apply takes_text_var|].
    eapply (takes_cons _ _ (js " ")); [apply takes_blank; by intros ? [= <-]|].
    take_lit (js "=="). take_blank. take_lit (jq "`").
    eapply takes_cons; [apply text_run|]. apply takes_last, takes_lit.
  - done.
Qed.

Lemma match_text : match_text_clause (clause_text (ClText v w)) = Some (v, w).
Proof.
  unfold match_text_clause.
  assert (match_here re_text_clause (clause_text (ClText v w)) = Some ([(1, var_text v); (2, w)], [])) as ->.
  { rewrite <-(app_nil_r (clause_text (ClText v w))).
    refine (takes_match _ _ [] (λ cs, mset 2 w (mset 1 (var_text v) cs)) _).
    rewrite text_clause_split. unfold re_text_clause. eapply takes_ext.
    - eapply takes_cons; [rewrite <-app_assoc; exact (takes_group 1 _ _ _ id (takes_text_var v _ Hv))|].
      eapply (takes_cons _ _ (js " ")); [apply takes_blank; by intros ? [= <-]|].
      take_lit (js "=="). take_blank. take_lit (jq "`").
      eapply takes_cons; [exact (takes_group 2 _ _ _ id (text_run _))|].
      rewrite <-(app_nil_r (jq "`")). take_lit (jq "`"). intros A k cs x H. exact H.
    - done. }
  by destruct v.
Qed.

Lemma text_plain : forallb (λ c, plain 38 c && plain 124 c) w = true.
Proof.
  revert Hw. apply forallb_weaken. intros c. unfold text_unit, plain. rewrite !andb_true_iff. tauto.
Qed.

Lemma text_clause_plain o :
  (o = 38 ∨ o = 124)%N → forallb (plain o) (clause_text (ClText v w)) = true.
Proof.
  intros Ho. cbn [clause_text]. rewrite !forallb_app, !andb_true_iff.
  pose proof text_plain as H. split_and!.
  - destruct Ho as [-> | ->]; by destruct v.
  - by destruct Ho as [-> | ->].
  - revert H. apply forallb_weaken. intros c. rewrite andb_true_iff. destruct Ho as [-> | ->]; tauto.
  - by destruct Ho as [-> | ->].
Qed.

Lemma text_clause_part o : (o = 38 ∨ o = 124)%N → part_ok o [o] (clause_text (ClText v w)).
Proof.
  intros Ho. split; [by apply opaque_plain, text_clause_plain|]. split; [split|].
  - destruct v; by intros c [= <-].
  - intros c. cbn [clause_text]. rewrite !app_assoc. change (jq "`") with [34%N]. rewrite last_snoc.
    by intros [= <-].
  - by destruct v.
Qed.
End text_clause.

Section count_clause.
Context (v : DimensionVar) (o : MediaConditionOperator) (n : jsstr).
Context (Hv : v ∈ count_vars) (Ho : o ∈ count_ops) (Hn : forallb bound_unit n = true) (Hne : n ≠ []).

Lemma symbol_visible s : no_ws_head (operator_symbol o ++ s).
Proof. revert Ho. destruct o; intros ?; by intros c [= <-]. Qed.

Lemma number_visible s : no_ws_head (n ++ s).
Proof.
  apply no_ws_head_app; [done|]. apply cost_no_ws_head. revert Hn. apply forallb_weaken, bound_cost_unit.
Qed.

Lemma takes_count_clause s : no_bound_head s → takes numericCondition (clause_text (ClCount v o n)) s id.
Proof.
  intros Hs. rewrite count_clause_split. eapply takes_ext.
  - eapply takes_cons; [rewrite <-app_assoc; by apply takes_numeric_var|].
    eapply (takes_cons _ _ (js " ")); [apply takes_blank; rewrite <-app_assoc; apply symbol_visible|].
    eapply takes_cons; [rewrite <-app_assoc; by apply takes_count_op|].
    eapply (takes_cons _ _ (js " ")); [apply takes_blank, number_visible|].
    apply takes_last. by apply takes_run1.
  - done.
Qed.

Lemma match_count : match_count_clause (clause_text (ClCount v o n)) = Some (v, o, n).
Proof.
  unfold match_count_clause.
  assert (match_here re_count_clause (clause_text (ClCount v o n))
          = Some ([(1, var_text v); (2, operator_symbol o); (3, n)], [])) as ->.
  { rewrite <-(app_nil_r (clause_text (ClCount v o n))).
    refine (takes_match _ _ [] (λ cs, mset 3 n (mset 2 (operator_symbol o) (mset 1 (var_text v) cs))) _).
    rewrite count_clause_split. unfold re_count_clause. eapply takes_ext.
    - eapply takes_cons; [rewrite <-app_assoc; exact (takes_group 1 _ _ _ id (takes_count_var v _ Hv))|].
      eapply (takes_cons _ _ (js " ")); [apply takes_blank; rewrite <-app_assoc; apply symbol_visible|].
      eapply takes_cons; [rewrite <-app_assoc; exact (takes_group 2 _ _ _ id (takes_count_op o _ Ho))|].
      eapply (takes_cons _ _ (js " ")); [apply takes_blank, number_visible|].
      rewrite <-(app_nil_r n) at 1.
      eapply takes_cons; [exact (takes_group 3 _ _ _ id (takes_run1 _ _ [] Hn Hne ltac:(by intros ? [=])))|].
      intros A k cs x H. exact H.
    - done. }
  assert (o ≠ MEDIA_CONDITION_RANGE) as Hr.
  { intros E. revert Ho. rewrite E. apply (bool_decide_eq_false_1 _). vm_compute. reflexivity. }
  by destruct v, o.
Qed.

Lemma count_clause_plain p : (p = 38 ∨ p = 124)%N → forallb (plain p) (clause_text (ClCount v o n)) = true.
Proof.
  intros Hp. cbn [clause_text]. rewrite !forallb_app, !andb_true_iff. split_and!.
  - destruct Hp as [-> | ->]; by destruct v.
  - by destruct Hp as [-> | ->].
  - destruct Hp as [-> | ->]; by destruct o.
  - by destruct Hp as [-> | ->].
  - revert Hn. apply forallb_weaken. intros c. unfold bound_unit, is_digit, plain, no_paren.
    rewrite !orb_true_iff, !andb_true_iff, !N.leb_le, !N.eqb_eq, !negb_true_iff, !N.eqb_neq.
    destruct Hp as [-> | ->]; lia.
Qed.

Lemma count_clause_part p : (p = 38 ∨ p = 124)%N → part_ok p [p] (clause_text (ClCount v o n)).
Proof.
  intros Hp. split; [by apply opaque_plain, count_clause_plain|]. split; [split|].
  - destruct v; by intros c [= <-].
  - intros c. cbn [clause_text]. rewrite !app_assoc, last_app.
    destruct (last n) as [d|] eqn:E; [|by apply last_None in E]. intros [= <-].
    apply cost_unit_not_ws, bound_cost_unit. rewrite forallb_forall_elem in Hn. apply Hn.
    by apply last_Some_elem_of.
  - by destruct v.
Qed.
End count_clause.

(** *** Clauses in sequence *)

Lemma time_clause c :
  good_clause (ClTime c) →
  ∃ ws, windows_ok ws ∧ clause_text (ClTime c) = windows_text (trim (timezone c)) ws
    ∧ map trim_range (ranges c) = map (λ w, window (fst w) (snd w)) ws.
Proof.
  intros [Hz Hb]. cbn [clause_text]. pose proof (build_windows c) as H.
  destruct (buildTimeRangeConditionExpr c) as [e|]; [|done].
  destruct H as (_ & _ & ws & Hws & Hr & ->). eauto.
Qed.

Lemma windows_group tz ws : windows_ok ws → ∃ s, windows_text tz ws = 40%N :: s.
Proof. intros [Hne _]. destruct ws as [|w [|w' ws]]; [done|..]; by eexists. Qed.

Lemma media_clause_ok c : good_clause c → clause_ok media_condition (clause_text c).
Proof.
  intros Hc. destruct c as [c|v w|v o n].
  - destruct (time_clause c Hc) as (ws & Hws & -> & _). destruct Hc as [Hz _]. split.
    + by apply windows_part_ok.
    + intros s _. apply takes_alt_r; [|by apply takes_windows].
      destruct (windows_group (trim (timezone c)) ws Hws) as [r ->].
      by apply (refuted_fails _ [40%N] (r ++ s)).
  - destruct Hc as (Hv & Hw & Hne). split; [apply text_clause_part; [done..|by left]|].
    intros s _. apply takes_alt_l, takes_alt_r; [|by apply takes_text_clause].
    rewrite text_clause_split, <-app_assoc. revert Hv. apply refuted_vars. vm_compute. reflexivity.
  - destruct Hc as (Hv & Ho & Hn & Hne). split; [apply count_clause_part; [done..|by left]|].
    intros s Hs. apply takes_alt_l, takes_alt_l. by apply takes_count_clause.
Qed.

Definition count_of (c : Clause) : option (DimensionVar * MediaConditionOperator * jsstr) :=
  match c with ClCount v o n => Some (v, o, n) | _ => None end.

(** The conditions that clauses stand for. *)
Fixpoint group_clauses (skip : bool) (cl : list Clause) : list MediaCondition :=
  match cl with
  | [] => []
  | c :: rest =>
      if skip then group_clauses false rest
      else
        match c with
        | ClTime c =>
            MediaTimeRangeCondition {| timezone := trim (timezone c); ranges := map trim_range (ranges c) |}
            :: group_clauses false rest
        | ClText v w =>
            DimensionCondition {| variable := v; operator := MEDIA_CONDITION_EQ; value := w; rangeEnd := None |}
            :: group_clauses false rest
        | ClCount v o n =>
            match closes_range v o (head rest ≫= count_of) with
            | Some e =>
                DimensionCondition {| variable := v; operator := MEDIA_CONDITION_RANGE; value := n;
                                      rangeEnd := Some e |} :: group_clauses true rest
            | None =>
                DimensionCondition {| variable := v; operator := o; value := n; rangeEnd := None |}
                :: group_clauses false rest
            end
        end
  end.

Lemma no_here r s : fails r s → match_here r s = None.
Proof. intros H. apply H. Qed.

Lemma match_count_of c : good_clause c → match_count_clause (clause_text c) = count_of c.
Proof.
  intros Hc. destruct c as [c|v w|v o n].
  - destruct (time_clause c Hc) as (ws & Hws & -> & _).
    destruct (windows_group (trim (timezone c)) ws Hws) as [r ->]. unfold match_count_clause.
    rewrite no_here; [done|]. by apply (refuted_fails _ [40%N] r).
  - destruct Hc as (Hv & _). unfold match_count_clause. rewrite no_here; [done|].
    rewrite text_clause_split. revert Hv. apply refuted_vars. vm_compute. reflexivity.
  - destruct Hc as (Hv & Ho & Hn & Hne). by apply match_count.
Qed.

Lemma not_time c : good_clause c → (∀ t, c ≠ ClTime t) → parseTimeRangeCondition (clause_text c) = None.
Proof.
  intros Hc Ht. destruct c as [c|v w|v o n]; [by destruct (Ht c)|..].
  - destruct Hc as (Hv & Hw & Hne). apply no_window; [apply text_clause_part; [done..|by right]|].
    destruct v; by intros c [= <-].
  - destruct Hc as (Hv & Ho & Hn & Hne). apply no_window; [apply count_clause_part; [done..|by right]|].
    destruct v; by intros c [= <-].
Qed.

Lemma parse_good_clauses skip cl :
  Forall good_clause cl → parse_clauses skip (map clause_text cl) = group_clauses skip cl.
Proof.
  intros H. revert skip. induction H as [|c cl Hc Hcl IH]; intros skip; [done|].
  cbn [map parse_clauses group_clauses]. destruct skip; [apply IH|].
  destruct c as [c|v w|v o n].
  - destruct (time_clause c Hc) as (ws & Hws & -> & Hr). rewrite parse_windows by (done || apply Hc).
    by rewrite Hr, IH.
  - rewrite (not_time _ Hc) by done. destruct Hc as (Hv & Hw & Hne). by rewrite match_text, IH.
  - pose proof Hc as (Hv & Ho & Hn & Hne). rewrite (not_time _ Hc) by done.
    assert (match_text_clause (clause_text (ClCount v o n)) = None) as ->.
    { unfold match_text_clause. rewrite no_here; [done|]. rewrite count_clause_split. revert Hv.
      apply refuted_vars. vm_compute. reflexivity. }
    rewrite (match_count_of _ Hc). cbn [count_of].
    assert (head (map clause_text cl) ≫= match_count_clause = head cl ≫= count_of) as ->.
    { destruct Hcl as [|c' cl Hc' _]; [done|]. exact (match_count_of c' Hc'). }
    destruct (closes_range v o (head cl ≫= count_of)); by rewrite IH.
Qed.

Lemma parse_media_text cl :
  Forall good_clause cl →
  parseMediaConditions (join (js " && ") (map clause_text cl)) = group_clauses false cl.
Proof.
  intros H. unfold parseMediaConditions. rewrite <-(parse_good_clauses false cl H).
  assert (Forall (part_ok 38 [38%N]) (map clause_text cl)) as Hp.
  { apply Forall_forall. intros x Hx. apply list_elem_of_fmap in Hx as (c & -> & Hc).
    rewrite Forall_forall in H. by apply (clause_part media_condition), media_clause_ok, H. }
  destruct cl as [|c cl]; [done|].
  rewrite (proj2 (truthy_str_true _)).
  - by rewrite split_and.
  - intros E. apply join_nil_inv in E; [done|]. eapply Forall_impl; [exact Hp|]. by intros x (_ & _ & ?).
Qed.

(** Media clauses say nothing about tokens. *)
Lemma no_token_clause c : good_clause c →
  match read_tier_clause (clause_text c) with Some t => is_token_condition t = false | None => True end.
Proof.
  intros Hc. unfold read_tier_clause, read_clause. destruct c as [c|v w|v o n].
  - destruct (time_clause c Hc) as (ws & Hws & -> & Hr). by rewrite parse_windows by (done || apply Hc).
  - rewrite (not_time _ Hc) by done. destruct Hc as (Hv & Hw & Hne).
    assert (part_ok 38 [38%N] (clause_text (ClText v w))) as (_ & Ht & _)
      by (apply text_clause_part; [done..|by left]).
    rewrite (trim_id _ Ht).
    rewrite no_here; [done|]. rewrite text_clause_split. revert Hv. apply refuted_vars. vm_compute. reflexivity.
  - rewrite (not_time _ Hc) by done. destruct Hc as (Hv & Ho & Hn & Hne).
    assert (part_ok 38 [38%N] (clause_text (ClCount v o n))) as (_ & Ht & _)
      by (apply count_clause_part; [done..|by left]).
    rewrite (trim_id _ Ht).
    rewrite no_here; [done|]. rewrite count_clause_split. revert Hv. apply refuted_vars. vm_compute. reflexivity.
Qed.

(** *** The clauses of a condition *)

Lemma round_aux_sign m e l s' m' e' :
  SpecFloat.binary_round_aux 53 1024 false m e l = S754_finite s' m' e' → s' = false.
Proof.
  unfold SpecFloat.binary_round_aux.
  destruct (SpecFloat.shr_fexp 53 1024 m e l) as [mrs e1].
  destruct (SpecFloat.shr_fexp 53 1024 _ e1 SpecFloat.loc_Exact) as [mrs' e2].
  destruct (SpecFloat.shr_m mrs'); [done| |done]. destruct (Z.leb _ _); [congruence | done].
Qed.

Lemma of_decimal_sign m s' m' e' : of_decimal false m 0 = S754_finite s' m' e' → s' = false.
Proof.
  unfold of_decimal. destruct m as [|p]; [done|]. cbn [Z.leb]. case_match; [done|]. case_match; [done|].
  cbn [id]. rewrite Z.pow_0_r, Z.mul_1_r. unfold binary_normalize, binary_round.
  destruct (SpecFloat.shl_align _ _ _). apply round_aux_sign.
Qed.

Lemma digit_bound_unit c : is_digit c = true → bound_unit c = true.
Proof. unfold bound_unit. by intros ->. Qed.

(** A count prints as digits. *)
Lemma count_units v n :
  parseReferenceCount v = Some n → forallb bound_unit (num_to_string n) = true ∧ num_to_string n ≠ [].
Proof.
  unfold parseReferenceCount. destruct (bool_decide (trim v = []) || negb (forallb is_digit (trim v))) eqn:E; [done|].
  unbool. destruct (is_safe_integer (num_of_string (trim v))) eqn:Hs; [|done]. intros [= <-].
  rewrite num_of_string_digits in * by done. split; [|apply num_text_nonempty].
  destruct (of_decimal false (dec_value (trim v)) 0) as [s|s| |s m e] eqn:Ex; [done | done | done|].
  assert (s = false) as -> by (by apply of_decimal_sign in Ex).
  unfold is_safe_integer in Hs. unfold num_to_string. destruct (num_to_Z (S754_finite false m e)) as [z|] eqn:Ez; [|done].
  apply Z.leb_le in Hs. unfold safe_bound. rewrite (proj2 (Z.ltb_lt _ _)) by lia.
  assert (0 ≤ z)%Z as Hz.
  { cbn [num_to_Z] in Ez. destruct (0 <=? e)%Z; [injection Ez as <-; by apply Z.mul_nonneg_nonneg, Z.pow_nonneg|].
    destruct (_ =? 0)%Z; [|done]. injection Ez as <-. apply Z_div_nonneg_nonneg; [done|].
    by apply Z.pow_nonneg. }
  unfold dec_of_Z. rewrite (proj2 (Z.ltb_ge _ _)) by done.
  eapply forallb_weaken; [apply digit_bound_unit | apply dec_of_N_digits].
Qed.

(** A condition that is read back: a zone of [zone_unit]s, a text of
    [text_unit]s. *)
Definition media_condition_ok (c : MediaCondition) : bool :=
  match c with
  | MediaTimeRangeCondition c => forallb zone_unit (trim (timezone c))
  | DimensionCondition c => isReferenceCountCondition (variable c) || forallb text_unit (trim (value c))
  end.

Definition clauses_of (c : MediaCondition) : list Clause :=
  match c with
  | MediaTimeRangeCondition c => [ClTime c]
  | DimensionCondition c =>
      if negb (isReferenceCountCondition (variable c)) then [ClText (variable c) (trim (value c))]
      else
        match parseReferenceCount (value c), operator c with
        | Some v, MEDIA_CONDITION_RANGE =>
            match parseReferenceCount (default [] (rangeEnd c)) with
            | Some e => [ClCount (variable c) MEDIA_CONDITION_GTE (num_to_string v);
                         ClCount (variable c) MEDIA_CONDITION_LTE (num_to_string e)]
            | None => []
            end
        | Some v, o => [ClCount (variable c) o (num_to_string v)]
        | None, _ => []
        end
  end.

Lemma var_kind v : if isReferenceCountCondition v then v ∈ count_vars else v ∈ text_vars.
Proof.
  assert (isReferenceCountCondition v = bool_decide (v ∈ count_vars)) as -> by (destruct v; vm_compute; reflexivity).
  assert (bool_decide (v ∈ count_vars) || bool_decide (v ∈ text_vars) = true) as H by (destruct v; vm_compute; reflexivity).
  case_bool_decide; [done|]. by apply bool_decide_eq_true in H.
Qed.

(** Units that need no escape. *)
Definition label_unit (c : N) : bool := negb (c =? 34)%N && negb (c =? 92)%N.

Lemma escape_label w : forallb label_unit w = true → escapeExprString w = w.
Proof.
  intros H. unfold escapeExprString.
  assert (∀ c u, (c = 92 ∨ c = 34)%N → replace_unit c u w = w) as Hr.
  { intros c u Hc. unfold replace_unit. induction w as [|d w IH]; [done|]. cbn [flat_map forallb] in *.
    apply andb_true_iff in H as [Hd Hw]. rewrite IH by done.
    unfold label_unit in Hd. rewrite !andb_true_iff, !negb_true_iff in Hd.
    destruct Hd as [E34 E92]. destruct Hc as [-> | ->]; by rewrite ?E34, ?E92. }
  by rewrite !Hr by auto.
Qed.

Lemma escape_text w : forallb text_unit w = true → escapeExprString w = w.
Proof.
  intros H. apply escape_label. revert H. apply forallb_weaken. intros c. unfold text_unit, label_unit.
  rewrite !andb_true_iff. tauto.
Qed.

(** What [buildMediaCondition] writes. *)
Lemma build_clauses c e :
  media_condition_ok c = true → buildMediaCondition c = Some e →
  e = join (js " && ") (map clause_text (clauses_of c)) ∧ clauses_of c ≠ [] ∧ Forall good_clause (clauses_of c).
Proof.
  intros Hok He. destruct c as [c|c]; cbn [media_condition_ok buildMediaCondition clauses_of] in *.
  - pose proof (var_kind (variable c)) as Hv. destruct (isReferenceCountCondition (variable c)); cbn [negb orb] in *.
    + destruct (parseReferenceCount (value c)) as [v|] eqn:Ev; [|done]. apply count_units in Ev as [Hu Hn].
      assert (∀ o, o ∈ count_ops → good_clause (ClCount (variable c) o (num_to_string v))) as Hg by done.
      destruct (operator c);
        try (injection He as <-; split; [done|]; split; [done|]; constructor; [|constructor]; apply Hg;
             apply (bool_decide_eq_true_1 _); vm_compute; reflexivity).
      destruct (parseReferenceCount (default [] (rangeEnd c))) as [e'|] eqn:Ee; [|done].
      apply count_units in Ee as [Hu' Hn']. destruct (num_ltb e' v); [done|]. apply (inj Some) in He as <-.
      split.
      * cbn [map join clause_text operator_symbol].
        assert (js " >= " = js " " ++ js ">=" ++ js " " ∧ js " <= " = js " " ++ js "<=" ++ js " ") as [-> ->]
          by (split; reflexivity).
        by rewrite <-!app_assoc.
      * split; [done|]. constructor; [apply Hg; apply (bool_decide_eq_true_1 _); vm_compute; reflexivity|].
        constructor; [|constructor]. split; [done|]. split; [|done].
        apply (bool_decide_eq_true_1 _); vm_compute; reflexivity.
    + destruct (truthy_str (trim (value c))) eqn:Et; [|done]. apply truthy_str_true in Et.
      injection He as <-. split; [cbn [map join clause_text]; by rewrite escape_text|].
      split; [done|]. by constructor.
  - split; [cbn [map join clause_text]; by rewrite He|]. split; [done|]. constructor; [|constructor].
    split; [|by rewrite He]. pose proof (build_windows c) as H. rewrite He in H. destruct H as (Hne & _).
    split; [done|]. split; [apply trim_trimmed | done].
Qed.

Lemma join_app sep (l l' : list jsstr) :
  l ≠ [] → l' ≠ [] → join sep (l ++ l') = join sep l ++ sep ++ join sep l'.
Proof.
  intros Hl Hl'. induction l as [|w l IH]; [done|]. destruct l as [|w' l].
  - by destruct l'.
  - change (join sep ((w :: w' :: l) ++ l')) with (w ++ sep ++ join sep ((w' :: l) ++ l')).
    rewrite IH by done. change (join sep (w :: w' :: l)) with (w ++ sep ++ join sep (w' :: l)).
    by rewrite <-!app_assoc.
Qed.

(** What [buildMediaTierCondition] writes. *)
Lemma tier_clauses t c :
  forallb media_condition_ok (conditions t) = true → buildMediaTierCondition t = Some c →
  c = join (js " && ") (map clause_text (flat_map clauses_of (conditions t)))
  ∧ flat_map clauses_of (conditions t) ≠ [] ∧ Forall good_clause (flat_map clauses_of (conditions t)).
Proof.
  intros Hok. unfold buildMediaTierCondition. case_bool_decide as Hne; [done|].
  destruct (existsb _ _) eqn:Hall; [done|]. intros E. apply (inj Some) in E as <-.
  induction (conditions t) as [|d ds IH]; [done|]. clear Hne.
  cbn [forallb map existsb flat_map omap list_omap] in *. apply andb_true_iff in Hok as [Hd Hds].
  apply orb_false_iff in Hall as [Hb Hall]. specialize (IH Hds).
  destruct (buildMediaCondition d) as [e|] eqn:He; [|by rewrite bool_decide_eq_true_2 in Hb].
  destruct (build_clauses d e Hd He) as (-> & Hcl & Hgood). cbn [id].
  destruct (decide (ds = [])) as [->|Hne].
  - cbn [map omap list_omap flat_map]. rewrite app_nil_r. done.
  - destruct (IH Hne Hall) as (E & Hcl' & Hgood'). split; [|split].
    + assert (omap id (map buildMediaCondition ds) ≠ []) as Hm.
      { destruct ds as [|d' ds]; [done|]. cbn [map existsb omap list_omap id] in *.
        destruct (buildMediaCondition d'); [done|]. by rewrite bool_decide_eq_true_2 in Hall. }
      rewrite map_app, join_app.
      * rewrite <-E. by destruct (omap id (map buildMediaCondition ds)).
      * by destruct (clauses_of d).
      * by destruct (flat_map clauses_of ds).
    + by destruct (clauses_of d).
    + by apply Forall_app.
Qed.

(** ** Written tiers *)

Record MediaWritten := { mw_label : jsstr; mw_clauses : list Clause; mw_tier : MediaTier }.

Definition good_written (w : MediaWritten) : Prop :=
  forallb label_unit (mw_label w) = true ∧ Forall good_clause (mw_clauses w) ∧ prices_ok (mw_tier w) = true.

Definition media_condition_text (w : MediaWritten) : jsstr := join (js " && ") (map clause_text (mw_clauses w)).

Definition media_text (w : MediaWritten) : jsstr :=
  let call := tier_call (mw_label w) (buildMediaCost (mw_tier w)) in
  if bool_decide (mw_clauses w = []) then call else media_condition_text w ++ js " ? " ++ call.

Definition media_groups (w : MediaWritten) : captures :=
  mset 3 (buildMediaCost (mw_tier w)) (mset 2 (mw_label w)
    (if bool_decide (mw_clauses w = []) then [] else mset 1 (media_condition_text w) [])).

Lemma takes_media_call l t s :
  forallb label_unit l = true → prices_ok t = true →
  takes (rseq [rlit (jq "tier(`"); RGroup 2 (RStar (RChar unquoted_unit)); rlit (jq "`,"); rws;
               tierBody; rlit (js ")")])
    (tier_call l (buildMediaCost t)) s (λ cs, mset 3 (buildMediaCost t) (mset 2 l cs)).
Proof.
  intros Hl Ht. unfold tier_call.
  assert (forallb unquoted_unit l = true) as Hu.
  { revert Hl. apply forallb_weaken. intros c. unfold label_unit. by intros [? _]%andb_true_iff. }
  assert (jq "`, " ++ buildMediaCost t ++ js ")" = jq "`," ++ [32%N] ++ buildMediaCost t ++ js ")") as ->.
  { assert (jq "`, " = jq "`," ++ [32%N]) as -> by reflexivity. by rewrite <-!app_assoc. }
  eapply takes_ext.
  - take_lit (jq "tier(`").
    eapply takes_cons; [refine (takes_group 2 _ l _ id (takes_run _ _ _ Hu _)); by intros c [= <-]|].
    take_lit (jq "`,").
    eapply (takes_cons _ _ [32%N]).
    { apply takes_blank. unfold buildMediaCost. destruct (billingMethod t); by intros c [= <-]. }
    eapply takes_cons; [|apply takes_last, takes_lit].
    refine (takes_group 3 _ _ _ id (pieces_takes1 _ _ s (cost_pieces t Ht) _)).
    unfold buildMediaCost. by destruct (billingMethod t).
  - done.
Qed.

Lemma takes_media w s :
  good_written w → ∃ u, takes media_tierRe (media_text w) s u ∧ u [] = media_groups w.
Proof.
  intros (Hl & Hc & Ht). unfold media_text, media_groups. case_bool_decide as Hne.
  - eexists. split.
    + apply (takes_seq _ _ [] (tier_call (mw_label w) (buildMediaCost (mw_tier w))) _ id);
        [|by apply takes_media_call].
      apply takes_opt_none. unfold tier_call. rewrite <-!app_assoc. by apply (refuted_fails _ (jq "tier(`")).
    + done.
  - eexists. split.
    + rewrite app_assoc. eapply takes_seq; [apply takes_opt | by apply takes_media_call].
      eapply takes_cons; [|].
      * assert (js " ? " = js " ?" ++ [32%N]) as -> by reflexivity. rewrite <-!app_assoc.
        apply takes_clauses; [| |vm_compute; reflexivity].
        -- apply Forall_forall. intros x Hx. apply list_elem_of_fmap in Hx as (c & -> & Hin).
           rewrite Forall_forall in Hc. by apply media_clause_ok, Hc.
        -- by destruct (mw_clauses w).
      * assert (js " ? " = [32%N] ++ js "?" ++ [32%N] ++ []) as -> by reflexivity.
        take_blank. take_lit (js "?"). take_blank. apply takes_nil.
    + done.
Qed.

(** The tier a match is parsed to. *)
Lemma parsed_media w :
  good_written w →
  parsed_tier (media_groups w)
  = {| t_label := mw_label w; t_conditions := []; mediaConditions := group_clauses false (mw_clauses w);
       mediaPricing := Some (pricing_of (mw_tier w)); prices := parseTierBody (buildMediaCost (mw_tier w)) |}.
Proof.
  intros (Hl & Hc & Ht).
  assert (group_text 3 (media_groups w) = buildMediaCost (mw_tier w)
          ∧ group_text 2 (media_groups w) = mw_label w
          ∧ group_text 1 (media_groups w) = media_condition_text w) as (E3 & E2 & E1).
  { unfold group_text, media_groups. split_and!;
      repeat (rewrite mget_mset_eq || rewrite mget_mset_ne by lia); try done.
    case_bool_decide as Hne; [|by rewrite mget_mset_eq]. unfold media_condition_text. by rewrite Hne. }
  unfold parsed_tier. rewrite E1, E2, E3, pricing_text by done.
  assert (parseMediaConditions (media_condition_text w) = group_clauses false (mw_clauses w)) as ->
    by exact (parse_media_text _ Hc).
  f_equal.
  destruct (truthy_str (media_condition_text w)) eqn:Et; [|done].
  assert (splitTopLevelAnd (media_condition_text w) = map clause_text (mw_clauses w)) as ->.
  { apply split_and.
    - apply Forall_forall. intros x Hx. apply list_elem_of_fmap in Hx as (c & -> & Hin).
      rewrite Forall_forall in Hc. by apply (clause_part media_condition), media_clause_ok, Hc.
    - intros E. apply truthy_str_true in Et. unfold media_condition_text in Et. by rewrite E in Et. }
  clear E1 E2 E3 Et. induction Hc as [|c cl Hc _ IH]; [done|]. cbn [map omap list_omap].
  pose proof (no_token_clause c Hc) as Hn. destruct (read_tier_clause (clause_text c)); [|done].
  cbn [List.filter]. by rewrite Hn.
Qed.

(** ** The round trip *)

(** The tiers an expression is written for: a configuration without tiers
    stands for the default one. *)
Definition source_tiers (cfg : MediaVisualConfig) : list MediaTier :=
  if bool_decide (tiers cfg = []) then [createDefaultMediaTier 0] else tiers cfg.

(** Tiers before the last one are kept if all their conditions are complete. *)
Definition kept_tier (t : MediaTier) : bool :=
  match buildMediaTierCondition t with Some c => truthy_str c | None => false end.

Definition written_tiers (source : list MediaTier) : list (MediaTier * list Clause) :=
  map (λ t, (t, flat_map clauses_of (conditions t))) (List.filter kept_tier (removelast source))
  ++ [(default (createDefaultMediaTier 0) (last source), [])].

Definition media_written (i : nat) (tc : MediaTier * list Clause) : MediaWritten :=
  {| mw_label := str_or (label (fst tc)) (js "tier_" ++ dec_of_N (N.of_nat (S i)));
     mw_clauses := snd tc; mw_tier := fst tc |}.

(** The tier as the editor reads it back, under its label and with the
    conditions [cs]: the prices its method does not use are zero. *)
Definition reread_as (l : jsstr) (cs : list MediaCondition) (t : MediaTier) : MediaTier :=
  let used m x := if bool_decide (billingMethod t ∈ m) then finitePrice x else num_zero in
  let total x := if bool_decide (billingMethod t = MEDIA_BILLING_PER_TOTAL_TOKEN)
                 then Some (finitePrice x) else None in
  {| label := l; conditions := cs; billingMethod := billingMethod t;
     unitPrice := used [MEDIA_BILLING_PER_UNIT] (Some (unitPrice t));
     fixedPrice := used [MEDIA_BILLING_FIXED_PLUS_SECOND] (Some (fixedPrice t));
     perSecondPrice := used [MEDIA_BILLING_PER_SECOND; MEDIA_BILLING_FIXED_PLUS_SECOND] (Some (perSecondPrice t));
     totalTokenPrice := total (totalTokenPrice t);
     reservePerSecond := total (reservePerSecond t) |}.

Definition reread_media (w : MediaWritten) : MediaTier :=
  reread_as (mw_label w) (group_clauses false (mw_clauses w)) (mw_tier w).

(** A condition as it is read back: trimmed, a count in its shortest form. *)
Definition count_text (v : jsstr) : jsstr :=
  match parseReferenceCount v with Some n => num_to_string n | None => [] end.

Definition reread_condition (c : MediaCondition) : MediaCondition :=
  match c with
  | MediaTimeRangeCondition c =>
      MediaTimeRangeCondition {| timezone := trim (timezone c); ranges := map trim_range (ranges c) |}
  | DimensionCondition c =>
      DimensionCondition
        (if isReferenceCountCondition (variable c)
         then {| variable := variable c; operator := operator c; value := count_text (value c);
                 rangeEnd := if bool_decide (operator c = MEDIA_CONDITION_RANGE)
                             then Some (count_text (default [] (rangeEnd c))) else None |}
         else {| variable := variable c; operator := MEDIA_CONDITION_EQ; value := trim (value c);
                 rangeEnd := None |})
  end.

(** A lower bound in front of an upper bound of the same count is read as a
    range. *)
Definition merges (c d : MediaCondition) : option MediaCondition :=
  match c, d with
  | DimensionCondition c, DimensionCondition d =>
      if bool_decide (operator c = MEDIA_CONDITION_GTE) && bool_decide (variable d = variable c)
         && bool_decide (operator d = MEDIA_CONDITION_LTE)
      then Some (DimensionCondition {| variable := variable c; operator := MEDIA_CONDITION_RANGE;
                                       value := value c; rangeEnd := Some (value d) |})
      else None
  | _, _ => None
  end.

Fixpoint merge_bounds (l : list MediaCondition) : list MediaCondition :=
  match l with
  | c :: (d :: rest) as tail =>
      match merges c d with Some e => e :: merge_bounds rest | None => c :: merge_bounds tail end
  | _ => l
  end.

(** The tiers an expression keeps with their conditions. *)
Definition kept_tiers (source : list MediaTier) : list (MediaTier * list MediaCondition) :=
  map (λ t, (t, merge_bounds (map reread_condition (conditions t)))) (List.filter kept_tier (removelast source))
  ++ [(default (createDefaultMediaTier 0) (last source), [])].

Definition reread_media_config (cfg : MediaVisualConfig) : MediaVisualConfig :=
  {| tiers := imap (λ i tc, reread_as (str_or (label (fst tc)) (js "tier_" ++ dec_of_N (N.of_nat (S i)))) (snd tc) (fst tc))
                (kept_tiers (source_tiers cfg)) |}.

Definition media_tier_ok (t : MediaTier) : bool :=
  forallb label_unit (label t) && forallb media_condition_ok (conditions t) && prices_ok t.

Lemma finitePrice_idemp x : finitePrice (Some (finitePrice x)) = finitePrice x.
Proof.
  unfold finitePrice. set (d := default num_nan x). destruct (num_is_finite d && num_leb num_zero d) eqn:E.
  - change (default num_nan (Some d)) with d. by rewrite E.
  - done.
Qed.

Lemma media_tier_reread w p :
  media_tier_of {| t_label := mw_label w; t_conditions := []; mediaConditions := group_clauses false (mw_clauses w);
                   mediaPricing := Some (pricing_of (mw_tier w)); prices := p |}
  = reread_media w.
Proof.
  unfold media_tier_of, reread_media, reread_as, pricing_of. cbn [t_label mediaConditions mediaPricing].
  assert (finitePrice None = num_zero) as H0 by reflexivity.
  destruct (billingMethod (mw_tier w)); cbn -[finitePrice]; by rewrite ?finitePrice_idemp, ?H0.
Qed.

Lemma label_written t l :
  forallb label_unit (label t) = true → forallb label_unit l = true → forallb label_unit (str_or (label t) l) = true.
Proof. intros. unfold str_or. by destruct (truthy_str _). Qed.

Lemma tier_label_units i : forallb label_unit (js "tier_" ++ dec_of_N i) = true.
Proof.
  rewrite forallb_app. apply andb_true_iff. split; [done|].
  eapply forallb_weaken; [|apply dec_of_N_digits]. intros c. unfold is_digit, label_unit.
  rewrite !andb_true_iff, !N.leb_le, !negb_true_iff, !N.eqb_neq. lia.
Qed.

Lemma kept_clauses t :
  media_tier_ok t = true → kept_tier t = true →
  Forall good_clause (flat_map clauses_of (conditions t)) ∧ flat_map clauses_of (conditions t) ≠ []
  ∧ buildMediaTierCondition t = Some (join (js " && ") (map clause_text (flat_map clauses_of (conditions t)))).
Proof.
  unfold media_tier_ok, kept_tier. rewrite !andb_true_iff. intros [[_ Hc] _] Hk.
  destruct (buildMediaTierCondition t) as [c|] eqn:E; [|done].
  destruct (tier_clauses t c Hc E) as (-> & ? & ?). done.
Qed.

Lemma removelast_elem {A} (l : list A) x : x ∈ removelast l → x ∈ l.
Proof.
  induction l as [|y l IH]; [done|]. destruct l as [|z l]; [by intros ?%not_elem_of_nil|].
  change (removelast (y :: z :: l)) with (y :: removelast (z :: l)).
  intros [-> | H]%elem_of_cons; [constructor|]. constructor. by apply IH.
Qed.

Lemma source_ok cfg :
  forallb media_tier_ok (tiers cfg) = true →
  forallb media_tier_ok (source_tiers cfg) = true ∧ source_tiers cfg ≠ [].
Proof.
  unfold source_tiers. case_bool_decide; [|done]. intros _. split; [vm_compute; reflexivity | done].
Qed.

(** The written tiers: conditional ones, then one without a condition. *)
Lemma written_shape source :
  forallb media_tier_ok source = true → source ≠ [] →
  ∃ ws w, imap media_written (written_tiers source) = ws ++ [w]
    ∧ Forall (λ w, good_written w ∧ mw_clauses w ≠ []) ws ∧ good_written w ∧ mw_clauses w = [].
Proof.
  intros Hok Hne. unfold written_tiers. rewrite imap_app. eexists _, _. split; [reflexivity|].
  rewrite forallb_forall_elem in Hok.
  assert (∀ t i cl, t ∈ source → Forall good_clause cl → good_written (media_written i (t, cl))) as Hw.
  { intros t i cl Ht Hcl. specialize (Hok t Ht). unfold media_tier_ok in Hok. rewrite !andb_true_iff in Hok.
    destruct Hok as [[Hl _] Hp]. split; [|done]. apply label_written; [done | apply tier_label_units]. }
  split; [|split; [|done]].
  - apply Forall_forall. intros x Hx. apply elem_of_lookup_imap in Hx as (i & tc & -> & Htc%list_elem_of_lookup_2).
    apply list_elem_of_fmap in Htc as (t & -> & Ht). apply elem_of_filterb in Ht as [Ht Hk].
    apply removelast_elem in Ht. destruct (kept_clauses t (Hok t Ht) Hk) as (Hg & Hcl & _).
    split; [by apply Hw | done].
  - apply Hw; [|constructor]. destruct (last source) as [t|] eqn:E; [by apply last_Some_elem_of in E|].
    by apply last_None in E.
Qed.

(** The text of an expression. *)
Definition version_text (source : list MediaTier) : jsstr :=
  if existsb (λ tc, bool_decide (billingMethod (fst tc) = MEDIA_BILLING_PER_TOTAL_TOKEN)) (written_tiers source)
  then js "v3" else js "v2".

(** A part of an expression is the text of a written tier. *)
Lemma part_text i t cl c :
  media_tier_ok t = true →
  c = match cl with [] => None | _ => Some (join (js " && ") (map clause_text cl)) end →
  media_part i t c = media_text (media_written i (t, cl)).
Proof.
  unfold media_tier_ok. rewrite !andb_true_iff. intros [[Hl _] _] ->.
  unfold media_part, media_text, media_written, media_condition_text. cbn [fst snd mw_label mw_clauses mw_tier].
  rewrite escape_label by (apply label_written; [done | apply tier_label_units]).
  destruct cl; [done|]. by rewrite bool_decide_eq_false_2.
Qed.

Definition kept_text (t : MediaTier) : jsstr :=
  join (js " && ") (map clause_text (flat_map clauses_of (conditions t))).

Lemma conditional_kept source :
  (∀ t, t ∈ removelast source → media_tier_ok t = true) →
  conditional_tiers source = map (λ t, (t, kept_text t)) (List.filter kept_tier (removelast source)).
Proof.
  unfold conditional_tiers. induction (removelast source) as [|t ts IH]; intros Hr; [done|].
  cbn [omap list_omap List.filter].
  assert (∀ u, u ∈ ts → media_tier_ok u = true) as Hts by (intros u Hu; apply Hr; by constructor).
  destruct (kept_tier t) eqn:Hk.
  - destruct (kept_clauses t (Hr t ltac:(constructor)) Hk) as (_ & _ & Hb).
    pose proof Hk as Hk'. unfold kept_tier in Hk'. rewrite Hb in Hk' |- *. rewrite Hk', IH by done. done.
  - unfold kept_tier in Hk. destruct (buildMediaTierCondition t) as [c|]; [rewrite Hk|]; by apply IH.
Qed.

Lemma generate_media_text cfg :
  forallb media_tier_ok (tiers cfg) = true →
  generateMediaExpr cfg
  = version_text (source_tiers cfg) ++ js ":"
    ++ join (js " : ") (map media_text (imap media_written (written_tiers (source_tiers cfg)))).
Proof.
  intros Hok. apply source_ok in Hok as [Hok Hne]. unfold generateMediaExpr. fold (source_tiers cfg).
  revert Hok Hne. generalize (source_tiers cfg). intros source Hok Hne.
  rewrite forallb_forall_elem in Hok.
  assert (∀ t, t ∈ removelast source → media_tier_ok t = true) as Hr by (intros t Ht; by apply Hok, removelast_elem).
  rewrite (conditional_kept _ Hr), map_map. cbn [fst snd]. f_equal.
  - unfold version_text, written_tiers. rewrite !existsb_app, !existsb_map. done.
  - f_equal. f_equal. unfold written_tiers. rewrite !imap_app, map_app. f_equal.
    + change (map ?f (List.filter ?p ?l)) with (f <$> List.filter p l).
      rewrite !imap_fmap. change (map media_text ?l) with (media_text <$> l). rewrite fmap_imap.
      apply imap_ext. intros i t Ht%list_elem_of_lookup_2. apply elem_of_filterb in Ht as [Ht Hk].
      destruct (kept_clauses t (Hr t Ht) Hk) as (_ & Hcl & _).
      apply part_text; [by apply Hr|]. cbn [fst snd]. unfold kept_text. by destruct (flat_map _ _).
    + cbn [imap map]. f_equal. rewrite !length_map. apply part_text; [|done].
      destruct (last source) as [t|] eqn:E; [by apply Hok, last_Some_elem_of|]. by apply last_None in E.
Qed.

(** *** The prefix that makes an expression a media expression *)

Lemma calls_usd_inside word a r : calls_usd word (a ++ 32%N :: js "usd(" ++ r) = true.
Proof.
  revert word. induction a as [|c a IH]; intros word.
  - cbn [app calls_usd]. apply orb_true_iff. right. reflexivity.
  - cbn [app calls_usd]. apply orb_true_iff. right. apply IH.
Qed.

Lemma media_text_usd w : ∃ a r, media_text w = a ++ 32%N :: js "usd(" ++ r.
Proof.
  assert (∀ l body, (∃ a r, 32%N :: body = a ++ 32%N :: js "usd(" ++ r) →
            ∃ a r, tier_call l body = a ++ 32%N :: js "usd(" ++ r) as Hcall.
  { intros l body (a & r & E). exists (jq "tier(`" ++ l ++ jq "`," ++ a), (r ++ js ")").
    unfold tier_call. assert (jq "`, " = jq "`," ++ [32%N]) as -> by reflexivity.
    rewrite <-!app_assoc. do 2 f_equal.
    change ([32%N] ++ body ++ js ")") with ((32%N :: body) ++ js ")"). rewrite E. by rewrite <-!app_assoc. }
  assert (∃ a r, 32%N :: buildMediaCost (mw_tier w) = a ++ 32%N :: js "usd(" ++ r) as Hcost.
  { assert (∀ u v r : jsstr, u = js "usd(" ++ v → ∃ a r', 32%N :: u ++ r = a ++ 32%N :: js "usd(" ++ r') as Hu.
    { intros u v r ->. exists [], (v ++ r). rewrite <-app_assoc. exact eq_refl. }
    unfold buildMediaCost. generalize num_to_string. intros print. destruct (billingMethod (mw_tier w)).
    - exact (Hu _ [] _ eq_refl).
    - exact (Hu _ [] _ eq_refl).
    - exact (Hu _ [40%N] _ eq_refl).
    - assert (js ", usd(" = js "," ++ 32%N :: js "usd(") as -> by reflexivity.
      set (x := print _). set (y := print _).
      exists (32%N :: js "deferred(total * " ++ x ++ js ","), (y ++ js " * seconds * units))").
      rewrite <-!app_comm_cons, <-!app_assoc, <-!app_comm_cons. exact eq_refl. }
  destruct (Hcall (mw_label w) _ Hcost) as (a & r & E). unfold media_text. rewrite E.
  case_bool_decide; [by exists a, r|]. exists (media_condition_text w ++ js " ? " ++ a), r.
  rewrite <-!app_assoc. exact eq_refl.
Qed.

Lemma media_text_nonempty w : media_text w ≠ [].
Proof. destruct (media_text_usd w) as (a & r & ->). by destruct a. Qed.

Lemma strip_version source body :
  snd (stripExprVersion (version_text source ++ js ":" ++ body)) = body
  ∧ starts_with (version_text source ++ js ":" ++ body) (js "v2:")
    || starts_with (version_text source ++ js ":" ++ body) (js "v3:") = true.
Proof.
  unfold version_text.
  assert (∀ p q s : jsstr, q = p ++ s → starts_with q p = true) as Hp.
  { intros p q s ->. unfold starts_with. apply bool_decide_eq_true_2. by exists s. }
  destruct (existsb _ _); (split; [reflexivity|]); apply orb_true_iff; [right | left]; by eapply Hp.
Qed.

(** *** The list of tiers *)

Lemma media_tierRe_sep c s : c ∈ js " : " → fails media_tierRe (c :: s).
Proof.
  intros Hc. assert (c = 32%N ∨ c = 58%N) as [-> | ->].
  { revert Hc. change (js " : ") with [32%N; 58%N; 32%N]. set_solver. }
  - by apply (refuted_fails _ [32%N] s).
  - by apply (refuted_fails _ [58%N] s).
Qed.

Lemma media_matches w ws :
  Forall good_written (w :: ws) →
  let body := join (js " : ") (map media_text (w :: ws)) in
  map parsed_tier (match_all media_tierRe (S (length body)) body) = map (λ w, parsed_tier (media_groups w)) (w :: ws).
Proof.
  intros Hok. cbn zeta. cbn [map]. rewrite join_concat, map_map, <-(app_nil_r (concat _)).
  rewrite (match_all_joined media_tierRe (js " : ") media_text media_groups); [by rewrite map_map| | | |lia].
  - intros v Hv. split; [apply media_text_nonempty|]. intros s. apply takes_media.
    rewrite Forall_forall in Hok. by apply Hok.
  - intros c s. apply media_tierRe_sep.
  - vm_compute. reflexivity.
Qed.

(** A written tier is complete, and a conditional one only bears on media
    conditions. *)
Definition complete_tier (t : ParsedTier) : bool := match mediaPricing t with None => true | _ => false end.

Definition foreign_tier (t : ParsedTier) : bool :=
  match mediaConditions t, t_conditions t with [], _ => true | _, _ :: _ => true | _, _ => false end.

Lemma grouped_nonempty cl : cl ≠ [] → group_clauses false cl ≠ [].
Proof.
  destruct cl as [|[c|v w|v o n] cl]; [done..|]. intros _. cbn [group_clauses]. by destruct (closes_range _ _ _).
Qed.

Lemma existsb_none {A} (p : A → bool) l : Forall (λ x, p x = false) l → existsb p l = false.
Proof. induction 1 as [|x l Hx _ IH]; [done|]. cbn [existsb]. by rewrite Hx. Qed.

Lemma parsed_flags w :
  good_written w →
  complete_tier (parsed_tier (media_groups w)) = false
  ∧ (mw_clauses w ≠ [] → foreign_tier (parsed_tier (media_groups w)) = false)
  ∧ media_tier_of (parsed_tier (media_groups w)) = reread_media w.
Proof.
  intros Hw. rewrite (parsed_media w Hw). split; [done|]. split; [|apply media_tier_reread].
  intros Hne. unfold foreign_tier. cbn [mediaConditions t_conditions].
  pose proof (grouped_nonempty _ Hne). by destruct (group_clauses _ _).
Qed.

(** Reading a text with the tiers [ws] and [w]. *)
Lemma read_media_text source ws w :
  Forall (λ w, good_written w ∧ mw_clauses w ≠ []) ws → good_written w →
  tryParseMediaConfig (version_text source ++ js ":" ++ join (js " : ") (map media_text (ws ++ [w])))
  = Some {| tiers := map reread_media (ws ++ [w]) |}.
Proof.
  intros Hws Hw. set (body := join _ _).
  assert (Forall good_written (ws ++ [w])) as Hall.
  { apply Forall_app. split; [|by constructor]. eapply Forall_impl; [exact Hws|]. by intros v [? _]. }
  assert (∃ a r, body = a ++ 32%N :: js "usd(" ++ r) as (a & r & Eb).
  { unfold body. destruct (ws ++ [w]) as [|v vs] eqn:E; [by destruct ws|]. cbn [map]. rewrite join_concat.
    destruct (media_text_usd v) as (a & r & ->). exists a, (r ++ concat (map (λ w, js " : " ++ w) (map media_text vs))).
    by rewrite <-!app_assoc. }
  destruct (strip_version source body) as [Hstrip Hver]. set (expr := version_text source ++ _) in *.
  assert (truthy_str expr = true) as Ht.
  { apply truthy_str_true. unfold expr, version_text. by destruct (existsb _ _). }
  assert (isMediaBillingExpr expr = true) as Hm.
  { unfold isMediaBillingExpr. rewrite Ht, Hver. unfold expr. rewrite Eb, app_assoc, app_assoc. apply calls_usd_inside. }
  assert (parseTiersFromExpr expr = map (λ w, parsed_tier (media_groups w)) (ws ++ [w])) as Hp.
  { unfold parseTiersFromExpr. rewrite Ht. cbn [negb]. destruct (stripExprVersion expr) as [v b]. cbn [snd] in Hstrip.
    rewrite Hstrip. unfold body. destruct (ws ++ [w]) as [|v' vs] eqn:E; [by destruct ws|]. by apply media_matches. }
  unfold tryParseMediaConfig. rewrite Hm, Hp. cbn [negb]. fold complete_tier foreign_tier.
  rewrite bool_decide_eq_false_2 by (by destruct ws). cbn [orb].
  rewrite (existsb_none complete_tier).
  2: { apply Forall_map. eapply Forall_impl; [exact Hall|]. intros v Hv. by apply parsed_flags. }
  rewrite map_app. cbn [map]. rewrite removelast_last, (existsb_none foreign_tier).
  2: { apply Forall_map. eapply Forall_impl; [exact Hws|]. intros v [Hv Hne]. by apply parsed_flags. }
  do 2 f_equal. change [parsed_tier (media_groups w)] with (map (λ w, parsed_tier (media_groups w)) [w]).
  rewrite <-map_app, map_map. apply map_ext_in. intros v Hv%list_elem_of_In. rewrite Forall_forall in Hall.
  by apply parsed_flags, Hall.
Qed.

(** *** The conditions in terms of the editor *)

Lemma merge_bounds_cons c l :
  merge_bounds (c :: l)
  = match head l ≫= merges c with Some e => e :: merge_bounds (tail l) | None => c :: merge_bounds l end.
Proof. by destruct l. Qed.

Definition complete (c : MediaCondition) : Prop := buildMediaCondition c ≠ None.

(** The clauses and the reading of a complete condition on a count. *)
Lemma count_clauses c m :
  isReferenceCountCondition (variable c) = true → parseReferenceCount (value c) = Some m →
  complete (DimensionCondition c) →
  if bool_decide (operator c = MEDIA_CONDITION_RANGE) then
    ∃ e, parseReferenceCount (default [] (rangeEnd c)) = Some e
      ∧ clauses_of (DimensionCondition c)
        = [ClCount (variable c) MEDIA_CONDITION_GTE (num_to_string m);
           ClCount (variable c) MEDIA_CONDITION_LTE (num_to_string e)]
      ∧ reread_condition (DimensionCondition c)
        = DimensionCondition {| variable := variable c; operator := MEDIA_CONDITION_RANGE;
                                value := num_to_string m; rangeEnd := Some (num_to_string e) |}
  else
    clauses_of (DimensionCondition c) = [ClCount (variable c) (operator c) (num_to_string m)]
    ∧ reread_condition (DimensionCondition c)
      = DimensionCondition {| variable := variable c; operator := operator c;
                              value := num_to_string m; rangeEnd := None |}.
Proof.
  unfold complete. cbn [buildMediaCondition clauses_of reread_condition]. intros -> Hm. unfold count_text.
  rewrite Hm. cbn [negb]. case_bool_decide as Er.
  - rewrite Er. destruct (parseReferenceCount (default [] (rangeEnd c))) as [e|]; [|done]. intros _.
    by exists e.
  - intros _. by destruct (operator c).
Qed.

Lemma text_clauses c :
  isReferenceCountCondition (variable c) = false →
  clauses_of (DimensionCondition c) = [ClText (variable c) (trim (value c))]
  ∧ reread_condition (DimensionCondition c)
    = DimensionCondition {| variable := variable c; operator := MEDIA_CONDITION_EQ;
                            value := trim (value c); rangeEnd := None |}.
Proof. cbn [clauses_of reread_condition]. by intros ->. Qed.

Lemma complete_count c :
  isReferenceCountCondition (variable c) = true → complete (DimensionCondition c) →
  ∃ m, parseReferenceCount (value c) = Some m.
Proof.
  unfold complete. cbn [buildMediaCondition]. intros ->. cbn [negb].
  destruct (parseReferenceCount (value c)); [eauto | done].
Qed.

(** The first clause of what follows closes a range exactly if the first
    condition merges; it is then the only clause of that condition. *)
Lemma closes_merges v o n c cs :
  Forall complete cs →
  c = DimensionCondition {| variable := v; operator := o; value := n; rangeEnd := None |} →
  match closes_range v o (head (flat_map clauses_of cs) ≫= count_of) with
  | Some e =>
      head (map reread_condition cs) ≫= merges c
      = Some (DimensionCondition {| variable := v; operator := MEDIA_CONDITION_RANGE; value := n; rangeEnd := Some e |})
      ∧ group_clauses true (flat_map clauses_of cs) = group_clauses false (flat_map clauses_of (tail cs))
  | None => head (map reread_condition cs) ≫= merges c = None
  end.
Proof.
  intros Hcs ->. destruct Hcs as [|d cs Hd _]; [done|].
  destruct (decide (o = MEDIA_CONDITION_GTE)) as [->|Ho].
  2: { assert (∀ x, closes_range v o x = None) as ->.
       { intros [[[? ?] ?]|]; [|done]. unfold closes_range. by rewrite bool_decide_eq_false_2. }
       cbn [map head mbind option_bind]. destruct (reread_condition d); [|done].
       cbn [merges operator]. by rewrite bool_decide_eq_false_2. }
  cbn [flat_map map head tail mbind option_bind].
  destruct d as [d|d]; [|done].
  destruct (isReferenceCountCondition (variable d)) eqn:Ec.
  2: { destruct (text_clauses d Ec) as [-> ->]. cbn [app head mbind option_bind count_of closes_range merges operator].
       rewrite !(bool_decide_eq_false_2 (_ = MEDIA_CONDITION_LTE)) by done. by rewrite !andb_false_r. }
  destruct (complete_count d Ec Hd) as [m Em]. pose proof (count_clauses d m Ec Em Hd) as H.
  case_bool_decide as Er.
  - destruct H as (e & _ & -> & ->). cbn [app head mbind option_bind count_of closes_range merges operator].
    rewrite !(bool_decide_eq_false_2 (_ = MEDIA_CONDITION_LTE)) by done. by rewrite !andb_false_r.
  - destruct H as [-> ->]. cbn [app head mbind option_bind count_of closes_range merges operator variable value].
    by destruct (bool_decide _ && bool_decide _ && bool_decide _).
Qed.

Lemma group_merge cs :
  Forall complete cs → group_clauses false (flat_map clauses_of cs) = merge_bounds (map reread_condition cs).
Proof.
  remember (length cs) as k eqn:Ek. assert (length cs ≤ k) as Hk by lia. clear Ek.
  revert cs Hk. induction k as [|k IH]; intros cs Hk Hcs; [by destruct cs; [|simpl in Hk; lia]|].
  destruct Hcs as [|c cs Hc Hcs]; [done|]. cbn [length] in Hk. cbn [map]. rewrite merge_bounds_cons.
  assert (group_clauses false (flat_map clauses_of cs) = merge_bounds (map reread_condition cs)) as E
    by (apply IH; [lia | done]).
  assert (merge_bounds (tail (map reread_condition cs)) = group_clauses false (flat_map clauses_of (tail cs))) as Et.
  { destruct Hcs as [|d cs _ Hcs]; [done|]. cbn [map tail]. rewrite IH; [done | simpl in Hk; lia | done]. }
  rewrite Et, <-E. clear Et E IH.
  destruct c as [c|c]; [|cbn [flat_map clauses_of app group_clauses reread_condition]; by destruct (map _ cs)].
  assert (∀ p m r, p ≠ MEDIA_CONDITION_GTE → ∀ l,
            head l ≫= merges (DimensionCondition {| variable := variable c; operator := p; value := m; rangeEnd := r |})
            = None) as Hno.
  { intros p m r Hp [|[d|d] l]; [done| |done]. cbn [head mbind option_bind merges operator]. by rewrite bool_decide_eq_false_2. }
  cbn [flat_map]. destruct (isReferenceCountCondition (variable c)) eqn:Ec.
  2: { destruct (text_clauses c Ec) as [-> ->]. by rewrite Hno. }
  destruct (complete_count c Ec Hc) as [m Em]. pose proof (count_clauses c m Ec Em Hc) as H.
  case_bool_decide as Er.
  - destruct H as (e & _ & -> & ->). rewrite Hno by done.
    cbn [app group_clauses head mbind option_bind count_of closes_range]. by rewrite !bool_decide_eq_true_2.
  - destruct H as [-> ->]. cbn [app group_clauses].
    pose proof (closes_merges (variable c) (operator c) (num_to_string m) _ cs Hcs eq_refl) as H.
    destruct (closes_range _ _ _) as [e|]; [by destruct H as [-> ->] | by rewrite H].
Qed.

(** The tiers that are read back, in those terms. *)
Lemma reread_written cfg :
  {| tiers := map reread_media (imap media_written (written_tiers (source_tiers cfg))) |}
  = reread_media_config cfg.
Proof.
  unfold reread_media_config, written_tiers, kept_tiers. generalize (source_tiers cfg). intros source. f_equal.
  rewrite !imap_app, map_app. f_equal.
  - change (map ?f (List.filter ?p ?l)) with (f <$> List.filter p l).
    rewrite !imap_fmap. change (map reread_media ?l) with (reread_media <$> l). rewrite fmap_imap.
    apply imap_ext. intros i t Ht%list_elem_of_lookup_2. apply elem_of_filterb in Ht as [_ Hk].
    unfold compose, reread_media, media_written. cbn [fst snd mw_label mw_clauses mw_tier]. f_equal.
    apply group_merge. unfold kept_tier, buildMediaTierCondition in Hk. case_bool_decide; [done|].
    destruct (existsb _ _) eqn:E; [done|]. rewrite existsb_map in E. apply Forall_forall. intros c Hc Hn.
    enough (existsb (λ c, bool_decide (buildMediaCondition c = None)) (conditions t) = true) by congruence.
    apply existsb_exists. exists c. split; [by apply list_elem_of_In | by apply bool_decide_eq_true_2].
  - cbn [imap map]. rewrite !length_map. done.
Qed.

(** C22: reading the expression that the media editor writes gives the tiers it
    was written for: their labels, their conditions and the prices of the chosen
    method, at double precision; unfinished tiers are left out, and the last tier
    has no condition.  This holds if no label contains a double quote or a
    backslash (which would double: media_backslash_doubles), no text that a
    dimension is compared with contains one of these, a parenthesis, an ampersand
    or a vertical bar, no zone contains a control character, double quote,
    backslash, parenthesis or surrogate, every price prints as a text that reads as
    the same price, and a price per second in a sum prints without a plus sign
    ([media_tier_ok]). *)
Theorem media_round_trip cfg :
  forallb media_tier_ok (tiers cfg) = true →
  tryParseMediaConfig (generateMediaExpr cfg) = Some (reread_media_config cfg).
Proof.
  intros Hok. rewrite generate_media_text by done. apply source_ok in Hok as [Hok Hne].
  destruct (written_shape _ Hok Hne) as (ws & w & E & Hws & Hw & _).
  rewrite <-reread_written, E. by apply read_media_text.
Qed.

(** A video that is priced by the token when it is long and quoted in a
    range, an image by the unit at night, anything else by the second. *)
Definition example_media : MediaVisualConfig :=
  let tier l c m a b := {| label := l; conditions := c; billingMethod := m; unitPrice := a; fixedPrice := a;
                           perSecondPrice := b; totalTokenPrice := Some b; reservePerSecond := Some a |} in
  {| tiers :=
       [tier (js "refs")
          [DimensionCondition {| variable := V_reference_video_count; operator := MEDIA_CONDITION_RANGE;
                                 value := js "1"; rangeEnd := Some (js "3") |};
           DimensionCondition {| variable := V_resolution_tier; operator := MEDIA_CONDITION_EQ;
                                 value := js " 720p "; rangeEnd := None |}]
          MEDIA_BILLING_PER_TOTAL_TOKEN (num_of_Z 2) (num_of_string (js "0.125"));
        tier []
          [MediaTimeRangeCondition {| timezone := js "UTC";
             ranges := [{| start := js "22:00"; end_ := js "06:00" |}] |}]
          MEDIA_BILLING_PER_UNIT (num_of_string (js "0.04")) num_zero;
        tier (js "unfinished")
          [DimensionCondition {| variable := V_quality; operator := MEDIA_CONDITION_EQ;
                                 value := []; rangeEnd := None |}]
          MEDIA_BILLING_PER_UNIT num_zero num_zero;
        tier (js "base") [] MEDIA_BILLING_FIXED_PLUS_SECOND (num_of_Z 1) (num_of_string (js "0.5"))] |}.

Example example_media_text :
  generateMediaExpr example_media
  = js "v3:reference_video_count >= 1 && reference_video_count <= 3 && " ++ jq "resolution_tier == `720p` ? tier(`refs`, "
    ++ js "deferred(total * 0.125, usd(2 * seconds * units))) : "
    ++ default [] (buildTimeRangeConditionExpr {| timezone := js "UTC"; ranges := [{| start := js "22:00"; end_ := js "06:00" |}] |})
    ++ jq " ? tier(`tier_2`, usd(0.04 * units)) : tier(`base`, usd((1 + 0.5 * seconds) * units))".
Proof. apply (bool_decide_eq_true_1 _). vm_compute. reflexivity. Qed.

Lemma media_round_trip_witness :
  forallb media_tier_ok (tiers example_media) = true
  ∧ tryParseMediaConfig (generateMediaExpr example_media) = Some (reread_media_config example_media).
Proof.
  split; [vm_compute; reflexivity|]. apply (media_round_trip example_media). vm_compute. reflexivity.
Defined.

(** ** What the reader lets through *)

(** The search for tiers is not anchored, and the result is not compared with
    the text: an alternative of two conditions loses the first one. *)
Lemma media_alternative_lost :
  generateMediaExpr <$>
    tryParseMediaConfig (jq "v2:quality == `a` || quality == `b` ? tier(`x`, usd(1 * units)) : tier(`y`, usd(2 * units))")
  = Some (jq "v2:quality == `b` ? tier(`x`, usd(1 * units)) : tier(`y`, usd(2 * units))").
Proof. apply (bool_decide_eq_true_1 _). vm_compute. reflexivity. Qed.

(** The writer escapes backslashes, the reader does not take the escapes away. *)
Lemma media_backslash_doubles :
  let cfg l := {| tiers := [{| label := l; conditions := []; billingMethod := MEDIA_BILLING_PER_UNIT;
                               unitPrice := num_of_Z 1; fixedPrice := num_zero; perSecondPrice := num_zero;
                               totalTokenPrice := None; reservePerSecond := None |}] |} in
  tryParseMediaConfig (generateMediaExpr (cfg (js "a\b"))) = Some (cfg (js "a\\b")).
Proof. apply (bool_decide_eq_true_1 _). vm_compute. reflexivity. Qed.
