(* ===== verification/PlayMessages.v ===== *)
(** * Messages of the playground (features/playground/lib/message)

    A conversation is a list of messages.  The answer of the assistant is
    built while it streams in: its raw text carries the reasoning between
    think tags, which are taken out when the answer is complete.  Times are
    milliseconds; [now] arguments are the value of [Date.now()], [nanoid]
    arguments the fresh identifiers. *)

From Stdlib Require Import ZArith.
From S2P Require Import Prelude JsString JsNumber JsCollections JsValue Json.

(** ** Data (types.ts, constants.ts) *)

Inductive MessageRole := USER | ASSISTANT | SYSTEM.

#[export] Instance MessageRole_eq_dec : EqDecision MessageRole.
Proof. solve_decision. Defined.

Inductive MessageStatus := LOADING | STREAMING | COMPLETE | ERROR.

#[export] Instance MessageStatus_eq_dec : EqDecision MessageStatus.
Proof. solve_decision. Defined.

Record MessageVersion := { id : jsstr; content : jsstr }.

#[export] Instance MessageVersion_eq_dec : EqDecision MessageVersion.
Proof. solve_decision. Defined.

Record Source := { href : jsstr; title : jsstr }.

#[export] Instance Source_eq_dec : EqDecision Source.
Proof. solve_decision. Defined.

Record Reasoning := {
  r_content : jsstr;
  r_duration : Z;
  r_startedAt : option Z;
  r_completedAt : option Z;
  r_durationMs : option Z
}.

#[export] Instance Reasoning_eq_dec : EqDecision Reasoning.
Proof. solve_decision. Defined.

(** [errorCode] may be missing or null. *)
Record Message := {
  key : jsstr;
  from : MessageRole;
  versions : list MessageVersion;
  createdAt : option Z;
  startedAt : option Z;
  completedAt : option Z;
  durationMs : option Z;
  sources : option (list Source);
  reasoning : option Reasoning;
  isReasoningStreaming : option bool;
  isReasoningComplete : option bool;
  isContentComplete : option bool;
  status : option MessageStatus;
  errorCode : option (option jsstr)
}.

#[export] Instance Message_eq_dec : EqDecision Message.
Proof. solve_decision. Defined.

Definition API_REQUEST_ERROR : jsstr := js "Request error occurred".
Definition NETWORK_ERROR : jsstr := js "Network connection failed or server not responding".
Definition PARSE_ERROR : jsstr := js "Error parsing response data".
Definition STREAM_START_ERROR : jsstr := js "Error establishing connection".
Definition CONNECTION_CLOSED : jsstr := js "Connection closed".
Definition INTERRUPTED : jsstr := js "Generation was interrupted".

(** Copies with some members replaced ([{...message, ...}]). *)
Definition with_versions (vs : list MessageVersion) (m : Message) : Message :=
  {| key := key m; from := from m; versions := vs; createdAt := createdAt m; startedAt := startedAt m;
     completedAt := completedAt m; durationMs := durationMs m; sources := sources m; reasoning := reasoning m;
     isReasoningStreaming := isReasoningStreaming m; isReasoningComplete := isReasoningComplete m;
     isContentComplete := isContentComplete m; status := status m; errorCode := errorCode m |}.

Definition with_created (t : option Z) (m : Message) : Message :=
  {| key := key m; from := from m; versions := versions m; createdAt := t; startedAt := startedAt m;
     completedAt := completedAt m; durationMs := durationMs m; sources := sources m; reasoning := reasoning m;
     isReasoningStreaming := isReasoningStreaming m; isReasoningComplete := isReasoningComplete m;
     isContentComplete := isContentComplete m; status := status m; errorCode := errorCode m |}.

Definition with_times (s c d : option Z) (m : Message) : Message :=
  {| key := key m; from := from m; versions := versions m; createdAt := createdAt m; startedAt := s;
     completedAt := c; durationMs := d; sources := sources m; reasoning := reasoning m;
     isReasoningStreaming := isReasoningStreaming m; isReasoningComplete := isReasoningComplete m;
     isContentComplete := isContentComplete m; status := status m; errorCode := errorCode m |}.

Definition with_reasoning (r : option Reasoning) (m : Message) : Message :=
  {| key := key m; from := from m; versions := versions m; createdAt := createdAt m; startedAt := startedAt m;
     completedAt := completedAt m; durationMs := durationMs m; sources := sources m; reasoning := r;
     isReasoningStreaming := isReasoningStreaming m; isReasoningComplete := isReasoningComplete m;
     isContentComplete := isContentComplete m; status := status m; errorCode := errorCode m |}.

Definition with_reasoning_streaming (b : bool) (m : Message) : Message :=
  {| key := key m; from := from m; versions := versions m; createdAt := createdAt m; startedAt := startedAt m;
     completedAt := completedAt m; durationMs := durationMs m; sources := sources m; reasoning := reasoning m;
     isReasoningStreaming := Some b; isReasoningComplete := isReasoningComplete m;
     isContentComplete := isContentComplete m; status := status m; errorCode := errorCode m |}.

Definition with_status (s : MessageStatus) (m : Message) : Message :=
  {| key := key m; from := from m; versions := versions m; createdAt := createdAt m; startedAt := startedAt m;
     completedAt := completedAt m; durationMs := durationMs m; sources := sources m; reasoning := reasoning m;
     isReasoningStreaming := isReasoningStreaming m; isReasoningComplete := isReasoningComplete m;
     isContentComplete := isContentComplete m; status := Some s; errorCode := errorCode m |}.

Definition with_error_code (c : option jsstr) (m : Message) : Message :=
  {| key := key m; from := from m; versions := versions m; createdAt := createdAt m; startedAt := startedAt m;
     completedAt := completedAt m; durationMs := durationMs m; sources := sources m; reasoning := reasoning m;
     isReasoningStreaming := isReasoningStreaming m; isReasoningComplete := isReasoningComplete m;
     isContentComplete := isContentComplete m; status := status m; errorCode := Some c |}.

(** ** Versions and messages (message-utils.ts) *)

Definition createMessageVersion (nanoid content : jsstr) : MessageVersion :=
  {| id := nanoid; content := content |}.

Definition getCurrentVersion (message : Message) : MessageVersion :=
  match versions message with v :: _ => v | [] => {| id := js "default"; content := [] |} end.

Definition getMessageContent (message : Message) : jsstr := content (getCurrentVersion message).

Definition hasMessageContent (message : Message) : bool := truthy_str (trim (getMessageContent message)).

Definition updateCurrentVersionContent (message : Message) (c : jsstr) : Message :=
  with_versions [{| id := id (getCurrentVersion message); content := c |}] message.

Definition createUserMessage (nanoid nanoid' content : jsstr) (created : Z) : Message :=
  {| key := nanoid; from := USER; versions := [createMessageVersion nanoid' content];
     createdAt := Some created; startedAt := None; completedAt := None; durationMs := None; sources := None;
     reasoning := None; isReasoningStreaming := None; isReasoningComplete := None; isContentComplete := None;
     status := None; errorCode := None |}.

Definition createLoadingAssistantMessage (nanoid nanoid' : jsstr) (started : Z) : Message :=
  {| key := nanoid; from := ASSISTANT; versions := [createMessageVersion nanoid' []];
     createdAt := Some started; startedAt := Some started; completedAt := None; durationMs := None; sources := None;
     reasoning := None; isReasoningStreaming := Some false; isReasoningComplete := Some false;
     isContentComplete := Some false; status := Some LOADING; errorCode := None |}.

Inductive ContentPart :=
  | TextPart (text : jsstr)
  | ImagePart (url : jsstr).

Inductive ChatContent :=
  | PlainContent (s : jsstr)
  | PartsContent (l : list ContentPart).

Definition buildMessageContent (text : jsstr) (imageUrls : list jsstr) : ChatContent :=
  let validImages := List.filter (λ url, truthy_str (trim url)) imageUrls in
  match validImages with
  | [] => PlainContent text
  | _ => PartsContent (TextPart text :: map (λ url, ImagePart (trim url)) validImages)
  end.

Definition getTextContent (c : ChatContent) : jsstr :=
  match c with
  | PlainContent s => s
  | PartsContent l =>
      match List.find (λ p, match p with TextPart _ => true | _ => false end) l with
      | Some (TextPart s) => s
      | _ => []
      end
  end.

Record ChatCompletionMessage := { role : MessageRole; c_content : jsstr }.

Definition formatMessageForAPI (message : Message) : ChatCompletionMessage :=
  {| role := from message; c_content := getMessageContent message |}.

Definition isValidMessage (message : Message) : bool :=
  match versions message with
  | [] => false
  | _ => negb (bool_decide (from message = ASSISTANT) && negb (hasMessageContent message))
  end.

(** ** Timing (message-timing-utils.ts) *)

Definition opt_or {A} (a b : option A) : option A := match a with Some _ => a | None => b end.

(** [Math.ceil(ms / 1000)] on whole milliseconds. *)
Definition ceil_seconds (ms : Z) : Z := (- ((- ms) / 1000))%Z.

Definition completeAssistantTiming (now : Z) (message : Message) : Message :=
  if bool_decide (from message = ASSISTANT) then
    let started := default now (opt_or (startedAt message) (createdAt message)) in
    with_times (Some started) (Some now) (Some (Z.max 0 (now - started))) message
  else message.

Definition startReasoningTiming (now : Z) (message : Message) : Reasoning :=
  let r := reasoning message in
  {| r_content := default [] (r_content <$> r);
     r_duration := default 0%Z (r_duration <$> r);
     r_startedAt := Some (default now (r ≫= r_startedAt));
     r_completedAt := r ≫= r_completedAt;
     r_durationMs := r ≫= r_durationMs |}.

(** A reasoning with another content. *)
Definition with_r_content (c : jsstr) (r : Reasoning) : Reasoning :=
  {| r_content := c; r_duration := r_duration r; r_startedAt := r_startedAt r;
     r_completedAt := r_completedAt r; r_durationMs := r_durationMs r |}.

Definition completeReasoningTiming (now : Z) (message : Message) : Message :=
  match reasoning message with
  | None => message
  | Some r =>
      match r_durationMs r with
      | Some _ => message
      | None =>
          let started := default now (opt_or (r_startedAt r) (startedAt message)) in
          let duration := Z.max 0 (now - started) in
          with_reasoning (Some {| r_content := r_content r; r_duration := ceil_seconds duration;
                                  r_startedAt := Some started; r_completedAt := Some now;
                                  r_durationMs := Some duration |}) message
      end
  end.

(** ** Think tags (message-reasoning-utils.ts) *)

Definition think_open : jsstr := js "<think>".
Definition think_close : jsstr := js "</think>".

(** The text in front of the first occurrence of [p], and the text behind it. *)
Fixpoint cut_at (p s : jsstr) : option (jsstr * jsstr) :=
  match strip_prefix p s with
  | Some r => Some ([], r)
  | None => match s with
            | [] => None
            | c :: s' => '(a, r) ← cut_at p s'; Some (c :: a, r)
            end
  end.

Record ParsedThinkTags := { visibleContent : jsstr; t_reasoning : jsstr; hasUnclosedTag : bool }.

Definition push_part (w : jsstr) (l : list jsstr) : list jsstr := if truthy_str w then w :: l else l.

(** The loop behind the last closed tag: visible parts, reasoning parts,
    whether a tag is left open.  Each turn consumes two tags. *)
Fixpoint think_loop (fuel : nat) (rest : jsstr) : list jsstr * list jsstr * bool :=
  match fuel with
  | O => ([], [], false)
  | S f =>
      match cut_at think_open rest with
      | None => (push_part rest [], [], false)
      | Some (before, inside) =>
          match cut_at think_close inside with
          | None => (push_part before [], [inside], true)
          | Some (thought, rest') =>
              let '(vs, rs, u) := think_loop f rest' in
              (push_part before vs, thought :: rs, u)
          end
      end
  end.

Definition parseThinkTags (content : jsstr) : ParsedThinkTags :=
  if negb (includes content think_open) then
    {| visibleContent := content; t_reasoning := []; hasUnclosedTag := false |}
  else
    let '(visibleParts, reasoningParts, u) := think_loop (S (length content)) content in
    {| visibleContent := trim (concat visibleParts);
       t_reasoning := trim (join [10%N; 10%N] reasoningParts); hasUnclosedTag := u |}.

(** ** Streaming (message-streaming-utils.ts) *)

Definition processStreamingContent (now : Z) (message : Message) (contentChunk : jsstr) : Message :=
  let fullContent := getMessageContent message ++ contentChunk in
  if match reasoning message with None => negb (includes fullContent think_open) | Some _ => false end then
    with_reasoning_streaming false (updateCurrentVersionContent message fullContent)
  else
    let parsed := parseThinkTags fullContent in
    let finalReasoning :=
      if truthy_str (t_reasoning parsed)
      then Some (with_r_content (t_reasoning parsed) (startReasoningTiming now message))
      else reasoning message in
    with_reasoning_streaming (hasUnclosedTag parsed)
      (with_reasoning finalReasoning (updateCurrentVersionContent message fullContent)).

Inductive StreamChunkType := ReasoningChunk | ContentChunk.

Definition getAppendableChunk (currentContent chunk : jsstr) : jsstr :=
  if negb (truthy_str currentContent) || negb (starts_with chunk currentContent) then chunk
  else drop (length currentContent) chunk.

Definition applyStreamingChunk (now : Z) (message : Message) (type : StreamChunkType) (chunk : jsstr) : Message :=
  if bool_decide (status message = Some ERROR) then message
  else
    match type with
    | ReasoningChunk =>
        let r := startReasoningTiming now message in
        let appendableChunk := getAppendableChunk (r_content r) chunk in
        with_status STREAMING (with_reasoning_streaming true
          (with_reasoning (Some (with_r_content (r_content r ++ appendableChunk) r)) message))
    | ContentChunk =>
        let appendableChunk := getAppendableChunk (getMessageContent message) chunk in
        let contentMessage := processStreamingContent now message appendableChunk in
        with_status STREAMING
          (if default false (isReasoningStreaming contentMessage) then contentMessage
           else completeReasoningTiming now contentMessage)
    end.

Definition finalizeMessage (now : Z) (message : Message) (apiReasoningContent : option jsstr) : Message :=
  let c := getMessageContent message in
  let parsedThinkTags := if includes c think_open then Some (parseThinkTags c) else None in
  let visible := default c (visibleContent <$> parsedThinkTags) in
  let finalReasoning :=
    str_or (default [] apiReasoningContent)
      (str_or (default [] (r_content <$> reasoning message))
         (default [] (t_reasoning <$> parsedThinkTags))) in
  let finalized :=
    with_reasoning_streaming false
      (with_reasoning (if truthy_str finalReasoning
                       then Some (with_r_content finalReasoning (startReasoningTiming now message)) else None)
         (updateCurrentVersionContent message visible)) in
  completeReasoningTiming now finalized.

Definition completeAssistantMessage (now : Z) (message : Message) : Message :=
  completeAssistantTiming now (with_status COMPLETE (finalizeMessage now message None)).

Definition isAssistantMessageFinal (message : Message) : bool :=
  bool_decide (status message = Some COMPLETE) || bool_decide (status message = Some ERROR).

Definition isAssistantMessagePending (message : Message) : bool :=
  bool_decide (status message = Some LOADING) || bool_decide (status message = Some STREAMING).

Definition isPendingAssistantMessage (message : Message) : bool :=
  bool_decide (from message = ASSISTANT) && isAssistantMessagePending message.

(** A choice of a response: the content and the reasoning of its message. *)
Record ChatCompletionChoice := { ch_content : option jsstr; ch_reasoning : option jsstr }.

Definition hasChatCompletionChoice (choices : list ChatCompletionChoice) : bool :=
  match choices with [] => false | _ => true end.

Definition applyChatCompletionChoice (now : Z) (message : Message) (choice : ChatCompletionChoice) : Message :=
  completeAssistantTiming now
    (with_status COMPLETE
       (finalizeMessage now (updateCurrentVersionContent message (default [] (ch_content choice)))
          (ch_reasoning choice))).

Definition applyChatCompletionResponse (now : Z) (message : Message) (choices : list ChatCompletionChoice) :
  option Message :=
  match choices with [] => None | choice :: _ => Some (applyChatCompletionChoice now message choice) end.

(** *** Loading *)

(** The last index with a property ([findLastIndex]). *)
Fixpoint last_index {A} (p : A → bool) (l : list A) : option nat :=
  match l with
  | [] => None
  | x :: l' => match last_index p l' with
               | Some i => Some (S i)
               | None => if p x then Some 0 else None
               end
  end.

Section sanitize.
(** The translation of a key. *)
Context (t : jsstr → jsstr).

Definition sanitize_message (now : Z) (message : Message) : Message :=
  let finalized := finalizeMessage now message None in
  let hasReasoning := truthy_str (trim (default [] (r_content <$> reasoning finalized))) in
  if hasMessageContent finalized || hasReasoning then
    completeAssistantTiming now (with_reasoning_streaming false (with_status COMPLETE finalized))
  else
    completeAssistantTiming now (with_reasoning_streaming false (with_status ERROR
      (updateCurrentVersionContent finalized (t API_REQUEST_ERROR ++ js ": " ++ t INTERRUPTED)))).

Definition sanitizeMessagesOnLoad (now : Z) (messages : list Message) : list Message :=
  match last_index isPendingAssistantMessage messages with
  | None => messages
  | Some i => alter (sanitize_message now) i messages
  end.
End sanitize.

(** ** Updating the last message (message-update-utils.ts) *)

Definition updateLastAssistantMessage (messages : list Message) (updater : Message → Message) : list Message :=
  match last messages with
  | None => messages
  | Some l => if bool_decide (from l = ASSISTANT) then alter updater (pred (length messages)) messages
              else messages
  end.

Definition updateAssistantMessageWithError (now : Z) (messages : list Message) (errorMessage : jsstr)
    (code : option jsstr) (title : jsstr) : list Message :=
  updateLastAssistantMessage messages (λ message,
    completeAssistantTiming now
      (with_error_code (match code with Some c => if truthy_str c then Some c else None | None => None end)
         (with_reasoning_streaming false
            (with_status ERROR
               (updateCurrentVersionContent message (title ++ js ": " ++ errorMessage)))))).

(** ** The conversation (conversation-message-utils.ts) *)

(** Identifiers for two messages and their versions. *)
Record Ids := { user_key : jsstr; user_version : jsstr; answer_key : jsstr; answer_version : jsstr }.

Definition appendUserMessagePair (ids : Ids) (now : Z) (messages : list Message) (content : jsstr) : list Message :=
  messages ++ [createUserMessage (user_key ids) (user_version ids) content now;
               createLoadingAssistantMessage (answer_key ids) (answer_version ids) now].

Definition find_key (messageKey : jsstr) (messages : list Message) : option (nat * Message) :=
  list_find (λ m, key m = messageKey) messages.

Definition createRegeneratedMessages (ids : Ids) (now : Z) (messages : list Message) (messageKey : jsstr) :
  option (list Message) :=
  let answer := createLoadingAssistantMessage (answer_key ids) (answer_version ids) now in
  '(i, m) ← find_key messageKey messages;
  Some (if bool_decide (from m = USER) then take (S i) messages ++ [answer]
        else take i messages ++ [answer]).

Definition removeMessageByKey (messages : list Message) (messageKey : jsstr) : list Message :=
  List.filter (λ m, negb (bool_decide (key m = messageKey))) messages.

Definition getPreviousUserMessage (messages : list Message) (beforeIndex : nat) : option Message :=
  List.find (λ m, bool_decide (from m = USER)) (reverse (take beforeIndex messages)).

Record ApplyMessageEditResult := { e_messages : list Message; shouldSend : bool }.

Definition edit_message (now : Z) (messageKey content : jsstr) (shouldSubmit : bool) (m : Message) : Message :=
  if bool_decide (key m = messageKey)
  then with_created (if shouldSubmit then Some now else createdAt m) (updateCurrentVersionContent m content)
  else m.

Definition applyMessageEdit (ids : Ids) (now : Z) (messages : list Message) (messageKey content : jsstr)
    (shouldSubmit : bool) : option ApplyMessageEditResult :=
  '(i, m) ← find_key messageKey messages;
  let updatedMessages := map (edit_message now messageKey content shouldSubmit) messages in
  Some (if negb shouldSubmit || negb (bool_decide (from m = USER))
        then {| e_messages := updatedMessages; shouldSend := false |}
        else {| e_messages := take (S i) updatedMessages
                              ++ [createLoadingAssistantMessage (answer_key ids) (answer_version ids) now];
                shouldSend := true |}).

Definition getEditingMessageContent (messages : list Message) (editingKey : option jsstr) : jsstr :=
  match editingKey with
  | Some k => if truthy_str k
              then match find_key k messages with Some (_, m) => getMessageContent m | None => [] end else []
  | None => []
  end.

Record ChatMessageRenderState := { alwaysShowActions : bool; s_content : jsstr; isEditing : bool }.

Definition getChatMessageRenderState (messages : list Message) (message : Message) (messageIndex : nat)
    (editingKey : option jsstr) : ChatMessageRenderState :=
  {| alwaysShowActions := bool_decide (S messageIndex = length messages) && bool_decide (from message = ASSISTANT);
     s_content := getMessageContent message;
     isEditing := bool_decide (editingKey = Some (key message)) |}.

(** ** What is shown (message-content-utils.ts, message-error-utils.ts,
    message-editor-utils.ts, message-action-utils.ts, message-layout-utils.ts) *)

Record MessageContentState := {
  displayContent : jsstr;
  hasSources : bool;
  isAssistant : bool;
  showLoader : bool;
  showMessageContent : bool;
  shown_sources : list Source;
  reasoningContent : option jsstr
}.

Definition reasoning_streams (m : Message) : bool := default false (isReasoningStreaming m).

Definition shouldShowMessageLoader (message : Message) (isAssistant : bool) (versionContent : jsstr) : bool :=
  isAssistant && negb (reasoning_streams message)
  && (bool_decide (status message = Some LOADING)
      || (bool_decide (status message = Some STREAMING) && negb (truthy_str versionContent))).

Definition shouldShowMessageContent (message : Message) (versionContent : jsstr) : bool :=
  (bool_decide (from message = USER) || negb (reasoning_streams message)) && truthy_str versionContent.

Definition getDisplayContent (message : Message) (versionContent : jsstr) : jsstr :=
  if negb (bool_decide (from message = ASSISTANT)) then versionContent
  else if negb (includes versionContent think_open) then versionContent
  else visibleContent (parseThinkTags versionContent).

Definition getMessageContentState (message : Message) (versionContent : jsstr) : MessageContentState :=
  let isAssistant := bool_decide (from message = ASSISTANT) in
  let srcs := default [] (sources message) in
  let thoughts := if isAssistant then r_content <$> reasoning message else None in
  {| displayContent := getDisplayContent message versionContent;
     hasSources := negb (bool_decide (srcs = []));
     isAssistant := isAssistant;
     showLoader := shouldShowMessageLoader message isAssistant versionContent;
     showMessageContent := shouldShowMessageContent message versionContent;
     shown_sources := srcs;
     reasoningContent := match thoughts with
                         | Some c => if truthy_str c then Some c else None
                         | None => None
                         end |}.

Definition MODEL_PRICE_ERROR_CODE : jsstr := js "model_price_error".
Definition FALLBACK_ERROR_CONTENT : jsstr := js "An unknown error occurred".

Inductive ErrorKind := GenericError | ModelPriceError.

Record MessageErrorState := { err_content : jsstr; err_kind : ErrorKind; showSettingsLink : bool }.

Definition isAdminRole (role : option Z) : bool := match role with Some r => (10 <=? r)%Z | None => false end.

Definition isErrorMessage (message : Message) : bool := bool_decide (status message = Some ERROR).

Definition getMessageErrorState (message : Message) (isAdmin : bool) : option MessageErrorState :=
  if negb (isErrorMessage message) then None
  else
    let isModelPriceError := bool_decide (errorCode message = Some (Some MODEL_PRICE_ERROR_CODE)) in
    Some {| err_content := str_or (getMessageContent message) FALLBACK_ERROR_CONTENT;
            err_kind := if isModelPriceError then ModelPriceError else GenericError;
            showSettingsLink := isModelPriceError && isAdmin |}.

Record MessageEditorState := { canSave : bool; hasChanged : bool; showSaveAndSubmit : bool }.

Definition getMessageEditorState (message : Message) (editText originalText : jsstr) : MessageEditorState :=
  let hasText := truthy_str (trim editText) in
  let changed := negb (bool_decide (editText = originalText)) in
  {| canSave := hasText && changed; hasChanged := changed;
     showSaveAndSubmit := bool_decide (from message = USER) |}.

Record MessageActionState := {
  act_content : jsstr; act_hasContent : bool; act_isAssistant : bool; act_isUser : bool; act_isLoading : bool
}.

Definition getMessageActionState (message : Message) : MessageActionState :=
  {| act_content := getMessageContent message;
     act_hasContent := hasMessageContent message;
     act_isAssistant := bool_decide (from message = ASSISTANT);
     act_isUser := bool_decide (from message = USER);
     act_isLoading := bool_decide (status message = Some LOADING) || bool_decide (status message = Some STREAMING) |}.

Inductive MessageAlignment := AlignLeft | AlignRight.
Inductive LayoutMode := Alternating | LeftAligned.

Definition getMessageAlignment (message : Message) (layoutMode : LayoutMode) : MessageAlignment :=
  match layoutMode with
  | LeftAligned => AlignLeft
  | Alternating => if bool_decide (from message = USER) then AlignRight else AlignLeft
  end.

(** ** Requests (payload-builder.ts, stream-utils.ts, request-error-utils.ts) *)

Record PlaygroundConfig := {
  model : jsstr;
  group : jsstr;
  temperature : num;
  top_p : num;
  max_tokens : num;
  frequency_penalty : num;
  presence_penalty : num;
  seed : option num;
  stream : bool
}.

Record ParameterEnabled := {
  on_temperature : bool; on_top_p : bool; on_max_tokens : bool; on_frequency_penalty : bool;
  on_presence_penalty : bool; on_seed : bool
}.

Record ChatCompletionRequest := {
  q_model : jsstr;
  q_group : jsstr;
  q_messages : list ChatCompletionMessage;
  q_stream : bool;
  q_temperature : option num;
  q_top_p : option num;
  q_max_tokens : option num;
  q_frequency_penalty : option num;
  q_presence_penalty : option num;
  q_seed : option num
}.

Definition buildChatCompletionPayload (messages : list Message) (config : PlaygroundConfig)
    (parameterEnabled : ParameterEnabled) : ChatCompletionRequest :=
  let given (on : bool) (x : num) := if on then Some x else None in
  {| q_model := model config; q_group := group config;
     q_messages := map formatMessageForAPI (List.filter isValidMessage messages);
     q_stream := stream config;
     q_temperature := given (on_temperature parameterEnabled) (temperature config);
     q_top_p := given (on_top_p parameterEnabled) (top_p config);
     q_max_tokens := given (on_max_tokens parameterEnabled) (max_tokens config);
     q_frequency_penalty := given (on_frequency_penalty parameterEnabled) (frequency_penalty config);
     q_presence_penalty := given (on_presence_penalty parameterEnabled) (presence_penalty config);
     q_seed := if on_seed parameterEnabled then seed config else None |}.

Definition STREAM_DONE_MESSAGE : jsstr := js "[DONE]".
Definition STREAM_CLOSED_READY_STATE : Z := 2.

Record ErrorDetails := { errorDetailCode : option jsstr; errorMessage : jsstr }.

(** A property that is a non-empty text, as [x || undefined] keeps it. *)
Definition text_prop (v : val) (k : jsstr) : option jsstr :=
  match v with
  | VObj ps => match mget k ps with Some (VStr s) => if truthy_str s then Some s else None | _ => None end
  | _ => None
  end.

(** The error of the payload of an error event. *)
Definition stream_error_of (v : val) : option val :=
  match v with
  | VObj ps => match mget (js "error") ps with Some e => if truthy e then Some e else None | None => None end
  | _ => None
  end.

Definition parseStreamErrorDetails (data : option jsstr) : ErrorDetails :=
  let fallbackMessage := str_or (default [] data) API_REQUEST_ERROR in
  let plain := {| errorDetailCode := None; errorMessage := fallbackMessage |} in
  match data with
  | None | Some [] => plain
  | Some d =>
      match json_parse d with
      | Throw _ => plain
      | Ok parsed =>
          match stream_error_of parsed with
          | None => plain
          | Some e => {| errorDetailCode := text_prop e (js "code");
                         errorMessage := default fallbackMessage (text_prop e (js "message")) |}
          end
      end
  end.

(** [chunk.choices?.[0]?.delta]: only the chunk itself must not be null.  The
    members of a delta, and of an error, are texts if they are not missing, as
    the types of the responses say. *)
Definition delta_of (chunk : val) : res val :=
  choices ← get_prop chunk (js "choices");
  Ok (match choices with
      | VArr (VObj ps :: _) => default VUndef (mget (js "delta") ps)
      | VObj qs => match mget (js "0") qs with
                   | Some (VObj ps) => default VUndef (mget (js "delta") ps)
                   | _ => VUndef
                   end
      | _ => VUndef
      end).

Definition parseStreamMessageUpdates (data : jsstr) : res (list (StreamChunkType * jsstr)) :=
  chunk ← json_parse data;
  delta ← delta_of chunk;
  Ok (option_list (pair ReasoningChunk <$> text_prop delta (js "reasoning_content"))
      ++ option_list (pair ContentChunk <$> text_prop delta (js "content"))).

Definition isStreamDoneMessage (data : jsstr) : bool := bool_decide (data = STREAM_DONE_MESSAGE).

Definition isStreamClosedReadyState (readyState : option Z) : bool :=
  bool_decide (readyState = Some STREAM_CLOSED_READY_STATE).

Definition getStreamReadyStateError (eventReadyState sourceStatus : option Z) : option jsstr :=
  match eventReadyState, sourceStatus with
  | Some r, Some s =>
      if (STREAM_CLOSED_READY_STATE <=? r)%Z && negb (s =? 200)%Z
      then Some (js "HTTP " ++ dec_of_Z s ++ js ": " ++ CONNECTION_CLOSED) else None
  | _, _ => None
  end.

(** A failed request: the code and message of the response, and the message
    of the exception. *)
Record RequestError := { x_code : option jsstr; x_response_message : option jsstr; x_message : option jsstr }.

Definition parseRequestErrorDetails (error : RequestError) : ErrorDetails :=
  {| errorDetailCode := match x_code error with Some c => if truthy_str c then Some c else None | None => None end;
     errorMessage := str_or (default [] (x_response_message error))
                       (str_or (default [] (x_message error)) API_REQUEST_ERROR) |}.
