(* ===== verification/PlayStorage.v ===== *)
(** * The playground's memory (features/playground/lib/storage)

    Conversations are kept in the local storage.  Texts that are too long are
    cut when they are loaded, old messages are dropped, and an answer that was
    interrupted is closed. *)

From Stdlib Require Import ZArith.
From S2P Require Import Prelude JsString JsCollections JsValue JsRegExp PlayMessages.

(** ** Limits (storage-schema.ts, storage.ts) *)

Definition MAX_STORED_MESSAGES : nat := 100.
Definition MAX_STORED_MESSAGES_BYTES : N := 1024 * 1024.
Definition MAX_LOADED_MESSAGES_CHARS : N := 120000.
Definition MAX_LOADED_MESSAGE_CHARS : N := 40000.
Definition TRUNCATED_CONTENT_SUFFIX : jsstr := [10%N; 10%N] ++ js "[...]".
Definition MIN_PREFIX_COLLAPSE_LENGTH : N := 2000.
Definition MIN_REPEATED_SECTION_COUNT : nat := 3.

Definition size (s : jsstr) : N := N.of_nat (length s).

(** The JSON text of messages in their envelope, checked by the schema on the
    way out and on the way in; both may throw.  [PlayCodec.schema_codec] is the
    code's: it proves the two laws. *)
Class MessageCodec := {
  encode_messages : list Message → res jsstr;
  decode_messages : jsstr → res (list Message);
  messages_text : ∀ ms s, encode_messages ms = Ok s → s ≠ [];
  messages_back : ∀ ms s, encode_messages ms = Ok s → decode_messages s = Ok ms
}.

(** ** Trimming *)

Definition trimMessages (messages : list Message) : list Message :=
  if length messages <=? MAX_STORED_MESSAGES then messages
  else drop (length messages - MAX_STORED_MESSAGES) messages.

Definition getMessageSize (message : Message) : N :=
  (fold_left (λ total v, (total + size (content v))%N) (versions message) 0
   + match reasoning message with Some r => size (r_content r) | None => 0 end)%N.

Definition truncateText (text : jsstr) (maxLength : N) : jsstr :=
  if (size text <=? maxLength)%N then text
  else if (maxLength <=? size TRUNCATED_CONTENT_SUFFIX)%N then take (N.to_nat maxLength) text
  else take (N.to_nat (maxLength - size TRUNCATED_CONTENT_SUFFIX)) text ++ TRUNCATED_CONTENT_SUFFIX.

(** The messages from the end that fit; the last one always does.  [first]
    while nothing has been taken. *)
Fixpoint take_sized (first : bool) (totalSize : N) (messages : list Message) : list Message :=
  match messages with
  | [] => []
  | message :: rest =>
      let totalSize' := (totalSize + getMessageSize message)%N in
      if negb first && (MAX_LOADED_MESSAGES_CHARS <? totalSize')%N then []
      else message :: take_sized false totalSize' rest
  end.

Definition trimMessagesByContentSize (messages : list Message) : list Message :=
  reverse (take_sized true 0 (reverse messages)).

(** ** Repeated sections *)

(** Units that end a line. *)
Definition line_end (c : N) : bool := bool_decide (c ∈ [10; 13; 0x2028; 0x2029]%N).

(** [/#{2,6}\s+\d+\.\s+.+$/]: the last repetition runs to the end of the line. *)
Definition re_hash : re := RChar (N.eqb 35).
Definition re_heading : re :=
  rseq [re_hash; re_hash;
        ROpt (RSeq re_hash (ROpt (RSeq re_hash (ROpt (RSeq re_hash (ROpt re_hash))))));
        rplus (RChar is_ws); rplus (RChar is_digit); rlit (js "."); rplus (RChar is_ws);
        rplus (RChar (λ c, negb (line_end c)))].

(** The headings from the index [i] on; [bol] at the beginning of a line. *)
Fixpoint section_scan (fuel : nat) (bol : bool) (i : nat) (s : jsstr) : list (jsstr * nat) :=
  match fuel with
  | O => []
  | S f =>
      match (if bol then match_here re_heading s else None) with
      | Some (_, s') =>
          let heading := take (length s - length s') s in
          (heading, i) :: section_scan f (match last heading with Some c => line_end c | None => bol end)
                            (i + length heading) s'
      | None => match s with [] => [] | c :: s' => section_scan f (line_end c) (S i) s' end
      end
  end.

Definition getSectionOccurrences (text : jsstr) : list (jsstr * nat) :=
  section_scan (S (length text)) true 0 text.

Definition getHeadingCounts (occurrences : list (jsstr * nat)) : list (jsstr * nat) :=
  fold_left (λ counts o, mset (fst o) (S (default 0 (mget (fst o) counts))) counts) occurrences [].

(** From the last occurrence on: the first one met of every heading that is
    repeated often enough. *)
Fixpoint last_repeated (counts : list (jsstr * nat)) (seen : list jsstr) (l : list (jsstr * nat)) : list nat :=
  match l with
  | [] => []
  | (heading, index) :: l' =>
      if (default 0 (mget heading counts) <? MIN_REPEATED_SECTION_COUNT) || bool_decide (heading ∈ seen)
      then last_repeated counts seen l'
      else index :: last_repeated counts (heading :: seen) l'
  end.

Definition findLastRepeatedSectionRunStart (text : jsstr) : option nat :=
  let occurrences := getSectionOccurrences text in
  match last_repeated (getHeadingCounts occurrences) [] (reverse occurrences) with
  | [] => None
  | i :: l => Some (fold_left Nat.min l i)
  end.

Definition collapseRepeatedSectionSnapshots (text : jsstr) : jsstr :=
  if (size text <? MIN_PREFIX_COLLAPSE_LENGTH)%N then text
  else match findLastRepeatedSectionRunStart text with
       | None => text
       | Some i => drop i text
       end.

(** ** Loading and saving *)

Definition shorten_version (v : MessageVersion) : MessageVersion :=
  {| id := id v;
     content := truncateText (collapseRepeatedSectionSnapshots (content v)) MAX_LOADED_MESSAGE_CHARS |}.

Definition shorten_message (message : Message) : Message :=
  with_reasoning ((λ r, with_r_content (truncateText (r_content r) MAX_LOADED_MESSAGE_CHARS) r) <$> reasoning message)
    (with_versions (map shorten_version (versions message)) message).

Definition normalizeStoredMessageForLoad (now : Z) (message : Message) : Message :=
  let normalized := shorten_message message in
  if negb (isAssistantMessagePending normalized) then normalized
  else
    let hasReasoning := truthy_str (trim (default [] (r_content <$> reasoning normalized))) in
    if negb (hasMessageContent normalized) && negb hasReasoning then normalized
    else
      let completed :=
        default now (opt_or (completedAt normalized) (opt_or (reasoning normalized ≫= r_completedAt)
                       (opt_or (startedAt normalized) (createdAt normalized)))) in
      completeAssistantTiming completed
        (with_reasoning_streaming false (with_status COMPLETE (finalizeMessage now normalized None))).

Section storage.
Context `{MessageCodec} (t : jsstr → jsstr).

(** The item of the local storage after saving; a failure leaves it alone. *)
Definition saveMessages (messages : list Message) (item : option jsstr) : option jsstr :=
  match encode_messages (trimMessages messages) with Ok s => Some s | Throw _ => item end.

(** The stored messages as they are restored. *)
Definition restore (now : Z) (parsed : list Message) : list Message :=
  sanitizeMessagesOnLoad t now (trimMessagesByContentSize (trimMessages (map (normalizeStoredMessageForLoad now) parsed))).

(** What is loaded, and the item afterwards.  The list that
    [trimMessagesByContentSize] returns is always a new one, so the condition
    of the second write always holds. *)
Definition loadMessages (now : Z) (item : option jsstr) : option (list Message) * option jsstr :=
  match item with
  | None | Some [] => (None, item)
  | Some saved =>
      if (MAX_STORED_MESSAGES_BYTES <? size saved)%N then (None, None)
      else match decode_messages saved with
           | Throw _ => (None, item)
           | Ok parsed =>
               let sanitized := restore now parsed in
               (Some sanitized, saveMessages sanitized item)
           end
  end.
End storage.
