(* ===== verification/PlayCodec.v ===== *)
(** * The stored text of a conversation (features/playground/lib/storage)

    Messages are written as JSON in an envelope with a version, and checked by
    a schema when they are written and when they are read.  What is written is
    read back as it was: the instance of [MessageCodec]. *)

From Stdlib Require Import ZArith.
From S2P Require Import Prelude JsString JsNumber JsNumberFacts JsCollections JsValue Json JsonFacts JsonData PlayMessages PlayStorage.

(** ** The schema (storage-schema.ts) *)

Definition STORAGE_VERSION : Z := 1.

Definition ZodError : exn := ErrorMsg (js "ZodError").

Definition z_string (v : val) : res jsstr := match v with VStr s => Ok s | _ => Throw ZodError end.
Definition z_boolean (v : val) : res bool := match v with VBool b => Ok b | _ => Throw ZodError end.

Definition z_number (v : val) : res num :=
  match v with VNum n => if num_is_finite n then Ok n else Throw ZodError | _ => Throw ZodError end.

(** A time or a duration.  The program writes whole numbers only; a stored
    fraction, which the schema would let pass, is outside the messages of the
    model. *)
Definition z_time (v : val) : res Z :=
  n ← z_number v; match num_to_Z n with Some z => Ok z | None => Throw ZodError end.

Definition z_optional {A} (schema : val → res A) (v : val) : res (option A) :=
  match v with VUndef => Ok None | _ => x ← schema v; Ok (Some x) end.

Definition z_nullable {A} (schema : val → res A) (v : val) : res (option A) :=
  match v with VNull => Ok None | _ => x ← schema v; Ok (Some x) end.

Definition z_array {A} (schema : val → res A) (v : val) : res (list A) :=
  match v with VArr l => res_mapM schema l | _ => Throw ZodError end.

(** [.min(1)]. *)
Definition z_nonempty {A} (l : list A) : res (list A) := match l with [] => Throw ZodError | _ => Ok l end.

Definition z_enum {A} (table : list (jsstr * A)) (v : val) : res A :=
  s ← z_string v; match mget s table with Some x => Ok x | None => Throw ZodError end.

(** An object and what is read from its properties; others are dropped. *)
Definition z_object {A} (shape : (jsstr → val) → res A) (v : val) : res A :=
  match v with VObj ps => shape (λ k, default VUndef (mget k ps)) | _ => Throw ZodError end.

Definition message_roles : list (jsstr * MessageRole) :=
  [(js "user", USER); (js "assistant", ASSISTANT); (js "system", SYSTEM)].

Definition message_statuses : list (jsstr * MessageStatus) :=
  [(js "loading", LOADING); (js "streaming", STREAMING); (js "complete", COMPLETE); (js "error", ERROR)].

Definition messageRoleSchema : val → res MessageRole := z_enum message_roles.
Definition messageStatusSchema : val → res MessageStatus := z_enum message_statuses.

Definition messageVersionSchema : val → res MessageVersion :=
  z_object (λ prop,
    i ← z_string (prop (js "id")); c ← z_string (prop (js "content"));
    Ok {| id := i; content := c |}).

Definition sourceSchema : val → res Source :=
  z_object (λ prop,
    h ← z_string (prop (js "href")); ti ← z_string (prop (js "title"));
    Ok {| href := h; title := ti |}).

Definition reasoningSchema : val → res Reasoning :=
  z_object (λ prop,
    c ← z_string (prop (js "content")); d ← z_time (prop (js "duration"));
    s ← z_optional z_time (prop (js "startedAt")); e ← z_optional z_time (prop (js "completedAt"));
    ms ← z_optional z_time (prop (js "durationMs"));
    Ok {| r_content := c; r_duration := d; r_startedAt := s; r_completedAt := e; r_durationMs := ms |}).

Definition messageSchema : val → res Message :=
  z_object (λ prop,
    k ← z_string (prop (js "key")); f ← messageRoleSchema (prop (js "from"));
    vs ← z_array messageVersionSchema (prop (js "versions")); vs ← z_nonempty vs;
    c ← z_optional z_time (prop (js "createdAt")); s ← z_optional z_time (prop (js "startedAt"));
    e ← z_optional z_time (prop (js "completedAt")); d ← z_optional z_time (prop (js "durationMs"));
    so ← z_optional (z_array sourceSchema) (prop (js "sources"));
    r ← z_optional reasoningSchema (prop (js "reasoning"));
    rs ← z_optional z_boolean (prop (js "isReasoningStreaming"));
    rc ← z_optional z_boolean (prop (js "isReasoningComplete"));
    cc ← z_optional z_boolean (prop (js "isContentComplete"));
    st ← z_optional messageStatusSchema (prop (js "status"));
    ec ← z_optional (z_nullable z_string) (prop (js "errorCode"));
    Ok {| key := k; from := f; versions := vs; createdAt := c; startedAt := s; completedAt := e; durationMs := d;
          sources := so; reasoning := r; isReasoningStreaming := rs; isReasoningComplete := rc;
          isContentComplete := cc; status := st; errorCode := ec |}).

Definition messagesSchema : val → res (list Message) := z_array messageSchema.

(** ** Messages as JavaScript values *)

Definition time_val (z : Z) : val := VNum (num_of_Z z).

Definition role_text (r : MessageRole) : jsstr :=
  match r with USER => js "user" | ASSISTANT => js "assistant" | SYSTEM => js "system" end.

Definition status_text (s : MessageStatus) : jsstr :=
  match s with
  | LOADING => js "loading" | STREAMING => js "streaming" | COMPLETE => js "complete" | ERROR => js "error"
  end.

Definition version_object (v : MessageVersion) : list (jsstr * val) :=
  [(js "id", VStr (id v)); (js "content", VStr (content v))].

Definition source_object (s : Source) : list (jsstr * val) :=
  [(js "href", VStr (href s)); (js "title", VStr (title s))].

Definition reasoning_object (r : Reasoning) : list (jsstr * val) :=
  [(js "content", VStr (r_content r)); (js "duration", time_val (r_duration r));
   (js "startedAt", opt_js time_val (r_startedAt r)); (js "completedAt", opt_js time_val (r_completedAt r));
   (js "durationMs", opt_js time_val (r_durationMs r))].

(** In the order of the schema, which is the order in which parsing puts them. *)
Definition message_object (m : Message) : list (jsstr * val) :=
  [(js "key", VStr (key m)); (js "from", VStr (role_text (from m)));
   (js "versions", VArr (map (λ v, VObj (version_object v)) (versions m)));
   (js "createdAt", opt_js time_val (createdAt m)); (js "startedAt", opt_js time_val (startedAt m));
   (js "completedAt", opt_js time_val (completedAt m)); (js "durationMs", opt_js time_val (durationMs m));
   (js "sources", opt_js (λ l, VArr (map (λ s, VObj (source_object s)) l)) (sources m));
   (js "reasoning", opt_js (λ r, VObj (reasoning_object r)) (reasoning m));
   (js "isReasoningStreaming", opt_js VBool (isReasoningStreaming m));
   (js "isReasoningComplete", opt_js VBool (isReasoningComplete m));
   (js "isContentComplete", opt_js VBool (isContentComplete m));
   (js "status", opt_js (λ s, VStr (status_text s)) (status m));
   (js "errorCode", opt_js (λ o, match o with Some s => VStr s | None => VNull end) (errorCode m))].

Definition messages_val (ms : list Message) : val := VArr (map (λ m, VObj (message_object m)) ms).

(** Texts of code units and exact whole numbers: the messages of the model
    that are JavaScript values. *)
Definition units (s : jsstr) : bool := forallb (λ c, (c <? 65536)%N) s.
Definition whole (z : Z) : bool := (Z.abs z <? safe_bound)%Z.
Definition opt_whole (l : list (option Z)) : bool := forallb (from_option whole true) l.

Definition is_value (m : Message) : bool :=
  units (key m)
  && forallb (λ v, units (id v) && units (content v)) (versions m)
  && opt_whole [createdAt m; startedAt m; completedAt m; durationMs m]
  && from_option (forallb (λ s, units (href s) && units (title s))) true (sources m)
  && from_option (λ r, units (r_content r) && whole (r_duration r)
                       && opt_whole [r_startedAt r; r_completedAt r; r_durationMs r]) true (reasoning m)
  && from_option (from_option units true) true (errorCode m).

(** ** Writing and reading (storage.ts) *)

Definition unwrapStoredValue (value : val) : val :=
  match value with
  | VObj ps => match mget (js "version") ps, mget (js "data") ps with Some _, Some data => data | _, _ => value end
  | _ => value
  end.

Definition envelope (data : val) : list (jsstr * val) :=
  [(js "version", VNum (num_of_Z STORAGE_VERSION)); (js "data", data)].

(** [JSON.stringify] of the envelope, as [writeStoredValue] stores it. *)
Definition stored_text (ms : list Message) : jsstr :=
  default [] (json_stringify [] (VObj (envelope (messages_val ms)))).

(** [messagesSchema.parse(trimmed)], then [writeStoredValue]. *)
Definition write_messages (ms : list Message) : res jsstr :=
  if forallb is_value ms then parsed ← messagesSchema (messages_val ms); Ok (stored_text parsed)
  else Throw ZodError.

(** [JSON.parse(saved)], then [messagesSchema.parse(unwrapStoredValue(saved))].
    A text of a falsy value, for which the program returns early, is refused
    by the schema as well. *)
Definition read_messages (saved : jsstr) : res (list Message) :=
  value ← json_parse saved; messagesSchema (unwrapStoredValue value).

(** ** What is written is read *)

(** A value as it is, or as it comes back from its text. *)
Section view.
Variable stored : bool.

Definition see (v : val) : val := if stored then kept v else v.

Lemma see_string s : see (VStr s) = VStr s.
Proof. unfold see. by destruct stored. Qed.

Lemma see_undef : see VUndef = VUndef.
Proof. unfold see. by destruct stored. Qed.

Lemma see_null : see VNull = VNull.
Proof. unfold see. by destruct stored. Qed.

Lemma see_bool b : see (VBool b) = VBool b.
Proof. unfold see. by destruct stored. Qed.

Lemma see_array l : Forall (λ v, v ≠ VUndef) l → see (VArr l) = VArr (map see l).
Proof.
  intros Hl. unfold see. destruct stored; [|by rewrite map_id]. cbn [kept]. f_equal. apply map_ext_Forall.
  eapply Forall_impl; [exact Hl|]. intros v Hv. cbv beta.
  assert (kept v ≠ VUndef) as Hk by by rewrite kept_undef. by destruct (kept v).
Qed.

(** A schema reads a writer's values back. *)
Definition reads_back {A} (schema : val → res A) (write : A → val) (x : A) : Prop :=
  schema (see (write x)) = Ok x ∧ write x ≠ VUndef.

Lemma optional_back {A} (schema : val → res A) (write : A → val) (o : option A) :
  (∀ x, o = Some x → reads_back schema write x) → z_optional schema (see (opt_js write o)) = Ok o.
Proof.
  intros H. destruct o as [x|]; cbn [opt_js]; [|by rewrite see_undef]. destruct (H x eq_refl) as [E Hne].
  assert (see (write x) ≠ VUndef) as Hs by (unfold see; destruct stored; [by rewrite kept_undef | done]).
  unfold z_optional. destruct (see (write x)); try done; by rewrite E.
Qed.

Lemma array_back {A} (schema : val → res A) (write : A → val) (l : list A) :
  Forall (reads_back schema write) l → z_array schema (see (VArr (map write l))) = Ok l.
Proof.
  intros H. rewrite see_array.
  - cbn [z_array]. rewrite map_map. apply res_mapM_ok, Forall2_fmap_l, Forall_Forall2_diag.
    eapply Forall_impl; [exact H|]. by intros x [E _].
  - apply Forall_map. eapply Forall_impl; [exact H|]. by intros x [_ ?].
Qed.

Lemma object_back {A} (shape : (jsstr → val) → res A) ps x :
  plain_names (mkeys ps) = true →
  (∀ prop, (∀ i k v, ps !! i = Some (k, v) → prop k = see v) → shape prop = Ok x) →
  z_object shape (see (VObj ps)) = Ok x.
Proof.
  intros Hn H. unfold see in *. destruct stored; [rewrite kept_object|]; cbn [z_object]; apply H; intros i k v Hi.
  - by apply (kept_at ps i k v).
  - by apply (literal_at ps i k v).
Qed.

Lemma time_back z : whole z = true → reads_back z_time time_val z.
Proof.
  intros Hz%Z.ltb_lt. split; [|done]. assert (see (time_val z) = time_val z) as ->.
  { unfold see, time_val. destruct stored; [|done]. cbn [kept]. by rewrite num_of_Z_finite. }
  unfold z_time, z_number, time_val. rewrite num_of_Z_finite by done. cbn [mbind res_bind].
  by rewrite num_to_Z_safe.
Qed.

Lemma opt_time_back o : from_option whole true o = true → z_optional z_time (see (opt_js time_val o)) = Ok o.
Proof. intros H. apply optional_back. intros z ->. by apply time_back. Qed.

Lemma opt_bool_back o : z_optional z_boolean (see (opt_js VBool o)) = Ok o.
Proof. apply optional_back. intros b _. split; [by rewrite see_bool | done]. Qed.

Lemma role_back r : messageRoleSchema (see (VStr (role_text r))) = Ok r.
Proof. rewrite see_string. by destruct r. Qed.

Lemma status_back o : z_optional messageStatusSchema (see (opt_js (λ s, VStr (status_text s)) o)) = Ok o.
Proof. apply optional_back. intros s _. split; [rewrite see_string; by destruct s | done]. Qed.

Lemma error_back o :
  z_optional (z_nullable z_string) (see (opt_js (λ o, match o with Some s => VStr s | None => VNull end) o)) = Ok o.
Proof.
  apply optional_back. intros [s|] _; (split; [|done]); [by rewrite see_string | by rewrite see_null].
Qed.

(** The next property to be read is at place [i] of the literal. *)
Ltac read_place H i lem :=
  eapply bind_ok; [etransitivity; [apply f_equal, (H i _ _ eq_refl)|apply lem; assumption]|cbv beta].

Lemma z_string_back s : z_string (see (VStr s)) = Ok s.
Proof. by rewrite see_string. Qed.

Lemma version_back v : reads_back messageVersionSchema (λ v, VObj (version_object v)) v.
Proof.
  split; [|done]. apply object_back; [vm_compute; reflexivity|]. intros prop H.
  read_place H 0 z_string_back. read_place H 1 z_string_back. by destruct v.
Qed.

Lemma source_back s : reads_back sourceSchema (λ s, VObj (source_object s)) s.
Proof.
  split; [|done]. apply object_back; [vm_compute; reflexivity|]. intros prop H.
  read_place H 0 z_string_back. read_place H 1 z_string_back. by destruct s.
Qed.

Lemma reasoning_back r :
  whole (r_duration r) = true → opt_whole [r_startedAt r; r_completedAt r; r_durationMs r] = true →
  reads_back reasoningSchema (λ r, VObj (reasoning_object r)) r.
Proof.
  intros Hd Ho. split; [|done]. apply object_back; [vm_compute; reflexivity|]. intros prop H.
  unfold opt_whole in Ho. cbn [forallb] in Ho. rewrite !andb_true_iff in Ho. destruct Ho as (Hs & He & Hm & _).
  read_place H 0 z_string_back. read_place H 1 (time_back (r_duration r)).
  read_place H 2 opt_time_back. read_place H 3 opt_time_back. read_place H 4 opt_time_back. by destruct r.
Qed.

Lemma sources_back o : z_optional (z_array sourceSchema) (see (opt_js (λ l, VArr (map (λ s, VObj (source_object s)) l)) o)) = Ok o.
Proof.
  apply optional_back. intros l _. split; [|done]. apply array_back, Forall_forall. intros s _. apply source_back.
Qed.

Lemma versions_back l : z_array messageVersionSchema (see (VArr (map (λ v, VObj (version_object v)) l))) = Ok l.
Proof. apply array_back, Forall_forall. intros v _. apply version_back. Qed.

(** The schema refuses a message without a version, and nothing else of what
    a message can be. *)
Lemma message_back m :
  is_value m = true → versions m ≠ [] → reads_back messageSchema (λ m, VObj (message_object m)) m.
Proof.
  intros Hm Hv. split; [|done]. apply object_back; [vm_compute; reflexivity|]. intros prop H.
  unfold is_value, opt_whole in Hm. cbn [forallb] in Hm. rewrite !andb_true_iff in Hm.
  destruct Hm as (((((_ & _) & (Hc & Hs & He & Hd & _)) & _) & Hr) & _).
  assert (∀ r, reasoning m = Some r → reads_back reasoningSchema (λ r, VObj (reasoning_object r)) r) as Hreason.
  { intros r E. rewrite E in Hr. cbn [from_option] in Hr. rewrite !andb_true_iff in Hr.
    apply reasoning_back; unfold opt_whole; cbn [forallb]; rewrite ?andb_true_iff; tauto. }
  read_place H 0 z_string_back. read_place H 1 role_back. read_place H 2 versions_back.
  eapply bind_ok; [instantiate (1 := versions m); unfold z_nonempty; by destruct (versions m)|cbv beta].
  read_place H 3 opt_time_back. read_place H 4 opt_time_back. read_place H 5 opt_time_back. read_place H 6 opt_time_back.
  read_place H 7 sources_back.
  eapply bind_ok; [etransitivity; [apply f_equal, (H 8 _ _ eq_refl)|by apply optional_back]|cbv beta].
  read_place H 9 opt_bool_back. read_place H 10 opt_bool_back. read_place H 11 opt_bool_back.
  read_place H 12 status_back. read_place H 13 error_back. by destruct m.
Qed.

Lemma messages_schema ms :
  Forall (λ m, is_value m = true ∧ versions m ≠ []) ms → messagesSchema (see (messages_val ms)) = Ok ms.
Proof.
  intros H. apply array_back. eapply Forall_impl; [exact H|]. intros m []. by apply message_back.
Qed.
End view.

(** ** The text *)

Lemma units_ok s : units s = true → Forall code_unit s.
Proof.
  intros H. apply Forall_forall. intros c Hc. unfold units in H. rewrite forallb_forall_elem in H.
  by apply N.ltb_lt, H.
Qed.

Lemma text_ok s : units s = true → json_ok (kept (VStr s)).
Proof. intros H. cbn [kept]. constructor. by apply units_ok. Qed.

Lemma time_ok z : whole z = true → json_ok (kept (time_val z)).
Proof.
  intros Hz%Z.ltb_lt. unfold time_val. cbn [kept]. rewrite num_of_Z_finite by done. by constructor.
Qed.

(** A member that is left out, or can be written. *)
Definition member_ok (v : val) : Prop := v = VUndef ∨ json_ok (kept v).

Lemma opt_member {A} (write : A → val) o :
  (∀ x, o = Some x → json_ok (kept (write x))) → member_ok (opt_js write o).
Proof. intros H. destruct o as [x|]; [right; by apply H | by left]. Qed.

Lemma opt_time_ok o : from_option whole true o = true → member_ok (opt_js time_val o).
Proof. intros H. apply opt_member. intros z ->. by apply time_ok. Qed.

Lemma array_ok {A} (write : A → val) l :
  Forall (λ x, write x ≠ VUndef ∧ json_ok (kept (write x))) l → json_ok (kept (VArr (map write l))).
Proof.
  intros H. cbn [kept]. constructor. rewrite map_map. apply Forall_map. eapply Forall_impl; [exact H|].
  intros x [_ Hj]. cbv beta. by destruct Hj; constructor.
Qed.

Lemma object_ok ps :
  plain_names (mkeys ps) = true → forallb units (mkeys ps) = true → Forall (λ kv, member_ok (snd kv)) ps →
  json_ok (kept (VObj ps)).
Proof.
  intros Hn Hu. apply json_ok_kept; [done|]. apply Forall_forall. intros k Hk.
  rewrite forallb_forall_elem in Hu. by apply units_ok, Hu.
Qed.

Ltac object_members := apply object_ok; [vm_compute; reflexivity..|];
  repeat apply Forall_cons_2; [..|apply Forall_nil_2]; cbn [snd]; try (right; by constructor);
  try (by apply opt_time_ok); try (right; by apply text_ok).

Lemma version_ok v : units (id v) = true → units (content v) = true → json_ok (kept (VObj (version_object v))).
Proof. intros. by object_members. Qed.

Lemma message_source_ok s : units (href s) = true → units (title s) = true → json_ok (kept (VObj (source_object s))).
Proof. intros. by object_members. Qed.

Lemma reasoning_ok r :
  units (r_content r) = true → whole (r_duration r) = true →
  opt_whole [r_startedAt r; r_completedAt r; r_durationMs r] = true → json_ok (kept (VObj (reasoning_object r))).
Proof.
  intros Hc Hd Ho. unfold opt_whole in Ho. cbn [forallb] in Ho. rewrite !andb_true_iff in Ho.
  destruct Ho as (? & ? & ? & _). object_members. right. by apply time_ok.
Qed.

Lemma role_units r : units (role_text r) = true.
Proof. by destruct r. Qed.

Lemma status_units s : units (status_text s) = true.
Proof. by destruct s. Qed.

Lemma flag_ok o : member_ok (opt_js VBool o).
Proof. apply opt_member. intros b _. constructor. Qed.

Lemma message_ok m : is_value m = true → json_ok (kept (VObj (message_object m))).
Proof.
  intros Hm. unfold is_value, opt_whole in Hm. cbn [forallb] in Hm. rewrite !andb_true_iff in Hm.
  destruct Hm as (((((Hk & Hv) & (? & ? & ? & ? & _)) & Hs) & Hr) & He).
  object_members; try apply flag_ok.
  - right. apply text_ok, role_units.
  - right. apply array_ok, Forall_forall. intros v Hin. split; [done|].
    rewrite forallb_forall_elem in Hv. specialize (Hv v Hin). apply andb_true_iff in Hv as []. by apply version_ok.
  - apply opt_member. intros l E. rewrite E in Hs. cbn [from_option] in Hs. apply array_ok, Forall_forall.
    intros s Hin. split; [done|]. rewrite forallb_forall_elem in Hs. specialize (Hs s Hin).
    apply andb_true_iff in Hs as []. by apply message_source_ok.
  - apply opt_member. intros r E. rewrite E in Hr. cbn [from_option] in Hr. rewrite !andb_true_iff in Hr.
    destruct Hr as ((? & ?) & ? & ? & ? & _). apply reasoning_ok; unfold opt_whole; cbn [forallb]; rewrite ?andb_true_iff; tauto.
  - apply opt_member. intros s _. apply text_ok, status_units.
  - apply opt_member. intros [s|] E; [|constructor]. rewrite E in He. by apply text_ok.
Qed.

Lemma envelope_ok ms :
  forallb is_value ms = true → json_ok (kept (VObj (envelope (messages_val ms)))).
Proof.
  intros H. apply object_ok; [vm_compute; reflexivity..|]. repeat apply Forall_cons_2; [..|apply Forall_nil_2]; right.
  - apply time_ok. reflexivity.
  - apply array_ok, Forall_forall. intros m Hm. split; [done|]. rewrite forallb_forall_elem in H. by apply message_ok, H.
Qed.

Lemma unwrap_envelope ms :
  unwrapStoredValue (kept (VObj (envelope (messages_val ms)))) = kept (messages_val ms).
Proof. reflexivity. Qed.

(** Messages that the program can store: the schema asks for a version. *)
Definition storable (m : Message) : Prop := is_value m = true ∧ versions m ≠ [].

#[export] Instance storable_dec m : Decision (storable m).
Proof. unfold storable. apply _. Defined.

Lemma storable_values ms : Forall storable ms → forallb is_value ms = true.
Proof. intros H. apply forallb_forall_elem. intros m Hm. rewrite Forall_forall in H. by apply H. Qed.

Lemma write_storable ms : Forall storable ms → write_messages ms = Ok (stored_text ms).
Proof.
  intros H. unfold write_messages. rewrite storable_values by done.
  eapply bind_ok; [exact (messages_schema false ms H) | done].
Qed.

Lemma message_names m : plain_names (mkeys (message_object m)) = true.
Proof. vm_compute. reflexivity. Qed.

Lemma message_refused m m' : versions m = [] → messageSchema (VObj (message_object m)) ≠ Ok m'.
Proof.
  intros E H. unfold messageSchema, z_object in H.
  apply res_bind_ok in H as (? & _ & H). apply res_bind_ok in H as (? & _ & H).
  apply res_bind_ok in H as (l & Hl & H). apply res_bind_ok in H as (l' & Hl' & _).
  rewrite (literal_at _ 2 _ _ (message_names m) eq_refl), E in Hl. injection Hl as <-. discriminate Hl'.
Qed.

(** Nothing else is written. *)
Lemma written_storable ms s : write_messages ms = Ok s → Forall storable ms ∧ s = stored_text ms.
Proof.
  intros H. assert (Forall storable ms) as Hs.
  { unfold write_messages in H. destruct (forallb is_value ms) eqn:Hv; [|done].
    apply res_bind_ok in H as (parsed & Hp & _). apply res_mapM_ok in Hp. apply Forall_forall. intros m Hm.
    rewrite forallb_forall_elem in Hv. split; [by apply Hv|]. intros E.
    apply Forall2_fmap_l in Hp. apply list_elem_of_lookup in Hm as [i Hi].
    destruct (Forall2_lookup_l _ _ _ i m Hp Hi) as (m' & _ & Hm'). by apply (message_refused m m'). }
  split; [done|]. rewrite write_storable in H by done. by injection H as <-.
Qed.

Lemma stored_reads ms : Forall storable ms → stored_text ms ≠ [] ∧ read_messages (stored_text ms) = Ok ms.
Proof.
  intros H. destruct (json_parse_kept [] (VObj (envelope (messages_val ms)))) as (w & Hw & Hp).
  { constructor. }
  { by apply envelope_ok, storable_values. }
  unfold stored_text. rewrite Hw. cbn [default from_option id]. split.
  - apply truthy_str_true. by apply (parsed_truthy _ _ Hp).
  - unfold read_messages. eapply bind_ok; [exact Hp|]. rewrite unwrap_envelope. by apply (messages_schema true).
Qed.

Lemma written_text ms s : write_messages ms = Ok s → s ≠ [].
Proof. intros [H ->]%written_storable. by apply stored_reads. Qed.

Lemma written_messages_back ms s : write_messages ms = Ok s → read_messages s = Ok ms.
Proof. intros [H ->]%written_storable. by apply stored_reads. Qed.

Definition schema_codec : MessageCodec :=
  {| encode_messages := write_messages; decode_messages := read_messages;
     messages_text := written_text; messages_back := written_messages_back |}.
