(* ===== verification/PlayChat.v ===== *)
(** * The playground as a state machine (features/playground/hooks)

    The hooks of the playground keep the conversation, the state of the
    request, the buffer of streamed text and the timers.  A handler is a
    function on that state; an event is a click, a timer or a message from the
    network.  Handlers run one after the other, and each sees the messages
    that the previous one left, as React renders between events.  A closed
    stream delivers no data, but may still report an error. *)

From Stdlib Require Import ZArith.
From S2P Require Import Prelude JsString JsNumber JsCollections JsValue Json PlayMessages PlayStorage.

(** ** State *)

(** use-playground-state.ts: the messages are saved after a delay. *)
Record Saving := { latest : list Message; saveTimer : bool; item : option jsstr }.

(** use-stream-request.ts: sources are numbered in the order of their creation. *)
Record StreamState := {
  isStreaming : bool; sseSource : option nat; sources_made : nat; isStreamComplete : bool
}.

(** use-chat-handler.ts, requests: a controller has the number of its request. *)
Record RequestState := {
  isRequesting : bool; requestId : nat; abortController : option nat; aborted : list nat; waiting : list nat
}.

(** use-chat-handler.ts, the text that is not yet in the message. *)
Record Buffer := { pendingContent : jsstr; pendingReasoning : jsstr; flushTimer : bool }.

Record Chat := {
  messages : list Message;
  saving : Saving;
  editingMessageKey : option jsstr;
  streams : StreamState;
  requests : RequestState;
  buffer : Buffer;
  config : PlaygroundConfig;
  parameterEnabled : ParameterEnabled;
  sent : list ChatCompletionRequest
}.

Definition with_messages (ms : list Message) (sv : Saving) (c : Chat) : Chat :=
  {| messages := ms; saving := sv; editingMessageKey := editingMessageKey c; streams := streams c;
     requests := requests c; buffer := buffer c; config := config c; parameterEnabled := parameterEnabled c;
     sent := sent c |}.

Definition with_saving (sv : Saving) (c : Chat) : Chat := with_messages (messages c) sv c.

Definition with_editing (k : option jsstr) (c : Chat) : Chat :=
  {| messages := messages c; saving := saving c; editingMessageKey := k; streams := streams c;
     requests := requests c; buffer := buffer c; config := config c; parameterEnabled := parameterEnabled c;
     sent := sent c |}.

Definition with_streams (s : StreamState) (c : Chat) : Chat :=
  {| messages := messages c; saving := saving c; editingMessageKey := editingMessageKey c; streams := s;
     requests := requests c; buffer := buffer c; config := config c; parameterEnabled := parameterEnabled c;
     sent := sent c |}.

Definition with_requests (r : RequestState) (c : Chat) : Chat :=
  {| messages := messages c; saving := saving c; editingMessageKey := editingMessageKey c; streams := streams c;
     requests := r; buffer := buffer c; config := config c; parameterEnabled := parameterEnabled c;
     sent := sent c |}.

Definition with_buffer (b : Buffer) (c : Chat) : Chat :=
  {| messages := messages c; saving := saving c; editingMessageKey := editingMessageKey c; streams := streams c;
     requests := requests c; buffer := b; config := config c; parameterEnabled := parameterEnabled c;
     sent := sent c |}.

Definition with_config (cfg : PlaygroundConfig) (p : ParameterEnabled) (c : Chat) : Chat :=
  {| messages := messages c; saving := saving c; editingMessageKey := editingMessageKey c; streams := streams c;
     requests := requests c; buffer := buffer c; config := cfg; parameterEnabled := p; sent := sent c |}.

Definition with_sent (q : ChatCompletionRequest) (c : Chat) : Chat :=
  {| messages := messages c; saving := saving c; editingMessageKey := editingMessageKey c; streams := streams c;
     requests := requests c; buffer := buffer c; config := config c; parameterEnabled := parameterEnabled c;
     sent := sent c ++ [q] |}.

(** [isGenerating]. *)
Definition generating (c : Chat) : bool := isStreaming (streams c) || isRequesting (requests c).

(** ** Messages (use-playground-state.ts) *)

(** The messages are always loaded here, so the timer is set. *)
Definition persistMessages (messagesToSave : list Message) (sv : Saving) : Saving :=
  {| latest := messagesToSave; saveTimer := true; item := item sv |}.

Definition updateMessages (updater : list Message → list Message) (c : Chat) : Chat :=
  let newMessages := updater (messages c) in
  with_messages newMessages (persistMessages newMessages (saving c)) c.

Definition setIsRequesting (b : bool) (c : Chat) : Chat :=
  let r := requests c in
  with_requests {| isRequesting := b; requestId := requestId r; abortController := abortController r;
                   aborted := aborted r; waiting := waiting r |} c.

(** ** The buffer (use-chat-handler.ts) *)

Definition mergePendingStreamChunk (currentChunk nextChunk : jsstr) : jsstr :=
  if negb (truthy_str currentChunk) || negb (starts_with nextChunk currentChunk)
  then currentChunk ++ nextChunk else nextChunk.

(** The update of the last message by what is pending. *)
Definition apply_pending (now : Z) (b : Buffer) (message : Message) : Message :=
  let updated := if truthy_str (pendingReasoning b)
                 then applyStreamingChunk now message ReasoningChunk (pendingReasoning b) else message in
  if truthy_str (pendingContent b) then applyStreamingChunk now updated ContentChunk (pendingContent b) else updated.

Definition flushStreamUpdates (now : Z) (c : Chat) : Chat :=
  let b := buffer c in
  if negb (truthy_str (pendingReasoning b)) && negb (truthy_str (pendingContent b)) then
    with_buffer {| pendingContent := pendingContent b; pendingReasoning := pendingReasoning b; flushTimer := false |} c
  else
    updateMessages (λ prev, updateLastAssistantMessage prev (apply_pending now b))
      (with_buffer {| pendingContent := []; pendingReasoning := []; flushTimer := false |} c).

Definition handleStreamUpdate (update : StreamChunkType * jsstr) (c : Chat) : Chat :=
  let b := buffer c in
  with_buffer
    (match fst update with
     | ContentChunk => {| pendingContent := mergePendingStreamChunk (pendingContent b) (snd update);
                          pendingReasoning := pendingReasoning b; flushTimer := true |}
     | ReasoningChunk => {| pendingContent := pendingContent b;
                            pendingReasoning := mergePendingStreamChunk (pendingReasoning b) (snd update);
                            flushTimer := true |}
     end) c.

Definition handleStreamComplete (now : Z) (c : Chat) : Chat :=
  updateMessages (λ prev, updateLastAssistantMessage prev (λ message,
      if isAssistantMessageFinal message then message else completeAssistantMessage now message))
    (setIsRequesting false (flushStreamUpdates now c)).

Definition KNOWN_ERROR_MESSAGES : list jsstr :=
  [API_REQUEST_ERROR; NETWORK_ERROR; PARSE_ERROR; STREAM_START_ERROR; CONNECTION_CLOSED; INTERRUPTED].

Section playground.
(** The translation of a key. *)
Context (t : jsstr → jsstr).

Definition getDisplayError (error : jsstr) : jsstr :=
  if bool_decide (error ∈ KNOWN_ERROR_MESSAGES) then t error
  else if ends_with error (js ": " ++ CONNECTION_CLOSED)
  then take (length error - length CONNECTION_CLOSED) error ++ t CONNECTION_CLOSED
  else error.

Definition handleStreamError (now : Z) (error : jsstr) (errorCode : option jsstr) (c : Chat) : Chat :=
  updateMessages (λ prev,
      updateAssistantMessageWithError now prev (getDisplayError error) errorCode (t API_REQUEST_ERROR))
    (setIsRequesting false (flushStreamUpdates now c)).

(** ** Streams (use-stream-request.ts) *)

(** Closing the given source, or the current one. *)
Definition closeActiveStream (source : option nat) (c : Chat) : Chat :=
  let s := streams c in
  if bool_decide (source = None) || bool_decide (sseSource s = source) then
    with_streams {| isStreaming := false; sseSource := None; sources_made := sources_made s;
                    isStreamComplete := isStreamComplete s |} c
  else c.

Definition handleError (source : nat) (now : Z) (error : jsstr) (errorCode : option jsstr) (c : Chat) : Chat :=
  if isStreamComplete (streams c) then c
  else closeActiveStream (Some source) (handleStreamError now error errorCode c).

Definition on_message (source : nat) (now : Z) (data : jsstr) (c : Chat) : Chat :=
  if isStreamDoneMessage data then
    let s := streams c in
    handleStreamComplete now (closeActiveStream (Some source)
      (with_streams {| isStreaming := isStreaming s; sseSource := sseSource s; sources_made := sources_made s;
                       isStreamComplete := true |} c))
  else
    match parseStreamMessageUpdates data with
    | Ok updates => fold_left (λ c u, handleStreamUpdate u c) updates c
    | Throw _ => handleError source now PARSE_ERROR None c
    end.

Definition on_error (source : nat) (now : Z) (readyState : option Z) (data : option jsstr) (c : Chat) : Chat :=
  if isStreamClosedReadyState readyState then c
  else let d := parseStreamErrorDetails data in handleError source now (errorMessage d) (errorDetailCode d) c.

Definition on_readystatechange (source : nat) (now : Z) (eventReadyState sourceStatus : option Z) (c : Chat) : Chat :=
  match getStreamReadyStateError eventReadyState sourceStatus with
  | Some e => handleError source now e None c
  | None => c
  end.

(** [starts] unless [source.stream()] throws. *)
Definition sendStreamRequest (starts : bool) (now : Z) (payload : ChatCompletionRequest) (c : Chat) : Chat :=
  let source := sources_made (streams c) in
  let c' := with_streams {| isStreaming := true; sseSource := Some source; sources_made := S source;
                            isStreamComplete := false |} (with_sent payload c) in
  if starts then c'
  else closeActiveStream (Some source) (handleStreamError now STREAM_START_ERROR None c').

(** ** Requests (use-chat-handler.ts) *)

Definition sendStreamingChat (starts : bool) (now : Z) (ms : list Message) (c : Chat) : Chat :=
  sendStreamRequest starts now (buildChatCompletionPayload ms (config c) (parameterEnabled c)) (setIsRequesting true c).

Definition sendNonStreamingChat (ms : list Message) (c : Chat) : Chat :=
  let r := requests c in
  let request := S (requestId r) in
  with_requests {| isRequesting := true; requestId := request; abortController := Some request;
                   aborted := aborted r; waiting := request :: waiting r |}
    (with_sent (buildChatCompletionPayload ms (config c) (parameterEnabled c)) c).

Definition sendChat (starts : bool) (now : Z) (ms : list Message) (c : Chat) : Chat :=
  if stream (config c) then sendStreamingChat starts now ms c else sendNonStreamingChat ms c.

(** The [finally] of a request, which is answered then. *)
Definition request_over (request : nat) (c : Chat) : Chat :=
  let r := requests c in
  let current := bool_decide (requestId r = request) in
  with_requests {| isRequesting := if current then false else isRequesting r; requestId := requestId r;
                   abortController := if current then None else abortController r;
                   aborted := aborted r; waiting := List.filter (λ i, negb (i =? request)) (waiting r) |} c.

Definition on_response (request : nat) (now : Z) (choices : list ChatCompletionChoice) (c : Chat) : Chat :=
  request_over request
    (if bool_decide (request ∈ aborted (requests c)) then c
     else if negb (hasChatCompletionChoice choices) then handleStreamError now API_REQUEST_ERROR None c
     else updateMessages (λ prev, updateLastAssistantMessage prev (λ message,
            default message (applyChatCompletionResponse now message choices))) c).

Definition on_failure (request : nat) (now : Z) (error : RequestError) (c : Chat) : Chat :=
  request_over request
    (if bool_decide (request ∈ aborted (requests c)) then c
     else let d := parseRequestErrorDetails error in
          handleStreamError now (errorMessage d) (errorDetailCode d) c).

Definition stopGeneration (now : Z) (c : Chat) : Chat :=
  let c1 := flushStreamUpdates now (closeActiveStream None c) in
  let r := requests c1 in
  updateMessages (λ prev, updateLastAssistantMessage prev (λ message,
      if isAssistantMessagePending message then completeAssistantMessage now message else message))
    (with_requests {| isRequesting := false; requestId := requestId r; abortController := None;
                      aborted := option_list (abortController r) ++ aborted r; waiting := waiting r |} c1).

(** ** The conversation (use-playground-conversation.ts) *)

Definition update_and_send (starts : bool) (now : Z) (nextMessages : list Message) (c : Chat) : Chat :=
  sendChat starts now nextMessages (updateMessages (λ _, nextMessages) c).

Definition handleSendMessage (ids : Ids) (starts : bool) (now : Z) (text : jsstr) (c : Chat) : Chat :=
  update_and_send starts now (appendUserMessagePair ids now (messages c) text) c.

Definition handleRegenerateMessage (ids : Ids) (starts : bool) (now : Z) (messageKey : jsstr) (c : Chat) : Chat :=
  match createRegeneratedMessages ids now (messages c) messageKey with
  | Some nextMessages => update_and_send starts now nextMessages c
  | None => c
  end.

Definition applyEdit (ids : Ids) (starts : bool) (now : Z) (newContent : jsstr) (shouldSubmit : bool) (c : Chat) : Chat :=
  match editingMessageKey c with
  | None | Some [] => c
  | Some k =>
      match applyMessageEdit ids now (messages c) k newContent shouldSubmit with
      | None => c
      | Some r =>
          let c' := with_editing None c in
          if shouldSend r then update_and_send starts now (e_messages r) c'
          else updateMessages (λ _, e_messages r) c'
      end
  end.

Definition handleDeleteMessage (messageKey : jsstr) : Chat → Chat :=
  updateMessages (λ previousMessages, removeMessageByKey previousMessages messageKey).

Definition handleClearMessages (c : Chat) : Chat := updateMessages (λ _, []) (with_editing None c).

(** [getSubmittableInputText]. *)
Definition getSubmittableInputText (text : jsstr) (disabled : bool) : option jsstr :=
  if disabled || negb (truthy_str (trim text)) then None else Some text.

(** ** Events *)

Context `{MessageCodec}.

(** The page as it is after loading. *)
Definition load_page (now : Z) (cfg : PlaygroundConfig) (p : ParameterEnabled) (stored : option jsstr) : Chat :=
  let '(loaded, stored') := loadMessages t now stored in
  let ms := default [] loaded in
  {| messages := ms; saving := {| latest := ms; saveTimer := false; item := stored' |};
     editingMessageKey := None;
     streams := {| isStreaming := false; sseSource := None; sources_made := 0; isStreamComplete := false |};
     requests := {| isRequesting := false; requestId := 0; abortController := None; aborted := []; waiting := [] |};
     buffer := {| pendingContent := []; pendingReasoning := []; flushTimer := false |};
     config := cfg; parameterEnabled := p; sent := [] |}.

(** The timer of [persistMessages]. *)
Definition save_timer (c : Chat) : Chat :=
  with_saving {| latest := latest (saving c); saveTimer := false;
                 item := saveMessages (latest (saving c)) (item (saving c)) |} c.

(** Leaving the page saves what is due; a crash does not. *)
Definition leave_page (c : Chat) : option jsstr :=
  if saveTimer (saving c) then saveMessages (latest (saving c)) (item (saving c)) else item (saving c).

Inductive Event :=
  | Submit (ids : Ids) (starts : bool) (now : Z) (text : jsstr)
  | SelectPrompt (ids : Ids) (starts : bool) (now : Z) (text : jsstr)
  | Regenerate (ids : Ids) (starts : bool) (now : Z) (messageKey : jsstr)
  | OpenEdit (messageKey : jsstr)
  | CloseEdit
  | SaveEdit (ids : Ids) (starts : bool) (now : Z) (newContent : jsstr) (shouldSubmit : bool)
  | Delete (messageKey : jsstr)
  | Clear
  | Stop (now : Z)
  | FlushTimer (now : Z)
  | StreamData (source : nat) (now : Z) (data : jsstr)
  | StreamError (source : nat) (now : Z) (readyState : option Z) (data : option jsstr)
  | StreamReadyState (source : nat) (now : Z) (eventReadyState sourceStatus : option Z)
  | Response (request : nat) (now : Z) (choices : list ChatCompletionChoice)
  | Failure (request : nat) (now : Z) (error : RequestError)
  | SaveTimer
  | SetConfig (cfg : PlaygroundConfig) (p : ParameterEnabled)
  | Reload (now : Z) (clean : bool).

(** What the page allows: the composer and the actions on messages are
    disabled while an answer is generated, an open editor is not. *)
Definition enabled (c : Chat) (e : Event) : bool :=
  match e with
  | Submit _ _ _ text => bool_decide (getSubmittableInputText text (generating c) ≠ None)
  | SelectPrompt _ _ _ _ => bool_decide (messages c = [])
  | Regenerate _ _ _ _ | OpenEdit _ | Delete _ => negb (generating c)
  | Clear => negb (generating c) && negb (bool_decide (messages c = []))
  | CloseEdit | SetConfig _ _ | Reload _ _ => true
  | SaveEdit _ _ _ _ _ => bool_decide (editingMessageKey c ≠ None)
  | Stop _ => generating c
  | FlushTimer _ => flushTimer (buffer c)
  | StreamData source _ _ => bool_decide (sseSource (streams c) = Some source)
  | StreamError source _ _ _ | StreamReadyState source _ _ _ => source <? sources_made (streams c)
  | Response request _ _ | Failure request _ _ => bool_decide (request ∈ waiting (requests c))
  | SaveTimer => saveTimer (saving c)
  end.

Definition step (c : Chat) (e : Event) : Chat :=
  match e with
  | Submit ids starts now text | SelectPrompt ids starts now text => handleSendMessage ids starts now text c
  | Regenerate ids starts now k => handleRegenerateMessage ids starts now k c
  | OpenEdit k => with_editing (Some k) c
  | CloseEdit => with_editing None c
  | SaveEdit ids starts now newContent shouldSubmit => applyEdit ids starts now newContent shouldSubmit c
  | Delete k => handleDeleteMessage k c
  | Clear => handleClearMessages c
  | Stop now => stopGeneration now c
  | FlushTimer now => flushStreamUpdates now c
  | StreamData source now data => on_message source now data c
  | StreamError source now readyState data => on_error source now readyState data c
  | StreamReadyState source now eventReadyState sourceStatus =>
      on_readystatechange source now eventReadyState sourceStatus c
  | Response request now choices => on_response request now choices c
  | Failure request now error => on_failure request now error c
  | SaveTimer => save_timer c
  | SetConfig cfg p => with_config cfg p c
  | Reload now clean =>
      load_page now (config c) (parameterEnabled c) (if clean then leave_page c else item (saving c))
  end.

(** Runs of events that the page allows, from an empty storage. *)
Inductive reachable : Chat → Prop :=
  | reach_first now cfg p : reachable (load_page now cfg p None)
  | reach_step c e : reachable c → enabled c e = true → reachable (step c e).
End playground.
