(* ===== verification/PlaySpec.v ===== *)
(** * The playground settles

    An invariant of every run of [PlayChat]: only the last message of a
    conversation can be pending, and when nothing is being generated no
    message is and no text is buffered.  From any state the outstanding
    events of the network, or the stop button, lead there; and a reload
    never shows an answer that is still loading. *)

From S2P Require Import Prelude JsString JsCollections JsValue PlayMessages PlayStorage PlayChat.

(** ** Pending messages *)

Definition quiet (m : Message) : Prop := isPendingAssistantMessage m = false.
Definition none_pending (ms : list Message) : Prop := Forall quiet ms.
Definition only_last_pending (ms : list Message) : Prop := Forall quiet (removelast ms).

Lemma removelast_snoc {A} (l : list A) x : removelast (l ++ [x]) = l.
Proof. apply removelast_last. Qed.

Lemma none_only ms : none_pending ms → only_last_pending ms.
Proof.
  intros H. destruct ms as [|m ms _] using rev_ind; [constructor|].
  unfold only_last_pending. rewrite removelast_snoc. by apply Forall_app in H as [? _].
Qed.

Lemma only_last_snoc ms m : only_last_pending (ms ++ [m]) ↔ none_pending ms.
Proof. unfold only_last_pending. by rewrite removelast_snoc. Qed.

Lemma none_snoc ms m : none_pending (ms ++ [m]) ↔ none_pending ms ∧ quiet m.
Proof. unfold none_pending. rewrite Forall_app, Forall_singleton. done. Qed.

(** A part of a conversation from its end. *)
Lemma only_last_suffix ms ms' : ms' `suffix_of` ms → only_last_pending ms → only_last_pending ms'.
Proof.
  intros [k ->] H. destruct ms' as [|m ms' _] using rev_ind; [constructor|].
  rewrite app_assoc in H. apply only_last_snoc in H. apply only_last_snoc. by apply Forall_app in H as [_ ?].
Qed.

Lemma only_last_map f ms :
  (∀ m, quiet m → quiet (f m)) → only_last_pending ms → only_last_pending (map f ms).
Proof.
  intros Hf H. destruct ms as [|m ms _] using rev_ind; [constructor|].
  rewrite map_app. apply only_last_snoc in H. apply only_last_snoc. unfold none_pending. apply Forall_map.
  eapply Forall_impl; [exact H|]. exact Hf.
Qed.

Lemma none_take i ms : only_last_pending ms → i < length ms → none_pending (take i ms).
Proof.
  intros H Hi. destruct ms as [|m ms _] using rev_ind; [simpl in Hi; lia|]. apply only_last_snoc in H.
  rewrite length_app in Hi. simpl in Hi. rewrite take_app_le by lia. by apply Forall_take.
Qed.

(** ** The last message *)

Lemma update_last_nil f : updateLastAssistantMessage [] f = [].
Proof. done. Qed.

Lemma update_last_snoc ms m f :
  updateLastAssistantMessage (ms ++ [m]) f = ms ++ [if bool_decide (from m = ASSISTANT) then f m else m].
Proof.
  unfold updateLastAssistantMessage. rewrite last_snoc. case_bool_decide; [|done].
  rewrite length_app. cbn [length]. rewrite Nat.add_1_r. cbn [pred].
  rewrite <-(Nat.add_0_r (length ms)), alter_app_r. done.
Qed.

Lemma update_last_only ms f : only_last_pending ms → only_last_pending (updateLastAssistantMessage ms f).
Proof.
  intros H. destruct ms as [|m ms _] using rev_ind; [done|]. rewrite update_last_snoc.
  apply only_last_snoc. by apply only_last_snoc in H.
Qed.

Lemma update_last_none ms f :
  only_last_pending ms → (∀ m, quiet (f m)) → none_pending (updateLastAssistantMessage ms f).
Proof.
  intros H Hf. destruct ms as [|m ms _] using rev_ind; [constructor|]. rewrite update_last_snoc.
  apply none_snoc. apply only_last_snoc in H. split; [done|]. case_bool_decide as Hm; [apply Hf|].
  unfold quiet, isPendingAssistantMessage. by rewrite bool_decide_eq_false_2.
Qed.

Lemma update_last_id ms : updateLastAssistantMessage ms (λ m, m) = ms.
Proof.
  destruct ms as [|m ms _] using rev_ind; [done|]. rewrite update_last_snoc. by case_bool_decide.
Qed.

(** ** The status of a message *)

Lemma timing_status now m : status (completeAssistantTiming now m) = status m.
Proof. unfold completeAssistantTiming. by case_bool_decide. Qed.

Lemma reasoning_timing_status now m : status (completeReasoningTiming now m) = status m.
Proof. unfold completeReasoningTiming. by repeat case_match. Qed.

Lemma quiet_status m s : status m = Some s → (s = COMPLETE ∨ s = ERROR) → quiet m.
Proof.
  intros Hs H. unfold quiet, isPendingAssistantMessage, isAssistantMessagePending. rewrite Hs.
  destruct H as [-> | ->]; by destruct (bool_decide (from m = ASSISTANT)).
Qed.

Lemma complete_quiet now m : quiet (completeAssistantMessage now m).
Proof. eapply quiet_status; [by etrans; [apply timing_status|] | by left]. Qed.

Lemma choice_quiet now m ch : quiet (applyChatCompletionChoice now m ch).
Proof. eapply quiet_status; [by etrans; [apply timing_status|] | by left]. Qed.

Lemma final_or_complete_quiet now m :
  quiet (if isAssistantMessageFinal m then m else completeAssistantMessage now m).
Proof.
  destruct (isAssistantMessageFinal m) eqn:E; [|apply complete_quiet].
  unfold isAssistantMessageFinal in E. apply orb_true_iff in E as [E|E]; apply bool_decide_eq_true in E;
    eapply quiet_status; eauto.
Qed.

Lemma stopped_quiet now m :
  quiet (if isAssistantMessagePending m then completeAssistantMessage now m else m).
Proof.
  destruct (isAssistantMessagePending m) eqn:E; [apply complete_quiet|].
  unfold quiet, isPendingAssistantMessage. by rewrite E, andb_false_r.
Qed.

Lemma sanitized_quiet t now m : quiet (sanitize_message t now m).
Proof.
  unfold sanitize_message. case_match; eapply quiet_status;
    try (rewrite timing_status; reflexivity); auto.
Qed.

Lemma error_none t now ms e code : only_last_pending ms → none_pending (updateAssistantMessageWithError now ms e code t).
Proof.
  intros H. apply update_last_none; [done|]. intros m. eapply quiet_status; [by etrans; [apply timing_status|] | by right].
Qed.

Lemma fresh_user_quiet k v s now : quiet (createUserMessage k v s now).
Proof. done. Qed.

(** ** Restoring *)

Lemma normalize_quiet now m : quiet m → quiet (normalizeStoredMessageForLoad now m).
Proof.
  intros Hm. unfold normalizeStoredMessageForLoad.
  assert (quiet (shorten_message m)) as Hs by exact Hm.
  destruct (negb (isAssistantMessagePending _)); [done|]. destruct (_ && _); [done|].
  eapply quiet_status; [by rewrite timing_status | by left].
Qed.

Lemma trim_suffix ms : trimMessages ms `suffix_of` ms.
Proof.
  unfold trimMessages. destruct (_ <=? _); [done|]. exists (take (length ms - MAX_STORED_MESSAGES) ms).
  by rewrite take_drop.
Qed.

Lemma take_sized_prefix b n ms : take_sized b n ms `prefix_of` ms.
Proof.
  revert b n. induction ms as [|m ms IH]; intros b n; [done|]. cbn [take_sized].
  destruct (_ && _); [apply prefix_nil | by apply prefix_cons].
Qed.

Lemma trim_size_suffix ms : trimMessagesByContentSize ms `suffix_of` ms.
Proof.
  unfold trimMessagesByContentSize. destruct (take_sized_prefix true 0 (reverse ms)) as [k Hk].
  exists (reverse k). rewrite <-reverse_app, <-Hk. by rewrite reverse_involutive.
Qed.

Lemma last_index_none {A} (p : A → bool) l : last_index p l = None → Forall (λ x, p x = false) l.
Proof.
  induction l as [|x l IH]; intros H; [constructor|]. cbn [last_index] in H.
  destruct (last_index p l); [done|]. destruct (p x) eqn:E; [done|]. constructor; [done | by apply IH].
Qed.

Lemma last_index_snoc {A} (p : A → bool) l x :
  last_index p (l ++ [x]) = if p x then Some (length l) else last_index p l.
Proof.
  induction l as [|y l IH]; [cbn; by destruct (p x)|]. cbn [app last_index length]. rewrite IH.
  by destruct (p x), (last_index p l).
Qed.

Lemma sanitize_none t now ms : only_last_pending ms → none_pending (sanitizeMessagesOnLoad t now ms).
Proof.
  intros H. unfold sanitizeMessagesOnLoad. destruct (last_index _ ms) as [i|] eqn:E.
  2: { by apply last_index_none in E. }
  destruct ms as [|m ms _] using rev_ind; [done|]. apply only_last_snoc in H.
  rewrite last_index_snoc in E. destruct (isPendingAssistantMessage m).
  - injection E as <-. rewrite <-(Nat.add_0_r (length ms)), alter_app_r. apply none_snoc.
    split; [done | apply sanitized_quiet].
  - exfalso. clear -E H. revert i E. induction H as [|x l Hx _ IH]; intros i E; [done|].
    cbn [last_index] in E. rewrite Hx in E. destruct (last_index _ l) as [j|]; [by apply (IH j) | done].
Qed.

Lemma restore_none t now ms : only_last_pending ms → none_pending (restore t now ms).
Proof.
  intros H. apply sanitize_none. eapply only_last_suffix; [apply trim_size_suffix|].
  eapply only_last_suffix; [apply trim_suffix|]. apply only_last_map; [apply normalize_quiet | done].
Qed.

(** ** The invariant *)

Section runs.
Context `{Hcodec : MessageCodec} (t : jsstr → jsstr).

(** What is stored has only its last message pending. *)
Definition item_ok (stored : option jsstr) : Prop :=
  ∀ s ms, stored = Some s → decode_messages s = Ok ms → only_last_pending ms.

Definition empty_buffer (b : Buffer) : Prop := pendingContent b = [] ∧ pendingReasoning b = [].

Record inv (c : Chat) : Prop := {
  inv_shape : only_last_pending (messages c);
  inv_idle : generating c = false → none_pending (messages c);
  inv_latest : latest (saving c) = messages c;
  inv_item : item_ok (item (saving c));
  inv_stream : isStreaming (streams c) = bool_decide (sseSource (streams c) ≠ None);
  inv_open : sseSource (streams c) ≠ None → isStreamComplete (streams c) = false;
  inv_buffer : sseSource (streams c) = None → empty_buffer (buffer c);
  inv_request : isRequesting (requests c) = true → sseSource (streams c) = None →
    requestId (requests c) ∈ waiting (requests c) ∧ requestId (requests c) ∉ aborted (requests c);
  inv_ids : ∀ i, i ∈ aborted (requests c) ∨ abortController (requests c) = Some i → i ≤ requestId (requests c)
}.

Lemma save_ok ms stored : only_last_pending ms → item_ok stored → item_ok (saveMessages ms stored).
Proof.
  intros Hms Hi. unfold saveMessages. destruct (encode_messages (trimMessages ms)) as [s|e] eqn:E; [|done].
  intros s' ms' [= <-] Hd. rewrite (messages_back _ _ E) in Hd. injection Hd as <-.
  eapply only_last_suffix; [apply trim_suffix | done].
Qed.

Lemma load_ok now stored :
  item_ok stored →
  none_pending (default [] (fst (loadMessages t now stored))) ∧ item_ok (snd (loadMessages t now stored)).
Proof.
  intros Hi. unfold loadMessages. destruct stored as [[|x s]|]; [split; [constructor | done] | |split; [constructor | done]].
  destruct (_ <? _)%N; [split; [constructor | by intros ? ? ?]|].
  destruct (decode_messages (x :: s)) as [ms|e] eqn:E; [|split; [constructor | done]]. cbn [fst snd default].
  assert (none_pending (restore t now ms)) as Hr by (apply restore_none; by eapply Hi).
  split; [done|]. apply save_ok; [by apply none_only | done].
Qed.

Lemma inv_load now cfg p stored : item_ok stored → inv (load_page t now cfg p stored).
Proof.
  intros Hi. unfold load_page. pose proof (load_ok now stored Hi) as [Hn Ho].
  destruct (loadMessages t now stored) as [l stored']. cbn [fst snd] in *.
  split; cbn; try done; [by apply none_only|]. intros i [Hin|]; [by apply not_elem_of_nil in Hin | done].
Qed.

(** ** Handlers *)

(** The parts that updating messages leaves alone. *)
Definition same_rest (c c' : Chat) : Prop :=
  streams c' = streams c ∧ item (saving c') = item (saving c) ∧ latest (saving c') = messages c'.

Lemma flush_spec now c :
  latest (saving c) = messages c →
  let c' := flushStreamUpdates now c in
  (∃ f, messages c' = updateLastAssistantMessage (messages c) f
        ∧ (empty_buffer (buffer c) → messages c' = messages c))
  ∧ empty_buffer (buffer c') ∧ same_rest c c' ∧ requests c' = requests c.
Proof.
  intros Hl. cbn zeta. unfold flushStreamUpdates. destruct (_ && _) eqn:E.
  - apply andb_true_iff in E as [E1%negb_true_iff%truthy_str_false E2%negb_true_iff%truthy_str_false].
    cbn. split; [|done]. exists (λ m, m). by rewrite update_last_id.
  - split; [|done]. exists (apply_pending now (buffer c)). split; [done|]. intros [E1 E2].
    by rewrite E1, E2 in E.
Qed.

Lemma complete_spec now c :
  latest (saving c) = messages c → only_last_pending (messages c) →
  let c' := handleStreamComplete now c in
  none_pending (messages c') ∧ empty_buffer (buffer c') ∧ same_rest c c'
  ∧ requests c' = requests (setIsRequesting false c).
Proof.
  intros Hl Ho. cbn zeta. destruct (flush_spec now c Hl) as ((f & Hf & _) & Hb & (Hs & Hi & _) & Hr).
  unfold handleStreamComplete. set (c1 := flushStreamUpdates now c) in *.
  split; [|split; [done|split; [done|cbn; by rewrite Hr]]].
  change (none_pending (updateLastAssistantMessage (messages c1) (λ message,
    if isAssistantMessageFinal message then message else completeAssistantMessage now message))).
  apply update_last_none; [rewrite Hf; by apply update_last_only | apply final_or_complete_quiet].
Qed.

Lemma error_spec now e code c :
  latest (saving c) = messages c → only_last_pending (messages c) →
  let c' := handleStreamError t now e code c in
  none_pending (messages c') ∧ empty_buffer (buffer c') ∧ same_rest c c'
  ∧ requests c' = requests (setIsRequesting false c).
Proof.
  intros Hl Ho. cbn zeta. destruct (flush_spec now c Hl) as ((f & Hf & _) & Hb & (Hs & Hi & _) & Hr).
  unfold handleStreamError. set (c1 := flushStreamUpdates now c) in *.
  split; [|split; [done|split; [done|cbn; by rewrite Hr]]].
  change (none_pending (updateAssistantMessageWithError now (messages c1) (getDisplayError t e) code (t API_REQUEST_ERROR))).
  apply error_none. rewrite Hf. by apply update_last_only.
Qed.

(** *** Messages *)

Lemma inv_messages ms c :
  inv c → only_last_pending ms → (generating c = false → none_pending ms) → inv (updateMessages (λ _, ms) c).
Proof. intros [] Ho Hn. by split. Qed.

Lemma inv_editing k c : inv c → inv (with_editing k c).
Proof. intros []. by split. Qed.

Lemma none_take_quiet i m ms :
  only_last_pending ms → ms !! i = Some m → quiet m → none_pending (take (S i) ms).
Proof.
  intros Ho Hi Hm. rewrite (take_S_r _ _ m) by done. apply none_snoc. split; [|done].
  apply none_take; [done|]. by eapply lookup_lt_Some.
Qed.

Lemma user_quiet m : from m = USER → quiet m.
Proof. intros H. unfold quiet, isPendingAssistantMessage. by rewrite H. Qed.

Lemma find_key_lookup k ms i m : find_key k ms = Some (i, m) → ms !! i = Some m.
Proof. unfold find_key. intros H%list_find_Some. apply H. Qed.

Lemma edit_quiet now k s b m : quiet m → quiet (edit_message now k s b m).
Proof. unfold edit_message. by case_bool_decide. Qed.

Lemma regenerated_ok ids now ms k ms' :
  only_last_pending ms → createRegeneratedMessages ids now ms k = Some ms' → only_last_pending ms'.
Proof.
  unfold createRegeneratedMessages. intros Ho. destruct (find_key k ms) as [[i m]|] eqn:E; [|done].
  apply find_key_lookup in E. cbn [mbind option_bind]. intros [= <-].
  case_bool_decide as Hu; apply only_last_snoc.
  - eapply none_take_quiet; eauto using user_quiet.
  - apply none_take; [done|]. by eapply lookup_lt_Some.
Qed.

Lemma edited_ok ids now ms k s b r :
  only_last_pending ms → applyMessageEdit ids now ms k s b = Some r →
  only_last_pending (e_messages r) ∧ (shouldSend r = false → none_pending ms → none_pending (e_messages r)).
Proof.
  unfold applyMessageEdit. intros Ho. destruct (find_key k ms) as [[i m]|] eqn:E; [|done].
  apply find_key_lookup in E. cbn [mbind option_bind].
  assert (only_last_pending (map (edit_message now k s b) ms)) as Hm by (apply only_last_map; [apply edit_quiet | done]).
  intros [= <-]. destruct (negb b || negb _) eqn:Eb; cbn [e_messages shouldSend].
  - split; [done|]. intros _ Hn. apply Forall_map. eapply Forall_impl; [exact Hn|]. apply edit_quiet.
  - split; [|done]. apply orb_false_iff in Eb as [_ Eb%negb_false_iff%bool_decide_eq_true]. apply only_last_snoc.
    eapply none_take_quiet; [done|by rewrite list_lookup_fmap, E|]. apply edit_quiet. by apply user_quiet.
Qed.

(** *** Streams *)

Lemma inv_buffer_change b c : inv c → sseSource (streams c) ≠ None → inv (with_buffer b c).
Proof. intros [] Hs. by split. Qed.

Lemma inv_updates us c : inv c → sseSource (streams c) ≠ None → inv (fold_left (λ c u, handleStreamUpdate u c) us c).
Proof.
  revert c. induction us as [|u us IH]; intros c Hc Hs; [done|]. apply IH; [by apply inv_buffer_change | done].
Qed.

(** After a handler that leaves nothing pending and nothing requested. *)
Lemma inv_settled c c' :
  inv c → none_pending (messages c') → empty_buffer (buffer c') → latest (saving c') = messages c' →
  item (saving c') = item (saving c) → isRequesting (requests c') = false →
  (∀ i, i ∈ aborted (requests c') ∨ abortController (requests c') = Some i → i ≤ requestId (requests c')) →
  isStreaming (streams c') = bool_decide (sseSource (streams c') ≠ None) →
  (sseSource (streams c') ≠ None → isStreamComplete (streams c') = false) → inv c'.
Proof.
  intros [] Hn Hb Hl Hi Hr Hids Hs Ho. split; try done; [by apply none_only | by rewrite Hi | by rewrite Hr].
Qed.

Lemma inv_error_handler source now e code c : inv c → inv (handleError t source now e code c).
Proof.
  intros Hc. unfold handleError. destruct (isStreamComplete (streams c)) eqn:Ec; [done|].
  destruct (error_spec now e code c (inv_latest c Hc) (inv_shape c Hc)) as (Hn & Hb & (Hs & Hi & Hl) & Hr).
  set (c' := handleStreamError t now e code c) in *. clearbody c'. unfold closeActiveStream.
  destruct (_ || _); eapply (inv_settled c); cbn; try done; rewrite ?Hr, ?Hs; cbn; try done; apply Hc.
Qed.

Lemma inv_message source now data c :
  inv c → sseSource (streams c) = Some source → inv (on_message t source now data c).
Proof.
  intros Hc Hsrc. unfold on_message. destruct (isStreamDoneMessage data).
  - unfold closeActiveStream. cbn [streams with_streams sseSource]. rewrite Hsrc, (bool_decide_eq_true_2 (Some source = Some source)) by done.
    rewrite orb_true_r. set (c0 := with_streams _ _).
    destruct (complete_spec now c0 (inv_latest c Hc) (inv_shape c Hc)) as (Hn & Hb & (Hs & Hi & Hl) & Hr).
    set (c' := handleStreamComplete now c0) in *. clearbody c'.
    eapply (inv_settled c); try done; rewrite ?Hr, ?Hs; try done; apply Hc.
  - destruct (parseStreamMessageUpdates data); [|by apply inv_error_handler].
    apply inv_updates; [done | by rewrite Hsrc].
Qed.

Lemma inv_send starts now ms c : inv c → only_last_pending ms → inv (update_and_send t starts now ms c).
Proof.
  intros Hc Ho. unfold update_and_send, sendChat, sendStreamingChat, sendStreamRequest, sendNonStreamingChat.
  destruct (stream _).
  - destruct starts.
    + destruct Hc. by split.
    + set (c0 := with_streams _ _).
      destruct (error_spec now STREAM_START_ERROR None c0 eq_refl Ho) as (Hn & Hb & (Hs & Hi & Hl) & Hr).
      set (c' := handleStreamError t now STREAM_START_ERROR None c0) in *. clearbody c'. unfold closeActiveStream.
      rewrite Hs. rewrite (bool_decide_eq_true_2 (sseSource _ = _)) by done. rewrite orb_true_r.
      eapply (inv_settled c); cbn; try done; rewrite ?Hr; cbn; try done; apply Hc.
  - destruct Hc as [? ? ? ? ? ? ? ? Hids]. split; cbn in *; try done.
    + unfold generating. cbn. by rewrite orb_true_r.
    + intros _ _. split; [constructor|]. intros Hin. specialize (Hids _ (or_introl Hin)). lia.
    + intros i [Hin | [= <-]]; [|done]. specialize (Hids _ (or_introl Hin)). lia.
Qed.

(** *** Requests *)

Lemma inv_over_none request c : inv c → none_pending (messages c) → inv (request_over request c).
Proof.
  intros [] Hn. split; cbn; try done.
  - intros Hr Hs. case_bool_decide as Hid; [done|]. destruct (inv_request0 Hr Hs) as [Hw Ha]. split; [|done].
    apply elem_of_filterb. split; [done|]. apply negb_true_iff. by apply Nat.eqb_neq.
  - intros i [Hi|Hi]; [by apply inv_ids0; left|]. case_bool_decide; [done|]. apply inv_ids0. by right.
Qed.

Lemma inv_over_aborted request c : inv c → request ∈ aborted (requests c) → inv (request_over request c).
Proof.
  intros [] Hin. split; cbn; try done.
  - unfold generating. cbn. intros [Hs Hr]%orb_false_iff. apply inv_idle0. unfold generating. rewrite Hs. cbn.
    destruct (isRequesting (requests c)) eqn:E; [|done]. case_bool_decide as Hid; [|done].
    rewrite inv_stream0 in Hs. apply bool_decide_eq_false in Hs.
    destruct (inv_request0 eq_refl) as [_ Ha]; [by apply dec_stable|]. by subst.
  - intros Hr Hs. case_bool_decide as Hid; [done|]. destruct (inv_request0 Hr Hs) as [Hw Ha]. split; [|done].
    apply elem_of_filterb. split; [done|]. apply negb_true_iff. by apply Nat.eqb_neq.
  - intros i [Hi|Hi]; [by apply inv_ids0; left|]. case_bool_decide; [done|]. apply inv_ids0. by right.
Qed.

Lemma inv_stream_error now e code c : inv c → inv (handleStreamError t now e code c).
Proof.
  intros Hc. destruct (error_spec now e code c (inv_latest c Hc) (inv_shape c Hc)) as (Hn & Hb & (Hs & Hi & Hl) & Hr).
  eapply (inv_settled c); try done; rewrite ?Hr, ?Hs; try done; apply Hc.
Qed.

Lemma inv_answer request now choices c : inv c → inv (on_response t request now choices c).
Proof.
  intros Hc. unfold on_response. case_bool_decide; [by apply inv_over_aborted|].
  destruct choices as [|ch chs]; cbn [hasChatCompletionChoice negb].
  - apply inv_over_none; [by apply inv_stream_error|]. by apply error_spec; destruct Hc.
  - assert (none_pending (updateLastAssistantMessage (messages c) (λ message,
              default message (applyChatCompletionResponse now message (ch :: chs))))) as Hn.
    { apply update_last_none; [apply Hc|]. intros m. apply choice_quiet. }
    apply inv_over_none; [|done]. apply inv_messages; [done | by apply none_only | done].
Qed.

Lemma inv_failure request now e c : inv c → inv (on_failure t request now e c).
Proof.
  intros Hc. unfold on_failure. case_bool_decide; [by apply inv_over_aborted|].
  apply inv_over_none; [by apply inv_stream_error|]. by apply error_spec; destruct Hc.
Qed.

(** Stopping leaves nothing pending. *)
Lemma stop_spec now c :
  inv c → inv (stopGeneration now c) ∧ generating (stopGeneration now c) = false.
Proof.
  intros Hc. unfold stopGeneration, closeActiveStream. rewrite (bool_decide_eq_true_2 (None = None)) by done. cbn [orb].
  set (c0 := with_streams _ c).
  destruct (flush_spec now c0 (inv_latest c Hc)) as ((f & Hf & _) & Hb & (Hs & Hi & _) & Hr).
  set (c1 := flushStreamUpdates now c0) in *. split; [|unfold generating; cbn; by rewrite Hs].
  eapply (inv_settled c); try done.
  - apply (update_last_none (messages c1)); [rewrite Hf; apply update_last_only, Hc | apply stopped_quiet].
  - cbn. rewrite Hr. intros i [Hin|]; [|done]. destruct Hc as [? ? ? ? ? ? ? ? Hids]. cbn in *.
    apply elem_of_app in Hin as [Hin|Hin]; [|apply Hids; by left].
    destruct (abortController (requests c)) eqn:E; [|by apply not_elem_of_nil in Hin].
    apply list_elem_of_singleton in Hin as ->. apply Hids. by right.
  - cbn. by rewrite Hs.
  - cbn. by rewrite Hs.
Qed.

Lemma idle_buffer c : inv c → generating c = false → none_pending (messages c) ∧ empty_buffer (buffer c).
Proof.
  intros Hc Hg. split; [by apply Hc|]. apply (inv_buffer c Hc). apply orb_false_iff in Hg as [Hs _].
  rewrite (inv_stream c Hc) in Hs. by apply dec_stable, (bool_decide_eq_false_1 _).
Qed.

(** *** All events *)

Lemma inv_step c e : inv c → enabled c e = true → inv (step t c e).
Proof.
  intros Hc He. pose proof (inv_idle c Hc) as Hidle. pose proof (inv_shape c Hc) as Ho.
  destruct e; cbn [step enabled] in *; try (apply negb_true_iff in He).
  - apply inv_send; [done|]. unfold appendUserMessagePair.
    change [?x; ?y] with ([x] ++ [y]). rewrite app_assoc. apply only_last_snoc, none_snoc.
    split; [|done]. apply Hidle. unfold getSubmittableInputText in He. by destruct (generating c).
  - apply bool_decide_eq_true in He. apply inv_send; [done|]. rewrite He. by repeat constructor.
  - unfold handleRegenerateMessage. destruct (createRegeneratedMessages _ _ _ _) eqn:E; [|done].
    apply inv_send; [done|]. by eapply regenerated_ok.
  - by apply inv_editing.
  - by apply inv_editing.
  - unfold applyEdit. destruct (editingMessageKey c) as [[|x k]|]; [done| |done].
    destruct (applyMessageEdit _ _ _ _ _ _) as [r|] eqn:E; [|done].
    destruct (edited_ok _ _ _ _ _ _ _ Ho E) as [Hr Hn].
    destruct (shouldSend r) eqn:Es; [apply inv_send; [by apply inv_editing | done]|].
    apply inv_messages; [by apply inv_editing | done | intros Hg; by apply Hn, Hidle].
  - assert (none_pending (removeMessageByKey (messages c) messageKey)) as Hn.
    { apply Forall_forall. intros m [Hm _]%elem_of_filterb. specialize (Hidle He).
      unfold none_pending in Hidle. rewrite Forall_forall in Hidle. by apply Hidle. }
    apply inv_messages; [done | by apply none_only | done].
  - apply inv_messages; [by apply inv_editing | constructor | constructor].
  - by apply stop_spec.
  - destruct (flush_spec now c (inv_latest c Hc)) as ((f & Hf & He') & Hb & (Hs & Hi & Hl) & Hr).
    set (c' := flushStreamUpdates now c) in *. clearbody c'. destruct Hc.
    split; rewrite ?Hs, ?Hr, ?Hi; try done.
    + rewrite Hf. by apply update_last_only.
    + unfold generating. rewrite Hs, Hr. intros Hg. rewrite He'; [by apply Hidle|]. apply inv_buffer0.
      apply orb_false_iff in Hg as [Hg _]. rewrite Hg in inv_stream0.
      by apply dec_stable, (bool_decide_eq_false_1 _).
  - apply inv_message; [done | by apply bool_decide_eq_true in He].
  - unfold on_error. destruct (isStreamClosedReadyState readyState); [done | by apply inv_error_handler].
  - unfold on_readystatechange. destruct (getStreamReadyStateError _ _); [by apply inv_error_handler | done].
  - by apply inv_answer.
  - by apply inv_failure.
  - destruct Hc. split; try done. cbn. apply save_ok; [|done]. by rewrite inv_latest0.
  - destruct Hc. by split.
  - apply inv_load. destruct Hc. destruct clean; [|done]. unfold leave_page. destruct (saveTimer _); [|done].
    apply save_ok; [|done]. by rewrite inv_latest0.
Qed.

Lemma reachable_inv c : reachable t c → inv c.
Proof. induction 1 as [now cfg p|c e _ IH He]; [by apply inv_load | by apply inv_step]. Qed.

(** ** Nothing starts while an answer is generated *)

(** The two ways around the disabled controls: saving an editor that was open
    before, and the prompts of an empty page. *)
Definition resends (e : Event) : bool :=
  match e with SaveEdit _ _ _ _ _ | SelectPrompt _ _ _ _ => true | _ => false end.

(** The streams and the request as they are, or closed. *)
Definition continues (c c' : Chat) : Prop :=
  (sseSource (streams c') = sseSource (streams c) ∨ sseSource (streams c') = None)
  ∧ requestId (requests c') = requestId (requests c).

Lemma continues_error source now e code c : inv c → continues c (handleError t source now e code c).
Proof.
  intros Hc. unfold handleError. destruct (isStreamComplete (streams c)); [by split; [left|]|].
  destruct (error_spec now e code c (inv_latest c Hc) (inv_shape c Hc)) as (_ & _ & (Hs & _ & _) & Hr).
  set (c' := handleStreamError t now e code c) in *. clearbody c'.
  unfold closeActiveStream, continues. destruct (_ || _); cbn; rewrite ?Hr, ?Hs; cbn; auto.
Qed.

Lemma continues_updates us c : continues c (fold_left (λ c u, handleStreamUpdate u c) us c).
Proof.
  assert (∀ c', continues c c' → continues c (fold_left (λ c u, handleStreamUpdate u c) us c')) as H.
  { induction us as [|u us IH]; intros c' Hc'; [done|]. by apply IH. }
  apply H. by split; [left|].
Qed.

Lemma continues_message source now data c : inv c → continues c (on_message t source now data c).
Proof.
  intros Hc. unfold on_message. destruct (isStreamDoneMessage data).
  - set (c0 := with_streams _ c).
    assert (continues c (closeActiveStream (Some source) c0) ∧ latest (saving (closeActiveStream (Some source) c0))
              = messages (closeActiveStream (Some source) c0)
            ∧ only_last_pending (messages (closeActiveStream (Some source) c0))) as (H & Hl & Ho).
    { unfold closeActiveStream. destruct (_ || _); (split; [|split; apply Hc]); by split; [cbn; auto|]. }
    destruct (complete_spec now _ Hl Ho) as (_ & _ & (Hs & _ & _) & Hr).
    unfold continues in *. rewrite Hs, Hr. exact H.
  - destruct (parseStreamMessageUpdates data); [apply continues_updates | by apply continues_error].
Qed.

Lemma continues_over request c c' : continues c c' → continues c (request_over request c').
Proof. done. Qed.

Lemma continues_stream_error now e code c : inv c → continues c (handleStreamError t now e code c).
Proof.
  intros Hc. destruct (error_spec now e code c (inv_latest c Hc) (inv_shape c Hc)) as (_ & _ & (Hs & _ & _) & Hr).
  unfold continues. rewrite Hs, Hr. by split; [left|].
Qed.

Lemma no_restart c e :
  inv c → enabled c e = true → resends e = false → generating c = true → generating (step t c e) = true →
  continues c (step t c e).
Proof.
  intros Hc He Hre Hg Hg'. destruct e; cbn [step enabled resends] in *; try done;
    try (by rewrite Hg in He).
  - by split; [left|].
  - exfalso. revert Hg'. by rewrite (proj2 (stop_spec now c Hc)).
  - destruct (flush_spec now c (inv_latest c Hc)) as (_ & _ & (Hs & _ & _) & Hr).
    unfold continues. rewrite Hs, Hr. by split; [left|].
  - by apply continues_message.
  - unfold on_error. destruct (isStreamClosedReadyState _); [by split; [left|] | by apply continues_error].
  - unfold on_readystatechange. destruct (getStreamReadyStateError _ _); [by apply continues_error | by split; [left|]].
  - clear He. unfold on_response. apply continues_over. case_bool_decide; [by split; [left|]|]. destruct choices; [by apply continues_stream_error|].
    by split; [left|].
  - clear He. unfold on_failure. apply continues_over. case_bool_decide; [by split; [left|] | by apply continues_stream_error].
  - by split; [left|].
  - by split; [left|].
  - exfalso. revert Hg'. unfold load_page. destruct (loadMessages _ _ _). by cbn.
Qed.

(** ** Fair runs *)

(** What the page hears of a stream that is over: the [DONE] message, a
    message that cannot be parsed, an error while the source is not closed, or
    the close of a source whose status is not 200.  A close with status 200 is
    none of these: the page does not react to it. *)
Definition ends_stream (s : nat) (e : Event) : bool :=
  match e with
  | StreamData s' _ data =>
      (s' =? s) && (isStreamDoneMessage data || try_catch (_ ← parseStreamMessageUpdates data; Ok false) true)
  | StreamError s' _ readyState _ => (s' =? s) && negb (isStreamClosedReadyState readyState)
  | StreamReadyState s' _ eventReadyState sourceStatus =>
      (s' =? s) && bool_decide (getStreamReadyStateError eventReadyState sourceStatus ≠ None)
  | Stop _ | Reload _ _ => true
  | _ => false
  end.

(** The answer to a request, or its failure. *)
Definition ends_request (i : nat) (e : Event) : bool :=
  match e with
  | Response i' _ _ | Failure i' _ _ => i' =? i
  | Reload _ _ => true
  | _ => false
  end.

(** An infinite run in which, from [n0] on, the network delivers: for every
    open stream the event of its end comes, if the user does not stop it or
    leave the page, and for every request its answer or its failure; and no
    answer is replaced by a new one. *)
Record fair_run (n0 : nat) (σ : nat → Chat) (ε : nat → Event) : Prop := {
  run_first : reachable t (σ 0);
  run_enabled : ∀ k, enabled (σ k) (ε k) = true;
  run_step : ∀ k, σ (S k) = step t (σ k) (ε k);
  run_settles : ∀ k, n0 ≤ k → resends (ε k) = false;
  streams_end : ∀ n s, n0 ≤ n → sseSource (streams (σ n)) = Some s → ∃ k, n ≤ k ∧ ends_stream s (ε k) = true;
  requests_end : ∀ n i, n0 ≤ n → i ∈ waiting (requests (σ n)) → ∃ k, n ≤ k ∧ ends_request i (ε k) = true
}.

Lemma error_closes source now e code c :
  inv c → sseSource (streams c) = Some source → sseSource (streams (handleError t source now e code c)) = None.
Proof.
  intros Hc Hs. unfold handleError. rewrite (inv_open c Hc) by by rewrite Hs.
  destruct (error_spec now e code c (inv_latest c Hc) (inv_shape c Hc)) as (_ & _ & (Hs' & _ & _) & _).
  unfold closeActiveStream. rewrite Hs', Hs. by rewrite (bool_decide_eq_true_2 (Some source = Some source)).
Qed.

Lemma done_closes source now data c :
  inv c → sseSource (streams c) = Some source → isStreamDoneMessage data = true →
  sseSource (streams (on_message t source now data c)) = None.
Proof.
  intros Hc Hs Hd. unfold on_message. rewrite Hd. set (c0 := with_streams _ c).
  assert (closeActiveStream (Some source) c0 = with_streams
    {| isStreaming := false; sseSource := None; sources_made := sources_made (streams c0);
       isStreamComplete := isStreamComplete (streams c0) |} c0) as ->.
  { unfold closeActiveStream. cbn. by rewrite Hs, (bool_decide_eq_true_2 (Some source = Some source)). }
  set (c1 := with_streams _ c0).
  destruct (complete_spec now c1 (inv_latest c Hc) (inv_shape c Hc)) as (_ & _ & (Hs' & _ & _) & _). by rewrite Hs'.
Qed.

(** The event of its end closes the current stream. *)
Lemma ended_stream c e s :
  inv c → sseSource (streams c) = Some s → ends_stream s e = true → sseSource (streams (step t c e)) = None.
Proof.
  intros Hc Hs He. destruct e as [| | | | | | | |now| |s' now data|s' now rs data|s' now rs st| | | | |now clean];
    cbn [ends_stream] in He; try done; cbn [step];
    try (apply andb_true_iff in He as [->%Nat.eqb_eq He]).
  - unfold stopGeneration. set (c1 := closeActiveStream None c).
    destruct (flush_spec now c1 (inv_latest c Hc)) as (_ & _ & (Hs' & _ & _) & _).
    change (sseSource (streams (flushStreamUpdates now c1)) = None). by rewrite Hs'.
  - apply orb_true_iff in He as [Hd|Hp]; [by apply done_closes|].
    unfold on_message. destruct (isStreamDoneMessage data) eqn:Hd.
    { pose proof (done_closes s now data c Hc Hs Hd) as H. unfold on_message in H. by rewrite Hd in H. }
    destruct (parseStreamMessageUpdates data); [done | by apply error_closes].
  - unfold on_error. apply negb_true_iff in He as ->. by apply error_closes.
  - unfold on_readystatechange. apply bool_decide_eq_true in He. destruct (getStreamReadyStateError _ _); [|done].
    by apply error_closes.
  - unfold load_page. by destruct (loadMessages _ _ _).
Qed.

(** The answer to the current request ends it. *)
Lemma ended_request c e :
  inv c → sseSource (streams c) = None → ends_request (requestId (requests c)) e = true →
  generating (step t c e) = false.
Proof.
  intros Hc Hs He. pose proof (inv_stream c Hc) as Hi. rewrite Hs in Hi. rewrite bool_decide_eq_false_2 in Hi by tauto.
  assert (∀ c', streams c' = streams c → requestId (requests c') = requestId (requests c) →
            generating (request_over (requestId (requests c)) c') = false) as Ho.
  { intros c' E1 E2. unfold generating, request_over. cbn. rewrite E1, E2, Hi.
    by rewrite (bool_decide_eq_true_2 (requestId _ = _)). }
  assert (∀ now err code, generating (request_over (requestId (requests c)) (handleStreamError t now err code c)) = false) as Herr.
  { intros now err code. destruct (error_spec now err code c (inv_latest c Hc) (inv_shape c Hc)) as (_ & _ & (E & _ & _) & Er).
    apply Ho; [done | by rewrite Er]. }
  destruct e as [| | | | | | | | | | | | |i now choices|i now err| | |now clean]; cbn [ends_request] in He; try done;
    cbn [step]; try apply Nat.eqb_eq in He as ->.
  - unfold on_response. case_bool_decide; [by apply Ho|]. destruct (negb _); [apply Herr | by apply Ho].
  - unfold on_failure. case_bool_decide; [by apply Ho | apply Herr].
  - unfold load_page. by destruct (loadMessages _ _ _).
Qed.

Section fairness.
Context (n0 : nat) (σ : nat → Chat) (ε : nat → Event) (Hrun : fair_run n0 σ ε).

Lemma run_reachable k : reachable t (σ k).
Proof.
  induction k as [|k IH]; [apply Hrun|]. rewrite (run_step _ _ _ Hrun). apply reach_step; [done | apply Hrun].
Qed.

Lemma run_inv k : inv (σ k).
Proof. apply reachable_inv, run_reachable. Qed.

(** As long as an answer is generated, nothing starts. *)
Lemma run_continues a k :
  n0 ≤ a → (∀ j, a ≤ j ≤ a + k → generating (σ j) = true) → continues (σ a) (σ (a + k)).
Proof.
  intros Ha. induction k as [|k IH]; intros Hg; [rewrite Nat.add_0_r; by split; [left|]|].
  assert (continues (σ a) (σ (a + k))) as [[Hs|Hs] Hr] by (apply IH; intros j Hj; apply Hg; lia);
    rewrite Nat.add_succ_r; pose proof (run_step _ _ _ Hrun (a + k)) as E; rewrite E;
    (destruct (no_restart (σ (a + k)) (ε (a + k))) as [Hs' Hr'];
      [apply run_inv | apply Hrun | apply Hrun; lia | apply Hg; lia | rewrite <-E, <-Nat.add_succ_r; apply Hg; lia|]);
    (split; [|by rewrite Hr', Hr]).
  - by rewrite Hs in Hs'.
  - right. rewrite Hs in Hs'. by destruct Hs'.
Qed.

Lemma generating_until a b : a ≤ b →
  (∃ k, a ≤ k ∧ generating (σ k) = false) ∨ (∀ j, a ≤ j ≤ b → generating (σ j) = true).
Proof.
  intros Hab. assert (∃ k, b = a + k) as [k ->] by (exists (b - a); lia). clear Hab.
  induction k as [|k [IH|IH]]; [|by left|].
  - destruct (generating (σ a)) eqn:E; [right; intros j Hj; by replace j with a by lia | left; by exists a].
  - destruct (generating (σ (a + S k))) eqn:E; [right; intros j Hj | left; exists (a + S k); split; [lia | done]].
    destruct (decide (j = a + S k)) as [->|]; [done | apply IH; lia].
Qed.

(** From a moment without an open source. *)
Lemma requests_settle a :
  n0 ≤ a → sseSource (streams (σ a)) = None → ∃ k, a ≤ k ∧ generating (σ k) = false.
Proof.
  intros Ha Hs. destruct (generating (σ a)) eqn:Hg; [|by exists a].
  assert (∀ b, a ≤ b → (∀ j, a ≤ j ≤ b → generating (σ j) = true) →
            requestId (requests (σ b)) = requestId (requests (σ a)) ∧ requestId (requests (σ b)) ∈ waiting (requests (σ b))) as H.
  { intros b Hb Hall. replace b with (a + (b - a)) in * by lia.
    destruct (run_continues a (b - a)) as [Hs' Hr]; [done | exact Hall|]. split; [done|].
    assert (sseSource (streams (σ (a + (b - a)))) = None) as Hn by (rewrite Hs in Hs'; by destruct Hs').
    destruct (run_inv (a + (b - a))). apply inv_request0; [|done].
    specialize (Hall (a + (b - a)) ltac:(lia)). unfold generating in Hall. rewrite inv_stream0, Hn in Hall.
    by rewrite bool_decide_eq_false_2 in Hall by tauto. }
  destruct (requests_end _ _ _ Hrun a (requestId (requests (σ a)))) as (b & Hb & Hend); [done | |].
  { apply H; [done|]. intros j Hj. by replace j with a by lia. }
  destruct (generating_until a b Hb) as [Hk|Hall]; [done|]. destruct (H b Hb Hall) as [E _].
  exists (S b). split; [lia|]. rewrite (run_step _ _ _ Hrun). apply ended_request; [apply run_inv | | by rewrite E].
  replace b with (a + (b - a)) in * by lia. destruct (run_continues a (b - a) Ha Hall) as [[Hn|Hn] _]; [by rewrite Hn | done].
Qed.

Lemma generation_settles n : ∃ k, n ≤ k ∧ generating (σ k) = false.
Proof.
  assert (∀ a, n0 ≤ a → ∃ k, a ≤ k ∧ generating (σ k) = false) as H.
  { intros a Ha. destruct (sseSource (streams (σ a))) as [s|] eqn:Es; [|by apply requests_settle].
    destruct (streams_end _ _ _ Hrun a s Ha Es) as (b & Hb & Hend).
    destruct (generating_until a b Hb) as [Hk|Hall]; [done|].
    assert (∃ d, a ≤ d ∧ sseSource (streams (σ d)) = None) as (d & Hd & Hn).
    { replace b with (a + (b - a)) in * by lia.
      destruct (run_continues a (b - a) Ha Hall) as [[Hs|Hs] _]; [|by exists (a + (b - a))].
      exists (S (a + (b - a))). split; [lia|]. rewrite (run_step _ _ _ Hrun).
      apply (ended_stream _ _ s); [apply run_inv | by rewrite Hs | done]. }
    destruct (requests_settle d) as (k & Hk & Hgk); [lia | done|]. exists k. split; [lia | done]. }
  destruct (H (Nat.max n n0)) as (k & Hk & Hg); [lia|]. exists k. split; [lia | done].
Qed.
End fairness.
End runs.
