(* ===== verification/PlayLive.v ===== *)
(** * The playground: what every run satisfies

    The theorems on runs of [PlayChat], with runs that show them at work, on
    the storage of [PlayCodec]. *)

From Stdlib Require Import ZArith.
From S2P Require Import Prelude JsString JsNumber JsNumberFacts JsCollections JsValue Json PlayMessages PlayStorage PlayCodec.
From S2P Require Import PlayChat PlaySpec.

(** C18: in every run, only the last message can be waiting for its answer;
    when nothing is being generated no message is and no text is left in the
    buffer; the messages to be saved are those on the page. *)
Theorem reachable_settled `{MessageCodec} (t : jsstr → jsstr) (c : Chat) :
  reachable t c →
  only_last_pending (messages c)
  ∧ (generating c = false → none_pending (messages c) ∧ empty_buffer (buffer c))
  ∧ latest (saving c) = messages c.
Proof.
  intros Hc%reachable_inv. split; [apply Hc|]. split; [by apply idle_buffer | apply Hc].
Qed.

(** C19: generating always ends, if from some moment on the network delivers
    the end of every open stream and the outcome of every request, and the user
    no longer replaces an answer that is under way.  The end of a stream is its
    [DONE] message, a message that cannot be parsed, an error reported while the
    source is not closed, or a close with a status other than 200; the user may
    also stop it or reload the page.  Then, again and again, nothing is
    generated and no message is pending.  A stream that is closed with status
    200 and no [DONE] message does not count as ended: the page goes on waiting
    (clean_close_ignored). *)
Theorem generation_ends `{MessageCodec} (t : jsstr → jsstr) (n0 : nat) (σ : nat → Chat) (ε : nat → Event) :
  fair_run t n0 σ ε →
  ∀ n, ∃ k, n ≤ k ∧ generating (σ k) = false ∧ none_pending (messages (σ k)).
Proof.
  intros Hrun n. destruct (generation_settles t n0 σ ε Hrun n) as (k & Hk & Hg). exists k. split; [done|].
  split; [done|]. by apply (run_inv t n0 σ ε Hrun k).
Qed.

(** Why the last kind of close is left out: the page does not react to it, so
    that only the stop button or a reload ends the generation. *)
Lemma clean_close_ignored `{MessageCodec} (t : jsstr → jsstr) (c : Chat) (source : nat) (now : Z) (data : option jsstr) :
  step t c (StreamReadyState source now (Some STREAM_CLOSED_READY_STATE) (Some 200%Z)) = c
  ∧ step t c (StreamError source now (Some STREAM_CLOSED_READY_STATE) data) = c.
Proof. done. Qed.

(** Stopping ends the generation at once, in whatever state: nothing is
    generated or pending any more and the buffer is in the message. *)
Theorem stop_settles `{MessageCodec} (t : jsstr → jsstr) (now : Z) (c : Chat) :
  reachable t c →
  let c' := stopGeneration now c in
  generating c' = false ∧ none_pending (messages c') ∧ empty_buffer (buffer c').
Proof.
  intros Hc. destruct (stop_spec now c (reachable_inv t c Hc)) as [Hi Hg]. split; [done | by apply idle_buffer].
Qed.

(** ** Runs *)

(** The state after events, and whether the page allows them. *)
Definition play `{MessageCodec} (t : jsstr → jsstr) (es : list Event) (c : Chat) : Chat := fold_left (step t) es c.

Fixpoint allowed `{MessageCodec} (t : jsstr → jsstr) (es : list Event) (c : Chat) : bool :=
  match es with [] => true | e :: es' => enabled c e && allowed t es' (step t c e) end.

Lemma play_reachable `{MessageCodec} t es c : reachable t c → allowed t es c = true → reachable t (play t es c).
Proof.
  revert c. induction es as [|e es IH]; intros c Hc Ha; [done|]. cbn [allowed] in Ha.
  apply andb_true_iff in Ha as [He Ha]. apply IH; [by apply reach_step | done].
Qed.

Definition demo_config : PlaygroundConfig :=
  {| model := js "gpt-4o"; group := js "default"; temperature := num_of_string (js "0.7"); top_p := num_of_Z 1;
     max_tokens := num_of_Z 4096; frequency_penalty := num_zero; presence_penalty := num_zero; seed := None;
     stream := true |}.

Definition demo_parameters : ParameterEnabled :=
  {| on_temperature := true; on_top_p := true; on_max_tokens := false; on_frequency_penalty := true;
     on_presence_penalty := true; on_seed := false |}.

Definition demo_ids (n : N) : Ids :=
  {| user_key := [117%N; n]; user_version := [118%N; n]; answer_key := [97%N; n]; answer_version := [98%N; n] |}.

(** A page without stored messages, in English. *)
#[local] Existing Instance schema_codec.

Definition demo (es : list Event) : Chat := play (λ s, s) es (load_page (λ s, s) 0 demo_config demo_parameters None).

Definition demo_allowed (es : list Event) : bool :=
  allowed (λ s, s) es (load_page (λ s, s) 0 demo_config demo_parameters None).

Lemma demo_reachable es : demo_allowed es = true → reachable (λ s, s) (demo es).
Proof. apply play_reachable, reach_first. Qed.

(** An event with a piece of the answer. *)
Definition piece (source : nat) (now : Z) (s : jsstr) : Event :=
  StreamData source now (jq "{`choices`:[{`delta`:{`content`:" ++ quote_json s ++ js "}}]}").

(** A question whose answer is stopped on its way, and the reload of the page. *)
Definition demo_stopped : list Event :=
  [Submit (demo_ids 1) true 10 (js "hi"); piece 0 20 (js "Hel"); FlushTimer 30; piece 0 35 (js "lo"); Stop 40].

Lemma reachable_settled_witness :
  demo_allowed demo_stopped = true
  ∧ only_last_pending (messages (demo demo_stopped))
  ∧ (generating (demo demo_stopped) = false → none_pending (messages (demo demo_stopped)) ∧ empty_buffer (buffer (demo demo_stopped)))
  ∧ latest (saving (demo demo_stopped)) = messages (demo demo_stopped).
Proof.
  split; [vm_compute; reflexivity|]. apply (reachable_settled (λ s, s)), demo_reachable. vm_compute. reflexivity.
Defined.

Lemma stop_settles_witness :
  let c := demo (take 4 demo_stopped) in
  generating c = true ∧ generating (stopGeneration 40 c) = false
  ∧ none_pending (messages (stopGeneration 40 c)) ∧ empty_buffer (buffer (stopGeneration 40 c)).
Proof.
  split; [vm_compute; reflexivity|]. apply (stop_settles (λ s, s)), demo_reachable. vm_compute. reflexivity.
Defined.

(** A run for ever: a question, its answer, then nothing but idle steps. *)
Definition demo_answered : list Event :=
  [Submit (demo_ids 1) true 10 (js "hi"); StreamData 0 20 STREAM_DONE_MESSAGE].

Definition demo_event (k : nat) : Event := default (SetConfig demo_config demo_parameters) (demo_answered !! k).

Fixpoint demo_run (k : nat) : Chat :=
  match k with
  | O => load_page (λ s, s) 0 demo_config demo_parameters None
  | S k' => step (λ s, s) (demo_run k') (demo_event k')
  end.

Lemma demo_idle k : demo_run (2 + k) = demo_run 2.
Proof.
  induction k as [|k IH]; [done|]. change (demo_run (2 + S k)) with (step (λ s, s) (demo_run (2 + k)) (demo_event (2 + k))).
  rewrite IH. vm_compute. reflexivity.
Qed.

Lemma demo_cases (P : nat → Prop) : P 0 → P 1 → (∀ k, P (2 + k)) → ∀ n, P n.
Proof. intros H0 H1 H2 [|[|k]]; [done | done | apply H2]. Qed.

Lemma demo_fair : fair_run (λ s, s) 0 demo_run demo_event.
Proof.
  split.
  - apply reach_first.
  - apply demo_cases; [vm_compute; reflexivity.. | done].
  - done.
  - intros k _. revert k. by apply demo_cases.
  - apply (demo_cases (λ n, ∀ s, 0 ≤ n → sseSource (streams (demo_run n)) = Some s → _)).
    + intros s _ E. vm_compute in E. discriminate.
    + intros s _ E. vm_compute in E. injection E as <-. exists 1. split; [lia|]. vm_compute. reflexivity.
    + intros k s _. rewrite demo_idle. intros E. vm_compute in E. discriminate.
  - apply (demo_cases (λ n, ∀ i, 0 ≤ n → i ∈ waiting (requests (demo_run n)) → _)).
    + intros i _ E. vm_compute in E. by apply not_elem_of_nil in E.
    + intros i _ E. vm_compute in E. by apply not_elem_of_nil in E.
    + intros k i _. rewrite demo_idle. intros E. vm_compute in E. by apply not_elem_of_nil in E.
Qed.

Lemma generation_ends_witness :
  generating (demo_run 1) = true
  ∧ ∀ n, ∃ k, n ≤ k ∧ generating (demo_run k) = false ∧ none_pending (messages (demo_run k)).
Proof.
  split; [vm_compute; reflexivity|]. exact (generation_ends (λ s, s) 0 demo_run demo_event demo_fair).
Defined.
