(* ===== verification/PlayText.v ===== *)
(** * The text of an answer

    However the network cuts an answer into pieces and whenever the timer puts
    the buffer into the message, the finished answer shows the text that was
    sent: for pieces that are appended (as long as none repeats what stands
    right in front of it) and for pieces that each carry the text so far.  The
    last part has runs where the page shows something else. *)

From Stdlib Require Import ZArith.
From S2P Require Import Prelude JsString JsNumber JsCollections JsValue Json JsonFacts PlayMessages PlayStorage.
From S2P Require Import PlayCodec PlayChat PlaySpec PlayLive.

(** ** Think tags *)

Lemma strip_prefix_inv p s r : strip_prefix p s = Some r → s = p ++ r.
Proof.
  revert s. induction p as [|c p IH]; intros s H; [by injection H as ->|]. destruct s as [|d s]; [done|].
  cbn [strip_prefix] in H. destruct (c =? d)%N eqn:E; [|done]. apply N.eqb_eq in E as ->. cbn. f_equal. by apply IH.
Qed.

Lemma includes_cons c s p : includes (c :: s) p = starts_with (c :: s) p || includes s p.
Proof. done. Qed.

(** The first occurrence of a tag that starts with a unit it does not repeat. *)
Lemma cut_at_first c p v s :
  c ∉ p → includes v (c :: p) = false → cut_at (c :: p) (v ++ c :: p ++ s) = Some (v, s).
Proof.
  intros Hc. induction v as [|d v IH]; intros Hv.
  - change ([] ++ c :: p ++ s) with ((c :: p) ++ s). unfold cut_at.
    destruct ((c :: p) ++ s) eqn:E; [done|]. by rewrite <-E, strip_prefix_app.
  - rewrite includes_cons in Hv. apply orb_false_iff in Hv as [Hd Hv].
    cbn [app cut_at]. destruct (strip_prefix (c :: p) (d :: v ++ c :: p ++ s)) as [r|] eqn:E; [|by rewrite IH].
    exfalso. apply strip_prefix_inv in E. cbn [app] in E. injection E as -> E.
    unfold starts_with in Hd. apply bool_decide_eq_false in Hd. apply Hd. apply prefix_cons.
    apply app_eq_inv in E as [(w & -> & _)|(w & -> & Hw)]; [by exists w|].
    destruct w as [|x w]; [by rewrite app_nil_r|]. exfalso. injection Hw as <- _. apply Hc. set_solver.
Qed.

Lemma cut_at_none p s : p ≠ [] → includes s p = false → cut_at p s = None.
Proof.
  intros Hp. induction s as [|c s IH]; intros H.
  - by destruct p.
  - rewrite includes_cons in H. apply orb_false_iff in H as [Hc H]. cbn [cut_at].
    destruct (strip_prefix p (c :: s)) as [r|] eqn:E; [|by rewrite IH]. apply strip_prefix_inv in E.
    unfold starts_with in Hc. apply bool_decide_eq_false in Hc. destruct Hc. rewrite E. by exists r.
Qed.

(** An answer: a visible text and a thought, again and again, then a visible
    text; the last thought may be unfinished. *)
Definition closed_thoughts (l : list (jsstr * jsstr)) : jsstr :=
  concat (map (λ vt, fst vt ++ think_open ++ snd vt ++ think_close) l).

Definition thoughts_ok (l : list (jsstr * jsstr)) : Prop :=
  Forall (λ vt, includes (fst vt) think_open = false ∧ includes (snd vt) think_close = false) l.

Lemma visible_parts_concat v vs : concat (push_part v vs) = v ++ concat vs.
Proof. unfold push_part. destruct (truthy_str v) eqn:E; [done|]. by apply truthy_str_false in E as ->. Qed.

Lemma think_loop_closed l rest f :
  thoughts_ok l → length l < f →
  ∃ vs rs u, think_loop (f - length l) rest = (vs, rs, u)
    ∧ ∃ vs', think_loop f (closed_thoughts l ++ rest) = (vs', map snd l ++ rs, u)
             ∧ concat vs' = concat (map fst l) ++ concat vs.
Proof.
  intros Hl. revert f. induction Hl as [|[v th] l [Hv Ht] _ IH]; intros f Hf.
  - rewrite Nat.sub_0_r. destruct (think_loop f rest) as [[vs rs] u] eqn:E. exists vs, rs, u. split; [done|].
    by exists vs.
  - destruct f as [|f]; [simpl in Hf; lia|]. cbn [length] in *.
    destruct (IH f) as (vs & rs & u & E & vs' & E' & Hvs); [lia|].
    exists vs, rs, u. split; [by replace (S f - S (length l)) with (f - length l) by lia|].
    exists (push_part v vs'). cbn [fst snd] in Hv, Ht.
    assert (closed_thoughts ((v, th) :: l) ++ rest
            = v ++ 60%N :: js "think>" ++ th ++ 60%N :: js "/think>" ++ closed_thoughts l ++ rest) as ->.
    { unfold closed_thoughts. cbn [map concat fst snd].
      assert (think_open = 60%N :: js "think>" ∧ think_close = 60%N :: js "/think>") as [-> ->] by (split; reflexivity).
      by rewrite <-!app_assoc. }
    cbn [think_loop]. change think_open with (60%N :: js "think>") in *. change think_close with (60%N :: js "/think>") in *.
    rewrite cut_at_first; [|apply (bool_decide_eq_true_1 _); vm_compute; reflexivity | done].
    rewrite cut_at_first; [|apply (bool_decide_eq_true_1 _); vm_compute; reflexivity | done].
    rewrite E'. split; [done|]. rewrite visible_parts_concat, Hvs. cbn [map concat fst]. by rewrite app_assoc.
Qed.

Lemma length_closed l : length l ≤ length (closed_thoughts l).
Proof.
  induction l as [|[v th] l IH]; [done|]. unfold closed_thoughts in *. cbn [map concat fst snd length].
  rewrite !length_app. change (length think_open) with 7. lia.
Qed.

Lemma includes_open_part a s : includes (a ++ think_open ++ s) think_open = true.
Proof. apply includes_spec. eauto. Qed.

(** The parts of a finished answer. *)
Lemma parse_closed l v :
  l ≠ [] → thoughts_ok l → includes v think_open = false →
  parseThinkTags (closed_thoughts l ++ v)
  = {| visibleContent := trim (concat (map fst l) ++ v);
       t_reasoning := trim (join [10%N; 10%N] (map snd l)); hasUnclosedTag := false |}.
Proof.
  intros Hne Hl Hv. unfold parseThinkTags.
  assert (includes (closed_thoughts l ++ v) think_open = true) as ->.
  { destruct l as [|[v' th] l]; [done|]. unfold closed_thoughts. cbn [map concat fst snd]. rewrite <-!app_assoc.
    apply includes_open_part. }
  cbn [negb]. set (f := S (length _)).
  assert (length l < f) as Hf by (unfold f; rewrite length_app; pose proof (length_closed l); lia).
  destruct (think_loop_closed l v f Hl Hf) as (vs & rs & u & E & vs' & -> & Hvs).
  destruct (f - length l) as [|g] eqn:Eg; [lia|]. cbn [think_loop] in E. rewrite cut_at_none in E by done.
  injection E as <- <- <-. rewrite Hvs, visible_parts_concat. cbn [concat]. by rewrite !app_nil_r.
Qed.

(** An answer that is cut off inside a thought. *)
Lemma parse_open l v th :
  thoughts_ok l → includes v think_open = false → includes th think_close = false →
  parseThinkTags (closed_thoughts l ++ v ++ think_open ++ th)
  = {| visibleContent := trim (concat (map fst l) ++ v);
       t_reasoning := trim (join [10%N; 10%N] (map snd l ++ [th])); hasUnclosedTag := true |}.
Proof.
  intros Hl Hv Hth. unfold parseThinkTags.
  assert (includes (closed_thoughts l ++ v ++ think_open ++ th) think_open = true) as ->.
  { rewrite app_assoc. apply includes_open_part. }
  cbn [negb]. set (f := S (length _)).
  assert (length l < f) as Hf by (unfold f; rewrite length_app; pose proof (length_closed l); lia).
  destruct (think_loop_closed l (v ++ think_open ++ th) f Hl Hf) as (vs & rs & u & E & vs' & -> & Hvs).
  destruct (f - length l) as [|g] eqn:Eg; [lia|]. cbn [think_loop] in E.
  change think_open with (60%N :: js "think>") in *.
  assert (cut_at (60%N :: js "think>") (v ++ (60%N :: js "think>") ++ th) = Some (v, th)) as Ec.
  { apply cut_at_first; [apply (bool_decide_eq_true_1 _); vm_compute; reflexivity | done]. }
  rewrite Ec, cut_at_none in E by done. injection E as <- <- <-. rewrite Hvs, visible_parts_concat. cbn [concat].
  by rewrite app_nil_r.
Qed.

(** C28: an answer is taken apart exactly at its tags: without a tag the text
    is shown as it is; otherwise the visible texts are shown in a row, the
    thoughts are set apart by blank lines, and a tag counts as open exactly if
    the last thought is unfinished. *)
Theorem think_tags_spec (l : list (jsstr * jsstr)) (v th : jsstr) :
  thoughts_ok l → includes v think_open = false → includes th think_close = false →
  parseThinkTags (closed_thoughts l ++ v)
  = {| visibleContent := if bool_decide (l = []) then v else trim (concat (map fst l) ++ v);
       t_reasoning := trim (join [10%N; 10%N] (map snd l)); hasUnclosedTag := false |}
  ∧ parseThinkTags (closed_thoughts l ++ v ++ think_open ++ th)
    = {| visibleContent := trim (concat (map fst l) ++ v);
         t_reasoning := trim (join [10%N; 10%N] (map snd l ++ [th])); hasUnclosedTag := true |}.
Proof.
  intros Hl Hv Hth. split; [|by apply parse_open]. case_bool_decide as E.
  - subst. unfold parseThinkTags. cbn [closed_thoughts map concat app]. by rewrite Hv.
  - by apply parse_closed.
Qed.

Lemma think_tags_spec_witness :
  thoughts_ok [([], js "first"); (js "A", js "second")] ∧ includes (js " B") think_open = false
  ∧ includes (js "</thi") think_close = false
  ∧ parseThinkTags (js "<think>first</think>A<think>second</think> B")
    = {| visibleContent := js "A B"; t_reasoning := js "first" ++ [10%N; 10%N] ++ js "second"; hasUnclosedTag := false |}.
Proof.
  assert (thoughts_ok [([], js "first"); (js "A", js "second")]) as H1 by (repeat constructor).
  split; [done|]. split; [reflexivity|]. split; [reflexivity|].
  exact (proj1 (think_tags_spec [([], js "first"); (js "A", js "second")] (js " B") (js "</thi") H1 eq_refl eq_refl)).
Defined.

(** ** Streams *)

(** What an answer shows once it is complete. *)
Definition visible_text (s : jsstr) : jsstr :=
  if includes s think_open then visibleContent (parseThinkTags s) else s.

(** Messages keep their author, and the text and the status are known after
    each operation. *)
Lemma timing_content now m : getMessageContent (completeAssistantTiming now m) = getMessageContent m.
Proof. unfold completeAssistantTiming. by case_bool_decide. Qed.

Lemma reasoning_timing_content now m : getMessageContent (completeReasoningTiming now m) = getMessageContent m.
Proof. unfold completeReasoningTiming. by repeat case_match. Qed.

Lemma reasoning_timing_from now m : from (completeReasoningTiming now m) = from m.
Proof. unfold completeReasoningTiming. by repeat case_match. Qed.

Lemma timing_from now m : from (completeAssistantTiming now m) = from m.
Proof. unfold completeAssistantTiming. by case_bool_decide. Qed.

Lemma process_content now m s : getMessageContent (processStreamingContent now m s) = getMessageContent m ++ s.
Proof. unfold processStreamingContent. by destruct (match reasoning m with Some _ => _ | None => _ end). Qed.

Lemma process_from now m s : from (processStreamingContent now m s) = from m.
Proof. unfold processStreamingContent. by destruct (match reasoning m with Some _ => _ | None => _ end). Qed.

Lemma content_chunk now m d :
  status m ≠ Some ERROR →
  let m' := applyStreamingChunk now m ContentChunk d in
  getMessageContent m' = getMessageContent m ++ getAppendableChunk (getMessageContent m) d
  ∧ from m' = from m ∧ status m' = Some STREAMING.
Proof.
  intros Hs. cbn zeta. unfold applyStreamingChunk. rewrite bool_decide_eq_false_2 by done.
  set (d' := getAppendableChunk _ d). set (m1 := processStreamingContent now m d').
  assert (getMessageContent m1 = getMessageContent m ++ d' ∧ from m1 = from m) as [Hc Hf]
    by (split; [apply process_content | apply process_from]).
  clearbody m1. split; [|split; [|done]].
  - rewrite <-Hc. change (getMessageContent (with_status STREAMING ?x)) with (getMessageContent x).
    destruct (default false _); [done | apply reasoning_timing_content].
  - rewrite <-Hf. change (from (with_status STREAMING ?x)) with (from x).
    destruct (default false _); [done | apply reasoning_timing_from].
Qed.

Lemma complete_content now m :
  getMessageContent (completeAssistantMessage now m) = visible_text (getMessageContent m)
  ∧ from (completeAssistantMessage now m) = from m ∧ status (completeAssistantMessage now m) = Some COMPLETE.
Proof.
  unfold completeAssistantMessage. rewrite timing_content, timing_from, timing_status. split; [|split; [|done]].
  - change (getMessageContent (with_status COMPLETE ?x)) with (getMessageContent x). unfold finalizeMessage.
    rewrite reasoning_timing_content. unfold visible_text. by destruct (includes (getMessageContent m) think_open).
  - change (from (with_status COMPLETE ?x)) with (from x). unfold finalizeMessage. by rewrite reasoning_timing_from.
Qed.

(** Events of a stream: pieces of text and the timer of the buffer. *)
Inductive feeds (source : nat) : list Event → list jsstr → Prop :=
  | feeds_nil : feeds source [] []
  | feeds_piece now data d es ds :
      parseStreamMessageUpdates data = Ok [(ContentChunk, d)] → feeds source es ds →
      feeds source (StreamData source now data :: es) (d :: ds)
  | feeds_tick now es ds : feeds source es ds → feeds source (FlushTimer now :: es) ds.

(** A way of sending a text: what is in the message and what is in the buffer
    after the pieces received so far. *)
Record protocol (J : list jsstr → jsstr → jsstr → Prop) (ds : list jsstr) (s : jsstr) : Prop := {
  proto_first : J [] [] [];
  proto_merge r d C P : r ++ [d] `prefix_of` ds → J r C P → J (r ++ [d]) C (mergePendingStreamChunk P d);
  proto_flush r C P : r `prefix_of` ds → J r C P → P ≠ [] → J r (C ++ getAppendableChunk C P) [];
  proto_done C : J ds C [] → C = s
}.

Section stream.
Context `{MessageCodec} (t : jsstr → jsstr).
Context (J : list jsstr → jsstr → jsstr → Prop) (ds : list jsstr) (s : jsstr) (Hproto : protocol J ds s).
Context (before : list Message).

(** The page while the answer comes in. *)
Record incoming (source : nat) (r : list jsstr) (c : Chat) : Prop := {
  in_message : ∃ m, messages c = before ++ [m] ∧ from m = ASSISTANT
                    ∧ (status m = Some LOADING ∨ status m = Some STREAMING)
                    ∧ J r (getMessageContent m) (pendingContent (buffer c));
  in_reasoning : pendingReasoning (buffer c) = [];
  in_source : sseSource (streams c) = Some source
}.

Lemma incoming_flush source r now c :
  r `prefix_of` ds → incoming source r c →
  incoming source r (flushStreamUpdates now c) ∧ pendingContent (buffer (flushStreamUpdates now c)) = [].
Proof.
  intros Hr [(m & Hm & Hf & Hs & HJ) Hre Hsrc]. unfold flushStreamUpdates. rewrite Hre. change (truthy_str []) with false. cbn [negb andb].
  destruct (truthy_str (pendingContent (buffer c))) eqn:E; cbn [negb].
  - split; [|done]. apply truthy_str_true in E.
    destruct (content_chunk now m (pendingContent (buffer c))) as (Hc & Hf' & Hs'); [destruct Hs; congruence|].
    split; [|done|done]. exists (applyStreamingChunk now m ContentChunk (pendingContent (buffer c))).
    split; [|split; [by rewrite Hf'|]; split; [by right|]].
    + change (updateLastAssistantMessage (messages c) (apply_pending now (buffer c)) = before ++ [applyStreamingChunk now m ContentChunk (pendingContent (buffer c))]).
      rewrite Hm, update_last_snoc, bool_decide_eq_true_2 by done. unfold apply_pending. rewrite Hre. change (truthy_str []) with false. cbn iota.
      by rewrite (proj2 (truthy_str_true _)) by done.
    + rewrite Hc. by apply (proto_flush J ds s).
  - apply truthy_str_false in E. split; [|done]. split; [by exists m | by cbn | done].
Qed.

Lemma incoming_piece source r d c :
  r ++ [d] `prefix_of` ds → incoming source r c →
  incoming source (r ++ [d]) (handleStreamUpdate (ContentChunk, d) c).
Proof.
  intros Hr [(m & Hm & Hf & Hs & HJ) Hre Hsrc]. split; [|done|done].
  exists m. split; [done|]. split; [done|]. split; [done|]. by apply (proto_merge J ds s).
Qed.

Lemma not_done data us : parseStreamMessageUpdates data = Ok us → isStreamDoneMessage data = false.
Proof.
  unfold isStreamDoneMessage. case_bool_decide as E; [|done]. subst. intros H1. exfalso. revert H1.
  vm_compute. discriminate.
Qed.

Lemma incoming_feed source es r rest c :
  feeds source es rest → r ++ rest = ds → incoming source r c →
  incoming source ds (fold_left (step t) es c).
Proof.
  intros Hfeed. revert r c. induction Hfeed as [|now data d es ds' Hd Hfeed IH|now es ds' Hfeed IH]; intros r c Hr Hc.
  - rewrite app_nil_r in Hr. by subst.
  - cbn [fold_left step]. apply (IH (r ++ [d])); [by rewrite <-app_assoc|]. unfold on_message.
    rewrite (not_done _ _ Hd), Hd. cbn [fold_left]. apply incoming_piece; [|done]. exists ds'. by rewrite <-app_assoc.
  - cbn [fold_left step]. apply (IH r); [done|]. apply incoming_flush; [by exists ds' | done].
Qed.

Lemma incoming_done source now c :
  incoming source ds c →
  ∃ m, messages (on_message t source now STREAM_DONE_MESSAGE c) = before ++ [m]
    ∧ from m = ASSISTANT ∧ status m = Some COMPLETE ∧ getMessageContent m = visible_text s.
Proof.
  intros Hc. unfold on_message. assert (isStreamDoneMessage STREAM_DONE_MESSAGE = true) as -> by (vm_compute; reflexivity).
  set (c0 := with_streams _ c).
  assert (∃ c1, closeActiveStream (Some source) c0 = c1 ∧ messages c1 = messages c ∧ buffer c1 = buffer c)
    as (c1 & -> & Hm1 & Hb1).
  { eexists. split; [reflexivity|]. unfold closeActiveStream. by destruct (_ || _). }
  assert (incoming source ds (with_streams (streams c) c1)) as Hc1.
  { destruct Hc as [Hm Hr Hs]. split; cbn; rewrite ?Hm1, ?Hb1; done. }
  destruct (incoming_flush source ds now _ ltac:(done) Hc1) as [[(m & Hm & Hf & Hs & HJ) _ _] Hp].
  assert (messages (flushStreamUpdates now (with_streams (streams c) c1)) = messages (flushStreamUpdates now c1)
          ∧ buffer (flushStreamUpdates now (with_streams (streams c) c1)) = buffer (flushStreamUpdates now c1))
    as [Em Eb] by (unfold flushStreamUpdates; cbn [buffer with_streams]; by destruct (_ && _)).
  rewrite Em in Hm. rewrite Eb in HJ, Hp. rewrite Hp in HJ. apply (proto_done J ds s Hproto) in HJ.
  unfold handleStreamComplete.
  set (c2 := flushStreamUpdates now c1) in *. clearbody c2.
  change (messages (updateMessages ?f (setIsRequesting false c2))) with (f (messages c2)). cbn beta.
  rewrite Hm, update_last_snoc, bool_decide_eq_true_2 by done.
  assert (isAssistantMessageFinal m = false) as ->.
  { unfold isAssistantMessageFinal. by destruct Hs as [-> | ->]. }
  destruct (complete_content now m) as (Hcc & Hcf & Hcs). eexists. split; [done|].
  by rewrite Hcc, Hcf, Hcs, HJ.
Qed.
End stream.

(** *** Pieces to be appended *)

(** No piece, nor a run of pieces, begins with the run right in front of it. *)
Definition no_echo (ds : list jsstr) : Prop :=
  ∀ a w1 w2 b, ds = a ++ w1 ++ w2 ++ b → concat w1 ≠ [] → starts_with (concat w2) (concat w1) = false.

Definition appended (r : list jsstr) (C P : jsstr) : Prop :=
  ∃ w1 w2, r = w1 ++ w2 ∧ C = concat w1 ∧ P = concat w2.

Lemma appended_protocol ds : no_echo ds → protocol appended ds (concat ds).
Proof.
  intros Hne. split.
  - by exists [], [].
  - intros r d C P [b Hb] (w1 & w2 & -> & -> & ->). exists w1, (w2 ++ [d]). split; [by rewrite app_assoc|].
    split; [done|]. rewrite concat_app. cbn [concat]. rewrite app_nil_r. unfold mergePendingStreamChunk.
    destruct (truthy_str (concat w2)) eqn:E; [|done]. apply truthy_str_true in E. cbn [negb orb].
    specialize (Hne w1 w2 [d] b). cbn [concat] in Hne. rewrite app_nil_r in Hne. rewrite Hne; [done| |done].
    by rewrite Hb, <-!app_assoc.
  - intros r C P [b Hb] (w1 & w2 & -> & -> & ->) HP. exists (w1 ++ w2), []. rewrite app_nil_r. split; [done|].
    split; [|done]. rewrite concat_app. f_equal. unfold getAppendableChunk.
    destruct (truthy_str (concat w1)) eqn:E; [|done]. apply truthy_str_true in E. cbn [negb orb].
    specialize (Hne [] w1 w2 b). rewrite Hne; [done| |done]. by rewrite Hb, <-app_assoc.
  - intros C (w1 & w2 & -> & -> & E). by rewrite concat_app, <-E, app_nil_r.
Qed.

(** *** Pieces that carry the text so far *)

Definition growing (ds : list jsstr) : Prop := ∀ a x y b, ds = a ++ x :: y :: b → x `prefix_of` y.

Definition replaced (r : list jsstr) (C P : jsstr) : Prop :=
  (r = [] ∧ C = [] ∧ P = [])
  ∨ ∃ r' x, r = r' ++ [x] ∧ ((P = x ∧ C `prefix_of` x) ∨ (P = [] ∧ C = x)).

Lemma starts_with_prefix p s : p `prefix_of` s → starts_with s p = true.
Proof. apply starts_with_spec. Qed.

Lemma replaced_protocol ds : growing ds → protocol replaced ds (default [] (last ds)).
Proof.
  intros Hg. split.
  - by left.
  - intros r d C P [b Hb] [(-> & -> & ->)|(r' & x & -> & H)]; right.
    + exists [], d. split; [done|]. left. split; [done | apply prefix_nil].
    + exists (r' ++ [x]), d. split; [done|]. left.
      assert (x `prefix_of` d) as Hx by (apply (Hg r' x d b); by rewrite Hb, <-!app_assoc).
      unfold mergePendingStreamChunk. destruct H as [[-> Hc]|[-> ->]]; [|done].
      split; [|by etrans]. destruct (truthy_str x) eqn:E; cbn [negb orb].
      * by rewrite starts_with_prefix.
      * by apply truthy_str_false in E as ->.
  - intros r C P _ [(-> & -> & ->)|(r' & x & -> & [[-> Hc]|[-> ->]])] HP; [done| |done]. right.
    exists r', x. split; [done|]. right. split; [done|]. unfold getAppendableChunk.
    destruct (truthy_str C) eqn:E; cbn [negb orb].
    + rewrite starts_with_prefix by done. destruct Hc as [k ->]. cbn [negb]. by rewrite drop_app_length.
    + by apply truthy_str_false in E as ->.
  - intros C [(-> & -> & _)|(r' & x & -> & H)]; [done|]. rewrite last_snoc. cbn [default].
    destruct H as [[<- Hc]|[_ ->]]; [|done]. by apply prefix_nil_inv in Hc.
Qed.

(** C20: however a streamed answer is cut into pieces, and whenever the timer of
    the buffer fires, the finished message shows the visible part of the text
    that the content pieces make up.  From a waiting, empty last message of the assistant with an
    empty buffer, after content pieces of the open stream, ticks of the timer
    and the [DONE] message, the message stands in the same place, is complete,
    and shows [visible_text s]: the text [s] itself if it has no think tag,
    otherwise what is outside the tags, trimmed.  Here [s] is the
    pieces in a row, if no run of pieces begins with the run right in front of
    it, or the last piece, if each piece is a prefix of the next. *)
Theorem streamed_text `{MessageCodec} (t : jsstr → jsstr) (c : Chat) (before : list Message) (m : Message)
    (source : nat) (es : list Event) (ds : list jsstr) (s : jsstr) (now : Z) :
  messages c = before ++ [m] → from m = ASSISTANT → status m = Some LOADING → getMessageContent m = [] →
  empty_buffer (buffer c) → sseSource (streams c) = Some source → feeds source es ds →
  (no_echo ds ∧ s = concat ds ∨ growing ds ∧ s = default [] (last ds)) →
  ∃ m', messages (play t (es ++ [StreamData source now STREAM_DONE_MESSAGE]) c) = before ++ [m']
    ∧ from m' = ASSISTANT ∧ status m' = Some COMPLETE ∧ getMessageContent m' = visible_text s.
Proof.
  intros Hm Hf Hs Hc [Hb1 Hb2] Hsrc Hes Hds. unfold play. rewrite fold_left_app. cbn [fold_left step].
  assert (∃ J, protocol J ds s) as [J HJ].
  { destruct Hds as [[Hd ->]|[Hd ->]]; [exists appended; by apply appended_protocol | exists replaced; by apply replaced_protocol]. }
  apply (incoming_done t J ds s HJ). apply (incoming_feed t J ds s HJ before source es [] ds c Hes); [done|].
  split; [|done|done]. exists m. split; [done|]. split; [done|]. split; [by left|]. rewrite Hc, Hb1. apply HJ.
Qed.

(** The echo condition is decidable. *)
Definition no_echo_check (ds : list jsstr) : bool :=
  let ixs := seq 0 (S (length ds)) in
  forallb (λ i, forallb (λ j, forallb (λ k,
    let w1 := concat (take j (drop i ds)) in
    let w2 := concat (take k (drop j (drop i ds))) in
    negb (truthy_str w1) || negb (starts_with w2 w1)) ixs) ixs) ixs.

Lemma no_echo_spec ds : no_echo_check ds = true → no_echo ds.
Proof.
  unfold no_echo_check. intros H a w1 w2 b E Hne. rewrite forallb_forall_elem in H.
  assert (∀ i, i ≤ length ds → i ∈ seq 0 (S (length ds))) as Hin by (intros i Hi; apply elem_of_seq; lia).
  assert (length ds = length a + (length w1 + (length w2 + length b))) as Hl by (rewrite E, !length_app; lia).
  specialize (H (length a) (Hin (length a) ltac:(lia))). rewrite forallb_forall_elem in H.
  specialize (H (length w1) (Hin (length w1) ltac:(lia))). rewrite forallb_forall_elem in H.
  specialize (H (length w2) (Hin (length w2) ltac:(lia))). cbn beta in H.
  rewrite E, drop_app_length, drop_app_length, !take_app_length in H.
  apply orb_true_iff in H as [H|H]; [|by apply negb_true_iff in H].
  by apply negb_true_iff, truthy_str_false in H.
Qed.

#[local] Existing Instance schema_codec.

Definition demo_pieces : list jsstr := [js "Hel"; js "lo <th"; js "ink>aside</think>"; js " world"].

Definition demo_feed : list Event :=
  [piece 0 20 (js "Hel"); FlushTimer 30; piece 0 35 (js "lo <th"); piece 0 36 (js "ink>aside</think>"); FlushTimer 80;
   piece 0 90 (js " world")].

Lemma streamed_text_witness :
  let c := demo [Submit (demo_ids 1) true 10 (js "hi")] in
  no_echo demo_pieces ∧
  ∃ m', messages (play (λ s, s) (demo_feed ++ [StreamData 0 99 STREAM_DONE_MESSAGE]) c) = take 1 (messages c) ++ [m']
    ∧ from m' = ASSISTANT ∧ status m' = Some COMPLETE ∧ getMessageContent m' = js "Hello  world".
Proof.
  assert (no_echo demo_pieces) as Hn by (apply no_echo_spec; vm_compute; reflexivity).
  assert (feeds 0 demo_feed demo_pieces) as Hf.
  { unfold demo_feed, demo_pieces, piece.
    repeat (apply feeds_tick || (apply feeds_piece; [vm_compute; reflexivity|])). apply feeds_nil. }
  assert (visible_text (concat demo_pieces) = js "Hello  world") as E
    by (apply (bool_decide_eq_true_1 _); vm_compute; reflexivity).
  split; [exact Hn|]. rewrite <-E.
  apply (streamed_text (λ s, s) (demo [Submit (demo_ids 1) true 10 (js "hi")])
           (take 1 (messages (demo [Submit (demo_ids 1) true 10 (js "hi")])))
           (createLoadingAssistantMessage (answer_key (demo_ids 1)) (answer_version (demo_ids 1)) 10) 0 demo_feed demo_pieces
           (concat demo_pieces) 99).
  - apply (bool_decide_eq_true_1 _). vm_compute. reflexivity.
  - reflexivity.
  - reflexivity.
  - reflexivity.
  - split; reflexivity.
  - reflexivity.
  - exact Hf.
  - left. split; [exact Hn | reflexivity].
Defined.

(** ** Runs that show something else *)

(** The text of the last message. *)
Definition shown (c : Chat) : jsstr := match last (messages c) with Some m => getMessageContent m | None => [] end.

Definition ask : Event := Submit (demo_ids 1) true 10 (js "hi").
Definition done_at (n : Z) : Event := StreamData 0 n STREAM_DONE_MESSAGE.

(** Two equal pieces at the beginning of a buffer count as one: whether an
    answer reads 1000 or 10 depends on the timer. *)
Lemma repeated_piece_lost :
  let digits := [piece 0 12 (js "0"); piece 0 13 (js "0"); piece 0 14 (js "0"); done_at 15] in
  shown (demo (ask :: piece 0 11 (js "1") :: digits)) = js "1000"
  ∧ shown (demo (ask :: piece 0 11 (js "1") :: FlushTimer 11 :: digits)) = js "10"
  ∧ demo_allowed (ask :: piece 0 11 (js "1") :: FlushTimer 11 :: digits) = true.
Proof.
  split_and!; apply (bool_decide_eq_true_1 _); vm_compute; reflexivity.
Qed.

(** An empty thought whose closing tag arrives in two pieces leaves a part of
    the tag as the reasoning. *)
Lemma broken_tag_kept :
  let c := demo [ask; piece 0 11 (js "<think>"); piece 0 12 (js "</"); FlushTimer 60; piece 0 61 (js "think>ok"); done_at 70] in
  shown c = js "ok" ∧ (r_content <$> (last (messages c) ≫= reasoning)) = Some (js "</").
Proof. split; apply (bool_decide_eq_true_1 _); vm_compute; reflexivity. Qed.

(** An editor that was open before is not disabled: submitting it replaces the
    answer, but what is buffered of the old answer goes into the new one. *)
Lemma old_answer_leaks :
  let run := [ask; done_at 20; OpenEdit (user_key (demo_ids 1)); Submit (demo_ids 2) true 30 (js "next");
              piece 1 40 (js "old answer"); SaveEdit (demo_ids 3) true 50 (js "changed") true; FlushTimer 90] in
  demo_allowed run = true ∧ shown (demo run) = js "old answer"
  ∧ (key <$> last (messages (demo run))) = Some (answer_key (demo_ids 3)).
Proof. split_and!; apply (bool_decide_eq_true_1 _); vm_compute; reflexivity. Qed.
