(* ===== verification/PlayStorageSpec.v ===== *)
(** * What the playground remembers

    A finished conversation of moderate size comes back from the storage as it
    was saved; whatever is stored, what is loaded is bounded, and is an
    unbroken end of the conversation. *)

From Stdlib Require Import ZArith.
From S2P Require Import Prelude JsString JsNumber JsCollections JsValue Json PlayMessages PlayStorage PlayCodec.
From S2P Require Import PlayChat PlaySpec PlayLive PlayText.

(** ** Sizes *)

Definition total_size (ms : list Message) : N := foldr (λ m n, (getMessageSize m + n)%N) 0%N ms.

Lemma total_cons m ms : total_size (m :: ms) = (getMessageSize m + total_size ms)%N.
Proof. done. Qed.

Lemma total_app ms ms' : total_size (ms ++ ms') = (total_size ms + total_size ms')%N.
Proof. induction ms as [|m ms IH]; [done|]. cbn [app]. rewrite !total_cons, IH. lia. Qed.

Lemma total_reverse ms : total_size (reverse ms) = total_size ms.
Proof. induction ms as [|m ms IH]; [done|]. rewrite reverse_cons, total_app, IH, !total_cons. change (total_size []) with 0%N. lia. Qed.

(** What [take_sized] takes: within the limit, or a single message. *)
Lemma take_sized_bound b n ms :
  (b = false → (n <= MAX_LOADED_MESSAGES_CHARS)%N) → (b = true → n = 0%N) →
  let kept := take_sized b n ms in
  (n + total_size kept <= MAX_LOADED_MESSAGES_CHARS)%N ∨ b = true ∧ length kept = 1.
Proof.
  revert b n. induction ms as [|m ms IH]; intros b n Hb Ht; cbn zeta; cbn [take_sized].
  - left. cbn. destruct b; [rewrite Ht by done; done | rewrite N.add_0_r; by apply Hb].
  - destruct (negb b && _) eqn:E.
    + left. cbn. rewrite N.add_0_r. apply Hb. by destruct b.
    + rewrite total_cons. cbn [length].
      destruct (decide (n + getMessageSize m <= MAX_LOADED_MESSAGES_CHARS)%N) as [Hle|Hgt].
      * destruct (IH false (n + getMessageSize m)%N) as [H|[? _]]; [done | done | | done]. left. cbn zeta in H. lia.
      * destruct b; [|by apply andb_false_iff in E as [E|E%N.ltb_ge]; [|]].
        right. split; [done|]. destruct ms as [|m' ms]; [done|]. cbn [take_sized].
        assert ((MAX_LOADED_MESSAGES_CHARS <? n + getMessageSize m + getMessageSize m')%N = true) as ->
          by (apply N.ltb_lt; lia). done.
Qed.

Lemma trim_size_bound ms :
  (total_size (trimMessagesByContentSize ms) <= MAX_LOADED_MESSAGES_CHARS)%N ∨ length (trimMessagesByContentSize ms) = 1.
Proof.
  unfold trimMessagesByContentSize. rewrite total_reverse, length_reverse.
  destruct (take_sized_bound true 0 (reverse ms)) as [H|[_ H]]; [done | done | left; cbn zeta in H; lia | by right].
Qed.

Lemma trim_messages_length ms : length (trimMessages ms) ≤ MAX_STORED_MESSAGES.
Proof. unfold trimMessages. destruct (_ <=? _) eqn:E; [by apply Nat.leb_le in E|]. rewrite length_drop. lia. Qed.

Lemma truncate_bound s n : (size (truncateText s n) <= n)%N.
Proof.
  unfold truncateText. destruct (_ <=? _)%N eqn:E; [by apply N.leb_le in E|].
  destruct (n <=? _)%N eqn:E'.
  - unfold size. rewrite length_take. lia.
  - apply N.leb_gt in E'. unfold size in *. rewrite length_app, length_take. lia.
Qed.

(** Taking thoughts out makes a text no longer. *)
Lemma cut_at_length p s a r : cut_at p s = Some (a, r) → length a + length r ≤ length s.
Proof.
  assert (∀ q w, strip_prefix p q = Some w → length w ≤ length q) as Hp.
  { intros q w ->%strip_prefix_inv. rewrite length_app. lia. }
  revert a r. induction s as [|c s IH]; intros a r H; unfold cut_at in H; fold cut_at in H.
  - destruct (strip_prefix p []) as [w|] eqn:E; [|done]. apply (inj Some) in H as [= <- <-]. by apply Hp in E.
  - destruct (strip_prefix p (c :: s)) as [w|] eqn:E.
    + apply (inj Some) in H as [= <- <-]. by apply Hp in E.
    + destruct (cut_at p s) as [[a' r']|] eqn:E'; [|done]. apply (inj Some) in H as [= <- <-].
      specialize (IH _ _ eq_refl). simpl. lia.
Qed.

Lemma push_part_length w l : length (concat (push_part w l)) = length w + length (concat l).
Proof. unfold push_part. destruct (truthy_str w) eqn:E; [by rewrite <-length_app|]. by apply truthy_str_false in E as ->. Qed.

Lemma think_loop_length f s : length (concat (fst (fst (think_loop f s)))) ≤ length s.
Proof.
  revert s. induction f as [|f IH]; intros s; [simpl; lia|]. cbn [think_loop].
  destruct (cut_at think_open s) as [[a r]|] eqn:E.
  - apply cut_at_length in E. destruct (cut_at think_close r) as [[th r']|] eqn:E'.
    + apply cut_at_length in E'. specialize (IH r'). destruct (think_loop f r') as [[vs rs] u]. cbn [fst] in *.
      rewrite push_part_length. lia.
    + cbn [fst]. rewrite push_part_length. simpl. lia.
  - cbn [fst]. rewrite push_part_length. simpl. lia.
Qed.

Lemma trim_length_le s : length (trim s) ≤ length s.
Proof.
  unfold trim. destruct (trim_end_prefix (trim_start s)) as [k Hk].
  assert (length (trim_start s) ≤ length s) as H.
  { unfold trim_start. clear. induction s as [|c s IH]; [done|]. cbn [drop_while]. destruct (is_ws c); simpl; lia. }
  rewrite Hk, length_app in H. lia.
Qed.

Lemma visible_content_length s : length (visibleContent (parseThinkTags s)) ≤ length s.
Proof.
  unfold parseThinkTags. destruct (negb _); [done|]. pose proof (think_loop_length (S (length s)) s) as H.
  destruct (think_loop _ s) as [[vs rs] u]. cbn [fst visibleContent] in *. etrans; [apply trim_length_le | done].
Qed.

Definition short_versions (m : Message) : Prop :=
  Forall (λ v, (size (content v) <= MAX_LOADED_MESSAGE_CHARS)%N) (versions m).

Lemma normalized_short now m : short_versions (normalizeStoredMessageForLoad now m).
Proof.
  assert (short_versions (shorten_message m)) as Hs.
  { unfold short_versions, shorten_message. cbn [versions with_reasoning with_versions]. apply Forall_map, Forall_forall.
    intros v _. apply truncate_bound. }
  unfold normalizeStoredMessageForLoad. destruct (negb _); [done|]. destruct (_ && _); [done|].
  set (m1 := shorten_message m) in *. clearbody m1.
  unfold completeAssistantTiming. set (m2 := with_reasoning_streaming false _).
  assert (versions m2 = versions (finalizeMessage now m1 None)) as E by done. clearbody m2.
  assert (short_versions m2) as H2; [|by case_bool_decide].
  unfold short_versions. rewrite E. unfold finalizeMessage, completeReasoningTiming.
  set (m3 := with_reasoning_streaming false _).
  assert (versions m3 = [{| id := id (getCurrentVersion m1);
            content := default (getMessageContent m1) (visibleContent <$>
              (if includes (getMessageContent m1) think_open then Some (parseThinkTags (getMessageContent m1)) else None)) |}])
    as E3 by done. clearbody m3.
  assert (size (getMessageContent m1) <= MAX_LOADED_MESSAGE_CHARS)%N as Hc.
  { unfold getMessageContent, getCurrentVersion. destruct Hs; [done|]. done. }
  assert (Forall (λ v, (size (content v) <= MAX_LOADED_MESSAGE_CHARS)%N) (versions m3)) as H3.
  { rewrite E3. constructor; [|constructor]. cbn [content]. destruct (includes _ _); [|done].
    change (default ?c (visibleContent <$> Some ?p)) with (visibleContent p).
    pose proof (visible_content_length (getMessageContent m1)). unfold size in *. lia. }
  clear E E3. by repeat case_match.
Qed.

(** ** Loading *)

(** C29: whatever is stored, what is loaded is an unbroken end of the stored
    conversation with texts cut to the limit: at most a hundred messages, and
    a single one or no more text than the limit; then only a last pending
    message is closed. *)
Theorem loaded_bounded `{MessageCodec} (t : jsstr → jsstr) (now : Z) (stored : jsstr) (ms l : list Message)
    (item' : option jsstr) :
  decode_messages stored = Ok ms → loadMessages t now (Some stored) = (Some l, item') →
  ∃ kept, l = sanitizeMessagesOnLoad t now kept
    ∧ kept `suffix_of` map (normalizeStoredMessageForLoad now) ms
    ∧ length kept ≤ MAX_STORED_MESSAGES
    ∧ ((total_size kept <= MAX_LOADED_MESSAGES_CHARS)%N ∨ length kept = 1)
    ∧ Forall short_versions kept.
Proof.
  intros Hd Hl. unfold loadMessages in Hl. destruct stored as [|x s]; [done|].
  destruct (_ <? _)%N; [done|]. rewrite Hd in Hl. injection Hl as <- _. unfold restore. eexists. split; [done|].
  set (normal := map _ ms). assert (Forall short_versions normal) as Hn.
  { apply Forall_map, Forall_forall. intros m _. apply normalized_short. }
  assert (trimMessagesByContentSize (trimMessages normal) `suffix_of` normal) as Hs
    by (etrans; [apply trim_size_suffix | apply trim_suffix]).
  split; [done|]. split; [|split].
  - destruct (trim_size_suffix (trimMessages normal)) as [k Hk]. pose proof (trim_messages_length normal) as H1.
    rewrite Hk, length_app in H1. lia.
  - apply trim_size_bound.
  - destruct Hs as [k Hk]. rewrite Hk in Hn. by apply Forall_app in Hn as [_ ?].
Qed.

(** ** Saving and loading *)

(** A finished message whose texts are not cut. *)
Definition keeps (m : Message) : Prop :=
  isAssistantMessagePending m = false
  ∧ Forall (λ v, (size (content v) < MIN_PREFIX_COLLAPSE_LENGTH)%N) (versions m)
  ∧ match reasoning m with Some r => (size (r_content r) <= MAX_LOADED_MESSAGE_CHARS)%N | None => True end.

Lemma truncate_id s n : (size s <= n)%N → truncateText s n = s.
Proof. intros H. unfold truncateText. by rewrite (proj2 (N.leb_le _ _)). Qed.

Lemma shorten_id v : (size (content v) < MIN_PREFIX_COLLAPSE_LENGTH)%N → shorten_version v = v.
Proof.
  intros Hv. unfold shorten_version, collapseRepeatedSectionSnapshots. rewrite (proj2 (N.ltb_lt _ _)) by done.
  rewrite truncate_id; [by destruct v|]. unfold MIN_PREFIX_COLLAPSE_LENGTH, MAX_LOADED_MESSAGE_CHARS in *. lia.
Qed.

Lemma normalize_id now m : keeps m → normalizeStoredMessageForLoad now m = m.
Proof.
  intros (Hp & Hv & Hr). assert (shorten_message m = m) as E.
  { unfold shorten_message. assert (map shorten_version (versions m) = versions m) as ->.
    { induction Hv as [|v vs Hv _ IH]; [done|]. cbn [map]. by rewrite shorten_id, IH. }
    assert ((λ r, with_r_content (truncateText (r_content r) MAX_LOADED_MESSAGE_CHARS) r) <$> reasoning m = reasoning m) as ->.
    { destruct (reasoning m) as [r|]; [|done]. cbn [fmap option_fmap option_map]. rewrite truncate_id by done. by destruct r. }
    by destruct m. }
  unfold normalizeStoredMessageForLoad. by rewrite E, Hp.
Qed.

Lemma take_sized_all n ms :
  (n + total_size ms <= MAX_LOADED_MESSAGES_CHARS)%N → take_sized false n ms = ms ∧ take_sized true n ms = ms.
Proof.
  revert n. induction ms as [|m ms IH]; intros n H; [done|]. rewrite total_cons in H. cbn [take_sized negb andb].
  destruct (IH (n + getMessageSize m)%N) as [E _]; [lia|]. rewrite E.
  rewrite (proj2 (N.ltb_ge _ _)) by lia. done.
Qed.

Lemma trims_id ms :
  length ms ≤ MAX_STORED_MESSAGES → trimMessages ms = ms.
Proof. intros H. unfold trimMessages. by rewrite (proj2 (Nat.leb_le _ _)). Qed.

Lemma size_trim_id ms : (total_size ms <= MAX_LOADED_MESSAGES_CHARS)%N → trimMessagesByContentSize ms = ms.
Proof.
  intros H. unfold trimMessagesByContentSize. destruct (take_sized_all 0 (reverse ms)) as [_ ->].
  - rewrite total_reverse. lia.
  - apply reverse_involutive.
Qed.

Lemma last_index_all {A} (p : A → bool) l : Forall (λ x, p x = false) l → last_index p l = None.
Proof. induction 1 as [|x l Hx _ IH]; [done|]. cbn [last_index]. by rewrite IH, Hx. Qed.

(** A conversation that is restored as it is. *)
Lemma restored_same (t : jsstr → jsstr) (now : Z) ms :
  Forall keeps ms → length ms ≤ MAX_STORED_MESSAGES → (total_size ms <= MAX_LOADED_MESSAGES_CHARS)%N →
  restore t now ms = ms.
Proof.
  intros Hk Hl Ht. unfold restore. assert (map (normalizeStoredMessageForLoad now) ms = ms) as ->.
  { clear -Hk. induction Hk as [|m ms Hm _ IH]; [done|]. cbn [map]. by rewrite normalize_id, IH. }
  rewrite trims_id, size_trim_id by done. unfold sanitizeMessagesOnLoad.
  rewrite last_index_all; [done|]. eapply Forall_impl; [exact Hk|]. intros m (Hm & _).
  unfold isPendingAssistantMessage. by rewrite Hm, andb_false_r.
Qed.

(** C30: a finished conversation comes back from the storage as it was saved.
    What is stored is the JSON text of the versioned envelope, and loading it
    gives the same messages and leaves the same text, if there are at most
    a hundred messages with at least one version each, none of them is still
    pending, no version reaches 2000 units (from which on repeated sections are
    collapsed), no reasoning is longer than 40000, all texts together are at
    most 120000, and the stored text is at most 1 MiB long; texts are sequences of
    16-bit units and times whole numbers below [2^53] ([storable]). *)
Theorem saved_conversation (t : jsstr → jsstr) (now : Z) (ms : list Message) (item : option jsstr) :
  Forall storable ms → Forall keeps ms → length ms ≤ MAX_STORED_MESSAGES →
  (total_size ms <= MAX_LOADED_MESSAGES_CHARS)%N → (size (stored_text ms) <= MAX_STORED_MESSAGES_BYTES)%N →
  @saveMessages schema_codec ms item = Some (stored_text ms)
  ∧ @loadMessages schema_codec t now (Some (stored_text ms)) = (Some ms, Some (stored_text ms)).
Proof.
  intros Hst Hk Hl Ht Hs.
  assert (∀ it, @saveMessages schema_codec ms it = Some (stored_text ms)) as Hsave.
  { intros it. unfold saveMessages. rewrite trims_id by done. cbn [encode_messages schema_codec]. by rewrite write_storable. }
  split; [apply Hsave|]. destruct (stored_reads ms Hst) as [Hne Hr].
  unfold loadMessages. cbn [decode_messages schema_codec]. rewrite Hr, (proj2 (N.ltb_ge _ _)) by done.
  rewrite restored_same, Hsave by done. by destruct (stored_text ms).
Qed.

(** ** At work *)

(** A question and its answer, in a form that is kept. *)
Definition kept_conversation : list Message :=
  [createUserMessage (js "q") (js "q1") (js "hi") 10;
   completeAssistantMessage 20 (updateCurrentVersionContent (createLoadingAssistantMessage (js "a") (js "a1") 10) (js "hello"))].

Lemma kept_keeps : Forall keeps kept_conversation.
Proof. repeat constructor. Qed.

Lemma kept_storable : Forall storable kept_conversation.
Proof. apply (bool_decide_eq_true_1 _). vm_compute. reflexivity. Qed.

Lemma saved_conversation_witness :
  Forall keeps kept_conversation
  ∧ @saveMessages schema_codec kept_conversation None = Some (stored_text kept_conversation)
  ∧ @loadMessages schema_codec (λ s, s) 50 (Some (stored_text kept_conversation))
    = (Some kept_conversation, Some (stored_text kept_conversation)).
Proof.
  split; [exact kept_keeps|]. apply (saved_conversation (λ s, s) 50 kept_conversation None).
  - exact kept_storable.
  - exact kept_keeps.
  - apply Nat.leb_le. vm_compute. reflexivity.
  - apply N.leb_le. vm_compute. reflexivity.
  - apply N.leb_le. vm_compute. reflexivity.
Defined.

#[local] Existing Instance schema_codec.

(** A stored text without an envelope, as earlier versions wrote it. *)
Definition old_text : jsstr :=
  jq "[{`key`:`q`,`from`:`user`,`versions`:[{`id`:`v`,`content`:`hi`}]}]".

Definition old_messages : list Message :=
  [{| key := js "q"; from := USER; versions := [{| id := js "v"; content := js "hi" |}]; createdAt := None;
      startedAt := None; completedAt := None; durationMs := None; sources := None; reasoning := None;
      isReasoningStreaming := None; isReasoningComplete := None; isContentComplete := None; status := None;
      errorCode := None |}].

Lemma old_loaded :
  decode_messages old_text = Ok old_messages
  ∧ loadMessages (λ s, s) 50 (Some old_text) = (Some old_messages, Some (stored_text old_messages)).
Proof. split; vm_compute; reflexivity. Qed.

Lemma loaded_bounded_witness :
  decode_messages old_text = Ok old_messages
  ∧ ∃ kept, old_messages = sanitizeMessagesOnLoad (λ s, s) 50 kept
    ∧ kept `suffix_of` map (normalizeStoredMessageForLoad 50) old_messages
    ∧ length kept ≤ MAX_STORED_MESSAGES
    ∧ ((total_size kept <= MAX_LOADED_MESSAGES_CHARS)%N ∨ length kept = 1)
    ∧ Forall short_versions kept.
Proof.
  split; [exact (proj1 old_loaded)|].
  apply (loaded_bounded (λ s, s) 50 old_text old_messages old_messages (Some (stored_text old_messages)));
    apply old_loaded.
Defined.
