(* ===== verification/ChannelVideo.v ===== *)
(** * Video capabilities of channels (channels/lib/channel-form.ts, video-model-capability.ts)

    What a channel says of the video models behind it: the object stored under
    [video_model_capabilities] of the channel's setting, its form in the
    editor, the way from one to the other and the checks of the editor. *)

From Stdlib Require Import ZArith.
From S2P Require Import Prelude JsString JsNumber JsCollections JsValue JsonFacts JsonData.

(** ** Data *)

Definition MAX_VIDEO_REFERENCE_COUNT : Z := 64.
Definition MAX_VIDEO_MODEL_RESOLUTIONS : nat := 32.
Definition MAX_VIDEO_MODEL_RATIOS : nat := 32.
Definition MAX_VIDEO_DURATION_SECONDS : Z := 3600.

(** An entry of the list in the editor; [None] is [undefined]. *)
Record VideoModelCapabilityFormValue := {
  model : jsstr;
  resolutions : list jsstr;
  ratios : option (list jsstr);
  resolution_mappings : option (list (jsstr * jsstr));
  size_mappings : option (list (jsstr * jsstr));
  ratio_required : option bool;
  min_reference_images : option num;
  max_reference_images : num;
  min_reference_videos : option num;
  max_reference_videos : num;
  min_reference_audios : option num;
  max_reference_audios : num;
  max_reference_media_count : option num;
  supports_duration : option bool;
  duration_required : option bool;
  min_duration_seconds : option num;
  max_duration_seconds : option num;
  allowed_duration_seconds : option (list num);
  default_duration_seconds : option num;
  supports_generate_audio : option bool;
  generate_audio_required : option bool;
  supports_first_frame : option bool;
  first_frame_required : option bool;
  supports_last_frame : option bool;
  last_frame_required : option bool;
  last_frame_requires_first_frame : option bool;
  reference_images_incompatible_with_frames : option bool;
  audio_reference_requires_visual_reference : option bool;
  reference_media_requires_visual_reference : option bool;
  reference_media_incompatible_with_frames : option bool;
  supports_seed : option bool;
  min_seed : option num;
  max_seed : option num;
  supports_watermark : option bool;
  auto_reference_mode : option bool;
  reference_mode_for_references : option jsstr;
  reference_mode_for_frames : option jsstr;
  frames_as_reference_images : option bool;
  asset_preparation_mode : option jsstr;
  omit_parameters : option (list jsstr);
  fixed_parameters : option (list (jsstr * val))
}.

(** [Object.fromEntries(l)]. *)
Definition from_entries {V} (l : list (jsstr * V)) : list (jsstr * V) :=
  fold_left (λ acc kv, obj_set (fst kv) (snd kv) acc) l [].

(** ** Reading a stored object *)

Definition parseVideoCapabilityFlag (value : val) : option bool :=
  match value with VBool b => Some b | _ => None end.

(** [Number.isInteger(v) && Number(v) >= lo && Number(v) <= hi ? Number(v) : undefined]. *)
Definition integer_within (lo hi : Z) (v : val) : option num :=
  match v with
  | VNum n => if num_is_integer n && num_leb (num_of_Z lo) n && num_leb n (num_of_Z hi)
              then Some n else None
  | _ => None
  end.

Definition reference_count (v : val) : option num := integer_within 0 MAX_VIDEO_REFERENCE_COUNT v.
Definition duration_seconds (v : val) : option num := integer_within 1 MAX_VIDEO_DURATION_SECONDS v.

(** [Number.isInteger(v) ? Number(v) : undefined]. *)
Definition integer (v : val) : option num :=
  match v with VNum n => if num_is_integer n then Some n else None | _ => None end.

(** [typeof v === 'string' ? v : undefined]. *)
Definition string_only (v : val) : option jsstr := match v with VStr s => Some s | _ => None end.

(** The entries of an object whose values are strings. *)
Definition string_entries (v : val) : option (list (jsstr * jsstr)) :=
  match v with
  | VObj ps => Some (from_entries (omap (λ kv, s ← string_only (snd kv); Some (fst kv, s)) ps))
  | _ => None
  end.

(** What the closure over the set [normalized...] lets through. *)
Definition short_text (s : jsstr) : bool := truthy_str s && (length s <=? 64)%nat.

Definition distinct_texts (limit : nat) (l : list jsstr) : list jsstr :=
  take limit (uniq (List.filter short_text l)).

(** [v.k], for the own properties of an object. *)
Definition prop (ps : list (jsstr * val)) (k : jsstr) : val := default VUndef (mget k ps).

Section lower.
Context {lower_case : LowerCase}.

(** [l.map((v) => String(v).trim().toLowerCase())]. *)
Definition normalized_texts (l : list val) : res (list jsstr) :=
  res_mapM (λ v, s ← to_string v; Ok (toLowerCase (trim s))) l.

Definition parse_ratios (v : val) : res (option (list jsstr)) :=
  match v with
  | VArr l => ws ← normalized_texts l; Ok (Some (distinct_texts MAX_VIDEO_MODEL_RATIOS ws))
  | _ => Ok None
  end.
End lower.

Definition parse_omitted (v : val) : res (option (list jsstr)) :=
  match v with
  | VArr l => ws ← res_mapM to_string l; Ok (Some ws)
  | _ => Ok None
  end.

Definition parse_durations (v : val) : option (list num) :=
  match v with VArr l => Some (uniq (omap duration_seconds l)) | _ => None end.

Definition parse_asset_mode (v : val) : option jsstr :=
  match v with
  | VStr s => if bool_decide (s = js "globalaiopc_seedance") then Some s else None
  | _ => None
  end.

Definition object_only (v : val) : option (list (jsstr * val)) :=
  match v with VObj ps => Some ps | _ => None end.

(** The entry that is pushed for a model. *)
Definition capability_of (name : jsstr) (rs : list jsstr) (ratios : option (list jsstr))
    (omitted : option (list jsstr)) (raw : list (jsstr * val)) : VideoModelCapabilityFormValue :=
  {| model := trim name;
     resolutions := rs;
     ratios := ratios;
     resolution_mappings := string_entries (prop raw (js "resolution_mappings"));
     size_mappings := string_entries (prop raw (js "size_mappings"));
     ratio_required := parseVideoCapabilityFlag (prop raw (js "ratio_required"));
     min_reference_images := reference_count (prop raw (js "min_reference_images"));
     max_reference_images := default num_zero (reference_count (prop raw (js "max_reference_images")));
     min_reference_videos := reference_count (prop raw (js "min_reference_videos"));
     max_reference_videos := default num_zero (reference_count (prop raw (js "max_reference_videos")));
     min_reference_audios := reference_count (prop raw (js "min_reference_audios"));
     max_reference_audios := default num_zero (reference_count (prop raw (js "max_reference_audios")));
     max_reference_media_count := reference_count (prop raw (js "max_reference_media_count"));
     supports_duration := parseVideoCapabilityFlag (prop raw (js "supports_duration"));
     duration_required := parseVideoCapabilityFlag (prop raw (js "duration_required"));
     min_duration_seconds := duration_seconds (prop raw (js "min_duration_seconds"));
     max_duration_seconds := duration_seconds (prop raw (js "max_duration_seconds"));
     allowed_duration_seconds := parse_durations (prop raw (js "allowed_duration_seconds"));
     default_duration_seconds := duration_seconds (prop raw (js "default_duration_seconds"));
     supports_generate_audio := parseVideoCapabilityFlag (prop raw (js "supports_generate_audio"));
     generate_audio_required := parseVideoCapabilityFlag (prop raw (js "generate_audio_required"));
     supports_first_frame := parseVideoCapabilityFlag (prop raw (js "supports_first_frame"));
     first_frame_required := parseVideoCapabilityFlag (prop raw (js "first_frame_required"));
     supports_last_frame := parseVideoCapabilityFlag (prop raw (js "supports_last_frame"));
     last_frame_required := parseVideoCapabilityFlag (prop raw (js "last_frame_required"));
     last_frame_requires_first_frame := parseVideoCapabilityFlag (prop raw (js "last_frame_requires_first_frame"));
     reference_images_incompatible_with_frames := parseVideoCapabilityFlag (prop raw (js "reference_images_incompatible_with_frames"));
     audio_reference_requires_visual_reference := parseVideoCapabilityFlag (prop raw (js "audio_reference_requires_visual_reference"));
     reference_media_requires_visual_reference := parseVideoCapabilityFlag (prop raw (js "reference_media_requires_visual_reference"));
     reference_media_incompatible_with_frames := parseVideoCapabilityFlag (prop raw (js "reference_media_incompatible_with_frames"));
     supports_seed := parseVideoCapabilityFlag (prop raw (js "supports_seed"));
     min_seed := integer (prop raw (js "min_seed"));
     max_seed := integer (prop raw (js "max_seed"));
     supports_watermark := parseVideoCapabilityFlag (prop raw (js "supports_watermark"));
     auto_reference_mode := parseVideoCapabilityFlag (prop raw (js "auto_reference_mode"));
     reference_mode_for_references := string_only (prop raw (js "reference_mode_for_references"));
     reference_mode_for_frames := string_only (prop raw (js "reference_mode_for_frames"));
     frames_as_reference_images := parseVideoCapabilityFlag (prop raw (js "frames_as_reference_images"));
     asset_preparation_mode := parse_asset_mode (prop raw (js "asset_preparation_mode"));
     omit_parameters := omitted;
     fixed_parameters := object_only (prop raw (js "fixed_parameters")) |}.

Section reading.
Context {lower_case : LowerCase}.

Fixpoint parse_capabilities (entries : list (jsstr * val)) : res (list VideoModelCapabilityFormValue) :=
  match entries with
  | [] => Ok []
  | (name, VObj raw) :: rest =>
      match prop raw (js "resolutions") with
      | VArr l =>
          ws ← normalized_texts l;
          let rs := distinct_texts MAX_VIDEO_MODEL_RESOLUTIONS ws in
          ratios ← parse_ratios (prop raw (js "ratios"));
          if negb (truthy_str (trim name)) then parse_capabilities rest
          else
            omitted ← parse_omitted (prop raw (js "omit_parameters"));
            caps ← parse_capabilities rest;
            Ok (capability_of name rs ratios omitted raw :: caps)
      | _ => parse_capabilities rest
      end
  | _ :: rest => parse_capabilities rest
  end.

Definition parseVideoModelCapabilities (value : val) : res (list VideoModelCapabilityFormValue) :=
  match value with VObj ps => parse_capabilities ps | _ => Ok [] end.

(** ** Writing *)

Definition strings_val (l : list jsstr) : val := VArr (map VStr l).
Definition nums_val (l : list num) : val := VArr (map VNum l).
Definition string_map_val (l : list (jsstr * jsstr)) : val := VObj (mmap VStr l).

(** [v || undefined] on strings. *)
Definition or_undefined (o : option jsstr) : val :=
  match o with Some s => if truthy_str s then VStr s else VUndef | None => VUndef end.

Definition capability_object (c : VideoModelCapabilityFormValue) : list (jsstr * val) :=
  [(js "resolutions", strings_val (map toLowerCase (resolutions c)));
   (js "ratios", strings_val (map toLowerCase (default [] (ratios c))));
   (js "resolution_mappings", opt_js string_map_val (resolution_mappings c));
   (js "size_mappings", opt_js string_map_val (size_mappings c));
   (js "ratio_required", opt_js VBool (ratio_required c));
   (js "min_reference_images", opt_js VNum (min_reference_images c));
   (js "max_reference_images", VNum (max_reference_images c));
   (js "min_reference_videos", opt_js VNum (min_reference_videos c));
   (js "max_reference_videos", VNum (max_reference_videos c));
   (js "min_reference_audios", opt_js VNum (min_reference_audios c));
   (js "max_reference_audios", VNum (max_reference_audios c));
   (js "max_reference_media_count", opt_js VNum (max_reference_media_count c));
   (js "supports_duration", opt_js VBool (supports_duration c));
   (js "duration_required", opt_js VBool (duration_required c));
   (js "min_duration_seconds", opt_js VNum (min_duration_seconds c));
   (js "max_duration_seconds", opt_js VNum (max_duration_seconds c));
   (js "allowed_duration_seconds", opt_js nums_val (allowed_duration_seconds c));
   (js "default_duration_seconds", opt_js VNum (default_duration_seconds c));
   (js "supports_generate_audio", opt_js VBool (supports_generate_audio c));
   (js "generate_audio_required", opt_js VBool (generate_audio_required c));
   (js "supports_first_frame", opt_js VBool (supports_first_frame c));
   (js "first_frame_required", opt_js VBool (first_frame_required c));
   (js "supports_last_frame", opt_js VBool (supports_last_frame c));
   (js "last_frame_required", opt_js VBool (last_frame_required c));
   (js "last_frame_requires_first_frame", opt_js VBool (last_frame_requires_first_frame c));
   (js "reference_images_incompatible_with_frames", opt_js VBool (reference_images_incompatible_with_frames c));
   (js "audio_reference_requires_visual_reference", opt_js VBool (audio_reference_requires_visual_reference c));
   (js "reference_media_requires_visual_reference", opt_js VBool (reference_media_requires_visual_reference c));
   (js "reference_media_incompatible_with_frames", opt_js VBool (reference_media_incompatible_with_frames c));
   (js "supports_seed", opt_js VBool (supports_seed c));
   (js "min_seed", opt_js VNum (min_seed c));
   (js "max_seed", opt_js VNum (max_seed c));
   (js "supports_watermark", opt_js VBool (supports_watermark c));
   (js "auto_reference_mode", opt_js VBool (auto_reference_mode c));
   (js "reference_mode_for_references", opt_js VStr (reference_mode_for_references c));
   (js "reference_mode_for_frames", opt_js VStr (reference_mode_for_frames c));
   (js "frames_as_reference_images", opt_js VBool (frames_as_reference_images c));
   (js "asset_preparation_mode", or_undefined (asset_preparation_mode c));
   (js "omit_parameters", opt_js strings_val (omit_parameters c));
   (js "fixed_parameters", opt_js VObj (fixed_parameters c))].

Definition video_capabilities_object (caps : list VideoModelCapabilityFormValue) : list (jsstr * val) :=
  from_entries (map (λ c, (trim (model c), VObj (capability_object c)))
                    (List.filter (λ c, truthy_str (trim (model c))) caps)).
End reading.

(** ** The checks of the editor *)

Inductive PathItem := Field (name : jsstr) | Index (i : nat).

Record Issue := { path : list PathItem; message : jsstr }.

Definition issue_at (index : nat) (name msg : String.string) : Issue :=
  {| path := [Field (js "video_model_capabilities"); Index index; Field (js name)]; message := js msg |}.

#[global] Arguments issue_at _ (_ _)%_string_scope.

Definition issue_if (b : bool) (i : Issue) : list Issue := if b then [i] else [].

(** A flag as a condition; [v === undefined]; [v?.length] as a condition. *)
Definition flag (o : option bool) : bool := match o with Some b => b | None => false end.
Definition undef {A} (o : option A) : bool := match o with Some _ => false | None => true end.
Definition nonempty {A} (o : option (list A)) : bool := match o with Some (_ :: _) => true | _ => false end.

(** The flags an extended protocol requires, in the order of the loop. *)
Definition required_flags : list (String.string * (VideoModelCapabilityFormValue → option bool)) :=
  [("ratio_required"%string, ratio_required);
   ("supports_duration"%string, supports_duration);
   ("duration_required"%string, duration_required);
   ("supports_generate_audio"%string, supports_generate_audio);
   ("generate_audio_required"%string, generate_audio_required);
   ("supports_first_frame"%string, supports_first_frame);
   ("first_frame_required"%string, first_frame_required);
   ("supports_last_frame"%string, supports_last_frame);
   ("last_frame_required"%string, last_frame_required);
   ("last_frame_requires_first_frame"%string, last_frame_requires_first_frame);
   ("reference_images_incompatible_with_frames"%string, reference_images_incompatible_with_frames);
   ("audio_reference_requires_visual_reference"%string, audio_reference_requires_visual_reference);
   ("reference_media_requires_visual_reference"%string, reference_media_requires_visual_reference);
   ("reference_media_incompatible_with_frames"%string, reference_media_incompatible_with_frames);
   ("supports_seed"%string, supports_seed);
   ("supports_watermark"%string, supports_watermark)].

Definition required_minima : list (String.string * (VideoModelCapabilityFormValue → option num)) :=
  [("min_reference_images"%string, min_reference_images);
   ("min_reference_videos"%string, min_reference_videos);
   ("min_reference_audios"%string, min_reference_audios)].

Definition missing_settings {A} (index : nat)
    (table : list (String.string * (VideoModelCapabilityFormValue → option A)))
    (c : VideoModelCapabilityFormValue) : list Issue :=
  flat_map (λ nf, issue_if (undef (nf.2 c)) (issue_at index (fst nf) "This capability setting is required")) table.

(** [(minimum !== undefined && d < minimum) || (maximum !== undefined && d > maximum)]. *)
Definition outside (minimum maximum : option num) (d : num) : bool :=
  match minimum with Some lo => num_ltb d lo | None => false end
  || match maximum with Some hi => num_ltb hi d | None => false end.

Definition includes_num (l : list num) (d : num) : bool := existsb (num_eqb d) l.

Definition duration_item (index i : nat) : Issue :=
  {| path := [Field (js "video_model_capabilities"); Index index;
              Field (js "allowed_duration_seconds"); Index i];
     message := js "Allowed duration must be within the duration range" |}.

(** The branches on [supports_duration]. *)
Definition check_durations (index : nat) (c : VideoModelCapabilityFormValue) : list Issue :=
  let minimum := min_duration_seconds c in
  let maximum := max_duration_seconds c in
  if flag (supports_duration c) then
    flat_map (λ id, issue_if (outside minimum maximum id.2) (duration_item index id.1))
             (imap pair (default [] (allowed_duration_seconds c)))
    ++ match default_duration_seconds c with
       | Some d =>
           issue_if (outside minimum maximum d)
             (issue_at index "default_duration_seconds" "Default duration must be within the duration range")
           ++ issue_if (nonempty (allowed_duration_seconds c)
                        && negb (includes_num (default [] (allowed_duration_seconds c)) d))
             (issue_at index "default_duration_seconds" "Default duration must be one of the allowed durations")
       | None => []
       end
  else
    issue_if (nonempty (allowed_duration_seconds c) || negb (undef (default_duration_seconds c)))
      (issue_at index "supports_duration" "Duration values require duration support").

Definition exceeds (a b : option num) : bool :=
  match a, b with Some x, Some y => num_ltb y x | _, _ => false end.

(** The checks under [usesExtendedCapabilities]. *)
Definition check_extended (lingganya : bool) (index : nat) (c : VideoModelCapabilityFormValue) : list Issue :=
  missing_settings index required_flags c
  ++ missing_settings index required_minima c
  ++ issue_if (flag (supports_duration c) && undef (min_duration_seconds c))
       (issue_at index "min_duration_seconds" "Minimum duration is required")
  ++ issue_if (flag (supports_duration c) && undef (max_duration_seconds c))
       (issue_at index "max_duration_seconds" "Maximum duration is required")
  ++ issue_if (lingganya && undef (default_duration_seconds c))
       (issue_at index "default_duration_seconds" "Default duration is required")
  ++ issue_if (exceeds (min_duration_seconds c) (max_duration_seconds c))
       (issue_at index "max_duration_seconds" "Minimum duration cannot exceed maximum duration")
  ++ check_durations index c
  ++ issue_if (flag (duration_required c) && negb (flag (supports_duration c)))
       (issue_at index "duration_required" "Required duration must also be supported")
  ++ issue_if (flag (ratio_required c) && negb (nonempty (ratios c)))
       (issue_at index "ratios" "Configure at least one ratio")
  ++ issue_if (flag (generate_audio_required c) && negb (flag (supports_generate_audio c)))
       (issue_at index "generate_audio_required" "Required native audio must also be supported")
  ++ issue_if (flag (supports_last_frame c) && flag (last_frame_requires_first_frame c)
               && negb (flag (supports_first_frame c)))
       (issue_at index "last_frame_requires_first_frame"
          "First frame support is required when the last frame depends on it")
  ++ issue_if (flag (first_frame_required c) && negb (flag (supports_first_frame c)))
       (issue_at index "first_frame_required" "Required first frame must also be supported")
  ++ issue_if (flag (last_frame_required c) && negb (flag (supports_last_frame c)))
       (issue_at index "last_frame_required" "Required last frame must also be supported")
  ++ issue_if (flag (supports_seed c) && (undef (min_seed c) || undef (max_seed c)))
       (issue_at index "min_seed" "Seed range is required when seed is supported").

Definition str_opt_is (o : option jsstr) (s : String.string) : bool := bool_decide (o = Some (js s)).
#[global] Arguments str_opt_is _ _%_string_scope.

Definition usesExtendedCapabilities (video_protocol : option jsstr) : bool :=
  str_opt_is video_protocol "megabyai" || str_opt_is video_protocol "globalaiopc"
  || str_opt_is video_protocol "lingganya_video".

Section checks.
Context {lower_case : LowerCase}.

Definition normalized_model (c : VideoModelCapabilityFormValue) : jsstr := toLowerCase (trim (model c)).

(** The body of the loop over the capabilities. *)
Definition check_capability (video_protocol : option jsstr) (configuredModels : list jsstr) (index : nat)
    (c : VideoModelCapabilityFormValue) : list Issue * list jsstr :=
  let normalizedModel := normalized_model c in
  if negb (truthy_str normalizedModel)
  then ([issue_at index "model" "Model ID is required"], configuredModels)
  else
    (issue_if (bool_decide (normalizedModel ∈ configuredModels))
       (issue_at index "model" "Model IDs must be unique")
     ++ issue_if (negb (str_opt_is video_protocol "lingganya_video") && bool_decide (resolutions c = []))
          (issue_at index "resolutions" "Configure at least one resolution")
     ++ (if usesExtendedCapabilities video_protocol
         then check_extended (str_opt_is video_protocol "lingganya_video") index c else []),
     configuredModels ++ [normalizedModel]).

Fixpoint check_capabilities (video_protocol : option jsstr) (configuredModels : list jsstr) (index : nat)
    (caps : list VideoModelCapabilityFormValue) : list Issue :=
  match caps with
  | [] => []
  | c :: caps' =>
      let '(issues, configuredModels') := check_capability video_protocol configuredModels index c in
      issues ++ check_capabilities video_protocol configuredModels' (S index) caps'
  end.

(** The part of the refinement of the form that looks at the capabilities. *)
Definition check_video (video_protocol : option jsstr) (caps : list VideoModelCapabilityFormValue) : list Issue :=
  issue_if (truthy_str (default [] video_protocol) && bool_decide (caps = []))
    {| path := [Field (js "video_model_capabilities")]; message := js "Configure at least one video model" |}
  ++ check_capabilities video_protocol [] 0 caps.
End checks.

(** ** The schema of an entry *)

Definition within (lo hi : Z) (n : num) : bool :=
  num_is_integer n && num_leb (num_of_Z lo) n && num_leb n (num_of_Z hi).

Definition opt_all {A} (p : A → bool) (o : option A) : bool :=
  match o with Some x => p x | None => true end.

(** [z.string().trim().min(1).max(64)]. *)
Definition videoResolutionSchema (s : jsstr) : bool :=
  (1 <=? length (trim s))%nat && (length (trim s) <=? 64)%nat.
Definition videoRatioSchema (s : jsstr) : bool := videoResolutionSchema s.
Definition videoDurationSchema (n : num) : bool := within 1 MAX_VIDEO_DURATION_SECONDS n.

(** Whether an entry passes its schema, but for the limits of the seed and of
    the number of durations. *)
Definition unlimited_schema (c : VideoModelCapabilityFormValue) : bool :=
  let count := within 0 MAX_VIDEO_REFERENCE_COUNT in
  forallb videoResolutionSchema (resolutions c)
  && (length (resolutions c) <=? MAX_VIDEO_MODEL_RESOLUTIONS)%nat
  && opt_all (λ l, forallb videoRatioSchema l && (length l <=? MAX_VIDEO_MODEL_RATIOS)%nat) (ratios c)
  && opt_all count (min_reference_images c) && count (max_reference_images c)
  && opt_all count (min_reference_videos c) && count (max_reference_videos c)
  && opt_all count (min_reference_audios c) && count (max_reference_audios c)
  && opt_all count (max_reference_media_count c)
  && opt_all videoDurationSchema (min_duration_seconds c)
  && opt_all videoDurationSchema (max_duration_seconds c)
  && opt_all (λ l, forallb videoDurationSchema l && bool_decide (uniq l = l))
       (allowed_duration_seconds c)
  && opt_all videoDurationSchema (default_duration_seconds c)
  && opt_all (λ m, bool_decide (m = []) || bool_decide (m = js "globalaiopc_seedance"))
       (asset_preparation_mode c).

Definition videoModelCapabilitySchema (c : VideoModelCapabilityFormValue) : bool :=
  unlimited_schema c
  && opt_all (λ l, (Z.of_nat (length l) <=? MAX_VIDEO_DURATION_SECONDS)%Z) (allowed_duration_seconds c)
  && opt_all (within (-1) 2147483647) (min_seed c) && opt_all (within (-1) 2147483647) (max_seed c).

(** ** New entries *)

Definition defaultVideoModelCapability (name : jsstr) : VideoModelCapabilityFormValue :=
  {| model := name; resolutions := []; ratios := Some [];
     resolution_mappings := Some []; size_mappings := Some [];
     ratio_required := Some false;
     min_reference_images := Some num_zero; max_reference_images := num_zero;
     min_reference_videos := Some num_zero; max_reference_videos := num_zero;
     min_reference_audios := Some num_zero; max_reference_audios := num_zero;
     max_reference_media_count := None;
     supports_duration := Some true; duration_required := Some true;
     min_duration_seconds := None; max_duration_seconds := None;
     allowed_duration_seconds := Some []; default_duration_seconds := None;
     supports_generate_audio := Some false; generate_audio_required := Some false;
     supports_first_frame := Some false; first_frame_required := Some false;
     supports_last_frame := Some false; last_frame_required := Some false;
     last_frame_requires_first_frame := Some false;
     reference_images_incompatible_with_frames := Some false;
     audio_reference_requires_visual_reference := Some false;
     reference_media_requires_visual_reference := Some false;
     reference_media_incompatible_with_frames := Some false;
     supports_seed := Some false; min_seed := None; max_seed := None;
     supports_watermark := Some false; auto_reference_mode := Some false;
     reference_mode_for_references := None; reference_mode_for_frames := None;
     frames_as_reference_images := Some false; asset_preparation_mode := None;
     omit_parameters := Some []; fixed_parameters := Some [] |}.
