(* ===== verification/ChannelVideoSpec.v ===== *)
(** * Video capabilities: what is loaded and what is accepted

    [loaded_capabilities] is the type invariant of the loader on arbitrary
    values, [video_checks_spec] the declarative form of the editor's checks. *)

From Stdlib Require Import ZArith.
From S2P Require Import Prelude JsString JsNumber JsNumberFacts JsCollections JsValue Json JsonFacts JsonData ChannelVideo.

(** ** What is loaded *)

Lemma integer_within_spec lo hi v n : integer_within lo hi v = Some n → within lo hi n = true.
Proof. destruct v; simpl; try done. unfold within. case_match eqn:E; [by intros [= <-] | done]. Qed.

Lemma opt_all_within lo hi v : opt_all (within lo hi) (integer_within lo hi v) = true.
Proof. destruct (integer_within lo hi v) eqn:E; [by eapply integer_within_spec | done]. Qed.

Lemma default_within v : within 0 64 (default num_zero (reference_count v)) = true.
Proof.
  destruct (reference_count v) as [n|] eqn:E; [|vm_compute; reflexivity].
  by eapply integer_within_spec.
Qed.

Lemma durations_schema v :
  opt_all (λ l, forallb videoDurationSchema l && bool_decide (uniq l = l)) (parse_durations v) = true.
Proof.
  destruct v as [| | | | |l|]; try done. cbn [parse_durations opt_all]. apply andb_true_iff. split.
  - apply forallb_forall_elem. intros n. rewrite elem_of_uniq, list_elem_of_omap.
    intros (v & _ & Hv). by eapply integer_within_spec.
  - apply bool_decide_eq_true, uniq_idemp.
Qed.

Lemma asset_mode_schema v :
  opt_all (λ m, bool_decide (m = []) || bool_decide (m = js "globalaiopc_seedance")) (parse_asset_mode v) = true.
Proof.
  destruct v as [| | | |s| |]; try done. unfold parse_asset_mode. case_bool_decide; [|done].
  cbn [opt_all]. rewrite (bool_decide_eq_true_2 (s = js "globalaiopc_seedance")) by done.
  apply orb_true_r.
Qed.

Section lower.
Context {lower_case : LowerCase}.

Lemma short_text_schema s : trimmed s → short_text s = true → videoResolutionSchema s = true.
Proof.
  unfold short_text, videoResolutionSchema. intros Ht [H1 H2]%andb_true_iff.
  rewrite trim_id by done. apply andb_true_iff. split; [|done].
  apply Nat.leb_le. apply truthy_str_true in H1. destruct s; [done | simpl; lia].
Qed.

Lemma distinct_texts_schema limit l ws :
  normalized_texts l = Ok ws →
  forallb videoResolutionSchema (distinct_texts limit ws) = true
  ∧ (length (distinct_texts limit ws) <=? limit)%nat = true.
Proof.
  intros H. unfold normalized_texts in H. rewrite res_mapM_ok in H. split.
  - apply forallb_forall_elem. intros s Hs. unfold distinct_texts in Hs.
    apply elem_of_take in Hs as (i & Hi & _). apply list_elem_of_lookup_2 in Hi.
    rewrite elem_of_uniq, elem_of_filterb in Hi. destruct Hi as [Hin Hok].
    apply short_text_schema; [|done].
    apply list_elem_of_lookup in Hin as [j Hj].
    destruct (Forall2_lookup_r _ _ _ _ _ H Hj) as (v & _ & Hv).
    apply res_bind_ok in Hv as (t & _ & [= <-]). apply lower_trimmed, trim_trimmed.
  - apply Nat.leb_le. unfold distinct_texts. rewrite length_take. lia.
Qed.

Lemma parse_ratios_schema v o :
  parse_ratios v = Ok o →
  opt_all (λ l, forallb videoRatioSchema l && (length l <=? MAX_VIDEO_MODEL_RATIOS)%nat) o = true.
Proof.
  destruct v as [| | | | |l|]; try (intros [= <-]; done).
  intros (ws & Hws & [= <-])%res_bind_ok. cbn [opt_all].
  apply andb_true_iff. exact (distinct_texts_schema MAX_VIDEO_MODEL_RATIOS l ws Hws).
Qed.

Lemma capability_of_schema name l ws v ratios omitted raw :
  normalized_texts l = Ok ws → parse_ratios v = Ok ratios →
  unlimited_schema (capability_of name (distinct_texts MAX_VIDEO_MODEL_RESOLUTIONS ws) ratios omitted raw) = true.
Proof.
  intros Hr Hv. apply parse_ratios_schema in Hv.
  destruct (distinct_texts_schema MAX_VIDEO_MODEL_RESOLUTIONS l ws Hr) as [H1 H2].
  unfold unlimited_schema, capability_of.
  cbn [resolutions ChannelVideo.ratios min_reference_images max_reference_images min_reference_videos
       max_reference_videos min_reference_audios max_reference_audios max_reference_media_count
       min_duration_seconds max_duration_seconds allowed_duration_seconds default_duration_seconds
       asset_preparation_mode].
  rewrite H1, H2, Hv, durations_schema, asset_mode_schema.
  unfold reference_count at 1 3 5 7, videoDurationSchema, duration_seconds, MAX_VIDEO_REFERENCE_COUNT.
  by rewrite !opt_all_within, !default_within.
Qed.

(** C16: whatever JSON value is stored for a channel, each entry the editor
    loads from it has a model name that is trimmed and not empty and passes the
    editor's own schema: at most 32 resolutions and ratios, each trimmed and of
    1 to 64 characters, reference counts that are integers from 0 to 64,
    durations that are distinct integers from 1 to 3600.  (The bounds of the
    seed are not checked on loading, nor is the number of durations.) *)
Theorem loaded_capabilities (v : val) (caps : list VideoModelCapabilityFormValue)
    (H : parseVideoModelCapabilities v = Ok caps) :
  Forall (λ c, model c ≠ [] ∧ trimmed (model c) ∧ unlimited_schema c = true) caps.
Proof.
  destruct v as [| | | | | |ps]; try (injection H as <-; constructor).
  simpl in H. revert caps H. induction ps as [|[name v] ps IH]; intros caps; [by intros [= <-]|].
  destruct v as [| | | | | |raw]; try apply IH. simpl.
  destruct (prop raw (js "resolutions")) as [| | | | |l|]; try apply IH.
  intros (ws & Hws & (ratios & Hr & H)%res_bind_ok)%res_bind_ok.
  destruct (truthy_str (trim name)) eqn:Et; [|by apply IH].
  apply res_bind_ok in H as (om & _ & (caps' & Hc & [= <-])%res_bind_ok).
  constructor; [|by apply IH]. split_and!.
  - by apply truthy_str_true.
  - apply trim_trimmed.
  - by eapply capability_of_schema.
Qed.
End lower.

Definition sample_stored : val :=
  VObj [(js " Veo ", VObj [(js "resolutions", VArr [VStr (js " 720P"); VStr (js "720p"); VNum (num_of_Z 1080)]);
                           (js "max_reference_images", VNum (num_of_Z 65));
                           (js "allowed_duration_seconds", VArr [VNum (num_of_Z 5); VStr (js "x"); VNum (num_of_Z 5)])]);
        (js "broken", VNull)].

Lemma loaded_capabilities_witness :
  Forall (λ c, model c ≠ [] ∧ trimmed (model c) ∧ unlimited_schema c = true)
    [capability_of (js " Veo ") [js "720p"; js "1080"] None None
       [(js "allowed_duration_seconds", VArr [VNum (num_of_Z 5)])]].
Proof.
  apply (loaded_capabilities (lower_case := ascii_case) sample_stored). vm_compute. reflexivity.
Defined.

(** ** What is accepted *)

Lemma issue_if_nil b i : issue_if b i = [] ↔ b = false.
Proof. by destruct b. Qed.

Lemma flat_map_nil {A B} (f : A → list B) l : flat_map f l = [] ↔ Forall (λ x, f x = []) l.
Proof.
  induction l as [|x l IH]; simpl; [split; [constructor | done]|].
  rewrite app_nil, IH, Forall_cons. done.
Qed.

Lemma undef_false {A} (o : option A) : undef o = false ↔ is_Some o.
Proof. by destruct o; split; [eauto | done | intros [=] | intros [? [=]]]. Qed.

Lemma undef_true {A} (o : option A) : undef o = true ↔ o = None.
Proof. by destruct o. Qed.

Lemma nonempty_false {A} (o : option (list A)) : nonempty o = false ↔ default [] o = [].
Proof. by destruct o as [[|]|]. Qed.

Lemma flag_true o : flag o = true ↔ o = Some true.
Proof. destruct o as [[]|]; simpl; naive_solver. Qed.

(** A duration between the limits that are given. *)
Definition between (lo hi : option num) (d : num) : Prop :=
  (∀ a, lo = Some a → num_ltb d a = false) ∧ (∀ b, hi = Some b → num_ltb b d = false).

Lemma outside_false lo hi d : outside lo hi d = false ↔ between lo hi d.
Proof.
  unfold outside, between. rewrite orb_false_iff. destruct lo, hi; naive_solver.
Qed.

(** What an extended protocol demands of an entry. *)
Record extended_ok (lingganya : bool) (c : VideoModelCapabilityFormValue) : Prop := {
  ok_flags : Forall (λ nf, is_Some (nf.2 c)) required_flags;
  ok_minima : Forall (λ nf, is_Some (nf.2 c)) required_minima;
  ok_limits : flag (supports_duration c) = true →
    is_Some (min_duration_seconds c) ∧ is_Some (max_duration_seconds c);
  ok_default : lingganya = true → is_Some (default_duration_seconds c);
  ok_order : ∀ a b, min_duration_seconds c = Some a → max_duration_seconds c = Some b → num_ltb b a = false;
  ok_durations : if flag (supports_duration c)
    then Forall (between (min_duration_seconds c) (max_duration_seconds c))
           (default [] (allowed_duration_seconds c))
         ∧ ∀ d, default_duration_seconds c = Some d →
             between (min_duration_seconds c) (max_duration_seconds c) d
             ∧ (default [] (allowed_duration_seconds c) ≠ [] →
                includes_num (default [] (allowed_duration_seconds c)) d = true)
    else default [] (allowed_duration_seconds c) = [] ∧ default_duration_seconds c = None;
  ok_required_duration : flag (duration_required c) = true → flag (supports_duration c) = true;
  ok_required_ratio : flag (ratio_required c) = true → default [] (ratios c) ≠ [];
  ok_required_audio : flag (generate_audio_required c) = true → flag (supports_generate_audio c) = true;
  ok_last_needs_first : flag (supports_last_frame c) = true →
    flag (last_frame_requires_first_frame c) = true → flag (supports_first_frame c) = true;
  ok_required_first : flag (first_frame_required c) = true → flag (supports_first_frame c) = true;
  ok_required_last : flag (last_frame_required c) = true → flag (supports_last_frame c) = true;
  ok_seed : flag (supports_seed c) = true → is_Some (min_seed c) ∧ is_Some (max_seed c)
}.

Lemma missing_settings_nil {A} i (table : list (String.string * (_ → option A))) c :
  missing_settings i table c = [] ↔ Forall (λ nf, is_Some (nf.2 c)) table.
Proof.
  unfold missing_settings. rewrite flat_map_nil. apply Forall_proper; [|done].
  intros nf. by rewrite issue_if_nil, undef_false.
Qed.

Lemma check_durations_nil i c :
  check_durations i c = [] ↔
  if flag (supports_duration c)
  then Forall (between (min_duration_seconds c) (max_duration_seconds c))
         (default [] (allowed_duration_seconds c))
       ∧ ∀ d, default_duration_seconds c = Some d →
           between (min_duration_seconds c) (max_duration_seconds c) d
           ∧ (default [] (allowed_duration_seconds c) ≠ [] →
              includes_num (default [] (allowed_duration_seconds c)) d = true)
  else default [] (allowed_duration_seconds c) = [] ∧ default_duration_seconds c = None.
Proof.
  unfold check_durations. destruct (flag (supports_duration c)).
  - rewrite app_nil, flat_map_nil. apply Morphisms_Prop.and_iff_morphism.
    + rewrite !Forall_forall. split.
      * intros H d [j Hj]%list_elem_of_lookup.
        specialize (H (j, d)). rewrite issue_if_nil, outside_false in H. apply H.
        apply list_elem_of_lookup. exists j. by rewrite list_lookup_imap, Hj.
      * intros H [j d] Hin. rewrite issue_if_nil, outside_false. apply H.
        apply list_elem_of_lookup in Hin as [k Hk]. rewrite list_lookup_imap in Hk.
        destruct (default [] (allowed_duration_seconds c) !! k) eqn:E; simplify_eq/=.
        by eapply list_elem_of_lookup_2.
    + destruct (default_duration_seconds c) as [d|]; [|naive_solver].
      rewrite app_nil, !issue_if_nil, outside_false, andb_false_iff, nonempty_false, negb_false_iff.
      destruct (decide (default [] (allowed_duration_seconds c) = [])) as [E|E].
      * split; [intros [? _] ? [= <-]; tauto | intros H; destruct (H d eq_refl); tauto].
      * split; [intros [? ?] ? [= <-]; tauto | intros H; destruct (H d eq_refl); tauto].
  - rewrite issue_if_nil, orb_false_iff, nonempty_false, negb_false_iff, undef_true. done.
Qed.

Lemma implied_false a b : a && negb b = false ↔ (a = true → b = true).
Proof. destruct a, b; simpl; naive_solver. Qed.

Lemma exceeds_false lo hi :
  exceeds lo hi = false ↔ ∀ a b, lo = Some a → hi = Some b → num_ltb b a = false.
Proof. unfold exceeds. destruct lo, hi; naive_solver. Qed.

Lemma check_extended_nil lingganya i c :
  check_extended lingganya i c = [] ↔ extended_ok lingganya c.
Proof.
  unfold check_extended.
  rewrite !app_nil, !missing_settings_nil, check_durations_nil, !issue_if_nil, exceeds_false.
  assert (∀ a (o : option num), a && undef o = false ↔ (a = true → is_Some o)) as Hu.
  { intros a o. rewrite <-undef_false. destruct a, (undef o); simpl; naive_solver. }
  assert (∀ a (o o' : option num), a && (undef o || undef o') = false ↔ (a = true → is_Some o ∧ is_Some o')) as Hu2.
  { intros a o o'. rewrite <-!undef_false. destruct a, (undef o), (undef o'); simpl; naive_solver. }
  assert (∀ a b d, a && b && negb d = false ↔ (a = true → b = true → d = true)) as H3.
  { intros [] [] []; simpl; naive_solver. }
  assert (∀ a {A} (o : option (list A)), a && negb (nonempty o) = false ↔ (a = true → default [] o ≠ [])) as Hn.
  { intros a A o. destruct a, o as [[|]|]; simpl; naive_solver. }
  rewrite !Hu, Hu2, H3, Hn, !implied_false. split.
  - intros (? & ? & ? & ? & ? & ? & ? & ? & ? & ? & ? & ? & ? & ?). split; try done. tauto.
  - intros []. split_and!; try done; tauto.
Qed.

Section lower_spec.
Context {lower_case : LowerCase}.

(** An entry of the list on its own. *)
Definition entry_ok (video_protocol : option jsstr) (c : VideoModelCapabilityFormValue) : Prop :=
  trim (model c) ≠ []
  ∧ (video_protocol ≠ Some (js "lingganya_video") → resolutions c ≠ [])
  ∧ (usesExtendedCapabilities video_protocol = true →
     extended_ok (str_opt_is video_protocol "lingganya_video") c).

(** A list the editor lets through. *)
Definition video_ok (video_protocol : option jsstr) (caps : list VideoModelCapabilityFormValue) : Prop :=
  (default [] video_protocol ≠ [] → caps ≠ [])
  ∧ Forall (entry_ok video_protocol) caps
  ∧ NoDup (map normalized_model caps).

Lemma str_opt_is_true o s : str_opt_is o s = true ↔ o = Some (js s).
Proof. apply bool_decide_eq_true. Qed.

Lemma check_capability_nil p seen i c :
  (check_capability p seen i c).1 = [] ↔ entry_ok p c ∧ normalized_model c ∉ seen.
Proof.
  unfold check_capability, entry_ok.
  assert (truthy_str (normalized_model c) = true ↔ trim (model c) ≠ []) as Ht.
  { unfold normalized_model. by rewrite truthy_str_true, lower_nil. }
  destruct (truthy_str (normalized_model c)); cbn [negb fst].
  - rewrite !app_nil, !issue_if_nil, bool_decide_eq_false, andb_false_iff, negb_false_iff,
      str_opt_is_true, bool_decide_eq_false.
    assert (trim (model c) ≠ []) by by apply Ht.
    assert ((if usesExtendedCapabilities p then check_extended (str_opt_is p "lingganya_video") i c else []) = []
            ↔ (usesExtendedCapabilities p = true → extended_ok (str_opt_is p "lingganya_video") c)) as ->.
    { destruct (usesExtendedCapabilities p); [|by split].
      rewrite check_extended_nil. split; [done | intros H'; by apply H']. }
    assert ((p = Some (js "lingganya_video") ∨ resolutions c ≠ [])
            ↔ (p ≠ Some (js "lingganya_video") → resolutions c ≠ [])) as ->; [|tauto].
    destruct (decide (p = Some (js "lingganya_video"))); tauto.
  - assert (¬ trim (model c) ≠ []) as Hn by by rewrite <-Ht. by split; [|intros [[] ?]].
Qed.

Lemma check_capability_seen p seen i c :
  trim (model c) ≠ [] → (check_capability p seen i c).2 = seen ++ [normalized_model c].
Proof.
  intros Hc. unfold check_capability. assert (truthy_str (normalized_model c) = true) as ->; [|done].
  unfold normalized_model. by rewrite truthy_str_true, lower_nil.
Qed.

Lemma check_capabilities_nil p caps : ∀ seen i,
  check_capabilities p seen i caps = [] ↔
  Forall (entry_ok p) caps ∧ NoDup (map normalized_model caps)
  ∧ ∀ c, c ∈ caps → normalized_model c ∉ seen.
Proof.
  induction caps as [|c caps IH]; intros seen i; simpl.
  - split; [intros _|done]. split; [constructor|]. split; [constructor | set_solver].
  - pose proof (check_capability_nil p seen i c) as Hc.
    pose proof (check_capability_seen p seen i c) as Hs.
    destruct (check_capability p seen i c) as [issues seen']. cbn [fst snd] in *.
    rewrite app_nil, Hc, IH, Forall_cons, NoDup_cons. split.
    + intros [[Ho Hn] (Hf & Hd & Hx)]. rewrite Hs in Hx by apply Ho. split_and!; try done.
      * intros (c' & E & Hc')%list_elem_of_fmap. apply (Hx c' Hc'). rewrite E. set_solver.
      * intros c' [->|Hc']%elem_of_cons; [done|]. specialize (Hx c' Hc'). set_solver.
    + intros ([Ho Hf] & [Hn Hd] & Hx). rewrite Hs by apply Ho. split_and!; try done.
      * apply Hx. by left.
      * intros c' Hc' [Hin|E%list_elem_of_singleton]%elem_of_app.
        -- by apply (Hx c'); [right|].
        -- apply Hn. rewrite <-E. by apply (list_elem_of_fmap_2 normalized_model).
Qed.

(** C15: the checks of the form on the video capabilities report nothing exactly
    if ([video_ok]): with a protocol there is at least one model; the names are
    not blank and differ even when case and outer blanks are disregarded; every
    model has a resolution, unless the protocol is Lingganya's; and, for the
    three extended protocols, every model has all the required flags and the
    three minima of references; a least and a greatest duration if it supports
    durations, never the least above the greatest; for Lingganya a default
    duration; with durations, the allowed ones and the default within the limits,
    the default among the allowed ones if there are any, and without durations
    neither; required durations, audio, first and last frames supported, a ratio if
    ratios are required, the first frame supported if the last one is supported and depends
    on it, and both ends of the seed range if seeds are supported.  The server refuses
    some lists more (dto/channel_settings.go). *)
Theorem video_checks_spec (video_protocol : option jsstr) (caps : list VideoModelCapabilityFormValue) :
  check_video video_protocol caps = [] ↔ video_ok video_protocol caps.
Proof.
  unfold check_video, video_ok.
  rewrite app_nil, issue_if_nil, check_capabilities_nil, andb_false_iff, bool_decide_eq_false, truthy_str_false.
  assert (default [] video_protocol = [] ∨ caps ≠ [] ↔ (default [] video_protocol ≠ [] → caps ≠ [])) as ->.
  { destruct (decide (default [] video_protocol = [])); tauto. }
  set_solver.
Qed.
End lower_spec.

(** A model as it has to be filled in for an extended protocol, and one as the
    editor proposes it. *)
Definition filled_model : VideoModelCapabilityFormValue :=
  let d := defaultVideoModelCapability (js "veo") in
  {| model := model d; resolutions := [js "720p"]; ratios := ratios d;
     resolution_mappings := resolution_mappings d; size_mappings := size_mappings d;
     ratio_required := ratio_required d;
     min_reference_images := min_reference_images d; max_reference_images := max_reference_images d;
     min_reference_videos := min_reference_videos d; max_reference_videos := max_reference_videos d;
     min_reference_audios := min_reference_audios d; max_reference_audios := max_reference_audios d;
     max_reference_media_count := max_reference_media_count d;
     supports_duration := Some true; duration_required := Some true;
     min_duration_seconds := Some (num_of_Z 4); max_duration_seconds := Some (num_of_Z 15);
     allowed_duration_seconds := Some [num_of_Z 5; num_of_Z 10]; default_duration_seconds := Some (num_of_Z 5);
     supports_generate_audio := supports_generate_audio d; generate_audio_required := generate_audio_required d;
     supports_first_frame := supports_first_frame d; first_frame_required := first_frame_required d;
     supports_last_frame := supports_last_frame d; last_frame_required := last_frame_required d;
     last_frame_requires_first_frame := last_frame_requires_first_frame d;
     reference_images_incompatible_with_frames := reference_images_incompatible_with_frames d;
     audio_reference_requires_visual_reference := audio_reference_requires_visual_reference d;
     reference_media_requires_visual_reference := reference_media_requires_visual_reference d;
     reference_media_incompatible_with_frames := reference_media_incompatible_with_frames d;
     supports_seed := supports_seed d; min_seed := min_seed d; max_seed := max_seed d;
     supports_watermark := supports_watermark d; auto_reference_mode := auto_reference_mode d;
     reference_mode_for_references := reference_mode_for_references d;
     reference_mode_for_frames := reference_mode_for_frames d;
     frames_as_reference_images := frames_as_reference_images d;
     asset_preparation_mode := asset_preparation_mode d;
     omit_parameters := omit_parameters d; fixed_parameters := fixed_parameters d |}.

Lemma video_checks_spec_witness :
  video_ok (lower_case := ascii_case) (Some (js "globalaiopc")) [filled_model]
  ∧ ¬ video_ok (lower_case := ascii_case) (Some (js "globalaiopc")) [defaultVideoModelCapability (js "veo")].
Proof.
  split.
  - apply (proj1 (video_checks_spec (lower_case := ascii_case) (Some (js "globalaiopc")) [filled_model])).
    vm_compute. reflexivity.
  - intros H. apply (proj2 (video_checks_spec (lower_case := ascii_case) _ _)) in H. vm_compute in H. discriminate H.
Defined.
