(* ===== verification/ChannelVideoText.v ===== *)
(** * Video capabilities: the round trip through the stored text

    [entry_canonical] is the form in which the editor holds an entry it has
    loaded or that its schema has normalised. *)

From Stdlib Require Import ZArith.
From S2P Require Import Prelude JsString JsNumber JsNumberFacts JsCollections JsValue Json JsonFacts JsonData ChannelVideo.

(** ** Maps written as objects *)

Section mmap.
Context {V W : Type} (f : V → W).

Lemma mmap_mset k v (m : list (jsstr * V)) : mmap f (mset k v m) = mset k (f v) (mmap f m).
Proof. unfold mmap. induction m as [|[j w] m IH]; simpl; [done|]. case_decide; simpl; by rewrite ?IH. Qed.

Lemma mmap_insert_index i k v (m : list (jsstr * V)) :
  mmap f (insert_index i k v m) = insert_index i k (f v) (mmap f m).
Proof.
  unfold mmap. induction m as [|[j w] m IH]; simpl; [done|].
  destruct (array_index j) as [n|]; [|done]. destruct (n <? i)%N; simpl; by rewrite ?IH.
Qed.

Lemma mmap_obj_set k v (m : list (jsstr * V)) : mmap f (obj_set k v m) = obj_set k (f v) (mmap f m).
Proof.
  unfold obj_set. rewrite mget_mmap. destruct (mget k m); simpl; [apply mmap_mset|].
  destruct (array_index k); [apply mmap_insert_index|]. unfold mmap. by rewrite map_app.
Qed.

Lemma mmap_from_entries (m : list (jsstr * V)) : mmap f (from_entries m) = from_entries (mmap f m).
Proof.
  unfold from_entries. change (@nil (jsstr * W)) with (mmap f (@nil (jsstr * V))). generalize (@nil (jsstr * V)).
  induction m as [|[k v] m IH]; intros acc; [done|].
  change (mmap f ((k, v) :: m)) with ((k, f v) :: mmap f m). cbn [fold_left fst snd]. rewrite IH. by rewrite mmap_obj_set.
Qed.
End mmap.

Lemma kept_props_ok ps : Forall json_ok (mvalues ps) → kept_props ps = ps.
Proof.
  induction ps as [|[k v] ps IH]; [done|]. intros [Hv Hps]%Forall_cons. unfold kept_props. csimpl.
  fold (kept_props ps). rewrite IH by done. simpl in Hv. rewrite kept_ok by done.
  by destruct Hv.
Qed.

(** ** The canonical form of an entry *)

Definition opt_spec {A} (P : A → Prop) (o : option A) : Prop := match o with Some x => P x | None => True end.

Definition integer_in (lo hi : Z) (n : num) : Prop := ∃ z, n = num_of_Z z ∧ (lo ≤ z ≤ hi)%Z.

Definition string_map_ok (m : list (jsstr * jsstr)) : Prop :=
  Forall (λ kv, Forall code_unit (fst kv) ∧ Forall code_unit (snd kv)) m ∧ from_entries m = m.

Section lower.
Context {lower_case : LowerCase}.

(** Resolutions and ratios as they are after a normalisation. *)
Record texts_ok (limit : nat) (l : list jsstr) : Prop := {
  texts_each : Forall (λ s, short_text s = true ∧ trimmed s ∧ toLowerCase s = s ∧ Forall code_unit s) l;
  texts_distinct : NoDup l;
  texts_number : length l ≤ limit
}.

Record entry_canonical (c : VideoModelCapabilityFormValue) : Prop := {
  can_model : model c ≠ [] ∧ trimmed (model c) ∧ Forall code_unit (model c);
  can_resolutions : texts_ok MAX_VIDEO_MODEL_RESOLUTIONS (resolutions c);
  can_ratios : ∃ l, ratios c = Some l ∧ texts_ok MAX_VIDEO_MODEL_RATIOS l;
  can_maps : opt_spec string_map_ok (resolution_mappings c) ∧ opt_spec string_map_ok (size_mappings c);
  can_minima : opt_spec (integer_in 0 64) (min_reference_images c)
    ∧ opt_spec (integer_in 0 64) (min_reference_videos c)
    ∧ opt_spec (integer_in 0 64) (min_reference_audios c)
    ∧ opt_spec (integer_in 0 64) (max_reference_media_count c);
  can_maxima : integer_in 0 64 (max_reference_images c) ∧ integer_in 0 64 (max_reference_videos c)
    ∧ integer_in 0 64 (max_reference_audios c);
  can_durations : opt_spec (integer_in 1 3600) (min_duration_seconds c)
    ∧ opt_spec (integer_in 1 3600) (max_duration_seconds c)
    ∧ opt_spec (integer_in 1 3600) (default_duration_seconds c)
    ∧ opt_spec (λ l, Forall (integer_in 1 3600) l ∧ NoDup l) (allowed_duration_seconds c);
  can_seed : opt_spec (integer_in (-1) 2147483647) (min_seed c)
    ∧ opt_spec (integer_in (-1) 2147483647) (max_seed c);
  can_modes : opt_spec (Forall code_unit) (reference_mode_for_references c)
    ∧ opt_spec (Forall code_unit) (reference_mode_for_frames c);
  can_asset : opt_spec (λ s, s = js "globalaiopc_seedance") (asset_preparation_mode c);
  can_omitted : opt_spec (Forall (Forall code_unit)) (omit_parameters c);
  can_fixed : opt_spec (λ ps, json_ok (VObj ps)) (fixed_parameters c)
}.
End lower.

(** ** Values written and read *)

(** The bounds in use are safe integers. *)
Definition bounds_safe (lo hi : Z) : Prop := (-2 ^ 53 < lo ∧ lo ≤ hi ∧ hi < 2 ^ 53)%Z.

Lemma integer_in_facts lo hi n :
  bounds_safe lo hi → integer_in lo hi n →
  json_ok (VNum n) ∧ num_is_integer n = true ∧ within lo hi n = true.
Proof.
  intros Hb (z & -> & Hz). unfold bounds_safe in Hb.
  assert (safe z ∧ safe lo ∧ safe hi) as (Sz & Sl & Sh) by (unfold safe; lia).
  assert (num_is_integer (num_of_Z z) = true) as Hi by (unfold num_is_integer; by rewrite num_to_Z_safe).
  split_and!; [by constructor | done |]. unfold within. rewrite Hi. cbn [andb].
  rewrite !num_leb_exact by done. apply andb_true_iff. split; apply Z.leb_le; lia.
Qed.

Lemma kept_num lo hi n : bounds_safe lo hi → integer_in lo hi n → kept (VNum n) = VNum n.
Proof. intros Hb Hn. apply kept_ok. by apply (integer_in_facts lo hi). Qed.

Lemma within_back lo hi n :
  bounds_safe lo hi → integer_in lo hi n → integer_within lo hi (kept (VNum n)) = Some n.
Proof.
  intros Hb Hn. rewrite (kept_num lo hi) by done. cbn [integer_within].
  destruct (integer_in_facts lo hi n Hb Hn) as (_ & _ & H). unfold within in H. by rewrite H.
Qed.

Lemma opt_within_back lo hi o :
  bounds_safe lo hi → opt_spec (integer_in lo hi) o → integer_within lo hi (kept (opt_js VNum o)) = o.
Proof. intros Hb Ho. destruct o; [by apply within_back | done]. Qed.

Lemma opt_integer_back lo hi o :
  bounds_safe lo hi → opt_spec (integer_in lo hi) o → integer (kept (opt_js VNum o)) = o.
Proof.
  intros Hb Ho. destruct o as [n|]; [|done]. cbn [opt_js]. rewrite (kept_num lo hi) by done.
  cbn [integer]. destruct (integer_in_facts lo hi n Hb Ho) as (_ & -> & _). done.
Qed.

Lemma flag_back o : parseVideoCapabilityFlag (kept (opt_js VBool o)) = o.
Proof. by destruct o. Qed.

Lemma string_back o : string_only (kept (opt_js VStr o)) = o.
Proof. by destruct o. Qed.

Lemma asset_back o :
  opt_spec (λ s, s = js "globalaiopc_seedance") o → parse_asset_mode (kept (or_undefined o)) = o.
Proof. destruct o as [s|]; [|done]. intros ->. vm_compute. reflexivity. Qed.

Lemma kept_strings l : kept (strings_val l) = strings_val l.
Proof.
  unfold strings_val. cbn [kept]. f_equal. rewrite map_map. apply map_ext. done.
Qed.

Lemma mapM_strings {B} (f : val → res B) (g : jsstr → B) l :
  Forall (λ s, f (VStr s) = Ok (g s)) l → res_mapM f (map VStr l) = Ok (map g l).
Proof.
  intros H. apply res_mapM_ok. induction H; simpl; by constructor.
Qed.

Lemma omitted_back o : parse_omitted (kept (opt_js strings_val o)) = Ok o.
Proof.
  destruct o as [l|]; [|done]. cbn [opt_js]. rewrite kept_strings. cbn [parse_omitted strings_val].
  rewrite (mapM_strings to_string id) by (by apply Forall_true). run_res. by rewrite map_id.
Qed.

Lemma fixed_back o : opt_spec (λ ps, json_ok (VObj ps)) o → object_only (kept (opt_js VObj o)) = o.
Proof. destruct o as [ps|]; [|done]. intros H. cbn [opt_js]. by rewrite kept_ok. Qed.

Lemma string_entries_mmap m : string_map_ok m → string_entries (VObj (mmap VStr m)) = Some m.
Proof.
  intros [_ Hm]. unfold string_entries. f_equal. rewrite <-Hm at 2. f_equal. clear Hm.
  induction m as [|[k v] m IH]; [done|]. cbn [mmap map fst snd]. csimpl. f_equal. exact IH.
Qed.

Lemma string_map_json m : string_map_ok m → json_ok (string_map_val m).
Proof.
  intros [Hu Hm]. unfold string_map_val. constructor.
  - unfold mmap. rewrite Forall_map. eapply Forall_impl; [exact Hu|]. by intros ? [].
  - unfold mmap. rewrite Forall_map. eapply Forall_impl; [exact Hu|]. intros ? []. by constructor.
  - change (obj_of (mmap VStr m) []) with (from_entries (mmap VStr m)).
    by rewrite <-mmap_from_entries, Hm.
Qed.

Lemma map_back o : opt_spec string_map_ok o → string_entries (kept (opt_js string_map_val o)) = o.
Proof.
  destruct o as [m|]; [|done]. intros H. cbn [opt_js]. rewrite kept_ok by by apply string_map_json.
  by apply string_entries_mmap.
Qed.

Lemma durations_back o :
  opt_spec (λ l, Forall (integer_in 1 3600) l ∧ NoDup l) o → parse_durations (kept (opt_js nums_val o)) = o.
Proof.
  destruct o as [l|]; [|done]. intros [Hl Hnd].
  assert (bounds_safe 1 3600) as Hb by (unfold bounds_safe; lia).
  cbn [opt_js]. unfold nums_val. rewrite kept_ok.
  - cbn [parse_durations]. f_equal. transitivity (uniq l); [f_equal | by apply uniq_id].
    clear Hnd. induction Hl as [|n l Hn Hl IH]; [done|].
    assert (duration_seconds (VNum n) = Some n) as Hd.
    { rewrite <-(kept_num 1 3600 n) by done. by apply within_back. }
    cbn [map]. change (omap duration_seconds (VNum n :: map VNum l))
      with (match duration_seconds (VNum n) with
            | Some y => y :: omap duration_seconds (map VNum l)
            | None => omap duration_seconds (map VNum l) end).
    rewrite Hd. by f_equal.
  - constructor. apply Forall_map. eapply Forall_impl; [exact Hl|].
    intros n Hn. by apply (integer_in_facts 1 3600).
Qed.

(** ** One entry *)

Section trip.
Context {lower_case : LowerCase}.
Implicit Types c : VideoModelCapabilityFormValue.

Lemma capability_names c : plain_names (mkeys (capability_object c)) = true.
Proof. vm_compute. reflexivity. Qed.

Lemma capability_units c : Forall (Forall code_unit) (mkeys (capability_object c)).
Proof. apply (bool_decide_eq_true_1 _). vm_compute. reflexivity. Qed.

(** A property of a stored entry. *)
Lemma prop_stored c k v :
  mget k (capability_object c) = Some v → prop (kept_props (capability_object c)) k = kept v.
Proof.
  intros Hk. unfold prop. rewrite get_kept; [by rewrite Hk|].
  pose proof (capability_names c) as H. unfold plain_names in H. by unbool.
Qed.

Lemma lower_texts limit l : texts_ok limit l → map toLowerCase l = l.
Proof.
  intros [H _ _]. rewrite <-(map_id l) at 2. apply map_ext_Forall.
  eapply Forall_impl; [exact H|]. by intros ? (_ & _ & ? & _).
Qed.

(** Normalising canonical texts changes nothing. *)
Lemma texts_back limit l :
  texts_ok limit l →
  normalized_texts (map VStr l) = Ok l ∧ distinct_texts limit l = l.
Proof.
  intros [He Hd Hn]. split.
  - unfold normalized_texts. rewrite (mapM_strings _ id), map_id; [done|].
    eapply Forall_impl; [exact He|]. intros s (_ & Ht & Hl & _). cbn [to_string]. run_res.
    by rewrite trim_id, Hl.
  - unfold distinct_texts. rewrite filterb_all.
    + rewrite uniq_id by done. by apply take_ge.
    + rewrite Forall_forall in He. intros s Hs. by destruct (He s Hs).
Qed.

Lemma texts_json limit l : texts_ok limit l → json_ok (strings_val l).
Proof.
  intros [He _ _]. constructor. apply Forall_map. eapply Forall_impl; [exact He|].
  intros s (_ & _ & _ & ?). by constructor.
Qed.

Lemma ratios_back c l :
  ratios c = Some l → texts_ok MAX_VIDEO_MODEL_RATIOS l →
  parse_ratios (prop (kept_props (capability_object c)) (js "ratios")) = Ok (ratios c).
Proof.
  intros Hc Hl. rewrite (prop_stored c _ (strings_val (map toLowerCase (default [] (ratios c))))) by reflexivity.
  rewrite Hc. change (default [] (Some l)) with l. rewrite (lower_texts _ l Hl), kept_strings. unfold strings_val.
  cbn [parse_ratios]. destruct (texts_back _ l Hl) as [-> Hd]. run_res. by rewrite Hd.
Qed.

(** The property is stored under its name and read with the inverse. *)
Ltac read_stored := etransitivity; [apply f_equal, prop_stored; reflexivity|].

Lemma entry_back c :
  entry_canonical c →
  capability_of (model c) (resolutions c) (ratios c) (omit_parameters c)
    (kept_props (capability_object c)) = c.
Proof.
  intros []. destruct can_maps0, can_minima0 as (? & ? & ? & ?), can_maxima0 as (? & ? & ?),
    can_durations0 as (? & ? & ? & ?), can_seed0, can_modes0, can_model0 as (_ & Ht & _).
  assert (∀ n v, integer_in 0 64 n → v = kept (VNum n) → default num_zero (reference_count v) = n) as Hmax.
  { intros n v Hn ->. unfold reference_count, MAX_VIDEO_REFERENCE_COUNT.
    rewrite (within_back 0 64 n) by (first [done | unfold bounds_safe; lia]). done. }
  unfold capability_of. rewrite (trim_id _ Ht).
  transitivity {| model := model c;
    resolutions := resolutions c;
    ratios := ratios c;
    resolution_mappings := resolution_mappings c;
    size_mappings := size_mappings c;
    ratio_required := ratio_required c;
    min_reference_images := min_reference_images c;
    max_reference_images := max_reference_images c;
    min_reference_videos := min_reference_videos c;
    max_reference_videos := max_reference_videos c;
    min_reference_audios := min_reference_audios c;
    max_reference_audios := max_reference_audios c;
    max_reference_media_count := max_reference_media_count c;
    supports_duration := supports_duration c;
    duration_required := duration_required c;
    min_duration_seconds := min_duration_seconds c;
    max_duration_seconds := max_duration_seconds c;
    allowed_duration_seconds := allowed_duration_seconds c;
    default_duration_seconds := default_duration_seconds c;
    supports_generate_audio := supports_generate_audio c;
    generate_audio_required := generate_audio_required c;
    supports_first_frame := supports_first_frame c;
    first_frame_required := first_frame_required c;
    supports_last_frame := supports_last_frame c;
    last_frame_required := last_frame_required c;
    last_frame_requires_first_frame := last_frame_requires_first_frame c;
    reference_images_incompatible_with_frames := reference_images_incompatible_with_frames c;
    audio_reference_requires_visual_reference := audio_reference_requires_visual_reference c;
    reference_media_requires_visual_reference := reference_media_requires_visual_reference c;
    reference_media_incompatible_with_frames := reference_media_incompatible_with_frames c;
    supports_seed := supports_seed c;
    min_seed := min_seed c;
    max_seed := max_seed c;
    supports_watermark := supports_watermark c;
    auto_reference_mode := auto_reference_mode c;
    reference_mode_for_references := reference_mode_for_references c;
    reference_mode_for_frames := reference_mode_for_frames c;
    frames_as_reference_images := frames_as_reference_images c;
    asset_preparation_mode := asset_preparation_mode c;
    omit_parameters := omit_parameters c;
    fixed_parameters := fixed_parameters c |}; [|by destruct c].
  f_equal; try (read_stored; apply flag_back);
    try (read_stored; apply map_back; assumption);
    try (read_stored; apply string_back; assumption);
    try (apply Hmax; [assumption | apply prop_stored; reflexivity]);
    try (read_stored; apply opt_within_back; [by repeat split | assumption]).
  - read_stored. by apply durations_back.
  - read_stored. by apply (opt_integer_back (-1) 2147483647); [by repeat split|].
  - read_stored. by apply (opt_integer_back (-1) 2147483647); [by repeat split|].
  - read_stored. by apply asset_back.
  - read_stored. by apply fixed_back.
Qed.

Lemma opt_json {A} (f : A → val) (P : A → Prop) o :
  opt_spec P o → (∀ x, P x → json_ok (f x)) →
  opt_js f o = VUndef ∨ json_ok (kept (opt_js f o)).
Proof.
  intros Ho Hf. destruct o as [x|]; [right | by left]. cbn [opt_js]. rewrite kept_ok; by apply Hf.
Qed.

Lemma asset_json o :
  opt_spec (λ s, s = js "globalaiopc_seedance") o → or_undefined o = VUndef ∨ json_ok (kept (or_undefined o)).
Proof.
  destruct o as [s|]; [|by left]. cbn [opt_spec]. intros ->. right. unfold or_undefined.
  assert (truthy_str (js "globalaiopc_seedance") = true) as -> by (vm_compute; reflexivity).
  cbn [kept]. constructor. apply (bool_decide_eq_true_1 _). vm_compute. reflexivity.
Qed.

Lemma entry_json c : entry_canonical c → json_ok (kept (VObj (capability_object c))).
Proof.
  intros []. destruct can_maps0, can_minima0 as (? & ? & ? & ?), can_maxima0 as (? & ? & ?),
    can_durations0 as (? & ? & ? & Hall), can_seed0, can_modes0, can_ratios0 as (l & Hr & Hl).
  apply json_ok_kept; [apply capability_names | apply capability_units |].
  assert (∀ o, opt_js VBool o = VUndef ∨ json_ok (kept (opt_js VBool o))) as Hflag.
  { intros o. apply (opt_json _ (λ _, True)); [by destruct o | constructor]. }
  assert (∀ lo hi, bounds_safe lo hi → ∀ o, opt_spec (integer_in lo hi) o →
          opt_js VNum o = VUndef ∨ json_ok (kept (opt_js VNum o))) as Hnum.
  { intros lo hi Hb o Ho. apply (opt_json _ _ o Ho). intros n Hn. by apply (integer_in_facts lo hi). }
  assert (∀ n, integer_in 0 64 n → VNum n = VUndef ∨ json_ok (kept (VNum n))) as Hmax.
  { intros n Hn. apply (Hnum 0 64)%Z with (o := Some n); [by repeat split | done]. }
  assert (∀ o, opt_spec (Forall code_unit) o → opt_js VStr o = VUndef ∨ json_ok (kept (opt_js VStr o))) as Hstr.
  { intros o Ho. apply (opt_json _ _ o Ho). by constructor. }
  assert (bounds_safe 0 64 ∧ bounds_safe 1 3600 ∧ bounds_safe (-1) 2147483647) as (? & ? & ?)
    by (unfold bounds_safe; lia).
  repeat apply Forall_cons_2; cbn [fst snd]; try apply Forall_nil_2; try apply Hflag;
    try (apply Hmax; assumption); try (apply (Hnum 0 64)%Z; assumption);
    try (apply (Hnum 1 3600)%Z; assumption); try (apply (Hnum (-1) 2147483647)%Z; assumption); try (apply Hstr; assumption).
  - right. rewrite (lower_texts _ _ can_resolutions0), kept_strings. by eapply texts_json.
  - right. rewrite Hr. change (default [] (Some l)) with l.
    rewrite (lower_texts _ _ Hl), kept_strings. by eapply texts_json.
  - by apply (opt_json _ string_map_ok); [|apply string_map_json].
  - by apply (opt_json _ string_map_ok); [|apply string_map_json].
  - apply (opt_json _ _ _ Hall). intros ds [Hds _]. constructor. apply Forall_map.
    eapply Forall_impl; [exact Hds|]. intros n Hn. by apply (integer_in_facts 1 3600).
  - by apply asset_json.
  - apply (opt_json _ _ _ can_omitted0). intros ws Hws. constructor. apply Forall_map.
    eapply Forall_impl; [exact Hws|]. by constructor.
  - by apply (opt_json _ _ _ can_fixed0).
Qed.

(** ** The list *)

(** Names in an order that the properties of an object keep. *)
Definition keeps_order (caps : list VideoModelCapabilityFormValue) : Prop :=
  from_entries (map (λ c, (model c, c)) caps) = map (λ c, (model c, c)) caps.

Definition stored_entries (caps : list VideoModelCapabilityFormValue) : list (jsstr * val) :=
  map (λ c, (model c, VObj (capability_object c))) caps.

Lemma stored_object caps :
  Forall entry_canonical caps → keeps_order caps →
  video_capabilities_object caps = stored_entries caps.
Proof.
  intros Hc Ho. unfold video_capabilities_object.
  assert (∀ c, c ∈ caps → model c ≠ [] ∧ trim (model c) = model c) as Ht.
  { rewrite Forall_forall in Hc. intros c Hin. destruct (Hc c Hin) as [(? & ? & _)].
    by rewrite trim_id. }
  rewrite filterb_all.
  - transitivity (from_entries (stored_entries caps)).
    + f_equal. apply map_ext_Forall, Forall_forall. intros c Hin. by destruct (Ht c Hin) as [_ ->].
    + assert (stored_entries caps = mmap (λ c, VObj (capability_object c)) (map (λ c, (model c, c)) caps)) as ->.
      { unfold stored_entries, mmap. by rewrite map_map. }
      by rewrite <-mmap_from_entries, Ho.
  - intros c Hin. apply truthy_str_true. by destruct (Ht c Hin) as [? ->].
Qed.

Definition kept_entries (caps : list VideoModelCapabilityFormValue) : list (jsstr * val) :=
  map (λ c, (model c, kept (VObj (capability_object c)))) caps.

Lemma kept_props_objects {A} (f : A → jsstr) (g : A → list (jsstr * val)) (l : list A) :
  kept_props (map (λ x, (f x, VObj (g x))) l) = map (λ x, (f x, kept (VObj (g x)))) l.
Proof.
  induction l as [|x l IH]; [done|]. cbn [map]. unfold kept_props. csimpl.
  fold (kept_props (map (λ x, (f x, VObj (g x))) l)). by rewrite IH.
Qed.

Lemma kept_stored caps : kept (VObj (stored_entries caps)) = VObj (kept_entries caps).
Proof. exact (f_equal VObj (kept_props_objects model capability_object caps)). Qed.

Lemma entries_json caps :
  Forall entry_canonical caps → keeps_order caps → json_ok (VObj (kept_entries caps)).
Proof.
  intros Hc Ho. unfold kept_entries. constructor.
  - apply Forall_map. eapply Forall_impl; [exact Hc|]. by intros c [(_ & _ & ?)].
  - apply Forall_map. eapply Forall_impl; [exact Hc|]. intros c ?. by apply entry_json.
  - set (f := λ c, kept (VObj (capability_object c))).
    assert (map (λ c, (model c, f c)) caps = mmap f (map (λ c, (model c, c)) caps)) as E.
    { unfold mmap. by rewrite map_map. }
    change (map (λ c, (model c, kept (VObj (capability_object c)))) caps)
      with (map (λ c, (model c, f c)) caps). rewrite E.
    change (obj_of ?m []) with (from_entries m). by rewrite <-mmap_from_entries, Ho.
Qed.

Lemma entries_back caps :
  Forall entry_canonical caps → parse_capabilities (kept_entries caps) = Ok caps.
Proof.
  induction 1 as [|c caps Hc _ IH]; [done|]. unfold kept_entries. cbn [map].
  fold (kept_entries caps).
  rewrite kept_object. cbn [parse_capabilities]. pose proof (can_resolutions c Hc) as Hr.
  rewrite (prop_stored c (js "resolutions") (strings_val (map toLowerCase (resolutions c)))) by reflexivity.
  rewrite (lower_texts _ _ Hr), kept_strings. unfold strings_val.
  destruct (texts_back _ _ Hr) as [-> Hd]. run_res. rewrite Hd.
  destruct (can_ratios c Hc) as (l & Hl & Hlo). rewrite (ratios_back c l Hl Hlo).
  destruct (can_model c Hc) as (Hne & Ht & _).
  rewrite (trim_id _ Ht), (proj2 (truthy_str_true _) Hne). cbn [negb].
  rewrite (prop_stored c (js "omit_parameters") (opt_js strings_val (omit_parameters c))) by reflexivity.
  rewrite omitted_back, IH. do 2 f_equal. by apply entry_back.
Qed.

(** The video capabilities of a channel survive being stored.  The object
    the editor writes for a list of canonical entries has a JSON text, and
    loading the value parsed from that text gives the list back, in the same
    order and with every field as it was, those that are undefined included. *)
Theorem capabilities_round_trip (caps : list VideoModelCapabilityFormValue)
    (Hc : Forall entry_canonical caps) (Ho : keeps_order caps) :
  ∃ text v, json_stringify [] (VObj (video_capabilities_object caps)) = Some text
    ∧ json_parse text = Ok v ∧ parseVideoModelCapabilities v = Ok caps.
Proof.
  rewrite stored_object by done.
  destruct (json_parse_kept [] (VObj (stored_entries caps))) as (w & Hw & Hp).
  - constructor.
  - rewrite kept_stored. by apply entries_json.
  - exists w, (VObj (kept_entries caps)). rewrite <-kept_stored. split_and!; [done | done |].
    rewrite kept_stored. by apply entries_back.
Qed.
End trip.

(** Two models, the second with limits, mappings and parameters. *)
Definition sample_entries : list VideoModelCapabilityFormValue :=
  let d := defaultVideoModelCapability (js "veo") in
  [d;
   {| model := js "sora 2"; resolutions := [js "720p"; js "1080p"]; ratios := Some [js "16:9"];
      resolution_mappings := Some [(js "720p", js "HD")]; size_mappings := None;
      ratio_required := Some true;
      min_reference_images := Some (num_of_Z 0); max_reference_images := num_of_Z 9;
      min_reference_videos := None; max_reference_videos := num_of_Z 64;
      min_reference_audios := None; max_reference_audios := num_of_Z 3;
      max_reference_media_count := Some (num_of_Z 12);
      supports_duration := Some true; duration_required := None;
      min_duration_seconds := Some (num_of_Z 4); max_duration_seconds := Some (num_of_Z 15);
      allowed_duration_seconds := Some [num_of_Z 10; num_of_Z 5]; default_duration_seconds := Some (num_of_Z 5);
      supports_generate_audio := None; generate_audio_required := None;
      supports_first_frame := None; first_frame_required := None;
      supports_last_frame := None; last_frame_required := None;
      last_frame_requires_first_frame := None;
      reference_images_incompatible_with_frames := None;
      audio_reference_requires_visual_reference := None;
      reference_media_requires_visual_reference := None;
      reference_media_incompatible_with_frames := None;
      supports_seed := Some true; min_seed := Some (num_of_Z (-1)); max_seed := Some (num_of_Z 2147483647);
      supports_watermark := None; auto_reference_mode := None;
      reference_mode_for_references := Some (js "refs"); reference_mode_for_frames := None;
      frames_as_reference_images := Some false; asset_preparation_mode := Some (js "globalaiopc_seedance");
      omit_parameters := Some [js "seed"];
      fixed_parameters := Some [(js "mode", VStr (js "fast"))] |}].

Lemma sample_canonical : Forall (entry_canonical (lower_case := ascii_case)) sample_entries.
Proof.
  repeat apply Forall_cons_2; try apply Forall_nil_2; split;
    try (apply (bool_decide_eq_true_1 _); vm_compute; reflexivity);
    repeat match goal with
    | |- texts_ok _ _ => split; apply (bool_decide_eq_true_1 _); vm_compute; reflexivity
    | |- ∃ l, _ = Some l ∧ _ => eexists; split; [reflexivity|]
    | |- _ ∧ _ => split
    | |- opt_spec ?P ?o => let o' := eval hnf in o in change (opt_spec P o'); red
    | |- integer_in ?lo ?hi ?n =>
        let z := eval vm_compute in (default 0%Z (num_to_Z n)) in
        exists z; split; [vm_compute; reflexivity | lia]
    | |- Forall (integer_in _ _) _ => repeat apply Forall_cons_2; try apply Forall_nil_2
    | |- NoDup _ => apply (bool_decide_eq_true_1 _); vm_compute; reflexivity
    | |- True => exact I
    end.
  - by repeat constructor.
  - reflexivity.
  - constructor; [| |vm_compute; reflexivity]; repeat constructor;
      apply (bool_decide_eq_true_1 _); vm_compute; reflexivity.
Qed.

Lemma capabilities_round_trip_witness :
  ∃ text v, json_stringify [] (VObj (video_capabilities_object (lower_case := ascii_case) sample_entries)) = Some text
    ∧ json_parse text = Ok v
    ∧ parseVideoModelCapabilities (lower_case := ascii_case) v = Ok sample_entries.
Proof.
  apply (capabilities_round_trip (lower_case := ascii_case)); [apply sample_canonical | vm_compute; reflexivity].
Defined.
