(* ===== verification/ChannelForm.v ===== *)
(** * The form of a channel (channels/lib/channel-form.ts)

    A channel is edited in a form whose values come from the stored channel
    ([transformChannelToFormDefaults]) and go back as the payload of a request
    ([transformFormDataToCreatePayload], [transformFormDataToUpdatePayload]).
    Two JSON texts of the channel are taken apart on the way in and put
    together on the way out: [setting], written afresh from the form, and
    [settings], in which the entries the form manages are replaced.

    Values that come unchecked from a JSON text are [val]s; of the other
    optional fields [None] is [undefined]. *)

From Stdlib Require Import ZArith.
From stdpp Require Import gmap.
From S2P Require Import Prelude JsString JsNumber JsCollections JsValue Json JsonData AdvancedCustom ChannelUtils ModelMapping ChannelVideo.

(** ** Constants *)

Definition DEFAULT_GLOBALAIOPC_ASSET_OPERATIONS_PER_TASK_PER_PASS : Z := 10.
Definition MIN_GLOBALAIOPC_ASSET_OPERATIONS_PER_TASK_PER_PASS : Z := 1.
Definition MAX_GLOBALAIOPC_ASSET_OPERATIONS_PER_TASK_PER_PASS : Z := 50.
Definition DEFAULT_GLOBALAIOPC_ASSET_PREPARATION_TIMEOUT_SECONDS : Z := 900.
Definition MIN_GLOBALAIOPC_ASSET_PREPARATION_TIMEOUT_SECONDS : Z := 60.
Definition MAX_GLOBALAIOPC_ASSET_PREPARATION_TIMEOUT_SECONDS : Z := 3600.

Definition MODEL_FETCHABLE_TYPES : list Z :=
  [1; 4; 14; 17; 20; 23; 24; 25; 26; 27; 31; 34; 35; 40; 42; 43; 47; 48]%Z.

(** ** Checks of JSON fields *)

Definition parseOptionalJson (value : option jsstr) : res val :=
  match value with
  | Some s => if truthy_str (trim s) then json_parse s else Ok VUndef
  | None => Ok VUndef
  end.

(** [try { ... } catch { return false }] around a test of the parsed value. *)
Definition optional_json (value : option jsstr) (test : val → bool) : bool :=
  match parseOptionalJson value with
  | Ok VUndef => true
  | Ok parsed => test parsed
  | Throw _ => false
  end.

Definition isOptionalJsonObject (value : option jsstr) : bool := optional_json value is_plain_object.

Definition isOptionalModelMapping (value : option jsstr) : bool :=
  optional_json value (λ parsed,
    match parsed with VObj ps => forallb (λ kv, is_string (snd kv)) ps | _ => false end).

(** [Number.isInteger(n) && n >= 100 && n <= 599]. *)
Definition http_code (n : num) : bool :=
  num_is_integer n && num_leb (num_of_Z 100) n && num_leb n (num_of_Z 599).

(** [Number(to)] may throw, which the caller turns into [false]. *)
Definition status_code_entry (kv : jsstr * val) : bool :=
  match to_number (snd kv) with
  | Ok toCode => http_code (num_of_string (fst kv)) && http_code toCode
  | Throw _ => false
  end.

Definition isOptionalStatusCodeMapping (value : option jsstr) : bool :=
  optional_json value (λ parsed,
    match parsed with VObj ps => forallb status_code_entry ps | _ => false end).

(** A string that is not blank. *)
Definition filled_string (v : val) : bool :=
  match v with VStr s => truthy_str (trim s) | _ => false end.

Definition isCodexCredential (value : option jsstr) : bool :=
  optional_json value (λ parsed,
    match parsed with
    | VObj ps => filled_string (prop ps (js "access_token")) && filled_string (prop ps (js "account_id"))
    | _ => false
    end).

Definition isVertexJsonKey (value : option jsstr) : bool :=
  optional_json value (λ parsed,
    match parsed with
    | VArr l => forallb is_plain_object l
    | VObj _ => true
    | _ => false
    end).

Definition validateJSON (value : jsstr) : bool :=
  if negb (truthy_str value) || bool_decide (trim value = []) then true
  else match json_parse value with Ok _ => true | Throw _ => false end.

Definition validateModelMapping (value : jsstr) : bool :=
  if negb (truthy_str value) || bool_decide (trim value = []) then true else validateJSON value.

(** ** Lists in texts *)

Definition parseModels (models : jsstr) : list jsstr :=
  if truthy_str models then comma_items models else [].
Definition parseGroups (groups : jsstr) : list jsstr :=
  if truthy_str groups then comma_items groups else [].
Definition formatModels (models : list jsstr) : jsstr := join [comma] models.
Definition formatGroups (groups : list jsstr) : jsstr := join [comma] groups.

(** ** Form values *)

(** What the form holds of the channel's [setting]. *)
Record ExtraSettings := {
  force_format : val;
  thinking_to_content : val;
  proxy : val;
  video_content_proxy_enabled : val;
  video_s3_storage_enabled : val;
  video_s3_preferred : val;
  video_protocol : option jsstr;
  video_model_capabilities : option (list VideoModelCapabilityFormValue);
  globalaiopc_asset_operations_per_task_per_pass : val;
  globalaiopc_asset_preparation_timeout_seconds : val;
  pass_through_body_enabled : val;
  system_prompt : val;
  system_prompt_override : val
}.

(** What it holds of the channel's [settings]. *)
Record TypeSettings := {
  is_enterprise_account : option bool;
  vertex_key_type : val;
  aws_key_type : val;
  azure_responses_version : val;
  allow_service_tier : option bool;
  disable_store : option bool;
  allow_safety_identifier : option bool;
  allow_include_obfuscation : option bool;
  allow_inference_geo : option bool;
  allow_speed : option bool;
  claude_beta_query : option bool;
  disable_task_polling_sleep : option bool;
  upstream_model_update_check_enabled : option bool;
  upstream_model_update_auto_sync_enabled : option bool;
  upstream_model_update_ignored_models : option jsstr;
  advanced_custom : option jsstr
}.

(** The two groups of fields, which the code spreads among the others, are
    kept together. *)
Record ChannelFormValues := {
  name : jsstr;
  type : num;
  base_url : option jsstr;
  key : option jsstr;
  openai_organization : option jsstr;
  models : jsstr;
  group : list jsstr;
  model_mapping : option jsstr;
  priority : val;
  weight : val;
  test_model : option jsstr;
  auto_ban : val;
  status : num;
  status_code_mapping : option jsstr;
  tag : option jsstr;
  remark : option jsstr;
  setting : option jsstr;
  param_override : option jsstr;
  header_override : option jsstr;
  settings : option jsstr;
  other : option jsstr;
  multi_key_mode : option jsstr;
  multi_key_type : option jsstr;
  batch_add_set_key_prefix_2_name : option bool;
  key_mode : option jsstr;
  extra : ExtraSettings;
  special : TypeSettings
}.

Definition type_is (data : ChannelFormValues) (t : Z) : bool := num_eqb (type data) (num_of_Z t).
Definition type_in (data : ChannelFormValues) (ts : list Z) : bool := existsb (type_is data) ts.

(** [!s?.trim()]. *)
Definition blank (s : option jsstr) : bool := negb (truthy_str (trim (default [] s))).

(** ** The fields of the schema *)

(** [z.boolean().optional()], [z.string().optional()], [z.enum(l).optional()]
    and [z.number().optional()], which takes finite numbers. *)
Definition boolean_schema (v : val) : bool := match v with VUndef | VBool _ => true | _ => false end.
Definition string_schema (v : val) : bool := match v with VUndef | VStr _ => true | _ => false end.
Definition number_schema (v : val) : bool :=
  match v with VUndef => true | VNum n => num_is_finite n | _ => false end.
Definition integer_schema (lo hi : Z) (v : val) : bool :=
  match v with VUndef => true | VNum n => within lo hi n | _ => false end.
Definition enum_schema (l : list jsstr) (v : val) : bool :=
  match v with VUndef => true | VStr s => bool_decide (s ∈ l) | _ => false end.
Definition enum_opt (l : list jsstr) (o : option jsstr) : bool := opt_all (λ s, bool_decide (s ∈ l)) o.

Definition VIDEO_PROTOCOLS : list jsstr :=
  [js "openai_video"; js "megabyai"; js "globalaiopc"; js "agnes_video_v2"; js "lingganya_video"].

Definition extra_schema (e : ExtraSettings) : bool :=
  boolean_schema (force_format e) && boolean_schema (thinking_to_content e) && string_schema (proxy e)
  && boolean_schema (video_content_proxy_enabled e) && boolean_schema (video_s3_storage_enabled e)
  && boolean_schema (video_s3_preferred e) && enum_opt ([] :: VIDEO_PROTOCOLS) (video_protocol e)
  && opt_all (forallb videoModelCapabilitySchema) (video_model_capabilities e)
  && integer_schema MIN_GLOBALAIOPC_ASSET_OPERATIONS_PER_TASK_PER_PASS
       MAX_GLOBALAIOPC_ASSET_OPERATIONS_PER_TASK_PER_PASS
       (globalaiopc_asset_operations_per_task_per_pass e)
  && integer_schema MIN_GLOBALAIOPC_ASSET_PREPARATION_TIMEOUT_SECONDS
       MAX_GLOBALAIOPC_ASSET_PREPARATION_TIMEOUT_SECONDS
       (globalaiopc_asset_preparation_timeout_seconds e)
  && boolean_schema (pass_through_body_enabled e) && string_schema (system_prompt e)
  && boolean_schema (system_prompt_override e).

Definition special_schema (s : TypeSettings) : bool :=
  enum_schema [js "json"; js "api_key"] (vertex_key_type s)
  && enum_schema [js "ak_sk"; js "api_key"] (aws_key_type s)
  && string_schema (azure_responses_version s).

(** Whether every field of the object passes its own schema. *)
Definition channelFormSchema (data : ChannelFormValues) : bool :=
  (1 <=? length (name data))%nat && num_leb num_zero (type data) && num_is_finite (type data)
  && (1 <=? length (models data))%nat && (1 <=? length (group data))%nat
  && bool_decide (key data ≠ None)
  && isOptionalModelMapping (model_mapping data) && number_schema (priority data)
  && number_schema (weight data) && number_schema (auto_ban data) && num_is_finite (status data)
  && isOptionalStatusCodeMapping (status_code_mapping data)
  && opt_all (λ s, (length s <=? 255)%nat) (remark data)
  && isOptionalJsonObject (setting data) && isOptionalJsonObject (param_override data)
  && isOptionalJsonObject (header_override data) && isOptionalJsonObject (settings data)
  && enum_opt [js "single"; js "batch"; js "multi_to_single"] (multi_key_mode data)
  && enum_opt [js "random"; js "polling"] (multi_key_type data)
  && enum_opt [js "append"; js "replace"] (key_mode data)
  && extra_schema (extra data) && special_schema (special data).

(** ** The refinement of the schema *)

Definition required_issue (field msg : String.string) : Issue :=
  {| path := [Field (js field)]; ChannelVideo.message := js msg |}.
#[global] Arguments required_issue (_ _)%_string.

Section refine.
Variable url_parse : jsstr → option (jsstr * jsstr).
Context {lower_case : LowerCase}.

Definition check_advanced_custom (data : ChannelFormValues) : res (list Issue) :=
  if type_is data CHANNEL_TYPE_ADVANCED_CUSTOM then
    let config := default VNull (parseAdvancedCustomConfig (advanced_custom (special data))) in
    e ← validateAdvancedCustomConfig url_parse config;
    relative ← advancedCustomConfigUsesRelativeUpstreamPath config;
    Ok (match e with
        | Some e => [{| path := [Field (js "advanced_custom")];
                        ChannelVideo.message := AdvancedCustom.message e |}]
        | None => []
        end
        ++ issue_if (relative && blank (base_url data))
             (required_issue "base_url" "Base URL is required when an advanced route uses an upstream path"))
  else Ok [].

(** [mode && mode !== 'single']. *)
Definition multi_key_chosen (data : ChannelFormValues) : bool :=
  truthy_str (default [] (multi_key_mode data)) && negb (str_opt_is (multi_key_mode data) "single").

Definition check_codex (data : ChannelFormValues) : list Issue :=
  if type_is data 57 then
    issue_if (multi_key_chosen data)
      (required_issue "multi_key_mode" "Codex channels do not support batch creation")
    ++ issue_if (negb (blank (key data)) && negb (isCodexCredential (key data)))
         (required_issue "key" "Codex credential must be a JSON object with access_token and account_id")
  else [].

Definition val_is (v : val) (s : String.string) : bool := strict_eqb v (VStr (js s)).
#[global] Arguments val_is _ _%_string.

Definition check_vertex (data : ChannelFormValues) : list Issue :=
  issue_if (type_is data 41 && val_is (vertex_key_type (special data)) "json"
            && negb (blank (key data)) && negb (isVertexJsonKey (key data)))
    (required_issue "key" "Vertex AI service account key must be valid JSON")
  ++ issue_if (type_is data 41 && val_is (vertex_key_type (special data)) "api_key" && multi_key_chosen data)
       (required_issue "multi_key_mode" "Vertex AI API Key mode does not support batch creation").

Definition superRefine (data : ChannelFormValues) : res (list Issue) :=
  advanced ← check_advanced_custom data;
  Ok (issue_if (type_in data [3; 8; 36; 45]%Z && blank (base_url data))
        (required_issue "base_url" "Base URL is required for this channel type")
      ++ advanced
      ++ issue_if (type_in data [3; 18; 21; 39; 41; 49]%Z && blank (other data))
           (required_issue "other" "This channel type requires additional configuration")
      ++ check_codex data
      ++ check_vertex data
      ++ check_video (video_protocol (extra data)) (default [] (video_model_capabilities (extra data)))).
End refine.

(** ** From the channel to the form *)

Definition default_extra : ExtraSettings :=
  {| force_format := VBool false; thinking_to_content := VBool false; proxy := VStr [];
     video_content_proxy_enabled := VBool false; video_s3_storage_enabled := VBool false;
     video_s3_preferred := VBool false; video_protocol := Some []; video_model_capabilities := Some [];
     globalaiopc_asset_operations_per_task_per_pass :=
       VNum (num_of_Z DEFAULT_GLOBALAIOPC_ASSET_OPERATIONS_PER_TASK_PER_PASS);
     globalaiopc_asset_preparation_timeout_seconds :=
       VNum (num_of_Z DEFAULT_GLOBALAIOPC_ASSET_PREPARATION_TIMEOUT_SECONDS);
     pass_through_body_enabled := VBool false; system_prompt := VStr [];
     system_prompt_override := VBool false |}.

(** [[...].includes(v) ? v : '']. *)
Definition parse_protocol (v : val) : jsstr :=
  match v with
  | VStr s => if bool_decide (s ∈ VIDEO_PROTOCOLS) then s else []
  | _ => []
  end.

(** [v?.k]. *)
Definition get_prop_opt (v : val) (k : jsstr) : res val :=
  if nullish v then Ok VUndef else get_prop v k.

(** An integer between the bounds, or the default. *)
Definition integer_or (lo hi d : Z) (v : val) : val :=
  VNum (default (num_of_Z d) (integer_within lo hi v)).

Section load.
Context {lower_case : LowerCase}.

(** The object assigned to [extraSettings]. *)
Definition parse_extra (parsed : val) : res ExtraSettings :=
  protocol ← get_prop parsed (js "video_protocol");
  preparation ← get_prop parsed (js "globalaiopc_asset_preparation");
  assetOperations ← get_prop_opt preparation (js "operations_per_task_per_pass");
  assetTimeout ← get_prop_opt preparation (js "timeout_seconds");
  ff ← get_prop parsed (js "force_format");
  ttc ← get_prop parsed (js "thinking_to_content");
  pr ← get_prop parsed (js "proxy");
  vcp ← get_prop parsed (js "video_content_proxy_enabled");
  vss ← get_prop parsed (js "video_s3_storage_enabled");
  vsp ← get_prop parsed (js "video_s3_preferred");
  raw ← get_prop parsed (js "video_model_capabilities");
  caps ← parseVideoModelCapabilities raw;
  ptb ← get_prop parsed (js "pass_through_body_enabled");
  sp ← get_prop parsed (js "system_prompt");
  spo ← get_prop parsed (js "system_prompt_override");
  Ok {| force_format := val_or ff (VBool false);
        thinking_to_content := val_or ttc (VBool false);
        proxy := val_or pr (VStr []);
        video_content_proxy_enabled := val_or vcp (VBool false);
        video_s3_storage_enabled := val_or vss (VBool false);
        video_s3_preferred := val_or vsp (VBool false);
        video_protocol := Some (parse_protocol protocol);
        video_model_capabilities := Some caps;
        globalaiopc_asset_operations_per_task_per_pass :=
          integer_or MIN_GLOBALAIOPC_ASSET_OPERATIONS_PER_TASK_PER_PASS
            MAX_GLOBALAIOPC_ASSET_OPERATIONS_PER_TASK_PER_PASS
            DEFAULT_GLOBALAIOPC_ASSET_OPERATIONS_PER_TASK_PER_PASS assetOperations;
        globalaiopc_asset_preparation_timeout_seconds :=
          integer_or MIN_GLOBALAIOPC_ASSET_PREPARATION_TIMEOUT_SECONDS
            MAX_GLOBALAIOPC_ASSET_PREPARATION_TIMEOUT_SECONDS
            DEFAULT_GLOBALAIOPC_ASSET_PREPARATION_TIMEOUT_SECONDS assetTimeout;
        pass_through_body_enabled := val_or ptb (VBool false);
        system_prompt := val_or sp (VStr []);
        system_prompt_override := val_or spo (VBool false) |}.

Definition load_extra (setting : option jsstr) : ExtraSettings :=
  match setting with
  | Some text =>
      if truthy_str text then try_catch (parsed ← json_parse text; parse_extra parsed) default_extra
      else default_extra
  | None => default_extra
  end.
End load.

Definition default_special : TypeSettings :=
  {| is_enterprise_account := Some false; vertex_key_type := VStr (js "json");
     aws_key_type := VStr (js "ak_sk"); azure_responses_version := VStr [];
     allow_service_tier := Some false; disable_store := Some false; allow_safety_identifier := Some false;
     allow_include_obfuscation := Some false; allow_inference_geo := Some false; allow_speed := Some false;
     claude_beta_query := Some false; disable_task_polling_sleep := Some false;
     upstream_model_update_check_enabled := Some false;
     upstream_model_update_auto_sync_enabled := Some false;
     upstream_model_update_ignored_models := Some []; advanced_custom := Some [] |}.

(** [v === true]. *)
Definition equals_true (v : val) : bool := strict_eqb v (VBool true).

Definition with_ignored (s : TypeSettings) (ignored : jsstr) : TypeSettings :=
  {| is_enterprise_account := is_enterprise_account s; vertex_key_type := vertex_key_type s;
     aws_key_type := aws_key_type s; azure_responses_version := azure_responses_version s;
     allow_service_tier := allow_service_tier s; disable_store := disable_store s;
     allow_safety_identifier := allow_safety_identifier s;
     allow_include_obfuscation := allow_include_obfuscation s;
     allow_inference_geo := allow_inference_geo s; allow_speed := allow_speed s;
     claude_beta_query := claude_beta_query s; disable_task_polling_sleep := disable_task_polling_sleep s;
     upstream_model_update_check_enabled := upstream_model_update_check_enabled s;
     upstream_model_update_auto_sync_enabled := upstream_model_update_auto_sync_enabled s;
     upstream_model_update_ignored_models := Some ignored; advanced_custom := advanced_custom s |}.

Definition with_advanced (s : TypeSettings) (text : option jsstr) : TypeSettings :=
  {| is_enterprise_account := is_enterprise_account s; vertex_key_type := vertex_key_type s;
     aws_key_type := aws_key_type s; azure_responses_version := azure_responses_version s;
     allow_service_tier := allow_service_tier s; disable_store := disable_store s;
     allow_safety_identifier := allow_safety_identifier s;
     allow_include_obfuscation := allow_include_obfuscation s;
     allow_inference_geo := allow_inference_geo s; allow_speed := allow_speed s;
     claude_beta_query := claude_beta_query s; disable_task_polling_sleep := disable_task_polling_sleep s;
     upstream_model_update_check_enabled := upstream_model_update_check_enabled s;
     upstream_model_update_auto_sync_enabled := upstream_model_update_auto_sync_enabled s;
     upstream_model_update_ignored_models := upstream_model_update_ignored_models s;
     advanced_custom := text |}.

(** The assignments of the [try] block in order; a variable keeps what was
    assigned before an exception.  [p] reads a property of the parsed value,
    which is not nullish. *)
Definition assign_special (p : jsstr → val) : TypeSettings :=
  let flags :=
    {| is_enterprise_account := Some (equals_true (p (js "openrouter_enterprise")));
       vertex_key_type := val_or (p (js "vertex_key_type")) (VStr (js "json"));
       aws_key_type := val_or (p (js "aws_key_type")) (VStr (js "ak_sk"));
       azure_responses_version := val_or (p (js "azure_responses_version")) (VStr []);
       allow_service_tier := Some (equals_true (p (js "allow_service_tier")));
       disable_store := Some (equals_true (p (js "disable_store")));
       allow_safety_identifier := Some (equals_true (p (js "allow_safety_identifier")));
       allow_include_obfuscation := Some (equals_true (p (js "allow_include_obfuscation")));
       allow_inference_geo := Some (equals_true (p (js "allow_inference_geo")));
       allow_speed := Some (equals_true (p (js "allow_speed")));
       claude_beta_query := Some (equals_true (p (js "claude_beta_query")));
       disable_task_polling_sleep := Some (equals_true (p (js "disable_task_polling_sleep")));
       upstream_model_update_check_enabled := Some (equals_true (p (js "upstream_model_update_check_enabled")));
       upstream_model_update_auto_sync_enabled :=
         Some (equals_true (p (js "upstream_model_update_auto_sync_enabled")));
       upstream_model_update_ignored_models := Some []; advanced_custom := Some [] |} in
  let ignored := match p (js "upstream_model_update_ignored_models") with
                 | VArr l => to_string (VArr l)
                 | _ => Ok []
                 end in
  match ignored with
  | Throw _ => flags
  | Ok ignored =>
      let flags := with_ignored flags ignored in
      let config := p (js "advanced_custom") in
      if truthy config then
        match stringifyAdvancedCustomConfig config with
        | Ok text => with_advanced flags text
        | Throw _ => flags
        end
      else flags
  end.

Definition load_special (settings : jsstr) : TypeSettings :=
  if truthy_str settings then
    match json_parse settings with
    | Throw _ => default_special
    | Ok parsed =>
        if nullish parsed then default_special
        else assign_special (λ k, try_catch (get_prop parsed k) VUndef)
    end
  else default_special.

(** [v || d] on nullish strings. *)
Definition opt_or (v : option jsstr) (d : jsstr) : jsstr := str_or (default [] v) d.

Definition CHANNEL_FORM_DEFAULT_VALUES : ChannelFormValues :=
  {| name := []; type := num_of_Z 1; base_url := Some []; key := Some []; openai_organization := Some [];
     models := []; group := [js "default"]; model_mapping := Some [];
     priority := VNum num_zero; weight := VNum num_zero; test_model := Some [];
     auto_ban := VNum (num_of_Z 1); status := num_of_Z 1; status_code_mapping := Some [];
     tag := Some []; remark := Some []; setting := Some []; param_override := Some [];
     header_override := Some []; settings := Some (js "{}"); other := Some [];
     multi_key_mode := Some (js "single"); multi_key_type := Some (js "random");
     batch_add_set_key_prefix_2_name := Some false; key_mode := Some (js "append");
     extra := default_extra; special := default_special |}.

Definition transformChannelToFormDefaults {lower_case : LowerCase} (channel : Channel) : ChannelFormValues :=
  {| name := str_or (ChannelUtils.name channel) [];
     type := ChannelUtils.type channel;
     base_url := Some (opt_or (ChannelUtils.base_url channel) []);
     key := Some [];
     openai_organization := Some (opt_or (ChannelUtils.openai_organization channel) []);
     models := str_or (ChannelUtils.models channel) [];
     group := parseGroups (str_or (ChannelUtils.group channel) (js "default"));
     model_mapping := Some (opt_or (ChannelUtils.model_mapping channel) []);
     priority := val_or (ChannelUtils.priority channel) (VNum num_zero);
     weight := val_or (ChannelUtils.weight channel) (VNum num_zero);
     test_model := Some (opt_or (ChannelUtils.test_model channel) []);
     auto_ban := if nullish (ChannelUtils.auto_ban channel) then VNum (num_of_Z 1)
                 else ChannelUtils.auto_ban channel;
     status := ChannelUtils.status channel;
     status_code_mapping := Some (opt_or (ChannelUtils.status_code_mapping channel) []);
     tag := Some (opt_or (ChannelUtils.tag channel) []);
     remark := Some (str_or (ChannelUtils.remark channel) []);
     setting := Some (opt_or (ChannelUtils.setting channel) []);
     param_override := Some (opt_or (ChannelUtils.param_override channel) []);
     header_override := Some (opt_or (ChannelUtils.header_override channel) []);
     settings := Some (str_or (ChannelUtils.settings channel) (js "{}"));
     other := Some (str_or (ChannelUtils.other channel) []);
     multi_key_mode := Some (js "single");
     multi_key_type := Some (str_or (ChannelUtils.multi_key_mode (channel_info channel)) (js "random"));
     batch_add_set_key_prefix_2_name := Some false;
     key_mode := Some (js "append");
     extra := load_extra (ChannelUtils.setting channel);
     special := load_special (ChannelUtils.settings channel) |}.

(** ** From the form to the texts of the channel *)

(** [JSON.stringify] of an object, which always has a text. *)
Definition stringify_object (ps : list (jsstr * val)) : jsstr := default [] (json_stringify [] (VObj ps)).

Section build.
Context {lower_case : LowerCase}.

(** The object [settingObj]. *)
Definition setting_object (e : ExtraSettings) : list (jsstr * val) :=
  [(js "force_format", val_or (force_format e) (VBool false));
   (js "thinking_to_content", val_or (thinking_to_content e) (VBool false));
   (js "proxy", val_or (proxy e) (VStr []));
   (js "video_content_proxy_enabled", val_or (video_content_proxy_enabled e) (VBool false));
   (js "video_s3_storage_enabled", val_or (video_s3_storage_enabled e) (VBool false));
   (js "video_s3_preferred", val_or (video_s3_preferred e) (VBool false));
   (js "video_protocol", VStr (opt_or (video_protocol e) []));
   (js "video_model_capabilities",
      VObj (video_capabilities_object (default [] (video_model_capabilities e))));
   (js "globalaiopc_asset_preparation",
      if str_opt_is (video_protocol e) "globalaiopc"
      then VObj [(js "operations_per_task_per_pass", globalaiopc_asset_operations_per_task_per_pass e);
                 (js "timeout_seconds", globalaiopc_asset_preparation_timeout_seconds e)]
      else VUndef);
   (js "pass_through_body_enabled", val_or (pass_through_body_enabled e) (VBool false));
   (js "system_prompt", val_or (system_prompt e) (VStr []));
   (js "system_prompt_override", val_or (system_prompt_override e) (VBool false))].

Definition buildSettingJSON (formData : ChannelFormValues) : jsstr :=
  stringify_object (setting_object (extra formData)).
End build.

(** [if (b) o.k = v; else if (k in o) delete o.k]. *)
Definition put_if (b : bool) (k : jsstr) (v : val) (ps : list (jsstr * val)) : list (jsstr * val) :=
  if b then obj_set k v ps else obj_del k ps.

Definition flag_val (o : option bool) : val := VBool (flag o).

(** Vertex AI, Azure, OpenRouter, AWS. *)
Definition write_provider (f : ChannelFormValues) (ps : list (jsstr * val)) : list (jsstr * val) :=
  let s := special f in
  put_if (type_is f 33) (js "aws_key_type") (val_or (aws_key_type s) (VStr (js "ak_sk")))
  (put_if (type_is f 20) (js "openrouter_enterprise") (flag_val (is_enterprise_account s))
  (put_if (type_is f 3 && truthy (azure_responses_version s))
     (js "azure_responses_version") (azure_responses_version s)
  (put_if (type_is f 41) (js "vertex_key_type") (val_or (vertex_key_type s) (VStr (js "json"))) ps))).

(** The pass-through controls of types 1, 14 and 57. *)
Definition write_service_tier (f : ChannelFormValues) (ps : list (jsstr * val)) : list (jsstr * val) :=
  put_if (type_is f 1 || type_is f 14 || type_is f 57)
    (js "allow_service_tier") (flag_val (allow_service_tier (special f))) ps.

Definition write_openai (f : ChannelFormValues) (ps : list (jsstr * val)) : list (jsstr * val) :=
  let s := special f in
  if type_is f 1 || type_is f 57 then
    obj_set (js "allow_inference_geo") (flag_val (allow_inference_geo s))
    (obj_set (js "allow_include_obfuscation") (flag_val (allow_include_obfuscation s))
    (obj_set (js "allow_safety_identifier") (flag_val (allow_safety_identifier s))
    (obj_set (js "disable_store") (flag_val (disable_store s)) ps)))
  else
    let ps := obj_del (js "allow_include_obfuscation")
              (obj_del (js "allow_safety_identifier") (obj_del (js "disable_store") ps)) in
    if negb (type_is f 14) then obj_del (js "allow_inference_geo") ps else ps.

Definition write_anthropic (f : ChannelFormValues) (ps : list (jsstr * val)) : list (jsstr * val) :=
  let s := special f in
  if type_is f 14 then
    obj_set (js "claude_beta_query") (flag_val (claude_beta_query s))
    (obj_set (js "allow_speed") (flag_val (allow_speed s))
    (obj_set (js "allow_inference_geo") (flag_val (allow_inference_geo s)) ps))
  else obj_del (js "claude_beta_query") (obj_del (js "allow_speed") ps).

Definition ignored_models (s : TypeSettings) : list jsstr :=
  uniq (List.filter truthy_str
          (map trim (split_on comma (default [] (upstream_model_update_ignored_models s))))).

Definition is_array (v : val) : bool := match v with VArr _ => true | _ => false end.
Definition is_number (v : val) : bool := match v with VNum _ => true | _ => false end.

(** The settings of the upstream model check. *)
Definition write_upstream (f : ChannelFormValues) (ps : list (jsstr * val)) : list (jsstr * val) :=
  let s := special f in
  if type_in f MODEL_FETCHABLE_TYPES then
    let check := flag (upstream_model_update_check_enabled s) in
    let ps := obj_set (js "upstream_model_update_check_enabled") (VBool check) ps in
    let ps := obj_set (js "upstream_model_update_auto_sync_enabled")
                (VBool (check && flag (upstream_model_update_auto_sync_enabled s))) ps in
    let ps := obj_set (js "upstream_model_update_ignored_models") (strings_val (ignored_models s)) ps in
    let ps := if negb (is_array (prop ps (js "upstream_model_update_last_detected_models"))) || negb check
              then obj_set (js "upstream_model_update_last_detected_models") (VArr []) ps else ps in
    if negb (is_number (prop ps (js "upstream_model_update_last_check_time")))
    then obj_set (js "upstream_model_update_last_check_time") (VNum num_zero) ps else ps
  else ps.

Definition write_advanced (f : ChannelFormValues) (ps : list (jsstr * val)) : list (jsstr * val) :=
  if type_is f CHANNEL_TYPE_ADVANCED_CUSTOM then
    match parseAdvancedCustomConfig (advanced_custom (special f)) with
    | Some config => obj_set (js "advanced_custom") config ps
    | None => ps
    end
  else obj_del (js "advanced_custom") ps.

(** What the function does to the object it has parsed. *)
Definition write_settings (f : ChannelFormValues) (ps : list (jsstr * val)) : list (jsstr * val) :=
  let ps := write_provider f ps in
  let ps := write_anthropic f (write_openai f (write_service_tier f ps)) in
  let ps := obj_set (js "disable_task_polling_sleep") (flag_val (disable_task_polling_sleep (special f))) ps in
  write_advanced f (write_upstream f ps).

(** The value of [settingsObj] to start from. *)
Definition existing_settings (f : ChannelFormValues) : val :=
  match settings f with
  | Some text => if truthy_str text && negb (bool_decide (text = js "{}"))
                 then try_catch (json_parse text) (VObj []) else VObj []
  | None => VObj []
  end.

(** [settingsObj] may be no plain object: [in] and the assignment throw on a
    primitive; the properties given to an array are not written. *)
Definition buildSettingsJSON (f : ChannelFormValues) : res jsstr :=
  match existing_settings f with
  | VObj ps => Ok (stringify_object (write_settings f ps))
  | VArr l => Ok (default [] (json_stringify [] (VArr l)))
  | _ => Throw TypeError
  end.

(** ** Payloads *)

Definition slash : N := 47.

(** [String(value || '').trim().replace(/\/+$/, '')]. *)
Definition normalizeBaseUrl (value : option jsstr) : jsstr :=
  reverse (drop_while (N.eqb slash) (reverse (trim (default [] value)))).

Definition str_or_null (s : option jsstr) : val := val_or (VStr (default [] s)) VNull.

(** [channel[key] === '' ? null : channel[key]] for every key. *)
Definition empty_to_null (ps : list (jsstr * val)) : list (jsstr * val) :=
  mmap (λ v, match v with VStr [] => VNull | _ => v end) ps.

Definition or_one (v : val) : val := if nullish v then VNum (num_of_Z 1) else v.
Definition or_zero (v : val) : val := if nullish v then VNum num_zero else v.

Record CreatePayload := {
  mode : jsstr;
  payload_multi_key_mode : option jsstr;
  payload_key_prefix : option bool;
  channel : list (jsstr * val)
}.

Section payload.
Context {lower_case : LowerCase}.

Definition transformFormDataToCreatePayload (f : ChannelFormValues) : res CreatePayload :=
  let mode := opt_or (multi_key_mode f) (js "single") in
  settings_text ← buildSettingsJSON f;
  let channel :=
    [(js "name", VStr (name f)); (js "type", VNum (type f));
     (js "base_url", val_or (VStr (normalizeBaseUrl (base_url f))) VNull);
     (js "key", opt_js VStr (key f));
     (js "openai_organization", str_or_null (openai_organization f));
     (js "models", VStr (models f)); (js "group", VStr (formatGroups (group f)));
     (js "model_mapping", str_or_null (model_mapping f));
     (js "priority", val_or (priority f) VNull); (js "weight", val_or (weight f) VNull);
     (js "test_model", str_or_null (test_model f)); (js "auto_ban", or_one (auto_ban f));
     (js "status", VNum (status f));
     (js "status_code_mapping", str_or_null (status_code_mapping f));
     (js "tag", str_or_null (tag f)); (js "remark", VStr (opt_or (remark f) []));
     (js "setting", VStr (buildSettingJSON f));
     (js "param_override", str_or_null (param_override f));
     (js "header_override", str_or_null (header_override f));
     (js "settings", VStr settings_text); (js "other", VStr (opt_or (other f) []))] in
  Ok {| mode := mode;
        payload_multi_key_mode :=
          if bool_decide (mode = js "multi_to_single") then multi_key_type f else None;
        payload_key_prefix :=
          if bool_decide (mode = js "batch") then batch_add_set_key_prefix_2_name f else None;
        channel := empty_to_null channel |}.

(** The nullable fields that are sent as explicit empty strings. *)
Definition clearable_fields (f : ChannelFormValues) : list (jsstr * val) :=
  [(js "base_url", VStr (str_or (normalizeBaseUrl (base_url f)) []));
   (js "openai_organization", VStr (opt_or (openai_organization f) []));
   (js "test_model", VStr (opt_or (test_model f) [])); (js "tag", VStr (opt_or (tag f) []));
   (js "remark", VStr (opt_or (remark f) []));
   (js "model_mapping", VStr (opt_or (model_mapping f) []));
   (js "status_code_mapping", VStr (opt_or (status_code_mapping f) []));
   (js "param_override", VStr (opt_or (param_override f) []));
   (js "header_override", VStr (opt_or (header_override f) []))].

Definition set_all (assignments ps : list (jsstr * val)) : list (jsstr * val) :=
  fold_left (λ ps kv, obj_set (fst kv) (snd kv) ps) assignments ps.

Definition transformFormDataToUpdatePayload (f : ChannelFormValues) (channelId : num)
    : res (list (jsstr * val)) :=
  settings_text ← buildSettingsJSON f;
  let payload :=
    [(js "id", VNum channelId); (js "name", VStr (name f)); (js "type", VNum (type f));
     (js "base_url", val_or (VStr (normalizeBaseUrl (base_url f))) VNull);
     (js "openai_organization", str_or_null (openai_organization f));
     (js "models", VStr (models f)); (js "group", VStr (formatGroups (group f)));
     (js "model_mapping", str_or_null (model_mapping f));
     (js "priority", or_zero (priority f)); (js "weight", or_zero (weight f));
     (js "test_model", str_or_null (test_model f)); (js "auto_ban", or_one (auto_ban f));
     (js "status_code_mapping", str_or_null (status_code_mapping f));
     (js "tag", str_or_null (tag f)); (js "remark", VStr (opt_or (remark f) []));
     (js "setting", VStr (buildSettingJSON f));
     (js "param_override", str_or_null (param_override f));
     (js "header_override", str_or_null (header_override f));
     (js "settings", VStr settings_text); (js "other", VStr (opt_or (other f) []))] in
  let payload := if negb (blank (key f)) then obj_set (js "key") (opt_js VStr (key f)) payload else payload in
  Ok (set_all (clearable_fields f) (empty_to_null payload)).
End payload.
