(* ===== verification/ChannelFormSpec.v ===== *)
(** * What the form writes into the settings of a channel

    [settings_spec] says for every name what the settings hold after a save. *)

From Stdlib Require Import ZArith.
From S2P Require Import Prelude JsString JsNumber JsNumberFacts JsCollections JsValue Json JsonFacts JsonData AdvancedCustom ChannelUtils ModelMapping ChannelVideo ChannelForm.

(** ** Names *)

(** Two literals that differ. *)
Ltac key_neq := apply (bool_decide_eq_true_1 (_ ≠ _)); vm_compute; reflexivity.

(** Decides equations between literals. *)
Ltac decide_keys :=
  repeat match goal with
  | |- context [@decide (js ?a = js ?a) ?d] => destruct (@decide (js a = js a) d) as [_|Hn]; [|by destruct (Hn eq_refl)]
  | |- context [@decide (js ?a = js ?b) ?d] => destruct (@decide (js a = js b) d) as [He|_]; [exfalso; revert He; key_neq|]
  end.

Lemma mget_put_if (b : bool) k v ps j :
  mget j (put_if b k v ps) = if decide (k = j) then (if b then Some v else None) else mget j ps.
Proof. unfold put_if. destruct b; [apply mget_obj_set | rewrite mget_obj_del; by case_decide]. Qed.

Lemma put_if_id (b : bool) k v ps : mget k ps = (if b then Some v else None) → put_if b k v ps = ps.
Proof. destruct b; [apply obj_set_same | apply obj_del_absent]. Qed.

Lemma mget_cons {V} (k j : jsstr) (v : V) ps : mget k ((j, v) :: ps) = if decide (k = j) then Some v else mget k ps.
Proof. reflexivity. Qed.

(** ** The entries the form manages *)

Section managed.
Variables (f : ChannelFormValues) (ps : list (jsstr * val)).
Let s := special f.

Definition fetchable : bool := type_in f MODEL_FETCHABLE_TYPES.
Definition check_enabled : bool := flag (upstream_model_update_check_enabled s).

(** The value of each managed name after a save, given the settings before. *)
Definition managed : list (jsstr * option val) :=
  [(js "vertex_key_type",
      if type_is f 41 then Some (val_or (vertex_key_type s) (VStr (js "json"))) else None);
   (js "azure_responses_version",
      if type_is f 3 && truthy (azure_responses_version s) then Some (azure_responses_version s) else None);
   (js "openrouter_enterprise",
      if type_is f 20 then Some (flag_val (is_enterprise_account s)) else None);
   (js "aws_key_type",
      if type_is f 33 then Some (val_or (aws_key_type s) (VStr (js "ak_sk"))) else None);
   (js "allow_service_tier",
      if type_is f 1 || type_is f 14 || type_is f 57 then Some (flag_val (allow_service_tier s)) else None);
   (js "disable_store",
      if type_is f 1 || type_is f 57 then Some (flag_val (disable_store s)) else None);
   (js "allow_safety_identifier",
      if type_is f 1 || type_is f 57 then Some (flag_val (allow_safety_identifier s)) else None);
   (js "allow_include_obfuscation",
      if type_is f 1 || type_is f 57 then Some (flag_val (allow_include_obfuscation s)) else None);
   (js "allow_inference_geo",
      if type_is f 1 || type_is f 57 || type_is f 14 then Some (flag_val (allow_inference_geo s)) else None);
   (js "allow_speed", if type_is f 14 then Some (flag_val (allow_speed s)) else None);
   (js "claude_beta_query", if type_is f 14 then Some (flag_val (claude_beta_query s)) else None);
   (js "disable_task_polling_sleep", Some (flag_val (disable_task_polling_sleep s)));
   (js "upstream_model_update_check_enabled",
      if fetchable then Some (VBool check_enabled)
      else mget (js "upstream_model_update_check_enabled") ps);
   (js "upstream_model_update_auto_sync_enabled",
      if fetchable then Some (VBool (check_enabled && flag (upstream_model_update_auto_sync_enabled s)))
      else mget (js "upstream_model_update_auto_sync_enabled") ps);
   (js "upstream_model_update_ignored_models",
      if fetchable then Some (strings_val (ignored_models s))
      else mget (js "upstream_model_update_ignored_models") ps);
   (js "upstream_model_update_last_detected_models",
      if fetchable && (negb (is_array (prop ps (js "upstream_model_update_last_detected_models")))
                       || negb check_enabled)
      then Some (VArr []) else mget (js "upstream_model_update_last_detected_models") ps);
   (js "upstream_model_update_last_check_time",
      if fetchable && negb (is_number (prop ps (js "upstream_model_update_last_check_time")))
      then Some (VNum num_zero) else mget (js "upstream_model_update_last_check_time") ps);
   (js "advanced_custom",
      if type_is f CHANNEL_TYPE_ADVANCED_CUSTOM
      then match parseAdvancedCustomConfig (advanced_custom s) with
           | Some config => Some config
           | None => mget (js "advanced_custom") ps
           end
      else None)].
End managed.

(** ** The passes, one by one *)

Section passes.
Variable f : ChannelFormValues.
Let s := special f.

Lemma mget_provider ps j :
  mget j (write_provider f ps)
  = if decide (js "aws_key_type" = j) then
      (if type_is f 33 then Some (val_or (aws_key_type s) (VStr (js "ak_sk"))) else None)
    else if decide (js "openrouter_enterprise" = j) then
      (if type_is f 20 then Some (flag_val (is_enterprise_account s)) else None)
    else if decide (js "azure_responses_version" = j) then
      (if type_is f 3 && truthy (azure_responses_version s) then Some (azure_responses_version s) else None)
    else if decide (js "vertex_key_type" = j) then
      (if type_is f 41 then Some (val_or (vertex_key_type s) (VStr (js "json"))) else None)
    else mget j ps.
Proof. unfold write_provider. by rewrite !mget_put_if. Qed.

Lemma mget_openai ps j :
  mget j (write_openai f ps)
  = let on := type_is f 1 || type_is f 57 in
    if decide (js "allow_inference_geo" = j) then
      (if on then Some (flag_val (allow_inference_geo s))
       else if type_is f 14 then mget j ps else None)
    else if decide (js "allow_include_obfuscation" = j) then
      (if on then Some (flag_val (allow_include_obfuscation s)) else None)
    else if decide (js "allow_safety_identifier" = j) then
      (if on then Some (flag_val (allow_safety_identifier s)) else None)
    else if decide (js "disable_store" = j) then
      (if on then Some (flag_val (disable_store s)) else None)
    else mget j ps.
Proof.
  unfold write_openai. cbv zeta. destruct (type_is f 1 || type_is f 57); [by rewrite !mget_obj_set|].
  destruct (type_is f 14); cbn [negb]; rewrite !mget_obj_del; [|done].
  destruct (decide (js "allow_inference_geo" = j)) as [<-|]; [|done]. by decide_keys.
Qed.

Lemma mget_anthropic ps j :
  mget j (write_anthropic f ps)
  = let on := type_is f 14 in
    if decide (js "claude_beta_query" = j) then
      (if on then Some (flag_val (claude_beta_query s)) else None)
    else if decide (js "allow_speed" = j) then
      (if on then Some (flag_val (allow_speed s)) else None)
    else if decide (js "allow_inference_geo" = j) then
      (if on then Some (flag_val (allow_inference_geo s)) else mget j ps)
    else mget j ps.
Proof.
  unfold write_anthropic. cbv zeta. destruct (type_is f 14); [by rewrite !mget_obj_set|].
  rewrite !mget_obj_del. by destruct (decide (js "allow_inference_geo" = j)).
Qed.

Lemma prop_obj_set_ne ps j k v : k ≠ j → prop (obj_set k v ps) j = prop ps j.
Proof. intros. unfold prop. by rewrite mget_obj_set, decide_False. Qed.

Lemma mget_upstream ps j :
  mget j (write_upstream f ps)
  = let fetch := fetchable f in
    if decide (js "upstream_model_update_last_check_time" = j) then
      (if fetch && negb (is_number (prop ps j)) then Some (VNum num_zero) else mget j ps)
    else if decide (js "upstream_model_update_last_detected_models" = j) then
      (if fetch && (negb (is_array (prop ps j)) || negb (check_enabled f)) then Some (VArr []) else mget j ps)
    else if decide (js "upstream_model_update_ignored_models" = j) then
      (if fetch then Some (strings_val (ignored_models s)) else mget j ps)
    else if decide (js "upstream_model_update_auto_sync_enabled" = j) then
      (if fetch then Some (VBool (check_enabled f && flag (upstream_model_update_auto_sync_enabled s)))
       else mget j ps)
    else if decide (js "upstream_model_update_check_enabled" = j) then
      (if fetch then Some (VBool (check_enabled f)) else mget j ps)
    else mget j ps.
Proof.
  unfold write_upstream, fetchable, check_enabled. cbv zeta.
  destruct (type_in f MODEL_FETCHABLE_TYPES); cbn [andb]; [|by repeat case_decide].
  fold s. set (check := flag (upstream_model_update_check_enabled s)).
  rewrite !prop_obj_set_ne by key_neq.
  set (ps3 := obj_set (js "upstream_model_update_ignored_models") _ _).
  assert (∀ (b : bool) k v (qs : list (jsstr * val)), mget j (if b then obj_set k v qs else qs)
          = if decide (k = j) then (if b then Some v else mget j qs) else mget j qs) as Hif.
  { intros [] k v qs; [by rewrite mget_obj_set | by case_decide]. }
  assert (∀ b : bool, prop (if b then obj_set (js "upstream_model_update_last_detected_models") (VArr []) ps3
                            else ps3) (js "upstream_model_update_last_check_time")
          = prop ps (js "upstream_model_update_last_check_time")) as Hp.
  { intros b. unfold ps3. destruct b; rewrite !prop_obj_set_ne by key_neq; done. }
  rewrite Hp, !Hif. unfold ps3. rewrite !mget_obj_set.
  destruct (decide (js "upstream_model_update_last_check_time" = j)) as [<-|H1]; [by decide_keys|].
  destruct (decide (js "upstream_model_update_last_detected_models" = j)) as [<-|H2]; [by decide_keys|].
  done.
Qed.

Lemma mget_advanced ps j :
  mget j (write_advanced f ps)
  = if decide (js "advanced_custom" = j) then
      (if type_is f CHANNEL_TYPE_ADVANCED_CUSTOM
       then match parseAdvancedCustomConfig (advanced_custom s) with
            | Some config => Some config
            | None => mget j ps
            end
       else None)
    else mget j ps.
Proof.
  unfold write_advanced. fold s. destruct (type_is f CHANNEL_TYPE_ADVANCED_CUSTOM).
  - destruct (parseAdvancedCustomConfig (advanced_custom s)); [apply mget_obj_set | by case_decide].
  - rewrite mget_obj_del. by case_decide.
Qed.
End passes.

(** ** The whole *)

Definition managed_names : list jsstr :=
  map js ["vertex_key_type"; "azure_responses_version"; "openrouter_enterprise"; "aws_key_type";
          "allow_service_tier"; "disable_store"; "allow_safety_identifier"; "allow_include_obfuscation";
          "allow_inference_geo"; "allow_speed"; "claude_beta_query"; "disable_task_polling_sleep";
          "upstream_model_update_check_enabled"; "upstream_model_update_auto_sync_enabled";
          "upstream_model_update_ignored_models"; "upstream_model_update_last_detected_models";
          "upstream_model_update_last_check_time"; "advanced_custom"]%string.

Lemma mget_service_tier f ps j :
  mget j (write_service_tier f ps)
  = if decide (js "allow_service_tier" = j)
    then (if type_is f 1 || type_is f 14 || type_is f 57
          then Some (flag_val (allow_service_tier (special f))) else None)
    else mget j ps.
Proof. unfold write_service_tier. by rewrite mget_put_if. Qed.

(** The passes from the last to the first, as one lookup. *)
Ltac lookup_passes tac :=
  unfold write_settings; cbv zeta;
  rewrite mget_advanced; tac; rewrite ?mget_upstream; cbv zeta; unfold prop; tac;
  rewrite ?mget_obj_set; tac; rewrite ?mget_anthropic; cbv zeta; tac; rewrite ?mget_openai; cbv zeta; tac;
  rewrite ?mget_service_tier; tac; rewrite ?mget_provider; tac.

#[local] Opaque write_provider write_service_tier write_openai write_anthropic write_upstream write_advanced
  obj_set mget js.

Lemma managed_none f ps k : k ∉ managed_names → mget k (managed f ps) = None.
Proof. intros Hk. apply mget_None. exact Hk. Qed.

Lemma mget_write_settings f ps k :
  mget k (write_settings f ps)
  = match mget k (managed f ps) with Some o => o | None => mget k ps end.
Proof.
  destruct (decide (k ∈ managed_names)) as [Hk|Hk].
  - unfold managed_names in Hk. cbn [map] in Hk.
    repeat (apply elem_of_cons in Hk as [->|Hk]); [..|by apply not_elem_of_nil in Hk].
    all: match goal with |- _ = ?r => set (rhs := r) end.
    all: lookup_passes decide_keys; subst rhs; unfold managed; cbv zeta; rewrite ?mget_cons; decide_keys.
    all: first [reflexivity | by destruct (type_is f 1 || type_is f 57), (type_is f 14)].
  - rewrite managed_none by done.
    lookup_passes ltac:(rewrite ?decide_False by
      (intros <-; apply Hk, (bool_decide_eq_true_1 _); vm_compute; reflexivity)).
    done.
Qed.

(** C14: what a channel's settings hold after a save, name by name.  A name the
    form does not manage keeps its value.  Of the managed names, the switches and
    key types of other types of channel are gone and those of the channel's own
    type have the values of the form or their defaults (the Azure version only if
    it is not empty),
    and the switch of task polling always has the form's.  The five
    upstream_model_update entries of a type whose models cannot be fetched stay as
    they are stored; for a type whose models can be fetched, the check and the
    ignored models are the form's, automatic synchronisation is on only together
    with the check, the models last detected are emptied if the check is off or
    they are no list, and a last check time that is no number becomes 0.  The
    advanced configuration is gone for every type but its own, for which it is
    the form's, or the stored one if the form's cannot be read. *)
Theorem settings_spec (f : ChannelFormValues) (ps : list (jsstr * val)) (k : jsstr) :
  mget k (write_settings f ps)
  = match mget k (managed f ps) with Some o => o | None => mget k ps end.
Proof.
  apply mget_write_settings.
Qed.
