(* ===== verification/ChannelFormExtra.v ===== *)
(** * The extra settings through their text

    [buildSettingJSON] writes the whole [setting] text of a channel from the
    form, and [transformChannelToFormDefaults] takes it apart again:
    [settled_extra] is what the form shows after a save. *)

From Stdlib Require Import ZArith.
From S2P Require Import Prelude JsString JsNumber JsNumberFacts JsCollections JsValue Json JsonFacts JsonData ChannelVideo ChannelVideoText ChannelForm.

(** A switch, a text, a bounded integer of the form. *)
Definition switch (v : val) : Prop := v = VUndef ∨ ∃ b, v = VBool b.
Definition text_value (v : val) : Prop := v = VUndef ∨ ∃ s, v = VStr s ∧ Forall code_unit s.
Definition integer_value (lo hi : Z) (v : val) : Prop := v = VUndef ∨ ∃ n, v = VNum n ∧ integer_in lo hi n.

Section extra.
Context {lower_case : LowerCase}.

Record extra_typed (e : ExtraSettings) : Prop := {
  et_force : switch (force_format e);
  et_thinking : switch (thinking_to_content e);
  et_proxy : text_value (proxy e);
  et_content : switch (video_content_proxy_enabled e);
  et_storage : switch (video_s3_storage_enabled e);
  et_preferred : switch (video_s3_preferred e);
  et_protocol : opt_spec (λ p, p ∈ [] :: VIDEO_PROTOCOLS) (video_protocol e);
  et_canonical : Forall entry_canonical (default [] (video_model_capabilities e));
  et_order : keeps_order (default [] (video_model_capabilities e));
  et_operations : integer_value MIN_GLOBALAIOPC_ASSET_OPERATIONS_PER_TASK_PER_PASS
    MAX_GLOBALAIOPC_ASSET_OPERATIONS_PER_TASK_PER_PASS (globalaiopc_asset_operations_per_task_per_pass e);
  et_timeout : integer_value MIN_GLOBALAIOPC_ASSET_PREPARATION_TIMEOUT_SECONDS
    MAX_GLOBALAIOPC_ASSET_PREPARATION_TIMEOUT_SECONDS (globalaiopc_asset_preparation_timeout_seconds e);
  et_body : switch (pass_through_body_enabled e);
  et_prompt : text_value (system_prompt e);
  et_override : switch (system_prompt_override e)
}.

(** The value that is in force when the form leaves it out. *)
Definition in_force (v d : val) : val := if nullish v then d else v.

(** The form's values once they have been through the text: what was left out
    is at its default, and the limits of asset preparation are stored for the
    protocol that has them only. *)
Definition settled_extra (e : ExtraSettings) : ExtraSettings :=
  let prepares := str_opt_is (video_protocol e) "globalaiopc" in
  {| force_format := in_force (force_format e) (VBool false);
     thinking_to_content := in_force (thinking_to_content e) (VBool false);
     proxy := in_force (proxy e) (VStr []);
     video_content_proxy_enabled := in_force (video_content_proxy_enabled e) (VBool false);
     video_s3_storage_enabled := in_force (video_s3_storage_enabled e) (VBool false);
     video_s3_preferred := in_force (video_s3_preferred e) (VBool false);
     video_protocol := Some (default [] (video_protocol e));
     video_model_capabilities := Some (default [] (video_model_capabilities e));
     globalaiopc_asset_operations_per_task_per_pass :=
       in_force (if prepares then globalaiopc_asset_operations_per_task_per_pass e else VUndef)
         (VNum (num_of_Z DEFAULT_GLOBALAIOPC_ASSET_OPERATIONS_PER_TASK_PER_PASS));
     globalaiopc_asset_preparation_timeout_seconds :=
       in_force (if prepares then globalaiopc_asset_preparation_timeout_seconds e else VUndef)
         (VNum (num_of_Z DEFAULT_GLOBALAIOPC_ASSET_PREPARATION_TIMEOUT_SECONDS));
     pass_through_body_enabled := in_force (pass_through_body_enabled e) (VBool false);
     system_prompt := in_force (system_prompt e) (VStr []);
     system_prompt_override := in_force (system_prompt_override e) (VBool false) |}.

(** ** Values *)

Lemma switch_or v : switch v → val_or v (VBool false) = in_force v (VBool false).
Proof. by intros [->|[[] ->]]. Qed.

Lemma text_or v : text_value v → val_or v (VStr []) = in_force v (VStr []).
Proof. intros [->|(s & -> & _)]; [done|]. by destruct s. Qed.

Lemma switch_json v : switch v → json_ok (in_force v (VBool false)).
Proof. intros [->|[b ->]]; constructor. Qed.

Lemma text_json v : text_value v → json_ok (in_force v (VStr [])).
Proof. by intros [->|(s & -> & Hs)]; constructor. Qed.

Lemma in_force_or v d : truthy d = false → val_or (in_force v d) d = val_or v d.
Proof.
  intros Hd. unfold in_force, val_or. destruct v; cbn [nullish truthy]; rewrite ?Hd; done.
Qed.

Lemma json_defined v : json_ok v → v ≠ VUndef.
Proof. by intros H ->; inversion H. Qed.

Lemma integer_json lo hi v :
  bounds_safe lo hi → integer_value lo hi v → kept v = v ∧ (v = VUndef ∨ json_ok v).
Proof.
  intros Hb [->|(n & -> & Hn)]; [by auto|]. destruct (integer_in_facts lo hi n Hb Hn) as (Hj & _).
  split; [by apply kept_ok | by right].
Qed.

Lemma integer_or_back lo hi d v :
  bounds_safe lo hi → integer_value lo hi v → integer_or lo hi d v = in_force v (VNum (num_of_Z d)).
Proof.
  intros Hb [->|(n & -> & Hn)]; [done|]. unfold integer_or.
  pose proof (within_back lo hi n Hb Hn) as H. rewrite (kept_num lo hi) in H by done. by rewrite H.
Qed.

Lemma protocol_back p : p ∈ [] :: VIDEO_PROTOCOLS → parse_protocol (VStr p) = p.
Proof.
  intros [->|Hp]%elem_of_cons; [done|]. unfold parse_protocol. by rewrite bool_decide_eq_true_2.
Qed.

Lemma protocol_units p : p ∈ [] :: VIDEO_PROTOCOLS → Forall code_unit p.
Proof. revert p. apply Forall_forall, (bool_decide_eq_true_1 _). vm_compute. reflexivity. Qed.

(** ** The object and what is read from it *)

Section object.
Variable e : ExtraSettings.
Hypothesis He : extra_typed e.

Let O := setting_object e.
Let caps := default [] (video_model_capabilities e).

Lemma setting_names : plain_names (mkeys O) = true.
Proof. vm_compute. reflexivity. Qed.

Lemma setting_units : Forall (Forall code_unit) (mkeys O).
Proof. apply (bool_decide_eq_true_1 _). vm_compute. reflexivity. Qed.

(** The property at a place of the object, as it is read back. *)
Lemma setting_at i k v : O !! i = Some (k, v) → get_prop (kept (VObj O)) k = Ok (kept v).
Proof.
  intros Hi. rewrite kept_object. cbn [get_prop]. by rewrite (kept_at O i k v setting_names Hi).
Qed.

Definition preparation_val : val :=
  if str_opt_is (video_protocol e) "globalaiopc"
  then VObj [(js "operations_per_task_per_pass", globalaiopc_asset_operations_per_task_per_pass e);
             (js "timeout_seconds", globalaiopc_asset_preparation_timeout_seconds e)]
  else VUndef.

Lemma operations_bounds : bounds_safe MIN_GLOBALAIOPC_ASSET_OPERATIONS_PER_TASK_PER_PASS
  MAX_GLOBALAIOPC_ASSET_OPERATIONS_PER_TASK_PER_PASS.
Proof. vm_compute. split_and!; discriminate || reflexivity. Qed.

Lemma timeout_bounds : bounds_safe MIN_GLOBALAIOPC_ASSET_PREPARATION_TIMEOUT_SECONDS
  MAX_GLOBALAIOPC_ASSET_PREPARATION_TIMEOUT_SECONDS.
Proof. vm_compute. split_and!; discriminate || reflexivity. Qed.

Lemma preparation_json : preparation_val = VUndef ∨ json_ok (kept preparation_val).
Proof.
  unfold preparation_val. destruct (str_opt_is _ _); [|by left]. right.
  destruct (integer_json _ _ _ operations_bounds (et_operations e He)) as [Eo Ho].
  destruct (integer_json _ _ _ timeout_bounds (et_timeout e He)) as [Et Ht].
  apply json_ok_kept; [vm_compute; reflexivity | apply (bool_decide_eq_true_1 _); vm_compute; reflexivity |].
  repeat apply Forall_cons_2; [..|apply Forall_nil_2]; cbn [snd]; [rewrite Eo|rewrite Et];
    [destruct Ho | destruct Ht]; auto.
Qed.

Lemma preparation_names (a b : val) :
  NoDup (mkeys [(js "operations_per_task_per_pass", a); (js "timeout_seconds", b)]).
Proof. apply (bool_decide_eq_true_1 _). vm_compute. reflexivity. Qed.

Lemma read_operations :
  get_prop_opt (kept preparation_val) (js "operations_per_task_per_pass")
  = Ok (if str_opt_is (video_protocol e) "globalaiopc"
        then globalaiopc_asset_operations_per_task_per_pass e else VUndef).
Proof.
  unfold preparation_val. destruct (str_opt_is _ _); [|done]. rewrite kept_object.
  unfold get_prop_opt. cbn [nullish get_prop]. rewrite get_kept by apply preparation_names.
  destruct (integer_json _ _ _ operations_bounds (et_operations e He)) as [E _].
  rewrite <-E at 2. reflexivity.
Qed.

Lemma read_timeout :
  get_prop_opt (kept preparation_val) (js "timeout_seconds")
  = Ok (if str_opt_is (video_protocol e) "globalaiopc"
        then globalaiopc_asset_preparation_timeout_seconds e else VUndef).
Proof.
  unfold preparation_val. destruct (str_opt_is _ _); [|done]. rewrite kept_object.
  unfold get_prop_opt. cbn [nullish get_prop]. rewrite get_kept by apply preparation_names.
  destruct (integer_json _ _ _ timeout_bounds (et_timeout e He)) as [E _].
  rewrite <-E at 2. reflexivity.
Qed.

Lemma caps_kept :
  kept (VObj (video_capabilities_object caps)) = VObj (kept_entries caps)
  ∧ json_ok (VObj (kept_entries caps)) ∧ parseVideoModelCapabilities (VObj (kept_entries caps)) = Ok caps.
Proof.
  unfold caps. destruct He as [??????? Hc Ho ?????]. rewrite stored_object, kept_stored by done.
  split_and!; [done | by apply entries_json | by apply entries_back].
Qed.

Lemma setting_json : json_ok (kept (VObj O)).
Proof.
  apply json_ok_kept; [apply setting_names | apply setting_units |].
  destruct He as [H1 H2 H3 H4 H5 H6 Hp _ _ _ _ H7 H8 H9].
  assert (∀ v, switch v → json_ok (kept (val_or v (VBool false)))) as Hs.
  { intros v Hv. rewrite switch_or, kept_ok by auto using switch_json. by apply switch_json. }
  assert (∀ v, text_value v → json_ok (kept (val_or v (VStr [])))) as Ht.
  { intros v Hv. rewrite text_or, kept_ok by auto using text_json. by apply text_json. }
  repeat apply Forall_cons_2; [..|apply Forall_nil_2]; cbn [snd]; try (right; apply Hs; assumption);
    try (right; apply Ht; assumption).
  - right. constructor. destruct (video_protocol e) as [p|]; [|constructor].
    unfold opt_or, str_or. cbn [default from_option id]. destruct (truthy_str p); [|constructor].
    by apply protocol_units.
  - right. destruct caps_kept as (Ek & Hj & _). rewrite <-Ek in Hj. exact Hj.
  - exact preparation_json.
Qed.

Lemma read_switch v : switch v → val_or (kept (val_or v (VBool false))) (VBool false) = in_force v (VBool false).
Proof. by intros [->|[[] ->]]. Qed.

Lemma read_text_value v : text_value v → val_or (kept (val_or v (VStr []))) (VStr []) = in_force v (VStr []).
Proof. intros [->|(s & -> & _)]; [done|]. by destruct s. Qed.

Lemma read_integer (b : bool) lo hi d v :
  bounds_safe lo hi → integer_value lo hi v →
  integer_or lo hi d (if b then v else VUndef) = in_force (if b then v else VUndef) (VNum (num_of_Z d)).
Proof. intros Hb Hv. apply integer_or_back; [done|]. destruct b; [done | by left]. Qed.

Lemma read_protocol :
  parse_protocol (kept (VStr (opt_or (video_protocol e) []))) = default [] (video_protocol e).
Proof.
  change (parse_protocol (VStr (opt_or (video_protocol e) [])) = default [] (video_protocol e)).
  pose proof (et_protocol e He) as Hp. destruct (video_protocol e) as [p|]; [|done].
  change (default [] (Some p)) with p. rewrite <-(protocol_back p Hp) at 2. f_equal.
  unfold opt_or, str_or. change (default [] (Some p)) with p.
  destruct (truthy_str p) eqn:E; [done|]. by apply truthy_str_false in E as ->.
Qed.

Lemma read_capabilities : parseVideoModelCapabilities (kept (VObj (video_capabilities_object caps))) = Ok caps.
Proof. destruct caps_kept as (-> & _ & H). exact H. Qed.

(** The next property to be read is at place [i] of the object. *)
Ltac read_at i := eapply bind_ok; [exact (setting_at i _ _ eq_refl)|cbv beta].

Lemma parsed_setting : parse_extra (kept (VObj O)) = Ok (settled_extra e).
Proof.
  unfold parse_extra. read_at 6. read_at 8.
  eapply bind_ok; [exact read_operations|cbv beta]. eapply bind_ok; [exact read_timeout|cbv beta].
  read_at 0. read_at 1. read_at 2. read_at 3. read_at 4. read_at 5. read_at 7.
  eapply bind_ok; [exact read_capabilities|cbv beta]. read_at 9. read_at 10. read_at 11.
  destruct He as [H1 H2 H3 H4 H5 H6 _ _ _ Ho Ht H7 H8 H9].
  rewrite read_protocol, !read_switch, !read_text_value by assumption.
  rewrite !read_integer by (assumption || apply operations_bounds || apply timeout_bounds). reflexivity.
Qed.
End object.
End extra.

Section reload.
Context {lower_case : LowerCase}.

(** C9: The [setting] text that the form sends, taken apart by the form that
    opens the channel, gives back every switch and text, the video protocol, the
    video models with their capabilities, and, for the protocol that has them,
    the limits of asset preparation; what the form left out is at its default.
    This is for settings of the types of the schema ([extra_typed]: switches,
    texts, integers within their bounds, a known protocol or none) whose video
    models are in the form in which the editor holds an entry it has loaded
    ([entry_canonical]: a trimmed model name, resolutions and ratios given as
    trimmed, lower-case, distinct texts within the limits on their length and
    number, integers within their bounds, distinct allowed durations, the one
    known mode of asset preparation or none, mappings and fixed parameters that
    JSON can express) and are listed in an order that the properties of an object keep
    ([keeps_order]: no name twice, and names that are array indices first and
    ascending). *)
Theorem setting_reload (f : ChannelFormValues) (He : extra_typed (extra f)) :
  load_extra (Some (buildSettingJSON f)) = settled_extra (extra f).
Proof.
  unfold buildSettingJSON, stringify_object.
  destruct (json_parse_kept [] (VObj (setting_object (extra f)))) as (text & Ht & Hp);
    [constructor | by apply setting_json |].
  rewrite Ht. cbn [default from_option id load_extra].
  rewrite (parsed_truthy _ _ Hp), Hp. cbn [mbind res_bind]. by rewrite parsed_setting.
Qed.
End reload.

(** Two video models behind a protocol that prepares assets. *)
Definition sample_extra : ExtraSettings :=
  {| force_format := VBool true; thinking_to_content := VUndef; proxy := VStr (js "socks5://p");
     video_content_proxy_enabled := VBool false; video_s3_storage_enabled := VBool true;
     video_s3_preferred := VUndef; video_protocol := Some (js "globalaiopc");
     video_model_capabilities := Some sample_entries;
     globalaiopc_asset_operations_per_task_per_pass := VNum (num_of_Z 25);
     globalaiopc_asset_preparation_timeout_seconds := VUndef;
     pass_through_body_enabled := VBool false; system_prompt := VUndef;
     system_prompt_override := VBool true |}.

Definition with_extra (f : ChannelFormValues) (e : ExtraSettings) : ChannelFormValues :=
  {| name := name f; type := type f; base_url := base_url f; key := key f;
     openai_organization := openai_organization f; models := models f; group := group f;
     model_mapping := model_mapping f; priority := priority f; weight := weight f;
     test_model := test_model f; auto_ban := auto_ban f; status := status f;
     status_code_mapping := status_code_mapping f; tag := tag f; remark := remark f;
     setting := setting f; param_override := param_override f; header_override := header_override f;
     settings := settings f; other := other f; multi_key_mode := multi_key_mode f;
     multi_key_type := multi_key_type f;
     batch_add_set_key_prefix_2_name := batch_add_set_key_prefix_2_name f; key_mode := key_mode f;
     extra := e; special := special f |}.

Lemma sample_extra_typed : extra_typed (lower_case := ascii_case) sample_extra.
Proof.
  split; try (left; reflexivity); try (right; eexists; reflexivity).
  - right. exists (js "socks5://p"). split; [done | apply (bool_decide_eq_true_1 _); vm_compute; reflexivity].
  - apply (bool_decide_eq_true_1 (js "globalaiopc" ∈ [] :: VIDEO_PROTOCOLS)). vm_compute. reflexivity.
  - apply sample_canonical.
  - vm_compute. reflexivity.
  - right. exists (num_of_Z 25). split; [done|]. exists 25%Z. split; [done|]. vm_compute. split; discriminate.
Qed.

Lemma setting_reload_witness :
  load_extra (lower_case := ascii_case)
    (Some (buildSettingJSON (lower_case := ascii_case) (with_extra CHANNEL_FORM_DEFAULT_VALUES sample_extra)))
  = settled_extra sample_extra.
Proof.
  exact (setting_reload (lower_case := ascii_case)
           (with_extra CHANNEL_FORM_DEFAULT_VALUES sample_extra) sample_extra_typed).
Defined.
