(* ===== verification/ChannelFormSave.v ===== *)
(** * Saving the settings of a channel and opening it again

    What [buildSettingsJSON] writes, [transformChannelToFormDefaults] reads:
    [settled_special] is what the form shows after a save.  Saving the opened
    form again writes the same text. *)

From Stdlib Require Import ZArith.
From S2P Require Import Prelude JsString JsNumber JsNumberFacts JsCollections JsValue Json JsonFacts JsonData AdvancedCustom AdvancedCustomSpec ChannelUtils ModelMapping ChannelVideo ChannelVideoText ChannelForm ChannelFormSpec.

(** ** When there is nothing to change *)

(** Assignments ([Some]) and deletions ([None]) in order. *)
Definition put_all (ops : list (jsstr * option val)) (ps : list (jsstr * val)) : list (jsstr * val) :=
  fold_left (λ ps o, match snd o with Some v => obj_set (fst o) v ps | None => obj_del (fst o) ps end) ops ps.

Lemma put_all_id ops ps : Forall (λ o, mget (fst o) ps = snd o) ops → put_all ops ps = ps.
Proof.
  induction 1 as [|[k o] ops Hk _ IH]; [done|]. unfold put_all. cbn [fold_left fst snd] in *.
  destruct o; [rewrite obj_set_same by done | rewrite obj_del_absent by done]; exact IH.
Qed.

Lemma managed_names_distinct f ps : NoDup (mkeys (managed f ps)).
Proof. apply (bool_decide_eq_true_1 _). vm_compute. reflexivity. Qed.

(** The entry at a place of the table. *)
Lemma managed_at f ps i k o :
  managed f ps !! i = Some (k, o) → mget k (write_settings f ps) = o.
Proof.
  intros Hi. rewrite mget_write_settings.
  rewrite (elem_of_mget k o (managed f ps)); [done | apply managed_names_distinct |].
  by eapply list_elem_of_lookup_2.
Qed.

(** Setting an entry to a value that is kept as what is there. *)
Lemma kept_props_set k v (qs : list (jsstr * val)) :
  mget k qs = Some (kept v) → v ≠ VUndef → Forall json_ok (mvalues qs) → NoDup (mkeys qs) →
  kept_props (obj_set k v qs) = qs.
Proof.
  intros Hk Hv Hj Hnd. unfold obj_set. rewrite Hk.
  induction qs as [|[j w] qs IH]; [done|]. inversion Hj as [|? ? Hw Hj']; subst.
  apply NoDup_cons in Hnd as [Hjn Hnd]. cbn [mget mset] in *.
  assert (∀ x, x ≠ VUndef → kept_props ((j, x) :: qs) = (j, kept x) :: qs) as Hcons.
  { intros x Hx. unfold kept_props. csimpl. rewrite (kept_prop_defined j x Hx).
    fold (kept_props qs). by rewrite kept_props_ok. }
  destruct (decide (k = j)) as [->|Hkj].
  - injection Hk as ->. by apply Hcons.
  - unfold kept_props. csimpl. fold (kept_props (mset k v qs)). rewrite (IH Hk Hj' Hnd).
    cbn [snd] in Hw. rewrite kept_prop_defined by (intros ->; inversion Hw). by rewrite (kept_ok w Hw).
Qed.

#[local] Opaque obj_set obj_del mget js.

(** The entry at place [i] of an object that agrees with the table. *)
Ltac at_place i := match goal with HP : ∀ i k o, _ → _ → mget k _ = o |- _ => etransitivity; [apply (HP i); [reflexivity|done]|] end.

Section stable.
Variables (f : ChannelFormValues) (P : list (jsstr * val)).
Hypothesis HP : ∀ i k o, managed f P !! i = Some (k, o) → i ≠ 17 → mget k P = o.

Lemma provider_stable : write_provider f P = P.
Proof.
  assert (∀ (b : bool) k v, mget k P = (if b then Some v else None) → put_if b k v P = P) as H by (intros; by apply put_if_id).
  unfold write_provider. cbv zeta.
  rewrite (H (type_is f 41)) by (by at_place 0). rewrite (H (type_is f 3 && _)) by (by at_place 1).
  rewrite (H (type_is f 20)) by (by at_place 2). by rewrite (H (type_is f 33)) by (by at_place 3).
Qed.

Lemma service_tier_stable : write_service_tier f P = P.
Proof. apply put_if_id. by at_place 4. Qed.

Lemma openai_stable : write_openai f P = P.
Proof.
  unfold write_openai. cbv zeta. destruct (type_is f 1 || type_is f 57) eqn:E.
  - refine (put_all_id [(js "disable_store", Some (flag_val (disable_store (special f))));
      (js "allow_safety_identifier", Some (flag_val (allow_safety_identifier (special f))));
      (js "allow_include_obfuscation", Some (flag_val (allow_include_obfuscation (special f))));
      (js "allow_inference_geo", Some (flag_val (allow_inference_geo (special f))))] P _).
    repeat apply Forall_cons_2; [..|apply Forall_nil_2]; cbn [fst snd];
      [at_place 5 | at_place 6 | at_place 7 | at_place 8]; by rewrite E.
  - pose proof (put_all_id [(js "disable_store", None); (js "allow_safety_identifier", None);
      (js "allow_include_obfuscation", None)] P) as H.
    unfold put_all in H. cbn [fold_left fst snd] in H. rewrite H.
    + destruct (type_is f 14) eqn:E14; cbn [negb]; [done|].
      apply obj_del_absent. at_place 8. by rewrite E, E14.
    + repeat apply Forall_cons_2; [..|apply Forall_nil_2]; cbn [fst snd];
        [at_place 5 | at_place 6 | at_place 7]; by rewrite E.
Qed.

Lemma anthropic_stable : write_anthropic f P = P.
Proof.
  unfold write_anthropic. cbv zeta. destruct (type_is f 14) eqn:E.
  - refine (put_all_id [(js "allow_inference_geo", Some (flag_val (allow_inference_geo (special f))));
      (js "allow_speed", Some (flag_val (allow_speed (special f))));
      (js "claude_beta_query", Some (flag_val (claude_beta_query (special f))))] P _).
    repeat apply Forall_cons_2; [..|apply Forall_nil_2]; cbn [fst snd];
      [at_place 8 | at_place 9 | at_place 10]; by rewrite E, ?orb_true_r.
  - refine (put_all_id [(js "allow_speed", None); (js "claude_beta_query", None)] P _).
    repeat apply Forall_cons_2; [..|apply Forall_nil_2]; cbn [fst snd];
      [at_place 9 | at_place 10]; by rewrite E.
Qed.

Lemma upstream_stable : write_upstream f P = P.
Proof.
  unfold write_upstream. cbv zeta. destruct (type_in f MODEL_FETCHABLE_TYPES) eqn:E; [|done].
  assert (fetchable f = true) as Ef by done.
  fold (check_enabled f).
  pose proof (put_all_id
    [(js "upstream_model_update_check_enabled", Some (VBool (check_enabled f)));
     (js "upstream_model_update_auto_sync_enabled",
      Some (VBool (check_enabled f && flag (upstream_model_update_auto_sync_enabled (special f)))));
     (js "upstream_model_update_ignored_models", Some (strings_val (ignored_models (special f))))] P) as H.
  unfold put_all in H. cbn [fold_left fst snd] in H. rewrite H; clear H.
  2: { repeat apply Forall_cons_2; [..|apply Forall_nil_2]; cbn [fst snd];
       [at_place 12 | at_place 13 | at_place 14]; by rewrite Ef. }
  assert (mget (js "upstream_model_update_last_detected_models") P
          = if negb (is_array (prop P (js "upstream_model_update_last_detected_models"))) || negb (check_enabled f)
            then Some (VArr []) else mget (js "upstream_model_update_last_detected_models") P) as Hd
    by (at_place 15; by rewrite Ef).
  assert (mget (js "upstream_model_update_last_check_time") P
          = if negb (is_number (prop P (js "upstream_model_update_last_check_time")))
            then Some (VNum num_zero) else mget (js "upstream_model_update_last_check_time") P) as Ht
    by (at_place 16; by rewrite Ef).
  revert Hd Ht. generalize (js "upstream_model_update_last_detected_models").
  generalize (js "upstream_model_update_last_check_time"). intros kt kd Hd Ht.
  assert ((if negb (is_array (prop P kd)) || negb (check_enabled f) then obj_set kd (VArr []) P else P) = P) as ->.
  { destruct (negb (is_array (prop P kd)) || negb (check_enabled f)); [by apply obj_set_same | done]. }
  destruct (negb (is_number (prop P kt))); [by apply obj_set_same | done].
Qed.

Lemma write_settings_stable : write_settings f P = write_advanced f P.
Proof.
  unfold write_settings. cbv zeta.
  rewrite provider_stable, service_tier_stable, openai_stable, anthropic_stable.
  rewrite (obj_set_same (js "disable_task_polling_sleep")) by (by at_place 11).
  by rewrite upstream_stable.
Qed.
End stable.

(** ** The object that is written *)

Section wf.
Variables (f : ChannelFormValues) (ps : list (jsstr * val)).
Hypothesis Hnd : NoDup (mkeys ps).

Definition distinct (qs : list (jsstr * val)) : Prop := NoDup (mkeys qs).

Lemma distinct_set k v qs : distinct qs → distinct (obj_set k v qs).
Proof. apply NoDup_obj_set. Qed.

Lemma distinct_del k qs : distinct qs → distinct (obj_del k qs).
Proof. apply NoDup_obj_del. Qed.

Lemma distinct_if (b : bool) qs rs : distinct qs → distinct rs → distinct (if b then qs else rs).
Proof. by destruct b. Qed.

Lemma distinct_provider qs : distinct qs → distinct (write_provider f qs).
Proof. intros H. unfold write_provider, put_if. auto 10 using distinct_if, distinct_set, distinct_del. Qed.

Lemma distinct_openai qs : distinct qs → distinct (write_openai f qs).
Proof. intros H. unfold write_openai. cbv zeta. auto 10 using distinct_if, distinct_set, distinct_del. Qed.

Lemma distinct_upstream qs : distinct qs → distinct (write_upstream f qs).
Proof.
  intros H. unfold write_upstream. cbv zeta.
  repeat (apply distinct_if || apply distinct_set); exact H.
Qed.

Lemma distinct_advanced qs : distinct qs → distinct (write_advanced f qs).
Proof.
  intros H. unfold write_advanced. apply distinct_if; [|by apply distinct_del].
  destruct (parseAdvancedCustomConfig _); [by apply distinct_set | done].
Qed.

Lemma NoDup_write_settings : NoDup (mkeys (write_settings f ps)).
Proof.
  change (distinct (write_settings f ps)). unfold write_settings. cbv zeta.
  apply distinct_advanced, distinct_upstream, distinct_set. unfold write_anthropic. cbv zeta.
  assert (distinct (write_openai f (write_service_tier f (write_provider f ps)))) as H.
  { apply distinct_openai. unfold write_service_tier, put_if.
    assert (distinct (write_provider f ps)) by by apply distinct_provider.
    auto using distinct_if, distinct_set, distinct_del. }
  auto 10 using distinct_if, distinct_set, distinct_del.
Qed.

(** An entry is one of the table or was there before. *)
Lemma write_settings_entry k v :
  (k, v) ∈ write_settings f ps →
  (k, Some v) ∈ managed f ps ∨ ((k ∉ managed_names) ∧ (k, v) ∈ ps).
Proof.
  intros Hin. apply elem_of_mget in Hin; [|apply NoDup_write_settings].
  rewrite mget_write_settings in Hin. destruct (mget k (managed f ps)) as [o|] eqn:E.
  - subst o. left. by apply mget_elem_of.
  - right. split; [|by apply mget_elem_of]. intros Hk.
    apply mget_None in E. by apply E.
Qed.
End wf.

(** Settings as they are stored: distinct names that are no array indices, and
    values that JSON expresses. *)
Record settings_ok (ps : list (jsstr * val)) : Prop := {
  so_names : plain_names (mkeys ps) = true;
  so_units : Forall (Forall code_unit) (mkeys ps);
  so_values : Forall json_ok (mvalues ps)
}.

Lemma settings_ok_nodup ps : settings_ok ps → NoDup (mkeys ps).
Proof. intros [H _ _]. unfold plain_names in H. by unbool. Qed.

Lemma settings_ok_value ps k v : settings_ok ps → mget k ps = Some v → json_ok v.
Proof.
  intros [_ _ H] Hk%mget_elem_of. rewrite Forall_forall in H. apply H.
  by apply (list_elem_of_fmap_2 snd) in Hk.
Qed.

(** The typed values the form hands over. *)
Definition some_text (v : val) : Prop := ∃ s, v = VStr s ∧ s ≠ [] ∧ Forall code_unit s.

Record special_typed (f : ChannelFormValues) : Prop := {
  ty_vertex : some_text (vertex_key_type (special f));
  ty_aws : some_text (aws_key_type (special f));
  ty_azure : ∃ s, azure_responses_version (special f) = VStr s ∧ Forall code_unit s;
  ty_ignored : opt_spec (Forall code_unit) (upstream_model_update_ignored_models (special f));
  ty_advanced : type_is f CHANNEL_TYPE_ADVANCED_CUSTOM = true →
    ∃ rs text, Forall route_units rs ∧ stringifyAdvancedCustomConfig (enc_config rs) = Ok (Some text)
               ∧ advanced_custom (special f) = Some text
}.

(** *** Advanced configurations *)

Lemma kept_norm_auth a : kept (norm_auth a) = enc_auth (canonical_auth a).
Proof. by destruct a as [[t|] n v]. Qed.

Lemma kept_norm_route r : kept (norm_route r) = enc_route (canonical r).
Proof.
  unfold norm_route, enc_route, canonical. cbn [r_incoming r_upstream r_converter r_models r_auth].
  rewrite kept_object.
  assert (∀ l l', kept_props (l ++ l') = kept_props l ++ kept_props l') as Happ
    by (intros; unfold kept_props; apply omap_app).
  f_equal. rewrite Happ. cbn [opt_prop]. unfold kept_props at 1.
  cbn [omap list_omap fst snd kept kept_prop app]. do 3 f_equal. rewrite Happ. f_equal.
  - destruct (models_of r) as [|m ms]; [done|]. unfold kept_props. cbn [omap list_omap fst snd].
    change (kept (enc_models (m :: ms))) with (kept (strings_val (m :: ms))). by rewrite kept_strings.
  - destruct (r_auth r) as [a|]; [|done]. unfold kept_props. cbn [omap list_omap fst snd].
    rewrite kept_norm_auth. unfold enc_auth, kept_prop. done.
Qed.

Lemma kept_norm_config rs : kept (config_obj (map norm_route rs)) = enc_config (map canonical rs).
Proof.
  unfold config_obj, enc_config. rewrite kept_object. unfold kept_props. cbn [omap list_omap fst snd].
  cbn [kept]. rewrite !map_map.
  assert (map (λ r, match kept (norm_route r) with VUndef => VNull | w => w end) rs
          = map (λ r, enc_route (canonical r)) rs) as ->; [|done].
  apply map_ext. intros r. by rewrite kept_norm_route.
Qed.

Lemma advanced_text rs text :
  Forall route_units rs → stringifyAdvancedCustomConfig (enc_config rs) = Ok (Some text) →
  parseAdvancedCustomConfig (Some text) = Some (config_obj (map norm_route rs))
  ∧ json_ok (kept (config_obj (map norm_route rs)))
  ∧ truthy (kept (config_obj (map norm_route rs))) = true
  ∧ stringifyAdvancedCustomConfig (kept (config_obj (map norm_route rs))) = Ok (Some text).
Proof.
  intros Hrs Ht. destruct (text_of_config rs Hrs) as (text' & Ht' & Hp).
  rewrite Ht in Ht'. injection Ht' as <-.
  rewrite kept_norm_config. split_and!; [done | by apply json_ok_config | done |].
  unfold stringifyAdvancedCustomConfig in *. rewrite normalize_config_enc in Ht |- *.
  rewrite map_map. by rewrite (map_ext (λ r, norm_route (canonical r)) _ norm_canonical).
Qed.

(** *** Every value can be written *)

Definition writable (o : option val) : Prop := opt_spec (λ v, json_ok (kept v)) o.

Lemma writable_if (b : bool) o o' : writable o → writable o' → writable (if b then o else o').
Proof. by destruct b. Qed.

Lemma writable_text s : Forall code_unit s → writable (Some (VStr s)).
Proof. intros H. by constructor. Qed.

Lemma writable_flag b : writable (Some (VBool b)).
Proof. constructor. Qed.

Lemma some_text_or v d : some_text v → ∃ s, val_or v d = VStr s ∧ v = VStr s ∧ s ≠ [] ∧ Forall code_unit s.
Proof.
  intros (s & -> & Hs & Hu). exists s. split_and!; try done. unfold val_or. cbn [truthy].
  by rewrite (proj2 (truthy_str_true s)).
Qed.

Lemma writable_stored ps k : settings_ok ps → writable (mget k ps).
Proof.
  intros Hps. destruct (mget k ps) as [v|] eqn:E; [|done]. cbn.
  pose proof (settings_ok_value ps k v Hps E) as Hv. by rewrite kept_ok.
Qed.

Lemma writable_ignored s :
  opt_spec (Forall code_unit) (upstream_model_update_ignored_models s) →
  writable (Some (strings_val (ignored_models s))).
Proof.
  intros H. change (json_ok (kept (strings_val (ignored_models s)))). rewrite kept_strings.
  constructor. apply Forall_map, Forall_forall.
  intros w. unfold ignored_models. rewrite elem_of_uniq, elem_of_filterb, list_elem_of_fmap.
  intros [(x & -> & Hx) _]. constructor. apply units_trim, Forall_forall. intros c Hc.
  eapply elem_of_split_on in Hc; [|exact Hx].
  destruct (upstream_model_update_ignored_models s) as [t|]; [|by apply not_elem_of_nil in Hc].
  cbn in H, Hc. rewrite Forall_forall in H. by apply H.
Qed.

Lemma managed_writable f ps :
  special_typed f → settings_ok ps → Forall (λ ko, writable (snd ko)) (managed f ps).
Proof.
  intros [Hv Ha (az & Haz & Haz') Hi Hadv] Hps.
  destruct (some_text_or _ (VStr (js "json")) Hv) as (sv & Ev & _ & _ & Hsv).
  destruct (some_text_or _ (VStr (js "ak_sk")) Ha) as (sa & Ea & _ & _ & Hsa).
  assert (writable (if type_is f CHANNEL_TYPE_ADVANCED_CUSTOM
                    then match parseAdvancedCustomConfig (advanced_custom (special f)) with
                         | Some config => Some config
                         | None => mget (js "advanced_custom") ps
                         end
                    else None)) as Hconfig.
  { destruct (type_is f CHANNEL_TYPE_ADVANCED_CUSTOM) eqn:E; [|done].
    destruct (Hadv eq_refl) as (rs & text & Hrs & Ht & ->).
    destruct (advanced_text rs text Hrs Ht) as (-> & H & _). exact H. }
  unfold managed. cbv zeta. rewrite Ev, Ea, Haz.
  repeat apply Forall_cons_2; [..|apply Forall_nil_2]; cbn [snd]; try exact Hconfig;
    try (apply writable_if; [|exact I || by apply writable_stored]); try exact I;
    try apply writable_flag; try (by apply writable_text); try (by apply writable_stored).
  - by apply writable_ignored.
  - by repeat constructor.
  - by apply (ok_num 0).
Qed.

Lemma written_json f ps :
  special_typed f → settings_ok ps → json_ok (kept (VObj (write_settings f ps))).
Proof.
  intros Hf Hps. pose proof (settings_ok_nodup ps Hps) as Hnd.
  pose proof (NoDup_write_settings f ps Hnd) as HndP.
  assert (∀ k v, (k, v) ∈ write_settings f ps →
          (array_index k = None ∧ Forall code_unit k) ∧ json_ok (kept v)) as H.
  { intros k v [Hin|[_ Hin]]%write_settings_entry; [| |done].
    - split.
      + assert (k ∈ managed_names) as Hk by by apply (list_elem_of_fmap_2 fst) in Hin.
        clear Hin. revert k Hk. apply Forall_forall, (bool_decide_eq_true_1 _). vm_compute. reflexivity.
      + pose proof (managed_writable f ps Hf Hps) as Hw. rewrite Forall_forall in Hw. by apply (Hw _ Hin).
    - destruct Hps as [Hn Hu Hv]. unfold plain_names in Hn. apply andb_true_iff in Hn as [_ Hi].
      rewrite forallb_forall_elem in Hi. rewrite Forall_forall in Hu. rewrite Forall_forall in Hv.
      pose proof (list_elem_of_fmap_2 fst _ _ Hin) as Hk. pose proof (list_elem_of_fmap_2 snd _ _ Hin) as Hw.
      cbn in Hk, Hw. split; [split|].
      + specialize (Hi k Hk). by unbool.
      + by apply Hu.
      + rewrite kept_ok; by apply Hv. }
  apply json_ok_kept.
  - unfold plain_names. apply andb_true_iff. split; [by apply bool_decide_eq_true|].
    apply forallb_forall_elem. intros k ([k' v] & -> & Hin)%list_elem_of_fmap.
    apply bool_decide_eq_true. by destruct (H _ _ Hin) as [[? _] _].
  - apply Forall_forall. intros k ([k' v] & -> & Hin)%list_elem_of_fmap. by destruct (H _ _ Hin) as [[_ ?] _].
  - apply Forall_forall. intros [k v] Hin. right. by destruct (H _ _ Hin) as [_ ?].
Qed.

(** ** Reading the settings back *)

(** The form's values once they have been through the text: those of another
    type of channel fall back to their defaults, and the settings of the
    upstream check are the stored ones where the form does not write them. *)
Definition stored_flag (ps : list (jsstr * val)) (k : jsstr) : bool := equals_true (prop ps k).

Definition stored_ignored (ps : list (jsstr * val)) : res jsstr :=
  match prop ps (js "upstream_model_update_ignored_models") with
  | VArr l => to_string (VArr l)
  | _ => Ok []
  end.

Definition settled_special (f : ChannelFormValues) (ps : list (jsstr * val)) : TypeSettings :=
  let s := special f in
  let only (b : bool) (o : option bool) := Some (b && flag o) in
  {| is_enterprise_account := only (type_is f 20) (is_enterprise_account s);
     vertex_key_type := if type_is f 41 then vertex_key_type s else VStr (js "json");
     aws_key_type := if type_is f 33 then aws_key_type s else VStr (js "ak_sk");
     azure_responses_version := if type_is f 3 then azure_responses_version s else VStr [];
     allow_service_tier := only (type_is f 1 || type_is f 14 || type_is f 57) (allow_service_tier s);
     disable_store := only (type_is f 1 || type_is f 57) (disable_store s);
     allow_safety_identifier := only (type_is f 1 || type_is f 57) (allow_safety_identifier s);
     allow_include_obfuscation := only (type_is f 1 || type_is f 57) (allow_include_obfuscation s);
     allow_inference_geo := only (type_is f 1 || type_is f 57 || type_is f 14) (allow_inference_geo s);
     allow_speed := only (type_is f 14) (allow_speed s);
     claude_beta_query := only (type_is f 14) (claude_beta_query s);
     disable_task_polling_sleep := Some (flag (disable_task_polling_sleep s));
     upstream_model_update_check_enabled :=
       Some (if fetchable f then check_enabled f
             else stored_flag ps (js "upstream_model_update_check_enabled"));
     upstream_model_update_auto_sync_enabled :=
       Some (if fetchable f then check_enabled f && flag (upstream_model_update_auto_sync_enabled s)
             else stored_flag ps (js "upstream_model_update_auto_sync_enabled"));
     upstream_model_update_ignored_models :=
       Some (if fetchable f then join [comma] (ignored_models s) else try_catch (stored_ignored ps) []);
     advanced_custom :=
       if type_is f CHANNEL_TYPE_ADVANCED_CUSTOM then advanced_custom s else Some [] |}.

Lemma to_string_strings l : to_string (strings_val l) = Ok (join [comma] l).
Proof.
  unfold strings_val. cbn [to_string].
  assert ((fix go (l : list val) : res (list jsstr) :=
             match l with
             | [] => Ok []
             | x :: l' =>
                 w ← (match x with VUndef | VNull => Ok [] | _ => to_string x end);
                 ws ← go l'; Ok (w :: ws)
             end) (map VStr l) = Ok l) as ->; [|done].
  induction l as [|w l IH]; [done|]. cbn [map]. rewrite IH. done.
Qed.

Lemma equals_true_flag (b x : bool) :
  equals_true (kept (default VUndef (if b then Some (VBool x) else None))) = b && x.
Proof. by destruct b, x. Qed.

Section read.
Variables (f : ChannelFormValues) (ps : list (jsstr * val)).
Hypothesis Hf : special_typed f.
Hypothesis Hps : settings_ok ps.
Hypothesis Hignored : ∃ t, stored_ignored ps = Ok t.

Let Q := kept_props (write_settings f ps).

Lemma read_at i k o : managed f ps !! i = Some (k, o) → prop Q k = kept (default VUndef o).
Proof.
  intros Hi. unfold prop, Q. rewrite get_kept by (apply NoDup_write_settings, settings_ok_nodup, Hps).
  by rewrite (managed_at f ps i k o).
Qed.

Lemma read_stored k : kept (default VUndef (mget k ps)) = prop ps k.
Proof.
  unfold prop. destruct (mget k ps) as [v|] eqn:E; [|done]. apply kept_ok.
  by eapply settings_ok_value.
Qed.

Lemma read_flag i k (b : bool) o :
  managed f ps !! i = Some (k, if b then Some (flag_val o) else None) →
  equals_true (prop Q k) = b && flag o.
Proof. intros Hi. rewrite (read_at i k _ Hi). apply equals_true_flag. Qed.

Lemma read_upstream_flag i k x :
  managed f ps !! i = Some (k, if fetchable f then Some (VBool x) else mget k ps) →
  equals_true (prop Q k) = if fetchable f then x else stored_flag ps k.
Proof.
  intros Hi. rewrite (read_at i k _ Hi). destruct (fetchable f); [by destruct x|].
  unfold stored_flag. by rewrite read_stored.
Qed.

Lemma read_text i k (b : bool) v d :
  some_text v → managed f ps !! i = Some (k, if b then Some (val_or v d) else None) →
  val_or (prop Q k) d = if b then v else d.
Proof.
  intros Hv Hi. rewrite (read_at i k _ Hi). destruct (some_text_or v d Hv) as (t & E & -> & _).
  destruct b; [|done]. rewrite E. exact E.
Qed.

Lemma read_azure :
  val_or (prop Q (js "azure_responses_version")) (VStr [])
  = if type_is f 3 then azure_responses_version (special f) else VStr [].
Proof.
  rewrite (read_at 1 _ _ eq_refl). destruct (ty_azure f Hf) as (t & Ht & _). rewrite Ht.
  destruct (type_is f 3); [|done]. cbn [andb truthy]. destruct (truthy_str t) eqn:E.
  - change (val_or (VStr t) (VStr []) = VStr t). unfold val_or.
    change (truthy (VStr t)) with (truthy_str t). by rewrite E.
  - by apply truthy_str_false in E as ->.
Qed.

Lemma read_ignored :
  match prop Q (js "upstream_model_update_ignored_models") with VArr l => to_string (VArr l) | _ => Ok [] end
  = Ok (if fetchable f then join [comma] (ignored_models (special f)) else try_catch (stored_ignored ps) []).
Proof.
  rewrite (read_at 14 _ _ eq_refl). destruct (fetchable f).
  - change (default VUndef (Some (strings_val (ignored_models (special f)))))
      with (strings_val (ignored_models (special f))).
    rewrite kept_strings. apply to_string_strings.
  - rewrite read_stored. destruct Hignored as [t Ht]. rewrite Ht. exact Ht.
Qed.

Lemma read_advanced s :
  advanced_custom s = Some [] →
  (if truthy (prop Q (js "advanced_custom")) then
     match stringifyAdvancedCustomConfig (prop Q (js "advanced_custom")) with
     | Ok text => with_advanced s text
     | Throw _ => s
     end
   else s)
  = with_advanced s (if type_is f CHANNEL_TYPE_ADVANCED_CUSTOM then advanced_custom (special f) else Some []).
Proof.
  intros Hs. rewrite (read_at 17 _ _ eq_refl). destruct (type_is f CHANNEL_TYPE_ADVANCED_CUSTOM) eqn:E.
  - destruct (ty_advanced f Hf E) as (rs & text & Hrs & Ht & ->).
    destruct (advanced_text rs text Hrs Ht) as (-> & _ & Htr & Hst).
    change (default VUndef (Some ?x)) with x. by rewrite Htr, Hst.
  - cbn [from_option id kept truthy]. rewrite <-Hs. by destruct s.
Qed.

Lemma assign_settled : assign_special (prop Q) = settled_special f ps.
Proof.
  unfold assign_special. rewrite read_ignored. rewrite read_advanced by reflexivity.
  unfold with_advanced, with_ignored, settled_special. cbv zeta.
  cbn [is_enterprise_account vertex_key_type aws_key_type azure_responses_version allow_service_tier
       disable_store allow_safety_identifier allow_include_obfuscation allow_inference_geo allow_speed
       claude_beta_query disable_task_polling_sleep upstream_model_update_check_enabled
       upstream_model_update_auto_sync_enabled upstream_model_update_ignored_models advanced_custom].
  f_equal.
  - f_equal. eapply (read_flag 2). reflexivity.
  - apply (read_text 0); [apply Hf | reflexivity].
  - apply (read_text 3); [apply Hf | reflexivity].
  - apply read_azure.
  - f_equal. eapply (read_flag 4). reflexivity.
  - f_equal. eapply (read_flag 5). reflexivity.
  - f_equal. eapply (read_flag 6). reflexivity.
  - f_equal. eapply (read_flag 7). reflexivity.
  - f_equal. eapply (read_flag 8). reflexivity.
  - f_equal. eapply (read_flag 9). reflexivity.
  - f_equal. eapply (read_flag 10). reflexivity.
  - f_equal. rewrite (read_at 11 _ _ eq_refl).
    apply (equals_true_flag true).
  - f_equal. apply (read_upstream_flag 12). reflexivity.
  - f_equal. apply (read_upstream_flag 13). reflexivity.
Qed.
End read.

(** The text that is sent and what it is parsed to. *)
Lemma settings_text f ps :
  existing_settings f = VObj ps → special_typed f → settings_ok ps →
  ∃ text, buildSettingsJSON f = Ok text ∧ json_stringify [] (VObj (write_settings f ps)) = Some text
          ∧ json_parse text = Ok (VObj (kept_props (write_settings f ps))).
Proof.
  intros He Hf Hps. unfold buildSettingsJSON. rewrite He.
  destruct (json_parse_kept [] (VObj (write_settings f ps))) as (text & Ht & Hp);
    [constructor | by apply written_json |].
  exists text. rewrite <-kept_object. split_and!; [|done..]. unfold stringify_object. by rewrite Ht.
Qed.

Lemma existing_stored g text qs :
  settings g = Some text → json_parse text = Ok (VObj qs) → existing_settings g = VObj qs.
Proof.
  intros Hs Hp. unfold existing_settings. rewrite Hs, (parsed_truthy _ _ Hp). cbn [andb].
  case_bool_decide as E; cbn [negb]; [|by rewrite Hp].
  rewrite E in Hp. vm_compute in Hp. by injection Hp as <-.
Qed.

Lemma loaded_special f ps text :
  existing_settings f = VObj ps → special_typed f → settings_ok ps → (∃ t, stored_ignored ps = Ok t) →
  buildSettingsJSON f = Ok text → load_special text = settled_special f ps.
Proof.
  intros He Hf Hps Hi Hb'. destruct (settings_text f ps He Hf Hps) as (text' & Hb & _ & Hp).
  rewrite Hb' in Hb. injection Hb as <-.
  unfold load_special. rewrite (parsed_truthy _ _ Hp), Hp. cbn [nullish].
  by rewrite <-(assign_settled f ps Hf Hps Hi).
Qed.


(** ** Saving again *)

(** A value that the text keeps as it is. *)
Definition plain_value (o : option val) : Prop := opt_spec (λ v, kept v = v ∧ v ≠ VUndef) o.

Lemma plain_if (b : bool) o o' : plain_value o → plain_value o' → plain_value (if b then o else o').
Proof. by destruct b. Qed.

Lemma plain_stored ps k : settings_ok ps → plain_value (mget k ps).
Proof.
  intros Hps. destruct (mget k ps) as [v|] eqn:E; [|done]. cbn.
  pose proof (settings_ok_value ps k v Hps E) as Hv. split; [by apply kept_ok|]. by intros ->; inversion Hv.
Qed.

Lemma managed_plain f ps i k o :
  special_typed f → settings_ok ps → managed f ps !! i = Some (k, o) → i ≠ 17 → plain_value o.
Proof.
  intros [Hv Ha (az & Haz & _) _ _] Hps Hi H17.
  destruct (some_text_or _ (VStr (js "json")) Hv) as (sv & Ev & _).
  destruct (some_text_or _ (VStr (js "ak_sk")) Ha) as (sa & Ea & _).
  assert (Forall (λ ko, plain_value (snd ko)) (take 17 (managed f ps))) as H.
  { unfold managed. cbv zeta. rewrite Ev, Ea, Haz. cbn [take].
    repeat apply Forall_cons_2; [..|apply Forall_nil_2]; cbn [snd];
      try (apply plain_if; [|exact I || by apply plain_stored]); try done; try (by apply plain_stored).
    split; [apply kept_strings | done]. }
  rewrite Forall_lookup in H. apply (H i (k, o)).
  rewrite lookup_take_lt; [done|]. apply lookup_lt_Some in Hi. change (length (managed f ps)) with 18 in Hi. lia.
Qed.

Lemma ignored_again s s' :
  upstream_model_update_ignored_models s' = Some (join [comma] (ignored_models s)) →
  ignored_models s' = ignored_models s.
Proof.
  intros E. assert (∀ s, ignored_models s
      = uniq (parseModelsString (default [] (upstream_model_update_ignored_models s)))) as Hp.
  { intros s0. unfold ignored_models, parseModelsString. destruct (truthy_str _) eqn:Et; [done|].
    apply truthy_str_false in Et as ->. reflexivity. }
  rewrite (Hp s'), E. change (default [] (Some ?x)) with x.
  rewrite (Hp s). set (l := parseModelsString (default [] (upstream_model_update_ignored_models s))).
  pose proof (parse_format l) as H. unfold formatModelsArray in H. rewrite H.
  - by rewrite uniq_idemp.
  - apply Forall_forall. intros m Hm. by apply parseModelsString_names in Hm.
Qed.

Section again.
Variables (f g : ChannelFormValues) (ps : list (jsstr * val)).
Hypothesis Hf : special_typed f.
Hypothesis Hps : settings_ok ps.
Hypothesis Htype : type g = type f.
Hypothesis Hspecial : special g = settled_special f ps.

Let Q := kept_props (write_settings f ps).

Lemma same_type n : type_is g n = type_is f n.
Proof. unfold type_is. by rewrite Htype. Qed.

Lemma same_fetchable : fetchable g = fetchable f.
Proof. unfold fetchable, type_in, type_is. by rewrite Htype. Qed.

Lemma same_check : fetchable f = true → check_enabled g = check_enabled f.
Proof.
  intros E. unfold check_enabled. rewrite Hspecial. unfold settled_special. cbv zeta.
  cbn [upstream_model_update_check_enabled]. by rewrite E.
Qed.

Lemma again_at i k o : managed f ps !! i = Some (k, o) → i ≠ 17 → mget k Q = o.
Proof.
  intros Hi H17. pose proof (managed_plain f ps i k o Hf Hps Hi H17) as Hp. unfold Q.
  rewrite mget_kept by (apply NoDup_write_settings, settings_ok_nodup, Hps).
  rewrite (managed_at f ps i k o Hi). destruct o as [v|]; [|done]. destruct Hp as [Hk Hu]. rewrite Hk.
  by destruct v.
Qed.

Lemma only_again (b : bool) o : (if b then Some (flag_val (Some (b && flag o))) else None)
  = (if b then Some (flag_val o) else None).
Proof. by destruct b. Qed.

Lemma again_detected :
  (if fetchable f && (negb (is_array (prop Q (js "upstream_model_update_last_detected_models")))
                      || negb (check_enabled f))
   then Some (VArr []) else mget (js "upstream_model_update_last_detected_models") Q)
  = mget (js "upstream_model_update_last_detected_models") Q.
Proof.
  destruct (fetchable f) eqn:E; [|done]. cbn [andb].
  pose proof (again_at 15 _ _ eq_refl ltac:(done)) as H. rewrite E in H. cbn [andb] in H.
  unfold prop in *. rewrite H.
  generalize dependent (js "upstream_model_update_last_detected_models"). intros k _.
  destruct (negb (is_array (default VUndef (mget k ps))) || negb (check_enabled f)) eqn:Ec.
  - by destruct (check_enabled f).
  - by rewrite Ec.
Qed.

Lemma again_time :
  (if fetchable f && negb (is_number (prop Q (js "upstream_model_update_last_check_time")))
   then Some (VNum num_zero) else mget (js "upstream_model_update_last_check_time") Q)
  = mget (js "upstream_model_update_last_check_time") Q.
Proof.
  destruct (fetchable f) eqn:E; [|done]. cbn [andb].
  pose proof (again_at 16 _ _ eq_refl ltac:(done)) as H. rewrite E in H. cbn [andb] in H.
  unfold prop in *. rewrite H.
  generalize dependent (js "upstream_model_update_last_check_time"). intros k _.
  destruct (negb (is_number (default VUndef (mget k ps)))) eqn:Ec; [done|]. by rewrite Ec.
Qed.

Ltac again i :=
  etransitivity; [apply (again_at i); [reflexivity|done]|];
  rewrite ?same_type, ?same_fetchable; 
  unfold check_enabled; try rewrite Hspecial; unfold settled_special; cbv zeta;
  cbn [is_enterprise_account vertex_key_type aws_key_type azure_responses_version allow_service_tier
       disable_store allow_safety_identifier allow_include_obfuscation allow_inference_geo allow_speed
       claude_beta_query disable_task_polling_sleep upstream_model_update_check_enabled
       upstream_model_update_auto_sync_enabled upstream_model_update_ignored_models advanced_custom].

Lemma managed_again i k o : managed g Q !! i = Some (k, o) → i ≠ 17 → mget k Q = o.
Proof.
  intros Hi H17.
  destruct i as [|[|[|[|[|[|[|[|[|[|[|[|[|[|[|[|[|[|i]]]]]]]]]]]]]]]]]]; [..|done|done];
    injection Hi as <- <-.
  - again 0. by destruct (type_is f 41).
  - again 1. by destruct (type_is f 3).
  - again 2. symmetry. apply only_again.
  - again 3. by destruct (type_is f 33).
  - again 4. symmetry. apply only_again.
  - again 5. symmetry. apply only_again.
  - again 6. symmetry. apply only_again.
  - again 7. symmetry. apply only_again.
  - again 8. symmetry. apply only_again.
  - again 9. symmetry. apply only_again.
  - again 10. symmetry. apply only_again.
  - again 11. done.
  - rewrite same_fetchable. destruct (fetchable f) eqn:E; [|done]. again 12. by rewrite E.
  - rewrite same_fetchable. destruct (fetchable f) eqn:E; [|done]. again 13. rewrite E.
    repeat change (flag (Some ?x)) with x. unfold check_enabled. by destruct (flag (upstream_model_update_check_enabled _)).
  - rewrite same_fetchable. destruct (fetchable f) eqn:E; [|done]. again 14. rewrite E.
    do 2 f_equal. symmetry. by apply ignored_again.
  - rewrite same_fetchable. symmetry. rewrite <-again_detected at 2.
    destruct (fetchable f) eqn:E; [|done]. by rewrite same_check.
  - rewrite same_fetchable. symmetry. apply again_time.
Qed.

Lemma kept_written : kept_props (write_settings g Q) = Q.
Proof.
  rewrite (write_settings_stable g Q managed_again).
  assert (json_ok (VObj Q)) as HQ.
  { unfold Q. rewrite <-kept_object. by apply written_json. }
  assert (Forall json_ok (mvalues Q)) as HQv by (inversion HQ; subst; by apply Forall_map).
  assert (NoDup (mkeys Q)) as HQn.
  { eapply sublist_NoDup; [|apply kept_props_sublist]. by apply NoDup_write_settings, settings_ok_nodup. }
  assert (mget (js "advanced_custom") Q
          = match mget (js "advanced_custom") (write_settings f ps) with
            | Some v => snd <$> kept_prop (js "advanced_custom") (kept v) | None => None end) as Hentry
    by (apply mget_kept, NoDup_write_settings, settings_ok_nodup, Hps).
  rewrite (managed_at f ps 17 _ _ eq_refl) in Hentry.
  unfold write_advanced. rewrite same_type.
  destruct (type_is f CHANNEL_TYPE_ADVANCED_CUSTOM) eqn:E.
  - pose proof (ty_advanced f Hf E) as (rs & text & Hrs & Ht & Hat). rewrite Hat in Hentry.
    destruct (advanced_text rs text Hrs Ht) as (Hp & _). rewrite Hp in Hentry.
    rewrite Hspecial. unfold settled_special. cbv zeta. cbn [advanced_custom]. rewrite E, Hat, Hp.
    apply kept_props_set; [exact Hentry | done..].
  - rewrite obj_del_absent by done. by apply kept_props_ok.
Qed.
End again.

(** ** Properties *)

(** C8: A channel whose form was saved shows the same settings when it is
    opened again.  The settings text the form sends, parsed by the form that
    opens the channel, gives back every type-specific control that belongs to
    the type of the channel (the flags, the key types, the Azure version, the
    list of ignored models, trimmed and without repetitions, and the advanced
    configuration); the controls of other types are at their defaults, and the
    settings of the upstream check of a type that cannot fetch models are what
    was stored before. *)
Theorem settings_reload (f : ChannelFormValues) (ps : list (jsstr * val))
    (He : existing_settings f = VObj ps) (Hf : special_typed f) (Hps : settings_ok ps)
    (Hi : ∃ t, stored_ignored ps = Ok t) :
  ∃ text, buildSettingsJSON f = Ok text ∧ load_special text = settled_special f ps.
Proof.
  destruct (settings_text f ps He Hf Hps) as (text & Hb & _). exists text. split; [done|].
  by apply loaded_special.
Qed.

(** C10: Opening a saved channel and saving it without a change sends the same
    settings text.  [g] is the form of the channel after the save of [f]: the
    stored text is what [f] sent, and its type-specific controls are what the
    form reads from that text. *)
Theorem settings_save_stable (f g : ChannelFormValues) (ps : list (jsstr * val)) (text : jsstr)
    (He : existing_settings f = VObj ps) (Hf : special_typed f) (Hps : settings_ok ps)
    (Hi : ∃ t, stored_ignored ps = Ok t) (Hsaved : buildSettingsJSON f = Ok text)
    (Htype : type g = type f) (Hsettings : settings g = Some text)
    (Hspecial : special g = load_special text) :
  buildSettingsJSON g = Ok text.
Proof.
  destruct (settings_text f ps He Hf Hps) as (text' & Hb & Hs & Hp).
  rewrite Hsaved in Hb. injection Hb as <-.
  rewrite (loaded_special f ps text He Hf Hps Hi Hsaved) in Hspecial.
  pose proof (kept_written f g ps Hf Hps Htype Hspecial) as Hw.
  unfold buildSettingsJSON. rewrite (existing_stored g text _ Hsettings Hp).
  unfold stringify_object, json_stringify in *.
  rewrite <-ser_kept, kept_object, Hw, <-kept_object, ser_kept. by rewrite Hs.
Qed.

(** An Anthropic channel whose settings hold a name the form does not know and
    an entry of another type of channel. *)
Definition sample_settings : list (jsstr * val) :=
  [(js "zone", VStr (js "eu")); (js "disable_store", VBool true);
   (js "upstream_model_update_ignored_models", VArr [VStr (js "old")])].

Definition with_settings (f : ChannelFormValues) (t : num) (text : jsstr) (s : TypeSettings)
    : ChannelFormValues :=
  {| name := name f; type := t; base_url := base_url f; key := key f;
     openai_organization := openai_organization f; models := models f; group := group f;
     model_mapping := model_mapping f; priority := priority f; weight := weight f;
     test_model := test_model f; auto_ban := auto_ban f; status := status f;
     status_code_mapping := status_code_mapping f; tag := tag f; remark := remark f;
     setting := setting f; param_override := param_override f; header_override := header_override f;
     settings := Some text; other := other f; multi_key_mode := multi_key_mode f;
     multi_key_type := multi_key_type f;
     batch_add_set_key_prefix_2_name := batch_add_set_key_prefix_2_name f; key_mode := key_mode f;
     extra := extra f; special := s |}.

Definition sample_controls : TypeSettings :=
  {| is_enterprise_account := Some true; vertex_key_type := VStr (js "json");
     aws_key_type := VStr (js "ak_sk"); azure_responses_version := VStr [];
     allow_service_tier := Some true; disable_store := Some true; allow_safety_identifier := Some false;
     allow_include_obfuscation := Some false; allow_inference_geo := Some true; allow_speed := None;
     claude_beta_query := Some true; disable_task_polling_sleep := Some true;
     upstream_model_update_check_enabled := Some true;
     upstream_model_update_auto_sync_enabled := Some true;
     upstream_model_update_ignored_models := Some (js " m1 ,m2,,m1"); advanced_custom := Some [] |}.

Definition sample_saved : ChannelFormValues :=
  with_settings CHANNEL_FORM_DEFAULT_VALUES (num_of_Z 14) (stringify_object sample_settings) sample_controls.

Definition sample_text : jsstr := match buildSettingsJSON sample_saved with Ok t => t | Throw _ => [] end.

Definition sample_opened : ChannelFormValues :=
  with_settings CHANNEL_FORM_DEFAULT_VALUES (num_of_Z 14) sample_text (load_special sample_text).

Lemma sample_typed : special_typed sample_saved.
Proof.
  split.
  - exists (js "json"). split_and!; [done | done | vm_compute; repeat constructor].
  - exists (js "ak_sk"). split_and!; [done | done | vm_compute; repeat constructor].
  - by exists [].
  - apply (bool_decide_eq_true_1 (Forall code_unit (js " m1 ,m2,,m1"))). vm_compute. reflexivity.
  - intros H. vm_compute in H. discriminate.
Qed.

Lemma sample_settings_ok : settings_ok sample_settings.
Proof.
  split; [vm_compute; reflexivity | apply (bool_decide_eq_true_1 _); vm_compute; reflexivity |].
  repeat constructor; apply (bool_decide_eq_true_1 _); vm_compute; reflexivity.
Qed.

Lemma settings_reload_witness :
  ∃ text, buildSettingsJSON sample_saved = Ok text
          ∧ load_special text = settled_special sample_saved sample_settings.
Proof.
  apply settings_reload; [vm_compute; reflexivity | apply sample_typed | apply sample_settings_ok |].
  exists (js "old"). vm_compute. reflexivity.
Defined.

Lemma settings_save_stable_witness : buildSettingsJSON sample_opened = Ok sample_text.
Proof.
  apply (settings_save_stable sample_saved sample_opened sample_settings);
    [vm_compute; reflexivity | apply sample_typed | apply sample_settings_ok | |
     vm_compute; reflexivity | reflexivity | reflexivity | reflexivity].
  exists (js "old"). vm_compute. reflexivity.
Defined.
