(* ===== verification/ChannelSubmit.v ===== *)
(** * Submitting the form of a channel

    [onSubmit] (channels/components/drawers/channel-mutate-drawer.tsx) checks
    what the schema does not look at and asks the user to confirm what is
    risky; [mutationFn] (channels/hooks/use-channel-mutate-form.ts) makes the
    request, without the fields the user may not change. *)

From Stdlib Require Import ZArith.
From S2P Require Import Prelude JsString JsNumber JsCollections JsValue Json JsonData ModelMapping StatusCodeRisk ChannelVideo ChannelForm.

(** ** The request *)

Definition SENSITIVE_UPDATE_FIELDS : list jsstr :=
  [js "type"; js "key"; js "base_url"; js "openai_organization"; js "param_override";
   js "header_override"; js "setting"; js "settings"; js "other"].

Inductive Request :=
  | UpdateRequest (channelId : num) (payload : list (jsstr * val))
  | CreateRequest (payload : CreatePayload).

Section request.
Context {lower_case : LowerCase}.

Definition delete_fields (fields : list jsstr) (payload : list (jsstr * val)) : list (jsstr * val) :=
  fold_left (λ ps field, obj_del field ps) fields payload.

(** The payload of an update, from the one [transformFormDataToUpdatePayload]
    makes. *)
Definition update_payload (canEditSensitive isMultiKeyChannel : bool) (data : ChannelFormValues)
    (payload : list (jsstr * val)) : list (jsstr * val) :=
  let payload := if blank (key data) then obj_del (js "key") payload else payload in
  let payload := if negb canEditSensitive then delete_fields SENSITIVE_UPDATE_FIELDS payload else payload in
  if canEditSensitive && isMultiKeyChannel && negb (blank (key data)) && truthy_str (default [] (key_mode data))
  then obj_set (js "key_mode") (opt_js VStr (key_mode data)) payload
  else payload.

(** [currentRow] is the identifier of the edited channel. *)
Definition mutationFn (canEditSensitive isMultiKeyChannel isEditing : bool) (currentRow : option num)
    (data : ChannelFormValues) : res Request :=
  match currentRow with
  | Some channelId =>
      if isEditing then
        payload ← transformFormDataToUpdatePayload data channelId;
        Ok (UpdateRequest channelId (update_payload canEditSensitive isMultiKeyChannel data payload))
      else payload ← transformFormDataToCreatePayload data; Ok (CreateRequest payload)
  | None => payload ← transformFormDataToCreatePayload data; Ok (CreateRequest payload)
  end.
End request.

(** ** The submit handler *)

Definition SENSITIVE_FORM_FIELDS : list jsstr :=
  [js "type"; js "base_url"; js "key"; js "openai_organization"; js "other"; js "key_mode";
   js "param_override"; js "header_override"; js "settings"; js "setting"; js "advanced_custom";
   js "is_enterprise_account"; js "vertex_key_type"; js "aws_key_type"; js "azure_responses_version";
   js "force_format"; js "thinking_to_content"; js "proxy"; js "video_content_proxy_enabled";
   js "video_s3_storage_enabled"; js "video_s3_preferred"; js "pass_through_body_enabled";
   js "system_prompt"; js "system_prompt_override"; js "allow_service_tier"; js "disable_store";
   js "allow_safety_identifier"; js "allow_include_obfuscation"; js "allow_inference_geo";
   js "allow_speed"; js "claude_beta_query"; js "disable_task_polling_sleep";
   js "upstream_model_update_check_enabled"; js "upstream_model_update_auto_sync_enabled";
   js "upstream_model_update_ignored_models"].

(** The answers of the dialog on missing models. *)
Inductive MissingModelsAction := Cancel | Submit | Add.

(** What the drawer remembers of the channel it was opened with. *)
Record Drawer := {
  isEditing : bool;
  sensitiveLocked : bool;
  initialStatusCodeMapping : jsstr;
  initialModels : list jsstr;
  initialModelMapping : jsstr
}.

(** How a submission ends: an error at a field, a message, an answer of the
    user that stops it, or the data that is handed to the mutation. *)
Inductive Outcome :=
  | FieldError (field msg : jsstr)
  | Refused (msg : jsstr) (entries : list jsstr)
  | Declined
  | Submitted (data : ChannelFormValues).

Definition with_models (f : ChannelFormValues) (m : jsstr) : ChannelFormValues :=
  {| name := name f; type := type f; base_url := base_url f; key := key f;
     openai_organization := openai_organization f; models := m; group := group f;
     model_mapping := model_mapping f; priority := priority f; weight := weight f;
     test_model := test_model f; auto_ban := auto_ban f; status := status f;
     status_code_mapping := status_code_mapping f; tag := tag f; remark := remark f;
     setting := setting f; param_override := param_override f; header_override := header_override f;
     settings := settings f; other := other f; multi_key_mode := multi_key_mode f;
     multi_key_type := multi_key_type f;
     batch_add_set_key_prefix_2_name := batch_add_set_key_prefix_2_name f; key_mode := key_mode f;
     extra := extra f; special := special f |}.

Section submit.
(** The fields the user has changed, and the user's answers. *)
Variable dirtyFields : jsstr → bool.
Variable confirmStatusCodeRisk : list jsstr → bool.
Variable confirmMissingModelMappings : list jsstr → MissingModelsAction.

(** The checks of the status code mapping: how they end the submission. *)
Definition check_status_codes (d : Drawer) (data : ChannelFormValues) : res (option Outcome) :=
  let mapping := default [] (status_code_mapping data) in
  if truthy_str (trim mapping) then
    invalidEntries ← collectInvalidStatusCodeEntries mapping;
    match invalidEntries with
    | _ :: _ => Ok (Some (Refused (js "Invalid status code mapping entries: {{entries}}") invalidEntries))
    | [] =>
        let riskyRedirects := collectNewDisallowedStatusCodeRedirects (initialStatusCodeMapping d) mapping in
        match riskyRedirects with
        | _ :: _ => Ok (if confirmStatusCodeRisk riskyRedirects then None else Some Declined)
        | [] => Ok None
        end
    end
  else Ok None.

(** The checks of the model mapping, and what they make of the models. *)
Definition check_models (d : Drawer) (data : ChannelFormValues) : Outcome :=
  let mapping := default [] (model_mapping data) in
  let hasModelMapping := negb (bool_decide (trim mapping = [])) in
  let validation := validateModelMappingJson mapping in
  if hasModelMapping && negb (valid validation) then
    Refused (opt_or (error validation) (js "Invalid model mapping")) []
  else
    let normalizedModels := parseModelsString (models data) in
    let missingModels := findMissingModelsInMapping mapping normalizedModels in
    if hasModelMapping && negb (bool_decide (missingModels = []))
       && hasModelConfigChanged normalizedModels mapping (initialModels d) (initialModelMapping d) then
      match confirmMissingModelMappings missingModels with
      | Cancel => Declined
      | Submit => Submitted data
      | Add => Submitted (with_models data (formatModelsArray (uniq (normalizedModels ++ missingModels))))
      end
    else Submitted data.

Definition onSubmit (d : Drawer) (data : ChannelFormValues) : res Outcome :=
  if negb (isEditing d) && blank (key data) then
    Ok (FieldError (js "key") (js "API key is required"))
  else if sensitiveLocked d && existsb dirtyFields SENSITIVE_FORM_FIELDS then
    Ok (Refused (js "You do not have permission to edit sensitive channel settings.") [])
  else
    ended ← check_status_codes d data;
    match ended with
    | Some outcome => Ok outcome
    | None => Ok (check_models d data)
    end.
End submit.
