(* ===== verification/ChannelSubmitSpec.v ===== *)
(** * What a submitted form sends

    [request_spec] is about the request of an update, [submitted_spec] about
    the checks and questions a submission has passed. *)

From Stdlib Require Import ZArith.
From S2P Require Import Prelude JsString JsNumber JsCollections JsValue Json JsonFacts JsonData ModelMapping StatusCodeRisk ChannelVideo ChannelForm ChannelFormExtra ChannelSubmit.

(** ** Requests *)

(** A form that passed its schema is saved from an object. *)
Lemma accepted_settings f : isOptionalJsonObject (settings f) = true → ∃ ps, existing_settings f = VObj ps.
Proof.
  unfold isOptionalJsonObject, optional_json, parseOptionalJson, existing_settings.
  destruct (settings f) as [text|]; [|by exists []]. intros H.
  destruct (truthy_str text && negb (bool_decide (text = js "{}"))); [|by exists []].
  destruct (json_parse text) as [v|e] eqn:Ep; [|by exists []]. cbn [try_catch].
  destruct (truthy_str (trim text)) eqn:E.
  - destruct v; cbn in H; try discriminate; [by apply parsed_defined in Ep | by eexists].
  - apply truthy_str_false, json_parse_blank in E. congruence.
Qed.

Lemma accepted_saves f : isOptionalJsonObject (settings f) = true → ∃ text, buildSettingsJSON f = Ok text.
Proof. intros (ps & H)%accepted_settings. unfold buildSettingsJSON. rewrite H. by eexists. Qed.

Lemma mget_delete_fields fields ps k :
  mget k (delete_fields fields ps) = if bool_decide (k ∈ fields) then None else mget k ps.
Proof.
  revert ps; induction fields as [|field fields IH]; intros ps; [done|].
  unfold delete_fields in *. cbn [fold_left]. rewrite IH, mget_obj_del.
  destruct (decide (field = k)) as [->|Hk].
  - rewrite (bool_decide_eq_true_2 (k ∈ k :: fields)) by constructor. by destruct (bool_decide _).
  - assert (bool_decide (k ∈ field :: fields) = bool_decide (k ∈ fields)) as ->; [|done].
    apply bool_decide_ext. rewrite elem_of_cons. split; [intros [|]; [by subst | done] | by right].
Qed.

Lemma mget_set_all assignments ps k :
  NoDup (mkeys assignments) →
  mget k (set_all assignments ps)
  = match mget k assignments with Some v => Some v | None => mget k ps end.
Proof.
  revert ps; induction assignments as [|[j v] l IH]; intros ps; [done|].
  intros [Hj Hnd]%NoDup_cons. unfold set_all in *. cbn [fold_left fst snd mget].
  rewrite IH, mget_obj_set by done. destruct (decide (k = j)) as [->|Hkj].
  - rewrite decide_True by done. by rewrite (proj2 (mget_None j l)).
  - by rewrite decide_False by congruence.
Qed.

(** What the request of an update holds at each name. *)
Lemma mget_update_payload canEditSensitive multi data p k :
  mget k (update_payload canEditSensitive multi data p)
  = if bool_decide (k = js "key_mode") && (canEditSensitive && multi && negb (blank (key data))
                                           && truthy_str (default [] (key_mode data)))
    then Some (opt_js VStr (key_mode data))
    else if (negb canEditSensitive && bool_decide (k ∈ SENSITIVE_UPDATE_FIELDS))
            || (blank (key data) && bool_decide (k = js "key"))
    then None else mget k p.
Proof.
  unfold update_payload. cbv zeta.
  set (p1 := if blank (key data) then obj_del (js "key") p else p).
  set (p2 := if negb canEditSensitive then delete_fields SENSITIVE_UPDATE_FIELDS p1 else p1).
  assert (mget k p1 = if blank (key data) && bool_decide (k = js "key") then None else mget k p) as H1.
  { unfold p1. destruct (blank (key data)); [|done]. rewrite mget_obj_del. cbn [andb].
    generalize (js "key"). intros j. destruct (decide (j = k)) as [->|Hk].
    - by rewrite bool_decide_eq_true_2.
    - by rewrite bool_decide_eq_false_2 by congruence. }
  assert (mget k p2 = if (negb canEditSensitive && bool_decide (k ∈ SENSITIVE_UPDATE_FIELDS))
            || (blank (key data) && bool_decide (k = js "key"))
    then None else mget k p) as H2.
  { unfold p2. destruct canEditSensitive; cbn [negb andb orb]; [exact H1|].
    rewrite mget_delete_fields, H1. generalize (bool_decide (k ∈ SENSITIVE_UPDATE_FIELDS)).
    intros b. by destruct b. }
  generalize (js "key_mode"). intros j.
  destruct (canEditSensitive && multi && _ && _); [|by rewrite andb_false_r].
  rewrite mget_obj_set, andb_true_r. destruct (decide (j = k)) as [->|Hk].
  - by rewrite bool_decide_eq_true_2.
  - by rewrite bool_decide_eq_false_2 by congruence.
Qed.

Section requests.
Context {lower_case : LowerCase}.

(** C12: The request that saves an edited channel.  A form that passed its
    schema always makes one, and it goes to the edited channel.  Its payload
    holds what the form gives for each name, but no sensitive field when the
    user may not change these, no key when the key is blank, and the key mode
    exactly when a permitted user gives the key of a multi-key channel. *)
Theorem request_spec (canEditSensitive isMultiKeyChannel : bool) (data : ChannelFormValues) (channelId : num)
    (Hs : channelFormSchema data = true) :
  ∃ p q, transformFormDataToUpdatePayload data channelId = Ok p
    ∧ mutationFn canEditSensitive isMultiKeyChannel true (Some channelId) data = Ok (UpdateRequest channelId q)
    ∧ ∀ k, mget k q
      = if bool_decide (k = js "key_mode")
           && (canEditSensitive && isMultiKeyChannel && negb (blank (key data))
               && truthy_str (default [] (key_mode data)))
        then Some (opt_js VStr (key_mode data))
        else if (negb canEditSensitive && bool_decide (k ∈ SENSITIVE_UPDATE_FIELDS))
                || (blank (key data) && bool_decide (k = js "key"))
        then None else mget k p.
Proof.
  assert (isOptionalJsonObject (settings data) = true) as H.
  { unfold channelFormSchema in Hs. rewrite !andb_true_iff in Hs. tauto. }
  destruct (accepted_saves data H) as [text Ht].
  unfold mutationFn, transformFormDataToUpdatePayload. rewrite Ht. cbn [mbind].
  eexists _, _. split_and!; [reflexivity | reflexivity |]. intros k. apply mget_update_payload.
Qed.
End requests.

(** ** What is lost without permission *)

Lemma mget_swap (k j : jsstr) (v v' : val) A B : k ≠ j → mget k (A ++ (j, v) :: B) = mget k (A ++ (j, v') :: B).
Proof.
  intros Hk. induction A as [|[i w] A IH]; cbn [app mget].
  - by rewrite !(decide_False (P := k = j)).
  - by rewrite IH.
Qed.

Lemma Ok_inj {A} (x y : A) : Ok x = Ok y → x = y.
Proof. by intros [= ->]. Qed.

#[local] Opaque js.

Section lost.
Context {lower_case : LowerCase}.

(** Without the permission the request is the same whatever the extra settings
    of the form are. *)
Lemma extra_settings_lost f e multi channelId p p' k :
  transformFormDataToUpdatePayload f channelId = Ok p →
  transformFormDataToUpdatePayload (with_extra f e) channelId = Ok p' →
  mget k (update_payload false multi f p) = mget k (update_payload false multi (with_extra f e) p').
Proof.
  intros H H'. rewrite !mget_update_payload. cbn [key with_extra key_mode negb andb].
  rewrite andb_false_r. destruct (bool_decide (k ∈ SENSITIVE_UPDATE_FIELDS)) eqn:E; [done|].
  assert (k ≠ js "setting") as Hk.
  { intros ->. revert E. vm_compute. discriminate. }
  assert (mget k p = mget k p') as ->; [|done].
  unfold transformFormDataToUpdatePayload in *.
  change (buildSettingsJSON (with_extra f e)) with (buildSettingsJSON f) in H'.
  destruct (buildSettingsJSON f) as [text|]; [|done]. cbn [mbind] in *.
  apply Ok_inj in H, H'. subst p p'.
  rewrite !mget_set_all by (apply (bool_decide_eq_true_1 _); vm_compute; reflexivity).
  change (clearable_fields (with_extra f e)) with (clearable_fields f).
  destruct (mget k (clearable_fields f)); [done|].
  unfold empty_to_null. rewrite !mget_mmap. f_equal. cbn [key with_extra].
  assert (∀ (b : bool) (v : val) P P', mget k P = mget k P' →
    mget k (if b then obj_set (js "key") v P else P)
    = mget k (if b then obj_set (js "key") v P' else P')) as Hif.
  { intros [] v P P' HP; [|done]. by rewrite !mget_obj_set, HP. }
  apply Hif. change (mget k (?a :: ?b :: ?c :: ?d :: ?e' :: ?f' :: ?g :: ?h :: ?i :: ?j :: ?l :: ?m :: ?n :: ?o :: ?q :: (js "setting", ?v) :: ?r)) with (mget k ([a; b; c; d; e'; f'; g; h; i; j; l; m; n; o; q] ++ (js "setting", v) :: r)).
  by apply mget_swap.
Qed.
End lost.

(** ** Submissions *)

(** Adding the missing models leaves none missing, unless a name is lost to
    the commas of the list. *)
Lemma added_models mapping current :
  Forall (λ m, model_name m ∧ comma ∉ m) current →
  Forall (λ m, comma ∉ m) (findMissingModelsInMapping mapping current) →
  findMissingModelsInMapping mapping
    (parseModelsString (formatModelsArray (uniq (current ++ findMissingModelsInMapping mapping current)))) = [].
Proof.
  intros Hc Hm. destruct (decide (trim mapping = [])) as [Eb|Eb].
  { unfold findMissingModelsInMapping at 1. by rewrite (bool_decide_eq_true_2 _ Eb), orb_true_r. }
  destruct (parse_object mapping) as [ps|] eqn:Ep.
  2: { unfold findMissingModelsInMapping at 1. rewrite Ep. by destruct (_ || _). }
  assert (holds mapping ps) as Hh by done.
  rewrite parse_format.
  - rewrite uniq_idemp. destruct (findMissingModelsInMapping mapping (uniq _)) as [|m l] eqn:E; [done|].
    assert (m ∈ findMissingModelsInMapping mapping
              (uniq (current ++ findMissingModelsInMapping mapping current))) as Hin by (rewrite E; constructor).
    apply (elem_of_missing mapping ps) in Hin as (Hne & (kv & Hkv & ->) & Hcur); [|done]. exfalso.
    assert (∀ c, c ∈ current ++ findMissingModelsInMapping mapping current → trim c ≠ trim (fst kv)) as Hall
      by (intros c Hcin; by apply Hcur, elem_of_uniq).
    apply (Hall (trim (fst kv))); [|apply trim_idemp]. apply elem_of_app. right.
    apply (elem_of_missing mapping ps); [done|]. split_and!; [done | by exists kv |].
    intros c Hcin. apply Hall, elem_of_app. by left.
  - apply Forall_forall. intros m [Hin|Hin]%uniq_elem_of%elem_of_app.
    + rewrite Forall_forall in Hc. by apply Hc.
    + rewrite Forall_forall in Hm. split; [|by apply Hm].
      apply (elem_of_missing mapping ps) in Hin as (Hne & (kv & _ & ->) & _); [|done].
      split; [done | apply trim_trimmed].
Qed.

Section submitted.
Variable dirtyFields : jsstr → bool.
Variable confirmStatusCodeRisk : list jsstr → bool.
Variable confirmMissingModelMappings : list jsstr → MissingModelsAction.

Definition codes_confirmed (d : Drawer) (data : ChannelFormValues) : Prop :=
  let mapping := default [] (status_code_mapping data) in
  trim mapping ≠ [] →
  collectInvalidStatusCodeEntries mapping = Ok []
  ∧ let risky := collectNewDisallowedStatusCodeRedirects (initialStatusCodeMapping d) mapping in
    risky = [] ∨ confirmStatusCodeRisk risky = true.

Lemma check_status_codes_spec d data :
  check_status_codes confirmStatusCodeRisk d data = Ok None ↔ codes_confirmed d data.
Proof.
  unfold check_status_codes, codes_confirmed. cbv zeta.
  destruct (truthy_str (trim _)) eqn:E.
  - apply truthy_str_true in E. destruct (collectInvalidStatusCodeEntries _) as [[|i l]|]; cbn [mbind].
    + destruct (collectNewDisallowedStatusCodeRedirects _ _) as [|r rs] eqn:Er; [split; auto|].
      destruct (confirmStatusCodeRisk (r :: rs)) eqn:Ec; [split; auto|].
      split; [done|]. intros [_ [?|?]]%(λ H, H E); congruence.
    + split; [done|]. by intros [? _]%(λ H, H E).
    + split; [done|]. by intros [? _]%(λ H, H E).
  - apply truthy_str_false in E. by split.
Qed.

Lemma never_submits d data f :
  check_status_codes confirmStatusCodeRisk d data ≠ Ok (Some (Submitted f)).
Proof.
  unfold check_status_codes. cbv zeta. destruct (truthy_str _); [|done].
  destruct (collectInvalidStatusCodeEntries _) as [[|i l]|]; cbn [mbind]; try done.
  destruct (collectNewDisallowedStatusCodeRedirects _ _); [done|].
  by destruct (confirmStatusCodeRisk _).
Qed.

(** What becomes of the data that passed the other checks. *)
Definition models_settled (d : Drawer) (data submitted : ChannelFormValues) : Prop :=
  let mapping := default [] (model_mapping data) in
  let current := parseModelsString (models data) in
  let missing := findMissingModelsInMapping mapping current in
  (submitted = data
   ∧ (missing = [] ∨ hasModelConfigChanged current mapping (initialModels d) (initialModelMapping d) = false
      ∨ confirmMissingModelMappings missing = Submit))
  ∨ (confirmMissingModelMappings missing = Add
     ∧ (∃ text, submitted = with_models data text)
     ∧ (Forall (λ m, comma ∉ m) missing →
        findMissingModelsInMapping mapping (parseModelsString (models submitted)) = [])).

Lemma passed_models d data submitted :
  check_models confirmMissingModelMappings d data = Submitted submitted →
  (trim (default [] (model_mapping data)) ≠ [] →
   valid (validateModelMappingJson (default [] (model_mapping data))) = true)
  ∧ models_settled d data submitted.
Proof.
  unfold check_models, models_settled. cbv zeta. set (mapping := default [] (model_mapping data)).
  set (current := parseModelsString (models data)). set (missing := findMissingModelsInMapping mapping current).
  destruct (decide (trim mapping = [])) as [Eb|Eb].
  { rewrite (bool_decide_eq_true_2 _ Eb). cbn [negb andb]. intros [= <-]. split; [done|]. left. split; [done|].
    left. unfold missing, findMissingModelsInMapping. by rewrite (bool_decide_eq_true_2 _ Eb), orb_true_r. }
  rewrite (bool_decide_eq_false_2 _ Eb). cbn [negb andb].
  destruct (valid (validateModelMappingJson mapping)); cbn [negb]; [|done]. intros H. split; [done|].
  case_bool_decide as Em; cbn [negb andb] in H; [injection H as <-; by auto|].
  destruct (hasModelConfigChanged _ _ _ _); [|injection H as <-; by auto].
  destruct (confirmMissingModelMappings missing) eqn:Ec; [done | injection H as <-; by auto |].
  injection H as <-. right. split_and!; [done | by eexists |]. intros Hm. apply added_models; [|done].
  apply Forall_forall. intros m Hin. by apply parseModelsString_names in Hin.
Qed.

(** C11: What is handed to the mutation has passed every guard.  A new channel
    has a key; a user without the permission has changed no sensitive field;
    the status code mapping has no malformed entry, and redirections of 504 or
    524 that were not there before have been confirmed; the model mapping is
    valid; and the data is what the user entered, with the models of the
    mapping in the list, or the mapping as before, or the user's consent to
    leave models out, except for the models added on request, after which
    none is missing when no name holds a comma. *)
Theorem submitted_spec (d : Drawer) (data submitted : ChannelFormValues)
    (H : onSubmit dirtyFields confirmStatusCodeRisk confirmMissingModelMappings d data
         = Ok (Submitted submitted)) :
  (isEditing d = false → blank (key data) = false)
  ∧ (sensitiveLocked d = true → Forall (λ field, dirtyFields field = false) SENSITIVE_FORM_FIELDS)
  ∧ codes_confirmed d data
  ∧ (trim (default [] (model_mapping data)) ≠ [] →
     valid (validateModelMappingJson (default [] (model_mapping data))) = true)
  ∧ models_settled d data submitted.
Proof.
  unfold onSubmit in H.
  destruct (negb (isEditing d) && blank (key data)) eqn:Ek; [done|].
  destruct (sensitiveLocked d && existsb dirtyFields SENSITIVE_FORM_FIELDS) eqn:El; [done|].
  destruct (check_status_codes _ d data) as [[o|]|] eqn:Es; cbn [mbind] in H.
  - exfalso. apply Ok_inj in H. subst o. by apply never_submits in Es.
  - apply Ok_inj, passed_models in H as [Hm Hs]. split_and!; [| | |exact Hm|exact Hs].
    + intros E. by rewrite E in Ek.
    + intros E. rewrite E in El. cbn [andb] in El. apply Forall_forall. intros field Hf.
      destruct (dirtyFields field) eqn:Ed; [|done].
      assert (existsb dirtyFields SENSITIVE_FORM_FIELDS = true) as Hex; [|congruence].
      apply existsb_exists. exists field. split; [by apply list_elem_of_In | done].
    + by apply check_status_codes_spec.
  - done.
Qed.
End submitted.

(** ** Witnesses *)

(** An edited channel, with a redirection of 504 and a mapping of a model that
    is not in the list. *)
Definition sample_edited : ChannelFormValues :=
  let f := CHANNEL_FORM_DEFAULT_VALUES in
  {| name := js "main"; type := type f; base_url := base_url f; key := key f;
     openai_organization := openai_organization f; models := js "gpt-4o"; group := group f;
     model_mapping := Some (jq "{` fast `: `gpt-4o`}"); priority := priority f; weight := weight f;
     test_model := test_model f; auto_ban := auto_ban f; status := status f;
     status_code_mapping := Some (jq "{`504`: 503}"); tag := tag f; remark := remark f;
     setting := setting f; param_override := param_override f; header_override := header_override f;
     settings := settings f; other := other f; multi_key_mode := multi_key_mode f;
     multi_key_type := multi_key_type f;
     batch_add_set_key_prefix_2_name := batch_add_set_key_prefix_2_name f; key_mode := key_mode f;
     extra := extra f; special := special f |}.

Definition sample_drawer : Drawer :=
  {| isEditing := true; sensitiveLocked := true; initialStatusCodeMapping := [];
     initialModels := [js "gpt-4o"]; initialModelMapping := [] |}.

Definition sample_submitted : ChannelFormValues := with_models sample_edited (js "gpt-4o,fast").

Lemma submitted_spec_witness :
  sensitiveLocked sample_drawer = true
  ∧ models_settled (λ _, Add) sample_drawer sample_edited sample_submitted.
Proof.
  split; [reflexivity|].
  refine (proj2 (proj2 (proj2 (proj2
    (submitted_spec (λ _, false) (λ _, true) (λ _, Add) sample_drawer sample_edited sample_submitted _))))).
  vm_compute. reflexivity.
Defined.

Lemma request_spec_witness :
  channelFormSchema sample_edited = true
  ∧ ∃ p q, transformFormDataToUpdatePayload (lower_case := ascii_case) sample_edited (num_of_Z 7) = Ok p
    ∧ mutationFn (lower_case := ascii_case) false true true (Some (num_of_Z 7)) sample_edited
      = Ok (UpdateRequest (num_of_Z 7) q)
    ∧ ∀ k, mget k q
      = if bool_decide (k = js "key_mode")
           && (false && true && negb (blank (key sample_edited))
               && truthy_str (default [] (key_mode sample_edited)))
        then Some (opt_js VStr (key_mode sample_edited))
        else if (negb false && bool_decide (k ∈ SENSITIVE_UPDATE_FIELDS))
                || (blank (key sample_edited) && bool_decide (k = js "key"))
        then None else mget k p.
Proof.
  assert (channelFormSchema sample_edited = true) as H by (vm_compute; reflexivity).
  split; [exact H|]. exact (request_spec (lower_case := ascii_case) false true sample_edited (num_of_Z 7) H).
Defined.
