(* ===== verification/ChannelUpstream.v ===== *)
(** * Upstream model updates (channels/lib/upstream-update-utils.ts,
      hooks/use-channel-upstream-updates.ts, dialogs/upstream-update-dialog.tsx)

    The settings of a channel hold the models that the upstream check found to
    be new or gone ([parseUpstreamUpdateMeta]).  A dialog lists them, and what
    is selected there is sent to be applied ([applyUpdates]).  The page keeps
    one dialog, which is not remounted when it opens for another channel. *)

From Stdlib Require Import ZArith.
From S2P Require Import Prelude JsString JsNumber JsCollections JsValue Json ModelMapping ChannelForm.

(** ** What the settings say *)

(** [String(model || '').trim()]. *)
Definition model_text (model : val) : res jsstr :=
  s ← to_string (val_or model (VStr [])); Ok (trim s).

Definition normalizeModelList (models : list val) : res (list jsstr) :=
  texts ← res_mapM model_text models; Ok (uniq (List.filter truthy_str texts)).

(** On lists of strings. *)
Definition normalize_names (models : list jsstr) : list jsstr := uniq (List.filter truthy_str (map trim models)).

(** [normalizeModelList(v || [])] of a parsed property: only arrays have [map]. *)
Definition model_list (v : val) : res (list jsstr) :=
  if truthy v then match v with VArr l => normalizeModelList l | _ => Throw TypeError end
  else Ok [].

Record Meta := { enabled : bool; pendingAddModels : list jsstr; pendingRemoveModels : list jsstr }.

Definition no_meta : Meta := {| enabled := false; pendingAddModels := []; pendingRemoveModels := [] |}.

(** The value the function looks into: an object, or what a text holds. *)
Definition parsed_settings (settings : val) : val :=
  match settings with
  | VObj _ => settings
  | VStr text => try_catch (json_parse text) VNull
  | _ => VNull
  end.

Definition parseUpstreamUpdateMeta (settings : val) : res Meta :=
  match parsed_settings settings with
  | VObj ps =>
      add ← model_list (ChannelVideo.prop ps (js "upstream_model_update_last_detected_models"));
      remove ← model_list (ChannelVideo.prop ps (js "upstream_model_update_last_removed_models"));
      Ok {| enabled := equals_true (ChannelVideo.prop ps (js "upstream_model_update_check_enabled"));
            pendingAddModels := add; pendingRemoveModels := remove |}
  | _ => Ok no_meta
  end.

(** An array has none of the properties. *)
Definition getManualIgnoredModelCount (settings : val) : res nat :=
  match (match settings with VArr _ => settings | _ => parsed_settings settings end) with
  | VObj ps => l ← model_list (ChannelVideo.prop ps (js "upstream_model_update_ignored_models")); Ok (length l)
  | _ => Ok 0
  end.

(** ** The hook and the dialog *)

Inductive Tab := AddTab | RemoveTab.

(** [applyRef] and [applyLoading]: the request is answered, then the table is
    refreshed. *)
Inductive Applying := Idle | Waiting | Refreshing.

Record UpstreamRequest := {
  id : num; add_models : list jsstr; ignore_models : list jsstr; remove_models : list jsstr
}.

(** The state of the hook. *)
Record Hook := {
  showModal : bool; channel : option num; addModels : list jsstr; removeModels : list jsstr;
  preferredTab : Tab; applying : Applying
}.

(** The state of the dialog; a set is the list of its elements in the order of
    their insertion. *)
Record Dialog := {
  activeTab : Tab; searchAdd : jsstr; searchRemove : jsstr;
  selectedAdd : list jsstr; selectedRemove : list jsstr; partialConfirmOpen : bool
}.

Record Page := { hook : Hook; dialog : Dialog }.

Definition first_page : Page :=
  {| hook := {| showModal := false; channel := None; addModels := []; removeModels := [];
                preferredTab := AddTab; applying := Idle |};
     dialog := {| activeTab := AddTab; searchAdd := []; searchRemove := []; selectedAdd := uniq [];
                  selectedRemove := uniq []; partialConfirmOpen := false |} |}.

Definition openModal (record : option num) (pendingAdd pendingRemove : list jsstr) (tab : Tab) (h : Hook) : Hook :=
  let normAdd := normalize_names pendingAdd in
  let normRemove := normalize_names pendingRemove in
  match record with
  | Some recordId =>
      if negb (num_truthy recordId) || (bool_decide (normAdd = []) && bool_decide (normRemove = [])) then h
      else {| showModal := true; channel := Some recordId; addModels := normAdd; removeModels := normRemove;
              preferredTab := tab; applying := applying h |}
  | None => h
  end.

Definition closeModal (h : Hook) : Hook :=
  {| showModal := false; channel := None; addModels := []; removeModels := []; preferredTab := AddTab;
     applying := applying h |}.

Definition with_applying (a : Applying) (h : Hook) : Hook :=
  {| showModal := showModal h; channel := channel h; addModels := addModels h; removeModels := removeModels h;
     preferredTab := preferredTab h; applying := a |}.

(** Up to the request. *)
Definition applyUpdates (selectedAdd selectedRemove : list jsstr) (h : Hook) : Hook * option UpstreamRequest :=
  match applying h with
  | Waiting | Refreshing => (h, None)
  | Idle =>
      match channel h with
      | Some channelId =>
          if num_truthy channelId then
            let normSelectedAdd := normalize_names selectedAdd in
            let selectedAddSet := uniq normSelectedAdd in
            let ignoreModels := List.filter (λ m, negb (bool_decide (m ∈ selectedAddSet))) (addModels h) in
            (with_applying Waiting h,
             Some {| id := channelId; add_models := normSelectedAdd; ignore_models := ignoreModels;
                     remove_models := normalize_names selectedRemove |})
          else (closeModal h, None)
      | None => (closeModal h, None)
      end
  end.

(** After the answer; the refresh of the table follows a success. *)
Definition on_answer (success : bool) (h : Hook) : Hook :=
  if success then with_applying Refreshing (closeModal h) else with_applying Idle h.

(** *** Sets *)

Definition set_delete (m : jsstr) (s : list jsstr) : list jsstr :=
  List.filter (λ x, negb (bool_decide (x = m))) s.
Definition set_add (m : jsstr) (s : list jsstr) : list jsstr := if bool_decide (m ∈ s) then s else s ++ [m].

Definition toggleModel (m : jsstr) (s : list jsstr) : list jsstr :=
  if bool_decide (m ∈ s) then set_delete m s else set_add m s.

Definition toggleAllVisible (models s : list jsstr) : list jsstr :=
  if forallb (λ m, bool_decide (m ∈ s)) models
  then fold_left (λ s m, set_delete m s) models s
  else fold_left (λ s m, set_add m s) models s.

Definition with_selected (add remove : list jsstr) (d : Dialog) : Dialog :=
  {| activeTab := activeTab d; searchAdd := searchAdd d; searchRemove := searchRemove d;
     selectedAdd := add; selectedRemove := remove; partialConfirmOpen := partialConfirmOpen d |}.

Definition with_searches (tab : Tab) (add remove : jsstr) (d : Dialog) : Dialog :=
  {| activeTab := tab; searchAdd := add; searchRemove := remove;
     selectedAdd := selectedAdd d; selectedRemove := selectedRemove d;
     partialConfirmOpen := partialConfirmOpen d |}.

Definition with_partial (b : bool) (d : Dialog) : Dialog :=
  {| activeTab := activeTab d; searchAdd := searchAdd d; searchRemove := searchRemove d;
     selectedAdd := selectedAdd d; selectedRemove := selectedRemove d; partialConfirmOpen := b |}.

Section page.
Context {lower_case : LowerCase}.

(** The models whose name holds the searched text. *)
Definition filtered (models : list jsstr) (search : jsstr) : list jsstr :=
  List.filter (λ m, includes (toLowerCase m) (toLowerCase search)) models.

Definition filteredAdd (p : Page) : list jsstr := filtered (addModels (hook p)) (searchAdd (dialog p)).
Definition filteredRemove (p : Page) : list jsstr := filtered (removeModels (hook p)) (searchRemove (dialog p)).

Definition onConfirm (p : Page) (d : Dialog) : Page * option UpstreamRequest :=
  let '(h, r) := applyUpdates (selectedAdd (dialog p)) (selectedRemove (dialog p)) (hook p) in
  ({| hook := h; dialog := d |}, r).

Definition handleConfirm (p : Page) : Page * option UpstreamRequest :=
  let hasAdd := negb (bool_decide (addModels (hook p) = [])) in
  let hasRemove := negb (bool_decide (removeModels (hook p) = [])) in
  let anyAdd := negb (bool_decide (selectedAdd (dialog p) = [])) in
  let anyRemove := negb (bool_decide (selectedRemove (dialog p) = [])) in
  if hasAdd && hasRemove && negb (Bool.eqb anyAdd anyRemove)
  then ({| hook := hook p; dialog := with_partial true (dialog p) |}, None)
  else onConfirm p (dialog p).

(** ** Events *)

Inductive Event :=
  | Open (record : option num) (pendingAdd pendingRemove : list jsstr) (tab : Tab)
  | Cancel
  | SelectTab (tab : Tab)
  | SearchAdd (search : jsstr)
  | SearchRemove (search : jsstr)
  | ToggleAdd (model : jsstr)
  | ToggleRemove (model : jsstr)
  | ToggleAllAdd
  | ToggleAllRemove
  | Confirm
  | ConfirmPartial
  | DismissPartial
  | Answer (success : bool)
  | Refreshed.

Definition is_waiting (a : Applying) : bool := match a with Waiting => true | _ => false end.
Definition is_idle (a : Applying) : bool := match a with Idle => true | _ => false end.

(** The events the page lets happen. *)
Definition event_enabled (p : Page) (e : Event) : bool :=
  let h := hook p in
  match e with
  | Open _ _ _ _ => true
  | Cancel | SelectTab _ | SearchAdd _ | SearchRemove _ => showModal h
  | ToggleAdd m => showModal h && bool_decide (m ∈ filteredAdd p)
  | ToggleRemove m => showModal h && bool_decide (m ∈ filteredRemove p)
  | ToggleAllAdd => showModal h && negb (bool_decide (filteredAdd p = []))
  | ToggleAllRemove => showModal h && negb (bool_decide (filteredRemove p = []))
  | Confirm => showModal h && is_idle (applying h)
               && negb (bool_decide (addModels h = []) && bool_decide (removeModels h = []))
  | ConfirmPartial | DismissPartial => partialConfirmOpen (dialog p)
  | Answer _ => is_waiting (applying h)
  | Refreshed => match applying h with Refreshing => true | _ => false end
  end.

Definition set_dialog (p : Page) (d : Dialog) : Page * option UpstreamRequest :=
  ({| hook := hook p; dialog := d |}, None).

Definition set_hook (p : Page) (h : Hook) : Page * option UpstreamRequest :=
  ({| hook := h; dialog := dialog p |}, None).

Definition step (p : Page) (e : Event) : Page * option UpstreamRequest :=
  let h := hook p in
  let d := dialog p in
  match e with
  | Open record add remove tab => set_hook p (openModal record add remove tab h)
  | Cancel => set_hook p (closeModal h)
  | SelectTab tab => set_dialog p (with_searches tab (searchAdd d) (searchRemove d) d)
  | SearchAdd s => set_dialog p (with_searches (activeTab d) s (searchRemove d) d)
  | SearchRemove s => set_dialog p (with_searches (activeTab d) (searchAdd d) s d)
  | ToggleAdd m => set_dialog p (with_selected (toggleModel m (selectedAdd d)) (selectedRemove d) d)
  | ToggleRemove m => set_dialog p (with_selected (selectedAdd d) (toggleModel m (selectedRemove d)) d)
  | ToggleAllAdd => set_dialog p (with_selected (toggleAllVisible (filteredAdd p) (selectedAdd d)) (selectedRemove d) d)
  | ToggleAllRemove =>
      set_dialog p (with_selected (selectedAdd d) (toggleAllVisible (filteredRemove p) (selectedRemove d)) d)
  | Confirm => handleConfirm p
  | ConfirmPartial => onConfirm p (with_partial false d)
  | DismissPartial => set_dialog p (with_partial false d)
  | Answer success => set_hook p (on_answer success h)
  | Refreshed => set_hook p (with_applying Idle h)
  end.

Inductive reachable : Page → Prop :=
  | reach_first : reachable first_page
  | reach_step p e : reachable p → event_enabled p e = true → reachable (fst (step p e)).

(** The pages and requests of a run. *)
Fixpoint run (p : Page) (es : list Event) : Page * list UpstreamRequest :=
  match es with
  | [] => (p, [])
  | e :: es' =>
      let '(p', r) := step p e in
      let '(p'', rs) := run p' es' in
      (p'', match r with Some r => r :: rs | None => rs end)
  end.
End page.
