(* ===== verification/ChannelUpstreamSpec.v ===== *)
(** * What the dialog of upstream updates applies

    [applied_request] is about every request of a run of the page,
    [saved_meta] about the models a saved channel still announces. *)

From Stdlib Require Import ZArith.
From S2P Require Import Prelude JsString JsNumber JsNumberFacts JsCollections JsValue Json JsonFacts JsonData ModelMapping ChannelForm ChannelFormSpec ChannelFormSave ChannelUpstream.

(** ** Lists of names *)

(** Distinct names without surrounding blanks. *)
Definition names (l : list jsstr) : Prop := NoDup l ∧ Forall model_name l.

Lemma names_normalize l : names (normalize_names l).
Proof.
  split; [apply NoDup_uniq|]. apply Forall_forall. intros m. unfold normalize_names.
  rewrite elem_of_uniq, elem_of_filterb, list_elem_of_fmap, truthy_str_true.
  intros [(x & -> & _) Hm]. split; [done | apply trim_trimmed].
Qed.

Lemma normalize_names_id l : names l → normalize_names l = l.
Proof. intros [Hnd Hl]. unfold normalize_names. rewrite filter_map_trim by done. by apply uniq_id. Qed.

Lemma names_nil : names [].
Proof. split; constructor. Qed.

Lemma names_filter f l : names l → names (List.filter f l).
Proof.
  intros [Hnd Hl]. split.
  - by apply NoDup_filterb.
  - rewrite Forall_forall in *. intros m [Hm _]%elem_of_filterb. by apply Hl.
Qed.

Lemma names_add m l : model_name m → names l → names (set_add m l).
Proof.
  intros Hm [Hnd Hl]. unfold set_add. case_bool_decide as Hin; [by split|]. split.
  - apply NoDup_app. split_and!; [done | | apply NoDup_singleton].
    intros x Hx ->%list_elem_of_singleton. done.
  - apply Forall_app. split; [done | by constructor].
Qed.

Lemma names_delete m l : names l → names (set_delete m l).
Proof. apply names_filter. Qed.

Lemma names_toggle m l : model_name m → names l → names (toggleModel m l).
Proof. intros. unfold toggleModel. case_bool_decide; [by apply names_delete | by apply names_add]. Qed.

Lemma names_toggle_all ms l : names ms → names l → names (toggleAllVisible ms l).
Proof.
  intros [_ Hms] Hl. unfold toggleAllVisible. destruct (forallb _ ms).
  - clear Hms. revert l Hl; induction ms as [|m ms IH]; intros l Hl; [done|]. by apply IH, names_delete.
  - revert l Hl; induction Hms as [|m ms Hm _ IH]; intros l Hl; [done|]. by apply IH, names_add.
Qed.

(** ** The page *)

Section page.
Context {lower_case : LowerCase}.

(** What holds of the page between events. *)
Record page_ok (p : Page) : Prop := {
  ok_add : names (addModels (hook p));
  ok_remove : names (removeModels (hook p));
  ok_open : showModal (hook p) = true →
    (∃ i, channel (hook p) = Some i ∧ num_truthy i = true)
    ∧ (addModels (hook p) ≠ [] ∨ removeModels (hook p) ≠ []);
  ok_closed : showModal (hook p) = false → hook p = closeModal (hook p);
  ok_selected_add : names (selectedAdd (dialog p));
  ok_selected_remove : names (selectedRemove (dialog p))
}.

(** A hook that keeps its part of the page in order. *)
Definition hook_ok (h : Hook) : Prop :=
  names (addModels h) ∧ names (removeModels h)
  ∧ (showModal h = true → (∃ i, channel h = Some i ∧ num_truthy i = true)
                          ∧ (addModels h ≠ [] ∨ removeModels h ≠ []))
  ∧ (showModal h = false → h = closeModal h).

Lemma page_ok_parts p :
  page_ok p ↔ hook_ok (hook p) ∧ names (selectedAdd (dialog p)) ∧ names (selectedRemove (dialog p)).
Proof.
  split; [by intros []; split_and! | by intros ((? & ? & ? & ?) & ? & ?)].
Qed.

Lemma hook_ok_close h : hook_ok (closeModal h).
Proof. split_and!; try apply names_nil; done. Qed.

Lemma hook_ok_applying a h : hook_ok h → hook_ok (with_applying a h).
Proof.
  intros (? & ? & ? & Hc). split_and!; try done. cbn [showModal with_applying]. intros Hs.
  by rewrite (Hc Hs).
Qed.

Lemma hook_ok_open record add remove tab h : hook_ok h → hook_ok (openModal record add remove tab h).
Proof.
  intros Hh. unfold openModal. cbv zeta. destruct record as [i|]; [|done].
  destruct (negb (num_truthy i)) eqn:Ei; [done|]. cbn [orb].
  destruct (bool_decide _ && bool_decide _) eqn:E; [done|].
  split_and!; cbn [addModels removeModels showModal channel]; try apply names_normalize; [|done]. intros _. split.
  - exists i. split; [done|]. by apply negb_false_iff.
  - apply andb_false_iff in E as [E|E]; apply bool_decide_eq_false in E; auto.
Qed.

Lemma hook_ok_apply a r h : hook_ok h → hook_ok (fst (applyUpdates a r h)).
Proof.
  intros Hh. unfold applyUpdates. destruct (applying h); [|done..].
  destruct (channel h) as [i|]; [|apply hook_ok_close].
  destruct (num_truthy i); [by apply hook_ok_applying | apply hook_ok_close].
Qed.

Lemma page_ok_confirm p d :
  page_ok p → selectedAdd d = selectedAdd (dialog p) → selectedRemove d = selectedRemove (dialog p) →
  page_ok (fst (onConfirm p d)).
Proof.
  rewrite !page_ok_parts. intros (Hh & Ha & Hr) Ea Er. unfold onConfirm.
  pose proof (hook_ok_apply (selectedAdd (dialog p)) (selectedRemove (dialog p)) _ Hh) as H.
  destruct (applyUpdates _ _ _) as [h r]. cbn [fst hook dialog] in *. by rewrite Ea, Er.
Qed.

Lemma filtered_names models search : names models → names (filtered models search).
Proof. apply names_filter. Qed.

Lemma filtered_name models search m : names models → m ∈ filtered models search → model_name m.
Proof. intros [_ H]%(filtered_names _ search) Hm. rewrite Forall_forall in H. by apply H. Qed.

Lemma page_ok_step p e : page_ok p → event_enabled p e = true → page_ok (fst (step p e)).
Proof.
  intros Hp He. pose proof Hp as (Hh & Ha & Hr)%page_ok_parts. pose proof Hh as (Hadd & Hremove & _).
  destruct e; cbn [step set_hook set_dialog event_enabled] in *;
    lazymatch goal with
    | |- page_ok (fst (handleConfirm _)) => idtac
    | |- page_ok (fst (onConfirm _ _)) => idtac
    | _ => apply page_ok_parts; cbn [fst hook dialog];
           refine (conj _ (conj _ _)); cbn [with_selected with_searches with_partial selectedAdd selectedRemove];
           try assumption
    end.
  - by apply hook_ok_open.
  - apply hook_ok_close.
  - apply andb_true_iff in He as [_ Hm%bool_decide_eq_true]. apply names_toggle; [|done].
    exact (filtered_name _ _ _ Hadd Hm).
  - apply andb_true_iff in He as [_ Hm%bool_decide_eq_true]. apply names_toggle; [|done].
    exact (filtered_name _ _ _ Hremove Hm).
  - apply names_toggle_all; [by apply filtered_names | done].
  - apply names_toggle_all; [by apply filtered_names | done].
  - clear He. unfold handleConfirm. cbv zeta. destruct (_ && _ && _); [|by apply page_ok_confirm].
    apply page_ok_parts. by refine (conj _ (conj _ _)).
  - by apply page_ok_confirm.
  - unfold on_answer. destruct success; [apply hook_ok_applying, hook_ok_close | by apply hook_ok_applying].
  - by apply hook_ok_applying.
Qed.

Lemma reachable_ok p : reachable p → page_ok p.
Proof.
  induction 1 as [|p e _ IH He]; [|by apply page_ok_step].
  apply page_ok_parts. refine (conj _ (conj _ _)); [|apply names_nil..].
  split_and!; try apply names_nil; done.
Qed.

(** Requests come from [applyUpdates] with what is selected. *)
Lemma sent_by p e r :
  snd (step p e) = Some r →
  snd (applyUpdates (selectedAdd (dialog p)) (selectedRemove (dialog p)) (hook p)) = Some r.
Proof.
  assert (∀ d, snd (onConfirm p d)
          = snd (applyUpdates (selectedAdd (dialog p)) (selectedRemove (dialog p)) (hook p))) as H.
  { intros d. unfold onConfirm. by destruct (applyUpdates _ _ _). }
  destruct e; cbn [step set_hook set_dialog snd]; try done; [|by rewrite H].
  unfold handleConfirm. cbv zeta. destruct (_ && _ && _); [done|]. by rewrite H.
Qed.

Lemma apply_spec p r :
  page_ok p → snd (applyUpdates (selectedAdd (dialog p)) (selectedRemove (dialog p)) (hook p)) = Some r →
  showModal (hook p) = true ∧ channel (hook p) = Some (id r) ∧ applying (hook p) = Idle
  ∧ NoDup (add_models r) ∧ NoDup (remove_models r)
  ∧ Forall model_name (add_models r ++ remove_models r)
  ∧ (∀ m, m ∈ addModels (hook p) → (m ∈ add_models r ↔ m ∉ ignore_models r))
  ∧ (∀ m, m ∈ ignore_models r ↔ m ∈ addModels (hook p) ∧ m ∉ selectedAdd (dialog p))
  ∧ add_models r = selectedAdd (dialog p) ∧ remove_models r = selectedRemove (dialog p).
Proof.
  intros [_ _ _ Hclosed Ha Hr]. unfold applyUpdates. destruct (applying (hook p)) eqn:Ei; [|done..].
  destruct (channel (hook p)) as [i|] eqn:Ec; [|done].
  destruct (num_truthy i); [|done]. cbv zeta. intros [= <-]. cbn [id add_models ignore_models remove_models].
  rewrite !normalize_names_id by done. pose proof Ha as [Hna Hfa]. pose proof Hr as [Hnr Hfr].
  rewrite uniq_id by done. split_and!; try done.
  - destruct (showModal (hook p)); [done|]. specialize (Hclosed eq_refl). rewrite Hclosed in Ec. done.
  - by apply Forall_app.
  - intros m Hm. rewrite elem_of_filterb, negb_true_iff, bool_decide_eq_false. split; [tauto|].
    intros Hn. destruct (decide (m ∈ selectedAdd (dialog p))); [done|]. tauto.
  - intros m. by rewrite elem_of_filterb, negb_true_iff, bool_decide_eq_false.
Qed.

(** C13: Requests of the dialog.  Whatever the user did before, and whatever
    the answers were, a request of the dialog goes to the channel it shows and
    is made while no other is under way; its lists hold distinct, trimmed names; and
    each model the dialog offers to add is either asked for or ignored,
    nothing else being ignored. *)
Theorem applied_request (p : Page) (e : Event) (r : UpstreamRequest)
    (Hp : reachable p) (He : event_enabled p e = true) (Hr : snd (step p e) = Some r) :
  showModal (hook p) = true ∧ channel (hook p) = Some (id r) ∧ applying (hook p) = Idle
  ∧ NoDup (add_models r) ∧ NoDup (remove_models r)
  ∧ Forall model_name (add_models r ++ remove_models r)
  ∧ (∀ m, m ∈ addModels (hook p) → (m ∈ add_models r ↔ m ∉ ignore_models r))
  ∧ (∀ m, m ∈ ignore_models r ↔ m ∈ addModels (hook p) ∧ m ∉ selectedAdd (dialog p))
  ∧ add_models r = selectedAdd (dialog p) ∧ remove_models r = selectedRemove (dialog p).
Proof.
  pose proof (reachable_ok p Hp) as Hok. apply sent_by in Hr. by apply apply_spec.
Qed.
End page.

(** ** Runs *)

Definition first_channel : num := num_of_Z 1.
Definition second_channel : num := num_of_Z 2.

(** The dialog opens with nothing selected and on the tab of new models,
    although it is given the models to select and the tab to show. *)
Lemma nothing_preselected :
  let p := fst (run (lower_case := ascii_case) first_page
                  [Open (Some first_channel) [js "a"] [js "b"] RemoveTab]) in
  addModels (hook p) = [js "a"] ∧ selectedAdd (dialog p) = [] ∧ selectedRemove (dialog p) = []
  ∧ preferredTab (hook p) = RemoveTab ∧ activeTab (dialog p) = AddTab.
Proof. vm_compute. repeat split. Qed.

(** What was selected for one channel is sent to the next. *)
Lemma selection_outlives_channel :
  snd (run (lower_case := ascii_case) first_page
         [Open (Some first_channel) [js "a"] [] AddTab; ToggleAdd (js "a"); Cancel;
          Open (Some second_channel) [js "b"] [] AddTab; Confirm])
  = [{| id := second_channel; add_models := [js "a"]; ignore_models := [js "b"]; remove_models := [] |}].
Proof. vm_compute. reflexivity. Qed.

(** The answer to a request closes the dialog that was opened meanwhile for
    another channel. *)
Lemma answer_closes_other_dialog :
  let es := [Open (Some first_channel) [js "a"] [] AddTab; Confirm; Cancel;
             Open (Some second_channel) [js "b"] [] AddTab] in
  showModal (hook (fst (run (lower_case := ascii_case) first_page es))) = true
  ∧ showModal (hook (fst (run (lower_case := ascii_case) first_page (es ++ [Answer true])))) = false.
Proof. vm_compute. by split. Qed.

(** A page on which one of two offered models is selected. *)
Definition sample_page : Page :=
  fst (run (lower_case := ascii_case) first_page
         [Open (Some first_channel) [js " a"; js "b"; js "a"] [] AddTab; ToggleAdd (js "b")]).

Lemma events_reachable {lower_case : LowerCase} p es :
  reachable p → (fix ok p es := match es with
                  | [] => true
                  | e :: es => event_enabled p e && ok (fst (step p e)) es
                  end) p es = true →
  reachable (fst (run p es)).
Proof.
  revert p; induction es as [|e es IH]; intros p Hp; [done|]. cbn [run]. intros [He Hes]%andb_true_iff.
  pose proof (IH _ (reach_step p e Hp He) Hes) as H. destruct (step p e) as [p' r]. cbn [fst] in H.
  by destruct (run p' es).
Qed.

Lemma sample_reachable : reachable (lower_case := ascii_case) sample_page.
Proof.
  apply (events_reachable (lower_case := ascii_case)); [apply (reach_first (lower_case := ascii_case))|].
  vm_compute. reflexivity.
Qed.

Definition sample_request : UpstreamRequest :=
  {| id := first_channel; add_models := [js "b"]; ignore_models := [js "a"]; remove_models := [] |}.

Lemma applied_request_witness :
  event_enabled (lower_case := ascii_case) sample_page Confirm = true
  ∧ (showModal (hook sample_page) = true ∧ channel (hook sample_page) = Some (id sample_request)
     ∧ applying (hook sample_page) = Idle
     ∧ NoDup (add_models sample_request) ∧ NoDup (remove_models sample_request)
     ∧ Forall model_name (add_models sample_request ++ remove_models sample_request)
     ∧ (∀ m, m ∈ addModels (hook sample_page) → (m ∈ add_models sample_request ↔ m ∉ ignore_models sample_request))
     ∧ (∀ m, m ∈ ignore_models sample_request
             ↔ m ∈ addModels (hook sample_page) ∧ m ∉ selectedAdd (dialog sample_page))
     ∧ add_models sample_request = selectedAdd (dialog sample_page)
     ∧ remove_models sample_request = selectedRemove (dialog sample_page)).
Proof.
  split; [vm_compute; reflexivity|].
  apply (applied_request (lower_case := ascii_case) sample_page Confirm sample_request sample_reachable);
    vm_compute; reflexivity.
Defined.

(** ** The announced models of a saved channel *)

Lemma read_detected f ps :
  settings_ok ps →
  model_list (ChannelVideo.prop (kept_props (write_settings f ps))
                (js "upstream_model_update_last_detected_models"))
  = if fetchable f && (negb (is_array (ChannelVideo.prop ps (js "upstream_model_update_last_detected_models")))
                       || negb (check_enabled f))
    then Ok [] else model_list (ChannelVideo.prop ps (js "upstream_model_update_last_detected_models")).
Proof.
  intros Hps. rewrite (read_at f ps Hps 15 _ _ eq_refl).
  destruct (fetchable f && _); [done|]. by rewrite read_stored.
Qed.

Lemma read_removed f ps :
  settings_ok ps →
  ChannelVideo.prop (kept_props (write_settings f ps)) (js "upstream_model_update_last_removed_models")
  = ChannelVideo.prop ps (js "upstream_model_update_last_removed_models").
Proof.
  intros Hps. unfold ChannelVideo.prop at 1.
  rewrite get_kept by (apply NoDup_write_settings, settings_ok_nodup, Hps).
  rewrite mget_write_settings.
  assert (mget (js "upstream_model_update_last_removed_models") (managed f ps) = None) as ->; [|by apply read_stored].
  apply mget_None. apply (bool_decide_eq_true_1 (_ ∉ managed_names)). vm_compute. reflexivity.
Qed.

(** C17: What a saved channel announces in the table.  For a type whose models
    can be fetched the check is announced as the form says, and the models found to be
    new are kept when the check is on and dropped when it is off; for another type the
    check stays as it was stored.  The models found to be gone stay in any
    case. *)
Theorem saved_meta (f : ChannelFormValues) (ps : list (jsstr * val))
    (He : existing_settings f = VObj ps) (Hf : special_typed f) (Hps : settings_ok ps) :
  let detected := ChannelVideo.prop ps (js "upstream_model_update_last_detected_models") in
  ∃ text, buildSettingsJSON f = Ok text
    ∧ parseUpstreamUpdateMeta (VStr text)
      = (add ← (if fetchable f && (negb (is_array detected) || negb (check_enabled f))
                then Ok [] else model_list detected);
         remove ← model_list (ChannelVideo.prop ps (js "upstream_model_update_last_removed_models"));
         Ok {| enabled := if fetchable f then check_enabled f
                          else stored_flag ps (js "upstream_model_update_check_enabled");
               pendingAddModels := add; pendingRemoveModels := remove |}).
Proof.
  cbv zeta. destruct (settings_text f ps He Hf Hps) as (text & Hb & _ & Hp). exists text. split; [done|].
  unfold parseUpstreamUpdateMeta, parsed_settings. rewrite Hp. cbn [try_catch].
  rewrite (read_detected f ps Hps), (read_removed f ps Hps).
  rewrite (read_upstream_flag f ps Hps 12 _ (check_enabled f)) by reflexivity.
  by destruct (fetchable f && _).
Qed.

Lemma saved_meta_witness :
  ∃ text, buildSettingsJSON sample_saved = Ok text
    ∧ parseUpstreamUpdateMeta (VStr text)
      = Ok {| enabled := true; pendingAddModels := []; pendingRemoveModels := [] |}.
Proof.
  destruct (saved_meta sample_saved sample_settings) as (text & Hb & Hm);
    [vm_compute; reflexivity | apply sample_typed | apply sample_settings_ok |].
  exists text. split; [exact Hb|]. etransitivity; [exact Hm|]. vm_compute. reflexivity.
Defined.
